(* ===== verification/_CoqProject ===== *)
-Q . S2P
Prelude.v
GoText.v
GoTime.v
GoPath.v
Json.v
JsonProofs.v
Service.v
ServiceProofs.v
Filo.v
AuditLog.v
AuditProofs.v
Runtime.v
DockerClient.v
DockerProofs.v
Supervisor.v
Schedule.v
Plan.v
TraceRuntime.v
Simulation.v
ScheduleProofs.v
SlotProofs.v
SupervisorProofs.v
RunProofs.v
PlanProofs.v
Images.v
Protocol.v
ProtocolProofs.v
Tree.v
Base64.v
DeclarationFiles.v
DeclarationProofs.v
TreeProofs.v
LogDatabase.v
LogProofs.v
MetricStore.v
Counters.v
Sampler.v
Volumes.v
Host.v
ServiceHandlers.v
ImageHandlers.v
FileHandlers.v
Server.v
Deadlines.v
Client.v
ServerSimulation.v
HostSamples.v
ClientProofs.v
Connection.v
ServerProofs.v
FileProofs.v
CommandLine.v
Fleet.v
Commands.v
Deploy.v
CommandProofs.v
RefusalProofs.v
Install.v
Caddyfile.v
HostctlMain.v
Panel.v
Chart.v
PanelView.v
Detail.v
Page.v
Routes.v
PanelProofs.v
ClickProofs.v
Loops.v
Editor.v
EditorProofs.v
Works.v
WorksProofs.v
Config.v
StartUp.v
Listen.v
Relay.v
Daemon.v
DaemonProofs.v
Ledger.v
