(* ===== verification/Prelude.v ===== *)
(** * hostd: a verification development — root file

    hostd keeps one machine running the services its declarations describe.  A
    daemon holds the declarations, compares them with the containers of a
    runtime (Docker or Podman), and converges; operators ask it for plans,
    applies, logs, metrics, images and files over a socket, from a command line
    or from a window that watches a fleet of machines (hostctl).  This library
    models the logic of both as executable definitions and proves what makes it
    correct.

    ** Conventions

    A Go string is a [string] of bytes; an int or int64 a [Z], wrapped where the
    source can overflow; a float64 a [spec_float] (binary64, no axioms); a map
    a [gmap], and where the code ranges over one, the order is the parameter
    [MapOrder] (some permutation, unknown).  A method with a mutable receiver is
    a computation [ST S X] on the receiver's state; one that can fail answers
    [Res X], with the error kept as an unrendered message [Msg].  [x ←! m; k]
    returns early on an error, as [if err != nil] does.  [moves R m] says that [m]
    takes a state only to states [R] relates to it; most safety theorems are
    built from such facts, one per operation.

    ** The parts and their files

    - Go's library: GoText.v (strings, strconv, UTF-8), GoTime.v (float64, time
      and durations, dates read and printed), GoPath.v (path, filepath, net/url),
      Json.v and JsonProofs.v (encoding/json: what is printed is read
      back), Base64.v, Volumes.v (os.Root).
    - src/filoconf: Filo.v.  The filo interpreter is a third-party module: two
      type classes, with the round trip of decode after encode as a law.
    - src/service/service.go: Service.v ([normalize], [parsePort], [parseMount]);
      src/service/tree.go and LoadDir: Tree.v.  Proofs: ServiceProofs.v,
      TreeProofs.v.
    - src/state/state.go: AuditLog.v ([Store] in memory, [Disk] for its files).
      Proofs: AuditProofs.v.
    - src/docker/docker.go: Runtime.v, its data and, as the class [Runtime], the
      operations of its client; DockerClient.v, the client itself over one HTTP
      exchange (the class [Transport]) as an instance of it, with DockerProofs.v.
      TraceRuntime.v is the instance the theorems about the supervisor are proved
      over: its state is the list of calls made, its answers an arbitrary
      function of that list ([Oracle]).  Simulation.v and ServerSimulation.v show
      that every implementation behaves as one of those oracles, so that what
      holds for all oracles holds for every runtime, failures included.
    - src/supervisor: Supervisor.v (supervisor.go, container.go), Schedule.v
      (schedule.go, backup.go and the round [observe]), Plan.v (plan.go,
      commands.go).  [Sup] is the receiver and the world behind it.  Proofs:
      ScheduleProofs.v, SlotProofs.v, SupervisorProofs.v, RunProofs.v (limits,
      waiters and names), PlanProofs.v.
    - src/logs: LogDatabase.v, LogProofs.v.  src/metrics/store.go: MetricStore.v.
      A table is a finite map from its primary key and each statement what SQL
      says it does.  src/metrics/proc.go and read_linux.go: Counters.v;
      src/metrics/metrics.go: Sampler.v.
    - src/api/protocol.go: Protocol.v (lines and chunks), ProtocolProofs.v, and
      the messages in Host.v.
    - src/api/server.go and its handlers: Host.v (the server and everything
      behind it, as the record [Host]), ServiceHandlers.v (changes to services,
      job.go, declaration.go), ImageHandlers.v and Images.v (images, versions.go),
      FileHandlers.v (files.go), DeclarationFiles.v (writing a declaration),
      Server.v ([dispatch], [follow], [handle], backup.go), Listen.v (the socket,
      its permissions and the admission of clients), Connection.v (the loop of a
      connection and the following of a log), Deadlines.v (how long each may
      take).  Proofs: ServerProofs.v, FileProofs.v, DeclarationProofs.v.
      HostSamples.v gives every parameter a concrete value for the examples.
    - src/api/client.go, local.go: Client.v, ClientProofs.v.  A connection is the
      bytes already there and the bytes sent.  Relay.v: what `hostd -stdio` does
      at the far end of ssh, as the steps of its two copies, and the flags of
      hostd (main of src/cmd/hostd/main.go).
    - src/config, src/version, src/daemon: Config.v.  src/cmd/hostd/main.go:
      StartUp.v ([run], up to a daemon that listens) and Daemon.v (everything it
      does from then on, as the steps of one machine, and what -debug reports),
      with DaemonProofs.v.  Ledger.v: what the audit promises whoever reads it, as
      an abstract machine, and the refinement of it by every life of the daemon.
    - src/cmd/hostctl, the command line: CommandLine.v (main.go: the options, the
      choice of machines, exit statuses), HostctlMain.v (main.go: run, with its
      flags, their values and its help, from the arguments to the status),
      Fleet.v (fleet.go), Commands.v (commands.go, job.go, files.go, versions.go,
      metrics.go, image.go), Deploy.v (deploy.go, push.go, the dispatch of commands), Install.v
      (install.go, selftest.go, rollback.go), Caddyfile.v.  Proofs:
      CommandProofs.v, RefusalProofs.v, Install.v.
    - src/cmd/hostctl, the window: Panel.v (the picture of the fleet, the view
      and the clicks: snapshot.go, gui.go, actions.go), Chart.v (chart.go),
      PanelView.v, Detail.v and Page.v (panelhttp.go, detail.go: what is shown
      and sent), Routes.v (panelhttp.go, gui.go: the URLs of the page, who answers
      each and what is pushed), Loops.v (one loop per machine), Editor.v (the tree
      of declarations as the window writes it), Works.v (what a button does).
      Proofs: PanelProofs.v, ClickProofs.v, Page.v, Loops.v, EditorProofs.v,
      WorksProofs.v.

    ** How they meet

    [handle] reads a line with Protocol.v, decodes it with Filo.v, and hands the
    request to [dispatch], which works on a [Host].  A handler reaches a component
    through a lens ([on_sup], [on_world], [on_dir], [on_disk]), so that what it
    leaves alone is evident.  The audit store is behind the class [Auditor], as
    it is behind an interface in the code; [audit_store] shows that AuditLog.v
    keeps its laws.  The supervisor calls the runtime through [Runtime] and the
    log store through [LogStore].  In Daemon.v rounds, looks at the clock, events,
    readers, waiters, the sampler, the writer of the log and the connections are
    steps of one state, in any order.  A command of hostctl works on a [Desk] (a
    connection, a screen, the files it writes) and asks with Client.v, whose
    conversation with [handle] ClientProofs.v and RefusalProofs.v follow end to
    end.  The window's works are the same commands over a connection of their
    own, with the log of the window in place of the screen.

    ** What the theorems show

    - The daemon: it comes up whatever it cannot read, and over every
      interleaving of what it does nothing it declares or holds changes without
      an entry of the audit; its socket is its group's alone; over all its lives
      the audit is a ledger that only grows.
    - Connections: every one ends, and with one outcome; exactly when a deadline
      cuts it; relayed through ssh it is the one on the socket.
    - Requests: an apply that was not allowed to destroy never takes a service
      down; a change of desired state is checked against the generation and
      audited; a request that asks changes nothing.
    - Supervisor: which calls a drift round may make, over any runtime, and that
      it acts on every service that is missing; plans are exact and an apply
      touches only what its plan names; a job runs at most once per slot and
      under the ceiling.
    - Images: a prune removes exactly what its policy says.
    - Generation and audit: a gapless chain, bounded on disk, restored on
      restart; of two changes that saw one generation the second is refused.
    - Declarations: what normalize accepts is well formed and a fixed point;
      what is sent is what is on disk; the hash covers every artifact.
    - Protocol and client: messages and chunks are read back whole and no
      ceiling is passed; a request over the wire is the request dispatched here;
      a file sent and fetched is the same file.
    - Logs and metrics: no line is lost unnoticed, searches and windows are exact,
      sweeps bound the tables, a table of an older hostd keeps its rows, a follower
      reads the log once and in order, a rate stands on two readings.
    - Files: half an upload is never readable; a deletion removes one file.
    - The command line: it is carried out on the machines it names and on no
      other; the status a program reads and the error a person reads
      agree; status 6 means nothing changed; asking many machines ends with what
      asking one after another prints; an install is told as a success only for
      the daemon it sent with every service as before.
    - The window: no machine and no line twice over any history; a deletion takes
      two clicks; one push brings the page up to date; one loop per machine; a
      save is atomic and writes the one file it is for; a work tells how it
      ended, and a deploy by a button is the deploy of the command line.

    A theorem without a claim number that ends in a refutation shows where the
    code does less than it says; each such theorem says so in its comment.

    ** Fuel and bounds

    A loop over bytes (lines, chunks, frames, JSON, base64, a connection) runs on
    fuel equal to the length of its input and consumes at least one byte per
    turn, so it never runs out: the round-trip theorems state the result, not
    "if it returns".  For the loop of a connection Connection.v has the relation
    without fuel, and shows that it ends and that any larger fuel gives the same.  The flags of a command line run on the number of its
    arguments; the self-test of an install on the number of looks its deadline
    leaves room for (22); a temporary name on the 10000 tries of os.CreateTemp;
    asking a fleet is a step relation, shown to end in at most three steps for
    each machine.  Every other recursion is structural.  The ceilings (line,
    upload, audit rotation, rows, history, clients, lines of the window) are the
    constants of the source.

    ** What is not modelled

    Goroutines are the order in which their steps are taken; where two steps of
    different callers can interleave (Record, Append, awaiting a run, an answer
    of the window, a round between its listing and its acts) they are separate
    definitions, and elsewhere a handler or a round is one step: the model says
    nothing of what the race detector would.  A failed write to a connection ends
    it and is told to nobody, and is left out.

    Behind parameters, because their code is not in the repository: the
    filo interpreter, SQLite's full-text matching, its average of floats and its
    order of ties, SHA-256, html/template, text/tabwriter and the printing of JSON
    values, net/http's choice of a route, the unpacking of the archive a hostctl
    carries, the opening of a socket and the starting of ssh, the identity of the
    peer of a socket, the files of /proc, os.Root's promise about symbolic
    links inside a volume.

    Not at all, because there is no logic of the program in it: the creation of
    the window and of its menu (src/cmd/hostctl/menu.go, a table of titles and
    of calls of the page's own scripts), the drawings of icons (icons.go), the
    shell scripts an install and a rollback send (their text runs on the machine
    and not here), the schema of the tables (the columns are the records'
    fields), the closing of bodies and files. *)
From stdpp Require Export base list strings gmap sorting fin_maps option relations.
From Stdlib Require Export ZArith Lia.

Create HintDb hostd.
Create Rewrite HintDb hostd_rw.

Declare Scope hostd_scope.
Delimit Scope hostd_scope with hostd.

#[export] Set Warnings "-register-all,-clear-no-such-hyp".

(** ** Go's [error] values and unrendered messages

    A message is kept as the call to fmt.Sprintf that makes it: the format
    and its operands.  Two messages that differ here may render to one text,
    never the reverse. *)
Inductive Arg :=
  | AStr (s : string)
  | AInt (z : Z)
  | AFmt (format : string) (args : list Arg).

Definition Msg : Type := string * list Arg.
Definition AMsg (m : Msg) : Arg := AFmt m.1 m.2.
Definition Lit (s : string) : Msg := ("%s", [AStr s]).

(** The decoding of operands is by nested recursion, so its decision
    procedure is written by hand. *)
Fixpoint arg_eqb (a b : Arg) {struct a} : bool :=
  let fix args_eqb (l k : list Arg) {struct l} : bool :=
    match l, k with
    | [], [] => true
    | x :: l', y :: k' => arg_eqb x y && args_eqb l' k'
    | _, _ => false
    end in
  match a, b with
  | AStr s, AStr t => String.eqb s t
  | AInt x, AInt y => Z.eqb x y
  | AFmt f l, AFmt g k => String.eqb f g && args_eqb l k
  | _, _ => false
  end.

Lemma arg_eqb_spec : forall a b : Arg, arg_eqb a b = true <-> a = b.
Proof.
  fix IH 1. intros a b.
  destruct a as [s|x|f l]; destruct b as [t|y|g k]; simpl; try (split; congruence).
  - rewrite String.eqb_eq. split; congruence.
  - rewrite Z.eqb_eq. split; congruence.
  - rewrite andb_true_iff, String.eqb_eq.
    assert (Hl : (fix args_eqb (l k : list Arg) {struct l} : bool :=
              match l, k with
              | [], [] => true
              | x :: l', y :: k' => arg_eqb x y && args_eqb l' k'
              | _, _ => false
              end) l k = true <-> l = k).
    { revert k. induction l as [|x l IHl]; intros [|y k]; try (split; congruence).
      rewrite andb_true_iff, IH, IHl. split; [intros [-> ->]|intros [= -> ->]]; auto. }
    rewrite Hl. split; [intros [-> ->]|intros [= -> ->]]; auto.
Qed.

#[export] Instance Arg_eq_dec : EqDecision Arg.
Proof.
  intros a b. destruct (arg_eqb a b) eqn:E.
  - left. by apply arg_eqb_spec.
  - right. intros H%arg_eqb_spec. congruence.
Defined.

#[export] Instance Msg_eq_dec : EqDecision Msg := prod_eq_dec.

(** An error is what the code can tell apart with errors.Is and errors.AsType,
    and a text for the rest.  [EWrap] is fmt.Errorf with %w. *)
Inductive error :=
  | ErrUnknownService (Name : string)
  | ErrNotAJob (Name : string)
  | ErrRunRefused (Reason : Msg)
  | ErrNoBackup (Name : string)
  | ErrConflict (Expected Current : Z)
  | ErrNoRuntime
  | ErrNotFound
  | ErrInvalid
  | ErrNotExist
  | ErrUnsupported
  | ErrCanceled
  | ErrApi (Code Message : string)
  | EMsg (m : Msg)
  | EWrap (m : Msg) (cause : error).

#[export] Instance error_eq_dec : EqDecision error.
Proof. solve_decision. Defined.

(** errors.Is: the error itself or anything it wraps. *)
Fixpoint errors_is (e target : error) : bool :=
  bool_decide (e = target) ||
  match e with EWrap _ c => errors_is c target | _ => false end.

(** errors.AsType[T]: the outermost error of the chain that satisfies [p]. *)
Fixpoint errors_as (p : error -> bool) (e : error) : option error :=
  if p e then Some e
  else match e with EWrap _ c => errors_as p c | _ => None end.

Definition is_unknown_service (e : error) : bool :=
  match e with ErrUnknownService _ => true | _ => false end.
Definition is_not_a_job (e : error) : bool :=
  match e with ErrNotAJob _ => true | _ => false end.
Definition is_run_refused (e : error) : bool :=
  match e with ErrRunRefused _ => true | _ => false end.
Definition is_no_backup (e : error) : bool :=
  match e with ErrNoBackup _ => true | _ => false end.

Definition as_b (p : error -> bool) (e : error) : bool :=
  match errors_as p e with Some _ => true | None => false end.

(** err.Error() as an operand of a message. *)
Fixpoint error_msg (e : error) : Msg :=
  match e with
  | ErrUnknownService n => ("no service named %q is declared", [AStr n])
  | ErrNotAJob n => ("%s is a container and has no runs", [AStr n])
  | ErrRunRefused r => r
  | ErrNoBackup n => ("%s has no backup script among its files", [AStr n])
  | ErrConflict e c => ("the host is at generation %d, not %d", [AInt c; AInt e])
  | ErrNoRuntime => Lit "docker: no container runtime socket on this machine"
  | ErrNotFound => Lit "docker: no such container or image"
  | ErrInvalid => Lit "invalid service"
  | ErrNotExist => Lit "file does not exist"
  | ErrUnsupported => Lit "metrics: the kernel counters are only read on linux"
  | ErrCanceled => Lit "context canceled"
  | ErrApi c m => if String.eqb m "" then Lit c else ("%s: %s", [AStr c; AStr m])
  | EMsg m => m
  | EWrap m c => ("%w: %s", [AMsg (error_msg c); AMsg m])
  end.

(** ** Results: Go's (value, error) pairs *)
Inductive result (A : Type) :=
  | Ok (a : A)
  | Err (e : error).
Arguments Ok {A} a.
Arguments Err {A} e.

#[export] Instance result_ret : MRet result := fun A a => Ok a.
#[export] Instance result_bind : MBind result := fun A B f m =>
  match m with Ok a => f a | Err e => Err e end.

Definition is_ok {A} (r : result A) : bool :=
  match r with Ok _ => true | Err _ => false end.

(** for _, x := range xs { y, err := f(x); if err != nil return; append } *)
Fixpoint map_result {A B} (f : A -> result B) (l : list A) : result (list B) :=
  match l with
  | [] => Ok []
  | x :: l' => y ← f x; ys ← map_result f l'; Ok (y :: ys)
  end.

(** ** Stateful code: explicit state passing with Go's early returns *)
Definition ST (S A : Type) : Type := S -> A * S.

#[export] Instance ST_ret {S} : MRet (ST S) := fun A a s => (a, s).
#[export] Instance ST_bind {S} : MBind (ST S) := fun A B f m s =>
  let '(a, s') := m s in f a s'.

Definition get {S} : ST S S := fun s => (s, s).
Definition gets {S A} (f : S -> A) : ST S A := fun s => (f s, s).
Definition modify {S} (f : S -> S) : ST S unit := fun s => (tt, f s).

(** x, err := m; if err != nil { return err } *)
Definition bindE {S A B} (m : ST S (result A)) (f : A -> ST S (result B)) : ST S (result B) :=
  fun s => let '(r, s') := m s in
           match r with Ok a => f a s' | Err e => (Err e, s') end.

Notation "x ←! m ; k" := (bindE m (fun x => k))
  (at level 20, m at level 100, k at level 200, only parsing) : hostd_scope.
Notation "' p ←! m ; k" := (bindE m (fun x => match x with p => k end))
  (at level 20, p pattern, m at level 100, k at level 200, only parsing) : hostd_scope.

(** for _, x := range l { body } *)
Fixpoint for_each {S A} (l : list A) (body : A -> ST S unit) : ST S unit :=
  match l with
  | [] => mret tt
  | x :: l' => body x ;; for_each l' body
  end.

(** The same when the body may return from the enclosing function. *)
Fixpoint for_eachE {S A} (l : list A) (body : A -> ST S (result unit)) : ST S (result unit) :=
  match l with
  | [] => mret (Ok tt)
  | x :: l' => bindE (body x) (fun _ => for_eachE l' body)
  end.

Fixpoint map_ST {S A B} (l : list A) (body : A -> ST S (result B)) : ST S (result (list B)) :=
  match l with
  | [] => mret (Ok [])
  | x :: l' => bindE (body x) (fun y => bindE (map_ST l' body) (fun ys => mret (Ok (y :: ys))))
  end.

(** A filter that keeps nothing. *)
Lemma filter_none {X} (P : X -> Prop) `{forall x, Decision (P x)} l : filter P l = [] <-> Forall (fun x => ~ P x) l.
Proof.
  induction l as [|x l IH]; [by rewrite filter_nil|]. rewrite filter_cons, Forall_cons. case_decide; [|tauto].
  split; [done|tauto].
Qed.

(** One step of a computation, read off its state. *)
Lemma ST_step {S A B} (m : ST S A) (f : A -> ST S B) s : (m ≫= f) s = f (m s).1 (m s).2.
Proof. unfold mbind, ST_bind. by destruct (m s). Qed.

Lemma for_each_cons {S A} (x : A) l (body : A -> ST S unit) s :
  (for_each (x :: l) body s).2 = (for_each l body (body x s).2).2.
Proof. cbn [for_each]. by rewrite ST_step. Qed.

Lemma bindE_ok {S A B} (m : ST S (result A)) (f : A -> ST S (result B)) s b s' :
  bindE m f s = (Ok b, s') -> exists a s1, m s = (Ok a, s1) /\ f a s1 = (Ok b, s').
Proof. unfold bindE. destruct (m s) as [[a|e] s1]; [eauto|done]. Qed.

(** The step of a computation that may return early. *)
Lemma bindE_step {S A B} (m : ST S (result A)) (f : A -> ST S (result B)) s a s1 :
  m s = (Ok a, s1) -> bindE m f s = f a s1.
Proof. unfold bindE. by intros ->. Qed.
Lemma ST_step_eq {S A B} (m : ST S A) (f : A -> ST S B) s a s1 : m s = (a, s1) -> (m ≫= f) s = f a s1.
Proof. rewrite ST_step. by intros ->. Qed.

Lemma for_each_app {S A} (l k : list A) (body : A -> ST S unit) s :
  (for_each (l ++ k) body s).2 = (for_each k body (for_each l body s).2).2.
Proof.
  revert s. induction l as [|x l IH]; intros s; [done|]. cbn [app].
  by rewrite !for_each_cons, IH.
Qed.

(** An invariant of every body is one of the loop. *)
Lemma for_each_inv {S A} (I : S -> Prop) (l : list A) (body : A -> ST S unit) s :
  (forall x s, x ∈ l -> I s -> I (body x s).2) -> I s -> I (for_each l body s).2.
Proof.
  revert s. induction l as [|x l IH]; intros s Hb Hs; [done|]. rewrite for_each_cons.
  apply IH; [intros y s' Hy; apply Hb; by right|]. apply Hb; [left|done].
Qed.

(** What one body establishes and the others keep holds after the loop. *)
Lemma for_each_establishes {S A K} (key : A -> K) (R : S -> Prop) (l : list A) (body : A -> ST S unit) x s :
  NoDup (key <$> l) -> x ∈ l ->
  (forall s, R (body x s).2) -> (forall y s, y ∈ l -> key y <> key x -> R s -> R (body y s).2) ->
  R (for_each l body s).2.
Proof.
  intros Hnd Hx HR Hkeep. apply list_elem_of_split in Hx as (l1 & l2 & ->).
  rewrite for_each_app, for_each_cons.
  apply (for_each_inv R); [|apply HR]. intros y s' Hy. apply Hkeep.
  - apply elem_of_app. right. by right.
  - rewrite fmap_app, fmap_cons in Hnd. apply NoDup_app in Hnd as (_ & _ & Hnd).
    apply NoDup_cons in Hnd as [Hn _]. intros E. apply Hn. rewrite <- E. by apply list_elem_of_fmap_2.
Qed.

(** [maintains R m]: the computation keeps the property [R] of the state. *)
Section Maintains.
Context {S : Type} (R : S -> Prop).
Definition maintains {A} (m : ST S A) : Prop := forall s, R s -> R (m s).2.

Lemma maintains_ret {A} (a : A) : maintains (mret a).
Proof. by intros s. Qed.
Lemma maintains_gets {A} (f : S -> A) : maintains (gets f).
Proof. by intros s. Qed.
Lemma maintains_modify (f : S -> S) : (forall s, R s -> R (f s)) -> maintains (modify f).
Proof. intros Hf s. apply Hf. Qed.
Lemma maintains_bind {A B} (m : ST S A) (f : A -> ST S B) :
  maintains m -> (forall a, maintains (f a)) -> maintains (m ≫= f).
Proof. intros Hm Hf s Hs. rewrite ST_step. apply Hf. by apply Hm. Qed.
Lemma maintains_bindE {A B} (m : ST S (result A)) (f : A -> ST S (result B)) :
  maintains m -> (forall a, maintains (f a)) -> maintains (bindE m f).
Proof.
  intros Hm Hf s Hs. specialize (Hm s Hs). unfold bindE.
  destruct (m s) as [[a|e] s1]; [by apply Hf|done].
Qed.
Lemma maintains_for_each {A} (l : list A) body : (forall x, x ∈ l -> maintains (body x)) -> maintains (for_each l body).
Proof. intros Hb s. apply for_each_inv. intros x s' Hx. by apply Hb. Qed.
Lemma maintains_map_ST {A B} (l : list A) (body : A -> ST S (result B)) :
  (forall x, maintains (body x)) -> maintains (map_ST l body).
Proof.
  intros Hb. induction l as [|x l IH]; [apply maintains_ret|]. cbn [map_ST].
  apply maintains_bindE; [done|]. intros y. apply maintains_bindE; [done|]. intros ys. apply maintains_ret.
Qed.
End Maintains.

(** Take a computation apart, down to what it does to the state. *)
Ltac maintain :=
  repeat match goal with
  | |- maintains _ (mret _) => apply maintains_ret
  | |- maintains _ (gets _) => apply maintains_gets
  | |- maintains _ (modify _) => apply maintains_modify; intros ? ?
  | |- maintains _ (mbind _ _) => apply maintains_bind; [|intros ?]
  | |- maintains _ (bindE _ _) => apply maintains_bindE; [|intros ?]
  | |- maintains _ (for_each _ _) => apply maintains_for_each; intros ? ?
  | |- maintains _ (map_ST _ _) => apply maintains_map_ST; intros ?
  | |- maintains _ (if ?b then _ else _) => destruct b eqn:?
  | |- maintains _ (match ?x with _ => _ end) => destruct x eqn:?
  end.

(** [moves R m]: the computation takes the state to one it is related to. *)
Section Moves.
Context {S : Type} (R : S -> S -> Prop) `{!PreOrder R}.
Definition moves {A} (m : ST S A) : Prop := forall s, R s (m s).2.

Lemma moves_ret {A} (a : A) : moves (mret a).
Proof. intros s. reflexivity. Qed.
Lemma moves_gets {A} (f : S -> A) : moves (gets f).
Proof. intros s. reflexivity. Qed.
Lemma moves_bind {A B} (m : ST S A) (f : A -> ST S B) : moves m -> (forall a, moves (f a)) -> moves (m ≫= f).
Proof. intros Hm Hf s. rewrite ST_step. etransitivity; [apply Hm|apply Hf]. Qed.
Lemma moves_bindE {A B} (m : ST S (result A)) (f : A -> ST S (result B)) :
  moves m -> (forall a, moves (f a)) -> moves (bindE m f).
Proof.
  intros Hm Hf s. specialize (Hm s). unfold bindE.
  destruct (m s) as [[a|e] s1]; [etransitivity; [exact Hm|apply Hf]|exact Hm].
Qed.
Lemma moves_for_each {A} (l : list A) body : (forall x, x ∈ l -> moves (body x)) -> moves (for_each l body).
Proof.
  induction l as [|x l IH]; intros Hb; [apply moves_ret|]. cbn [for_each].
  apply moves_bind; [apply Hb; left|]. intros _. apply IH. intros y Hy. apply Hb. by right.
Qed.
Lemma moves_map_ST {A B} (l : list A) (body : A -> ST S (result B)) :
  (forall x, moves (body x)) -> moves (map_ST l body).
Proof.
  intros Hb. induction l as [|x l IH]; [apply moves_ret|]. cbn [map_ST].
  apply moves_bindE; [done|]. intros y. apply moves_bindE; [done|]. intros ys. apply moves_ret.
Qed.
End Moves.

(** Take a computation apart, down to the steps that touch the state. *)
Ltac moves_step :=
  match goal with
  | |- moves _ (mret _) => refine (moves_ret _ _)
  | |- moves _ (gets _) => refine (moves_gets _ _)
  | |- moves _ get => refine (moves_gets _ id)
  | |- moves _ (mbind _ _) => refine (moves_bind _ _ _ _ _); [|intros ?]
  | |- moves _ (bindE _ _) => refine (moves_bindE _ _ _ _ _); [|intros ?]
  | |- moves _ (for_each _ _) => refine (moves_for_each _ _ _ _); intros ? ?
  | |- moves _ (map_ST _ _) => refine (moves_map_ST _ _ _ _); intros ?
  | |- moves _ (if ?b then _ else _) => destruct b eqn:?
  | |- moves _ (match ?x with _ => _ end) => destruct x eqn:?
  end.

(** ** Tactics of the development *)

(** Split every match and conditional of the goal. *)
Ltac split_matches :=
  repeat match goal with
  | |- context [match ?x with _ => _ end] => destruct x eqn:?
  end.

Ltac split_matches_in H :=
  repeat match type of H with
  | context [match ?x with _ => _ end] => destruct x eqn:?
  end.

(** Peel the binds of a result computation known to have succeeded. *)
Ltac ok_inv H :=
  repeat match type of H with
  | mbind _ ?m = Ok _ =>
      let E := fresh "E" in
      destruct m eqn:E; simpl in H; [|discriminate H]
  | Err _ = Ok _ => discriminate H
  | Ok _ = Ok _ => injection H as H
  | (if ?b then _ else _) = Ok _ => let E := fresh "E" in destruct b eqn:E; try discriminate H
  | match ?x with _ => _ end = Ok _ => let E := fresh "E" in destruct x eqn:E; try discriminate H
  end; try discriminate H.

(** Boolean connectives to propositions, in every hypothesis. *)
Ltac bool_hyps :=
  repeat match goal with
  | H : _ && _ = true |- _ => apply andb_true_iff in H as [? ?]
  | H : _ || _ = false |- _ => apply orb_false_iff in H as [? ?]
  | H : negb _ = true |- _ => apply negb_true_iff in H
  | H : negb _ = false |- _ => apply negb_false_iff in H
  | H : bool_decide _ = true |- _ => apply bool_decide_eq_true in H
  | H : bool_decide _ = false |- _ => apply bool_decide_eq_false in H
  | H : (_ =? _)%Z = true |- _ => apply Z.eqb_eq in H
  | H : (_ =? _)%Z = false |- _ => apply Z.eqb_neq in H
  | H : (_ <? _)%Z = true |- _ => apply Z.ltb_lt in H
  | H : (_ <? _)%Z = false |- _ => apply Z.ltb_ge in H
  | H : (_ <=? _)%Z = true |- _ => apply Z.leb_le in H
  | H : (_ <=? _)%Z = false |- _ => apply Z.leb_gt in H
  | H : String.eqb _ _ = true |- _ => apply String.eqb_eq in H
  | H : String.eqb _ _ = false |- _ => apply String.eqb_neq in H
  end.

(** ** Generic facts on lists *)

(** The last [n] elements: s[len(s)-n:]. *)
Definition last_n {A} (n : nat) (l : list A) : list A := drop (length l - n) l.

Section Lists.
Context {A : Type}.
Implicit Types l k : list A.

Lemma length_last_n n l : length (last_n n l) = Nat.min n (length l).
Proof. unfold last_n. rewrite length_drop. lia. Qed.

Lemma last_n_all n l : (length l <= n)%nat -> last_n n l = l.
Proof. intros H. unfold last_n. replace (length l - n) with 0 by lia. by rewrite drop_0. Qed.

Lemma drop_snoc n l (x : A) : n <= length l -> drop n l ++ [x] = drop n (l ++ [x]).
Proof. intros H. rewrite drop_app. by replace (n - length l) with 0 by lia. Qed.

(** Keeping a window of the last [n] as elements arrive is keeping the last
    [n] of all that arrived. *)
Lemma last_n_snoc n l (x : A) : last_n n (last_n n l ++ [x]) = last_n n (l ++ [x]).
Proof.
  unfold last_n at 2. rewrite drop_snoc by lia. unfold last_n.
  rewrite drop_drop, length_drop, !length_app. cbn. f_equal. lia.
Qed.

Lemma last_n_suffix n l : exists j, l = j ++ last_n n l.
Proof. exists (take (length l - n) l). unfold last_n. by rewrite take_drop. Qed.

Lemma filter_length_le (P : A -> Prop) `{forall x, Decision (P x)} l :
  length (filter P l) <= length l.
Proof. induction l as [|x l IH]; [done|]. rewrite filter_cons. case_decide; cbn; lia. Qed.

Lemma filter_fmap {B} (P : B -> Prop) `{forall y, Decision (P y)} (f : A -> B) l :
  filter P (f <$> l) = f <$> filter (fun x => P (f x)) l.
Proof.
  induction l as [|x l IH]; [done|]. rewrite fmap_cons, !filter_cons.
  case_decide; [rewrite fmap_cons|]; by rewrite IH.
Qed.

Lemma elem_of_concat (x : A) (ls : list (list A)) : x ∈ concat ls <-> exists l, l ∈ ls /\ x ∈ l.
Proof.
  induction ls as [|k ls IH]; cbn.
  - split; [intros H; by apply elem_of_nil in H|]. intros (l & H & _). by apply elem_of_nil in H.
  - rewrite elem_of_app, IH. setoid_rewrite elem_of_cons. naive_solver.
Qed.

Lemma In_elem_of (x : A) l : In x l <-> x ∈ l.
Proof. symmetry. apply list_elem_of_In. Qed.
End Lists.

#[export] Hint Rewrite @length_last_n @length_app @length_drop : hostd_rw.

(** ** Reachability, for components given by a step relation *)
Section Reachability.
Context {S : Type} (step : S -> S -> Prop) (Inv : S -> Prop).
Lemma rtc_invariant s s' :
  (forall a b, Inv a -> step a b -> Inv b) -> Inv s -> rtc step s s' -> Inv s'.
Proof. intros Hpres Hs Hr. induction Hr; eauto. Qed.
End Reachability.
