(* ===== verification/GoText.v ===== *)
(** * GoText: the functions of Go's strings and strconv that the program uses

    A Go string is a sequence of bytes: here a [string], one [ascii] per byte.
    Functions that Go defines on runes are written on the UTF-8 encodings. *)
From S2P Require Import Prelude.
From Stdlib Require Import Ascii.
Open Scope string_scope.
Open Scope list_scope.
Open Scope Z_scope.

Definition code (c : ascii) : Z := Z.of_nat (nat_of_ascii c).
Definition chr (n : nat) : ascii := ascii_of_nat n.
Definition byte1 (n : nat) : string := String (chr n) "".

Definition newline : ascii := chr 10.
Definition carriage : ascii := chr 13.

(** len(s) *)
Definition len (s : string) : Z := Z.of_nat (String.length s).

(** ** Searching *)

(** strings.HasPrefix(s, p) *)
Definition HasPrefix (s p : string) : bool := String.prefix p s.

#[global] Arguments HasPrefix : simpl never.

(** strings.Contains(s, sub) *)
Fixpoint Contains (s sub : string) : bool :=
  HasPrefix s sub || match s with "" => false | String _ s' => Contains s' sub end.

Definition contains_byte (c : ascii) (s : string) : bool := Contains s (String c "").

#[global] Arguments contains_byte : simpl never.

(** s[n:], and s[:n] *)
Fixpoint drop_bytes (n : nat) (s : string) : string :=
  match n, s with
  | O, _ => s
  | S n', String _ s' => drop_bytes n' s'
  | _, "" => ""
  end.

Fixpoint take_bytes (n : nat) (s : string) : string :=
  match n, s with
  | S n', String c s' => String c (take_bytes n' s')
  | _, _ => ""
  end.

(** strings.TrimPrefix and strings.HasSuffix / TrimSuffix *)
Definition TrimPrefix (s p : string) : string :=
  if HasPrefix s p then drop_bytes (String.length p) s else s.

Definition HasSuffix (s x : string) : bool :=
  Nat.leb (String.length x) (String.length s) &&
  String.eqb (drop_bytes (String.length s - String.length x) s) x.

Definition TrimSuffix (s x : string) : string :=
  if HasSuffix s x then take_bytes (String.length s - String.length x) s else s.

(** strings.Cut(s, c) for a one-byte separator: before, after, found. *)
Fixpoint Cut (s : string) (c : ascii) : string * string * bool :=
  match s with
  | "" => ("", "", false)
  | String x s' =>
      if Ascii.eqb x c then ("", s', true)
      else let '(before, after, found) := Cut s' c in (String x before, after, found)
  end.

(** at := strings.LastIndex(s, c): [None] for -1, else s[:at] and s[at+1:]. *)
Fixpoint cut_last (s : string) (c : ascii) : option (string * string) :=
  match s with
  | "" => None
  | String x s' =>
      match cut_last s' c with
      | Some (before, after) => Some (String x before, after)
      | None => if Ascii.eqb x c then Some ("", s') else None
      end
  end.

(** strings.Split(s, c) for a one-byte separator: never empty. *)
Fixpoint Split (s : string) (c : ascii) : list string :=
  match s with
  | "" => [""]
  | String x s' =>
      if Ascii.eqb x c then "" :: Split s' c
      else match Split s' c with
           | f :: fs => String x f :: fs
           | [] => [String x ""]
           end
  end.

(** strings.Join(parts, sep) *)
Fixpoint Join (parts : list string) (sep : string) : string :=
  match parts with
  | [] => ""
  | [p] => p
  | p :: ps => p +:+ sep +:+ Join ps sep
  end.

(** strings.ContainsAny(s, chars) for ASCII [chars] *)
Fixpoint ContainsAny (s chars : string) : bool :=
  match s with
  | "" => false
  | String c s' => contains_byte c chars || ContainsAny s' chars
  end.

(** strings.ToLower on ASCII; bytes above 127 are left alone. *)
Definition lower_byte (c : ascii) : ascii :=
  if (65 <=? code c) && (code c <=? 90) then chr (nat_of_ascii c + 32) else c.
Fixpoint ToLower (s : string) : string :=
  match s with "" => "" | String c s' => String (lower_byte c) (ToLower s') end.

(** ** Trimming *)

Fixpoint rev_string_app (s acc : string) : string :=
  match s with "" => acc | String c s' => rev_string_app s' (String c acc) end.
Definition rev_string (s : string) : string := rev_string_app s "".

(** The encodings of the runes unicode.IsSpace accepts. *)
Definition space_encodings : list string :=
  (byte1 <$> [9; 10; 11; 12; 13; 32]%nat) ++
  ((fun n => String (chr 194) (byte1 n)) <$> [133; 160]%nat) ++
  [String (chr 225) (String (chr 154) (byte1 128))] ++
  ((fun n => String (chr 226) (String (chr 128) (byte1 n))) <$>
     [128; 129; 130; 131; 132; 133; 134; 135; 136; 137; 138; 168; 169; 175]%nat) ++
  [String (chr 226) (String (chr 129) (byte1 159));
   String (chr 227) (String (chr 128) (byte1 128))].

Definition strip_one (spaces : list string) (s : string) : option string :=
  match filter (fun p => Is_true (HasPrefix s p)) spaces with
  | p :: _ => Some (drop_bytes (String.length p) s)
  | [] => None
  end.

Fixpoint trim_left (fuel : nat) (spaces : list string) (s : string) : string :=
  match fuel with
  | O => s
  | S n => match strip_one spaces s with
           | Some s' => trim_left n spaces s'
           | None => s
           end
  end.

(** strings.TrimSpace(s) *)
Definition TrimSpace (s : string) : string :=
  let l := trim_left (String.length s) space_encodings s in
  rev_string (trim_left (String.length l) (rev_string <$> space_encodings) (rev_string l)).

(** strings.TrimRight(s, chars) for ASCII [chars] *)
Fixpoint TrimRight (s chars : string) : string :=
  match s with
  | "" => ""
  | String c s' =>
      match TrimRight s' chars with
      | "" => if contains_byte c chars then "" else String c ""
      | t => String c t
      end
  end.

(** strings.TrimLeft and strings.Trim for ASCII [chars] *)
Fixpoint TrimLeft (s chars : string) : string :=
  match s with
  | "" => ""
  | String c s' => if contains_byte c chars then TrimLeft s' chars else s
  end.
Definition Trim (s chars : string) : string := TrimRight (TrimLeft s chars) chars.

(** strings.Fields on ASCII spaces. *)
Definition ascii_space (c : ascii) : bool :=
  (code c =? 32) || ((9 <=? code c) && (code c <=? 13)).
Fixpoint fields_go (s cur : string) : list string :=
  match s with
  | "" => if String.eqb cur "" then [] else [rev_string cur]
  | String c s' =>
      if ascii_space c
      then (if String.eqb cur "" then [] else [rev_string cur]) ++ fields_go s' ""
      else fields_go s' (String c cur)
  end.
Definition Fields (s : string) : list string := fields_go s "".

(** strings.Lines(s): each line with its newline, the last one perhaps without. *)
Fixpoint Lines_go (s cur : string) : list string :=
  match s with
  | "" => if String.eqb cur "" then [] else [rev_string cur]
  | String c s' =>
      if Ascii.eqb c newline then rev_string (String c cur) :: Lines_go s' ""
      else Lines_go s' (String c cur)
  end.
Definition Lines (s : string) : list string := Lines_go s "".

(** slices.Sorted over the keys of a map *)
Definition sorted_keys (s : gset string) : list string := merge_sort String.le (elements s).

(** ** Numbers *)

Definition is_digit (c : ascii) : bool := (48 <=? code c) && (code c <=? 57).

(** The digits a text starts with, and what follows them. *)
Fixpoint span_digits (s : string) : string * string :=
  match s with
  | String c s' => if is_digit c then let '(d, r) := span_digits s' in (String c d, r) else ("", s)
  | "" => ("", "")
  end.

Fixpoint digits_value (s : string) (acc : Z) : option Z :=
  match s with
  | "" => Some acc
  | String c s' => if is_digit c then digits_value s' (acc * 10 + (code c - 48)) else None
  end.

Definition max_int64 : Z := 2 ^ 63 - 1.
Definition min_int64 : Z := - 2 ^ 63.
Definition in_int64 (z : Z) : bool := (min_int64 <=? z) && (z <=? max_int64).

(** strconv.Atoi(s), and strconv.ParseInt(s, 10, 64): [None] is an error. *)
Definition Atoi (s : string) : option Z :=
  let '(negative, digits) :=
    match s with
    | String c s' =>
        if Ascii.eqb c "-" then (true, s')
        else if Ascii.eqb c "+" then (false, s') else (false, s)
    | "" => (false, "")
    end in
  match digits with
  | "" => None
  | _ => match digits_value digits 0 with
         | Some v => let z := if negative then - v else v in
                     if in_int64 z then Some z else None
         | None => None
         end
  end.

(** strconv.FormatInt(z, 10), which is also what %d prints. *)
Definition digit (z : Z) : ascii := chr (48 + Z.to_nat z).
Fixpoint itoa_go (fuel : nat) (z : Z) (acc : string) : string :=
  match fuel with
  | O => acc
  | S n => let acc' := String (digit (z mod 10)) acc in
           if z / 10 =? 0 then acc' else itoa_go n (z / 10) acc'
  end.
Definition utoa (z : Z) : string := itoa_go (S (Z.to_nat (Z.log2 z))) z "".
Definition itoa (z : Z) : string := if z <? 0 then String "-" (utoa (- z)) else utoa z.

Section Numbers.
Lemma code_digit d : 0 <= d < 10 -> code (digit d) = 48 + d.
Proof.
  intros H. unfold code, digit, chr. rewrite nat_ascii_embedding by lia. lia.
Qed.

Lemma is_digit_digit d : 0 <= d < 10 -> is_digit (digit d) = true.
Proof. intros H. unfold is_digit. rewrite code_digit by done. lia. Qed.

(** Reading back what itoa_go writes continues from the number written. *)
Lemma digits_value_itoa_go fuel z acc :
  0 <= z < 10 ^ Z.of_nat fuel ->
  digits_value (itoa_go fuel z acc) 0 = digits_value acc z.
Proof.
  revert z acc. induction fuel as [|n IH]; intros z acc Hz.
  - simpl in *. replace z with 0 by lia. done.
  - cbn [itoa_go].
    assert (Hm : 0 <= z mod 10 < 10) by (apply Z.mod_pos_bound; lia).
    assert (Hz' : z = 10 * (z / 10) + z mod 10) by (apply Z.div_mod; lia).
    destruct (Z.eqb_spec (z / 10) 0) as [E|E].
    + cbn [digits_value]. rewrite is_digit_digit, code_digit by lia. f_equal. lia.
    + rewrite IH.
      * cbn [digits_value]. rewrite is_digit_digit, code_digit by lia. f_equal. lia.
      * rewrite Nat2Z.inj_succ, Z.pow_succ_r in Hz by lia.
        split; [apply Z.div_pos; lia|apply Z.div_lt_upper_bound; lia].
Qed.

Lemma utoa_bound z : 0 <= z -> 0 <= z < 10 ^ Z.of_nat (S (Z.to_nat (Z.log2 z))).
Proof.
  intros Hz. split; [done|].
  destruct (Z.eq_dec z 0) as [->|Hn]; [simpl; lia|].
  assert (Hl := Z.log2_spec z ltac:(lia)). assert (0 <= Z.log2 z) by apply Z.log2_nonneg.
  rewrite Nat2Z.inj_succ, Z2Nat.id by lia.
  apply Z.lt_le_trans with (1 := proj2 Hl).
  apply Z.pow_le_mono_l. lia.
Qed.

Lemma digits_value_utoa z : 0 <= z -> digits_value (utoa z) 0 = Some z.
Proof. intros Hz. unfold utoa. rewrite digits_value_itoa_go by (by apply utoa_bound). done. Qed.

Lemma itoa_go_head fuel z acc :
  0 <= z -> exists c s, itoa_go (S fuel) z acc = String c s /\ is_digit c = true.
Proof.
  revert z acc. induction fuel as [|n IH]; intros z acc Hz;
    (assert (0 <= z mod 10 < 10) by (apply Z.mod_pos_bound; lia)).
  - cbn [itoa_go]. exists (digit (z mod 10)), acc.
    rewrite is_digit_digit by done. by destruct (z / 10 =? 0).
  - cbn [itoa_go]. destruct (z / 10 =? 0).
    + exists (digit (z mod 10)), acc. by rewrite is_digit_digit.
    + apply (IH (z / 10)). apply Z.div_pos; lia.
Qed.

(** strconv.Atoi reads back what %d wrote. *)
Lemma Atoi_itoa z : 0 <= z <= max_int64 -> Atoi (itoa z) = Some z.
Proof.
  intros [H0 H1]. unfold itoa. replace (z <? 0) with false by lia.
  assert (Hv := digits_value_utoa z H0). unfold utoa in *.
  destruct (itoa_go_head (Z.to_nat (Z.log2 z)) z "" H0) as (c & s & E & Hc).
  unfold Atoi. rewrite E in *.
  destruct (Ascii.eqb_spec c "-") as [->|_]; [discriminate|].
  destruct (Ascii.eqb_spec c "+") as [->|_]; [discriminate|].
  rewrite Hv. unfold in_int64, min_int64.
  replace (_ && _) with true; [done|]. symmetry. apply andb_true_iff.
  split; apply Z.leb_le; unfold max_int64 in *; lia.
Qed.

Lemma itoa_inj x y :
  0 <= x <= max_int64 -> 0 <= y <= max_int64 -> itoa x = itoa y -> x = y.
Proof.
  intros Hx Hy E. apply (f_equal Atoi) in E. rewrite !Atoi_itoa in E by done. congruence.
Qed.

(** itoa of a natural number is made of digits. *)
Fixpoint all_digits (s : string) : bool :=
  match s with "" => true | String c s' => is_digit c && all_digits s' end.

Lemma all_digits_itoa_go fuel z acc :
  0 <= z -> all_digits acc = true -> all_digits (itoa_go fuel z acc) = true.
Proof.
  revert z acc. induction fuel as [|n IH]; intros z acc Hz Ha; [done|].
  assert (0 <= z mod 10 < 10) by (apply Z.mod_pos_bound; lia).
  assert (all_digits (String (digit (z mod 10)) acc) = true) as Hd
    by (cbn [all_digits]; by rewrite is_digit_digit).
  cbn [itoa_go]. destruct (z / 10 =? 0); [done|].
  apply IH; [apply Z.div_pos; lia|done].
Qed.

Lemma all_digits_itoa z : 0 <= z -> all_digits (itoa z) = true.
Proof.
  intros Hz. unfold itoa. replace (z <? 0) with false by lia. by apply all_digits_itoa_go.
Qed.
End Numbers.

Lemma utoa_all_digits z : 0 <= z -> all_digits (utoa z) = true.
Proof. intros Hz. by apply all_digits_itoa_go. Qed.

(** strconv.FormatInt is injective. *)
Lemma itoa_inj_all x y : itoa x = itoa y -> x = y.
Proof.
  assert (Hu : forall a b, 0 <= a -> 0 <= b -> utoa a = utoa b -> a = b).
  { intros a b Ha Hb E. apply (f_equal (fun t => digits_value t 0)) in E.
    rewrite !digits_value_utoa in E by done. congruence. }
  assert (Hm : forall a b, 0 <= b -> String "-" (utoa a) = utoa b -> False).
  { intros a b Hb E. pose proof (utoa_all_digits b Hb) as Hd. rewrite <- E in Hd. done. }
  unfold itoa. intros E. destruct (Z.ltb_spec x 0), (Z.ltb_spec y 0).
  - injection E as E. apply Hu in E; lia.
  - by apply Hm in E.
  - by apply eq_sym, Hm in E.
  - by apply Hu.
Qed.

(** ** Lemmas on searching and splitting *)
Section Splitting.
Lemma append_cons c s t : String c s +:+ t = String c (s +:+ t).
Proof. done. Qed.
Lemma string_app_nil s : s +:+ "" = s.
Proof. induction s as [|c s IH]; [done|]. by rewrite append_cons, IH. Qed.
Lemma string_app_assoc s t u : (s +:+ t) +:+ u = s +:+ (t +:+ u).
Proof. induction s as [|c s IH]; [done|]. by rewrite !append_cons, IH. Qed.

Lemma contains_byte_cons c x s :
  contains_byte c (String x s) = Ascii.eqb c x || contains_byte c s.
Proof.
  unfold contains_byte. cbn [Contains HasPrefix String.prefix].
  unfold HasPrefix. cbn [String.prefix].
  destruct (ascii_dec c x) as [->|Hn].
  - rewrite Ascii.eqb_refl. destruct s; done.
  - apply Ascii.eqb_neq in Hn. by rewrite Hn.
Qed.

Lemma contains_byte_nil c : contains_byte c "" = false.
Proof. done. Qed.

Lemma contains_byte_app c s t : contains_byte c (s +:+ t) = contains_byte c s || contains_byte c t.
Proof.
  induction s as [|x s IH]; [done|].
  change (String x s +:+ t) with (String x (s +:+ t)).
  by rewrite !contains_byte_cons, IH, orb_assoc.
Qed.

Lemma digits_no_byte c s : is_digit c = false -> all_digits s = true -> contains_byte c s = false.
Proof.
  intros Hc. induction s as [|x s IH]; [done|]. cbn [all_digits]. intros [Hx Hs]%andb_true_iff.
  rewrite contains_byte_cons, IH by done.
  destruct (Ascii.eqb_spec c x) as [->|]; [congruence|done].
Qed.

(** A piece with no separator in front of one is what Cut answers. *)
Lemma Cut_app c s t : contains_byte c s = false -> Cut (s +:+ String c t) c = (s, t, true).
Proof.
  induction s as [|x s IH]; intros H.
  - change ("" +:+ ?x) with x; cbn [Cut]. by rewrite Ascii.eqb_refl.
  - rewrite contains_byte_cons in H. apply orb_false_iff in H as [Hx Hs].
    change (String x s +:+ String c t) with (String x (s +:+ String c t)). cbn [Cut].
    rewrite Ascii.eqb_sym, Hx, IH by done. done.
Qed.

Lemma Cut_none c s : contains_byte c s = false -> Cut s c = (s, "", false).
Proof.
  induction s as [|x s IH]; intros H; [done|].
  rewrite contains_byte_cons in H. apply orb_false_iff in H as [Hx Hs].
  cbn [Cut]. rewrite Ascii.eqb_sym, Hx, IH by done. done.
Qed.

Lemma Split_none c s : contains_byte c s = false -> Split s c = [s].
Proof.
  induction s as [|x s IH]; intros H; [done|].
  rewrite contains_byte_cons in H. apply orb_false_iff in H as [Hx Hs].
  cbn [Split]. rewrite Ascii.eqb_sym, Hx, IH by done. done.
Qed.

Lemma Split_app c s t : contains_byte c s = false -> Split (s +:+ String c t) c = s :: Split t c.
Proof.
  induction s as [|x s IH]; intros H.
  - change ("" +:+ ?x) with x; cbn [Split]. by rewrite Ascii.eqb_refl.
  - rewrite contains_byte_cons in H. apply orb_false_iff in H as [Hx Hs].
    change (String x s +:+ String c t) with (String x (s +:+ String c t)). cbn [Split].
    rewrite Ascii.eqb_sym, Hx, IH by done. done.
Qed.

Lemma Split_nonempty c s : Split s c <> [].
Proof.
  destruct s as [|x s]; cbn [Split]; [done|].
  destruct (Ascii.eqb x c); [done|]. by destruct (Split s c).
Qed.

(** The pieces of a split hold no separator. *)
Lemma Split_pieces c s p : In p (Split s c) -> contains_byte c p = false.
Proof.
  revert p. induction s as [|x s IH]; intros p.
  - cbn. intros [<-|[]]; done.
  - cbn [Split]. destruct (Ascii.eqb x c) eqn:E.
    + intros [<-|H]; [done|auto].
    + destruct (Split s c) as [|f fs] eqn:ES; [by destruct (Split_nonempty c s)|].
      intros [<-|H]; [|apply IH; by right].
      rewrite contains_byte_cons, Ascii.eqb_sym, E. apply IH. by left.
Qed.

Lemma Split_join c s : Join (Split s c) (String c "") = s.
Proof.
  induction s as [|x s IH]; [done|]. cbn [Split].
  destruct (Ascii.eqb_spec x c) as [->|Hx].
  - destruct (Split s c) as [|f fs] eqn:ES; [by destruct (Split_nonempty c s)|].
    cbn [Join] in *. rewrite <- IH. done.
  - destruct (Split s c) as [|f fs] eqn:ES; [by destruct (Split_nonempty c s)|].
    destruct fs; cbn [Join] in *; by rewrite <- IH.
Qed.

Lemma cut_last_spec c s a b :
  cut_last s c = Some (a, b) -> s = a +:+ String c b /\ contains_byte c b = false.
Proof.
  revert a b. induction s as [|x s IH]; intros a b; [done|]. cbn [cut_last].
  assert (Hn : cut_last s c = None -> contains_byte c s = false).
  { clear. induction s as [|y s IH]; [done|]. cbn [cut_last]. rewrite contains_byte_cons.
    destruct (cut_last s c) as [[]|]; [done|].
    rewrite (Ascii.eqb_sym c y). destruct (Ascii.eqb y c); [done|]. intros _. by apply IH. }
  destruct (cut_last s c) as [[a' b']|].
  - intros [= <- <-]. destruct (IH _ _ eq_refl) as [-> H]. done.
  - destruct (Ascii.eqb_spec x c) as [->|]; [|done]. intros [= <- <-]. split; [done|auto].
Qed.

Lemma cut_last_none c s : contains_byte c s = false -> cut_last s c = None.
Proof.
  induction s as [|x s IH]; [done|]. rewrite contains_byte_cons. intros [Hx Hs]%orb_false_iff.
  cbn [cut_last]. rewrite IH by done. by rewrite Ascii.eqb_sym, Hx.
Qed.

Lemma cut_last_app c a b : contains_byte c b = false -> cut_last (a +:+ String c b) c = Some (a, b).
Proof.
  intros Hb. induction a as [|x a IH].
  - change ("" +:+ ?x) with x; cbn [cut_last]. rewrite cut_last_none by done. by rewrite Ascii.eqb_refl.
  - change (String x a +:+ String c b) with (String x (a +:+ String c b)). cbn [cut_last].
    by rewrite IH.
Qed.

Lemma HasPrefix_app p s : HasPrefix (p +:+ s) p = true.
Proof.
  unfold HasPrefix. induction p as [|c p IH]; [by destruct s|].
  change (String c p +:+ s) with (String c (p +:+ s)). cbn [String.prefix].
  destruct (ascii_dec c c); [done|congruence].
Qed.

Lemma HasPrefix_spec s p : HasPrefix s p = true <-> exists t, s = p +:+ t.
Proof.
  unfold HasPrefix. split.
  - revert s. induction p as [|c p IH]; intros s H; [by exists s|].
    destruct s as [|x s]; [done|]. cbn in H. destruct (ascii_dec c x) as [->|]; [|done].
    destruct (IH _ H) as [t ->]. by exists t.
  - intros [t ->]. apply HasPrefix_app.
Qed.

Lemma app_string_length s t : String.length (s +:+ t) = (String.length s + String.length t)%nat.
Proof.
  induction s as [|c s IH]; [done|].
  change (String c s +:+ t) with (String c (s +:+ t)). cbn [String.length Nat.add]. by rewrite IH.
Qed.
End Splitting.

(** ** Taking and dropping bytes *)
Section Bytes.
Lemma take_drop_bytes n s : take_bytes n s +:+ drop_bytes n s = s.
Proof.
  revert s. induction n as [|n IH]; intros [|c s]; [done..|].
  cbn [take_bytes drop_bytes]. change (String c ?a +:+ ?b) with (String c (a +:+ b)). by rewrite IH.
Qed.
Lemma take_bytes_app n s t : (n <= String.length s)%nat -> take_bytes n (s +:+ t) = take_bytes n s.
Proof.
  revert s. induction n as [|n IH]; intros [|c s] Hn; cbn in Hn; try lia; [by destruct (_ +:+ t)|done|].
  change (String c s +:+ t) with (String c (s +:+ t)). cbn. by rewrite IH by lia.
Qed.
Lemma drop_bytes_app n s t : (n <= String.length s)%nat -> drop_bytes n (s +:+ t) = drop_bytes n s +:+ t.
Proof.
  revert s. induction n as [|n IH]; intros [|c s] Hn; cbn in Hn; try lia; [done..|].
  change (String c s +:+ t) with (String c (s +:+ t)). cbn. by rewrite IH by lia.
Qed.
Lemma take_bytes_all s t : take_bytes (String.length s) (s +:+ t) = s.
Proof.
  rewrite take_bytes_app by lia. induction s as [|c s IH]; [done|]. cbn. by rewrite IH.
Qed.
Lemma drop_bytes_all s t : drop_bytes (String.length s) (s +:+ t) = t.
Proof. rewrite drop_bytes_app by lia. induction s as [|c s IH]; [done|]. exact IH. Qed.
Lemma length_drop_bytes n s : String.length (drop_bytes n s) = (String.length s - n)%nat.
Proof. revert s. induction n as [|n IH]; intros [|c s]; [done..|]. cbn. apply IH. Qed.
Lemma length_take_bytes n s : String.length (take_bytes n s) = Nat.min n (String.length s).
Proof. revert s. induction n as [|n IH]; intros [|c s]; [done..|]. cbn. by rewrite IH. Qed.
Lemma len_app s t : len (s +:+ t) = len s + len t.
Proof. unfold len. rewrite app_string_length. lia. Qed.

Lemma HasSuffix_app a x : HasSuffix (a +:+ x) x = true.
Proof.
  unfold HasSuffix. rewrite app_string_length.
  replace (String.length a + String.length x - String.length x)%nat with (String.length a) by lia.
  rewrite drop_bytes_all, String.eqb_refl, andb_true_r. apply Nat.leb_le. lia.
Qed.
Lemma HasSuffix_false s x : HasSuffix s x = false <-> forall a, s <> a +:+ x.
Proof.
  split; [intros Hf a ->; by rewrite HasSuffix_app in Hf|]. intros Hn.
  destruct (HasSuffix s x) eqn:E; [|done]. unfold HasSuffix in E. bool_hyps.
  destruct (Hn (take_bytes (String.length s - String.length x) s)).
  pose proof (take_drop_bytes (String.length s - String.length x) s) as T.
  match goal with H : drop_bytes _ _ = x |- _ => rewrite H in T end. done.
Qed.
Lemma contains_byte_drop c n s : contains_byte c s = false -> contains_byte c (drop_bytes n s) = false.
Proof.
  intros Hs. rewrite <- (take_drop_bytes n s), contains_byte_app in Hs. by bool_hyps.
Qed.
End Bytes.

#[export] Hint Rewrite contains_byte_cons contains_byte_nil contains_byte_app : hostd_rw.
#[export] Hint Resolve all_digits_itoa HasPrefix_app : hostd.

Lemma rev_string_app_spec s acc : rev_string_app s acc = rev_string s +:+ acc.
Proof.
  unfold rev_string. revert acc. induction s as [|c s IH]; intros acc; [done|].
  cbn [rev_string_app]. rewrite IH, (IH (String c "")).
  generalize (rev_string_app s ""). intros t. clear.
  induction t as [|x t IH]; [done|].
  change (String x ?t +:+ ?u) with (String x (t +:+ u)). by rewrite IH.
Qed.

Lemma rev_string_app_both s t : rev_string (s +:+ t) = rev_string t +:+ rev_string s.
Proof.
  induction s as [|c s IH].
  - change ("" +:+ t) with t. by rewrite string_app_nil.
  - change (String c s +:+ t) with (String c (s +:+ t)).
    unfold rev_string at 1 3. cbn [rev_string_app]. rewrite !rev_string_app_spec, IH.
    by rewrite string_app_assoc.
Qed.

Lemma rev_string_involutive s : rev_string (rev_string s) = s.
Proof.
  induction s as [|c s IH]; [done|].
  unfold rev_string at 2. cbn [rev_string_app]. rewrite rev_string_app_spec, rev_string_app_both, IH.
  done.
Qed.
