(* ===== verification/GoTime.v ===== *)
(** * GoTime: Go's float64, time.Time and time.Duration as the program uses them

    A float64 is a [spec_float] of the Standard Library: IEEE 754 binary64
    arithmetic, rounding to nearest even, with no axioms.  A time.Time is the
    count of nanoseconds since Go's zero time (midnight UTC, 1 January of
    year 1); a time.Duration is an int64 count of nanoseconds.  Dates are the
    proleptic Gregorian calendar's, in UTC. *)
From S2P Require Import Prelude GoText.
From Stdlib Require Import Ascii SpecFloat.
Open Scope string_scope.
Open Scope list_scope.
Open Scope Z_scope.

(** ** float64 *)
Abbreviation float64 := spec_float.
Definition prec64 : Z := 53.
Definition emax64 : Z := 1024.
Definition f64_zero : float64 := S754_zero false.
Definition f64_of_Z (z : Z) : float64 := binary_normalize prec64 emax64 z 0 false.
Definition f64_mul : float64 -> float64 -> float64 := SFmul prec64 emax64.
Definition f64_div : float64 -> float64 -> float64 := SFdiv prec64 emax64.
Definition f64_add : float64 -> float64 -> float64 := SFadd prec64 emax64.
Definition f64_sub : float64 -> float64 -> float64 := SFsub prec64 emax64.
Definition f64_eqb : float64 -> float64 -> bool := SFeqb.
Definition f64_ltb : float64 -> float64 -> bool := SFltb.
Definition f64_leb : float64 -> float64 -> bool := SFleb.

#[export] Instance float64_eq_dec : EqDecision float64.
Proof. intros x y; unfold Decision; repeat decide equality. Defined.

(** Truncation toward zero, exact. *)
Definition f64_trunc (f : float64) : option Z :=
  match f with
  | S754_zero _ => Some 0
  | S754_finite s m e =>
      let a := if 0 <=? e then Z.pos m * 2 ^ e else Z.pos m / 2 ^ (- e) in
      Some (if s then - a else a)
  | _ => None
  end.

(** int64(f) and int(f).  Go leaves a value out of range to the machine; the
    machines this daemon is built for answer the least integer on amd64. *)
Definition f64_to_int64 (f : float64) : Z :=
  match f64_trunc f with
  | Some z => if in_int64 z then z else min_int64
  | None => min_int64
  end.

(** f == math.Trunc(f): also true of the infinities, false of NaN. *)
Definition f64_integral (f : float64) : bool :=
  match f with
  | S754_zero _ | S754_infinity _ => true
  | S754_finite _ m e => if 0 <=? e then true else Z.pos m mod 2 ^ (- e) =? 0
  | S754_nan => false
  end.

(** ** Durations *)
Definition Nanosecond : Z := 1.
Definition Microsecond : Z := 1000.
Definition Millisecond : Z := 1000000.
Definition Second : Z := 1000000000.
Definition Minute : Z := 60 * Second.
Definition Hour : Z := 60 * Minute.
Definition Day : Z := 24 * Hour.

(** The units time.ParseDuration knows; the two spellings of micro are
    U+00B5 and U+03BC. *)
Definition unit_of (u : string) : option Z :=
  if String.eqb u "ns" then Some Nanosecond
  else if String.eqb u "us" then Some Microsecond
  else if String.eqb u (String (chr 194) (String (chr 181) "s")) then Some Microsecond
  else if String.eqb u (String (chr 206) (String (chr 188) "s")) then Some Microsecond
  else if String.eqb u "ms" then Some Millisecond
  else if String.eqb u "s" then Some Second
  else if String.eqb u "m" then Some Minute
  else if String.eqb u "h" then Some Hour
  else None.

(** leadingInt: the value and what is left, [None] past 2^63. *)
Fixpoint leadingInt (s : string) (x : Z) : option (Z * string) :=
  match s with
  | String c s' =>
      if is_digit c then
        if 2 ^ 63 / 10 <? x then None
        else let x' := x * 10 + (code c - 48) in
             if 2 ^ 63 <? x' then None else leadingInt s' x'
      else Some (x, s)
  | "" => Some (x, "")
  end.

(** leadingFraction: digits past what fits are read and dropped. *)
Fixpoint leadingFraction (s : string) (x : Z) (scale : float64) (overflow : bool)
    : Z * float64 * string :=
  match s with
  | String c s' =>
      if is_digit c then
        if overflow then leadingFraction s' x scale true
        else if (2 ^ 63 - 1) / 10 <? x then leadingFraction s' x scale true
        else let y := x * 10 + (code c - 48) in
             if 2 ^ 63 <? y then leadingFraction s' x scale true
             else leadingFraction s' y (f64_mul scale (f64_of_Z 10)) false
      else (x, scale, s)
  | "" => (x, scale, "")
  end.

(** The unit runs up to the next digit or point. *)
Fixpoint take_unit (s : string) : string * string :=
  match s with
  | String c s' =>
      if Ascii.eqb c "." || is_digit c then ("", s)
      else let '(u, rest) := take_unit s' in (String c u, rest)
  | "" => ("", "")
  end.

(** uint64(float64(f) * (float64(unit) / scale)) *)
Definition fraction_value (f unit : Z) (scale : float64) : Z :=
  f64_to_int64 (f64_mul (f64_of_Z f) (f64_div (f64_of_Z unit) scale)).

Fixpoint parse_duration_go (fuel : nat) (s : string) (d : Z) : option Z :=
  match s, fuel with
  | "", _ => Some d
  | _, O => None
  | String c _, S n =>
      if negb (Ascii.eqb c "." || is_digit c) then None else
      match leadingInt s 0 with
      | None => None
      | Some (v, s1) =>
          let pre := negb (Nat.eqb (String.length s) (String.length s1)) in
          let '(f, scale, s2, post) :=
            match s1 with
            | String p s1' =>
                if Ascii.eqb p "." then
                  let '(f, scale, s2) := leadingFraction s1' 0 (f64_of_Z 1) false in
                  (f, scale, s2, negb (Nat.eqb (String.length s1') (String.length s2)))
                else (0, f64_of_Z 1, s1, false)
            | "" => (0, f64_of_Z 1, s1, false)
            end in
          if negb pre && negb post then None else
          let '(u, s3) := take_unit s2 in
          if String.eqb u "" then None else
          match unit_of u with
          | None => None
          | Some unit =>
              if 2 ^ 63 / unit <? v then None else
              let v1 := v * unit in
              let v2 := if 0 <? f then v1 + fraction_value f unit scale else v1 in
              if (0 <? f) && (2 ^ 63 <? v2) then None else
              let d' := d + v2 in
              if 2 ^ 63 <? d' then None else parse_duration_go n s3 d'
          end
      end
  end.

(** time.ParseDuration: [None] is an error.  Each round consumes at least one
    byte, so the length of the text is fuel enough. *)
Definition ParseDuration (s : string) : option Z :=
  let '(neg, s) :=
    match s with
    | String c s' => if Ascii.eqb c "-" then (true, s')
                     else if Ascii.eqb c "+" then (false, s') else (false, s)
    | "" => (false, s)
    end in
  if String.eqb s "0" then Some 0
  else if String.eqb s "" then None
  else match parse_duration_go (String.length s) s 0 with
       | None => None
       | Some d => if neg then Some (- d)
                   else if max_int64 <? d then None else Some d
       end.

Example ParseDuration_30s : ParseDuration "30s" = Some (30 * Second).
Proof. vm_compute. reflexivity. Qed.
Example ParseDuration_mixed : ParseDuration "1h2m3.5s" = Some (Hour + 2 * Minute + 3500 * Millisecond).
Proof. vm_compute. reflexivity. Qed.
Example ParseDuration_bad : ParseDuration "30" = None /\ ParseDuration "" = None /\ ParseDuration "2d" = None.
Proof. vm_compute. auto. Qed.

(** ** Times *)
Definition Time : Type := Z.
Definition zero_time : Time := 0.
Definition IsZero (t : Time) : bool := t =? 0.
(** From the zero time to the Unix epoch. *)
Definition unix_epoch : Z := 62135596800 * Second.

(** time.UnixMilli and t.UnixMilli() *)
Definition of_unix_milli (ms : Z) : Time := unix_epoch + ms * Millisecond.
Definition UnixMilli (t : Time) : Z := (t - unix_epoch) / Millisecond.
Definition of_unix_sec (s : Z) : Time := unix_epoch + s * Second.

(** d.Seconds() *)
Definition Seconds (d : Z) : float64 :=
  f64_add (f64_of_Z (Z.quot d Second)) (f64_div (f64_of_Z (Z.rem d Second)) (f64_of_Z Second)).

(** t.Sub(u) saturates; t.Add(d) does not. *)
Definition Sub (t u : Time) : Z := Z.max min_int64 (Z.min max_int64 (t - u)).
Definition Add (t : Time) (d : Z) : Time := t + d.
Definition After (t u : Time) : bool := u <? t.

(** t.Truncate(d): toward the zero time. *)
Definition Truncate (t : Time) (d : Z) : Time := if d <=? 0 then t else t - t mod d.

(** The date of a day counted from 1 January of year 1: year, month, day. *)
Definition civil (days : Z) : Z * Z * Z :=
  let z := days + 306 in
  let era := z / 146097 in
  let doe := z mod 146097 in
  let yoe := (doe - doe / 1460 + doe / 36524 - doe / 146096) / 365 in
  let doy := doe - (365 * yoe + yoe / 4 - yoe / 100) in
  let mp := (5 * doy + 2) / 153 in
  let m := if mp <? 10 then mp + 3 else mp - 9 in
  (yoe + era * 400 + (if m <=? 2 then 1 else 0), m, doy - (153 * mp + 2) / 5 + 1).

Fixpoint zeros (n : nat) : string :=
  match n with O => "" | S n' => String "0" (zeros n') end.
Definition pad (width : nat) (z : Z) : string :=
  let s := itoa z in zeros (width - String.length s) +:+ s.

(** t.UTC().Format("20060102T150405") *)
Definition FormatCompact (t : Time) : string :=
  let '(y, m, d) := civil (t / Day) in
  let s := (t mod Day) / Second in
  pad 4 y +:+ pad 2 m +:+ pad 2 d +:+ "T" +:+
  pad 2 (s / 3600) +:+ pad 2 (s / 60 mod 60) +:+ pad 2 (s mod 60).

Example FormatCompact_epoch : FormatCompact unix_epoch = "19700101T000000".
Proof. vm_compute. reflexivity. Qed.
Example FormatCompact_leap : FormatCompact (of_unix_sec 1709210096) = "20240229T123456".
Proof. vm_compute. reflexivity. Qed.

Section TimeLemmas.
Lemma UnixMilli_of_unix_milli ms : UnixMilli (of_unix_milli ms) = ms.
Proof.
  unfold UnixMilli, of_unix_milli, Millisecond.
  replace (_ - _) with (ms * 1000000) by lia. apply Z.div_mul. lia.
Qed.

Lemma Truncate_le t d : 0 <= t -> Truncate t d <= t.
Proof.
  intros Ht. unfold Truncate. destruct (Z.leb_spec d 0); [lia|].
  assert (0 <= t mod d) by (apply Z.mod_pos_bound; lia). lia.
Qed.

Lemma Truncate_gt t d : 0 < d -> t - d < Truncate t d.
Proof.
  intros Hd. unfold Truncate. destruct (Z.leb_spec d 0); [lia|].
  assert (t mod d < d) by (apply Z.mod_pos_bound; lia). lia.
Qed.

Lemma Truncate_mod t d : 0 < d -> Truncate t d mod d = 0.
Proof.
  intros Hd. unfold Truncate. destruct (Z.leb_spec d 0); [lia|].
  rewrite Zminus_mod, Zmod_mod, Z.sub_diag. apply Z.mod_0_l. lia.
Qed.

Lemma Truncate_div t d : 0 < d -> Truncate t d = d * (t / d).
Proof.
  intros Hd. unfold Truncate. destruct (Z.leb_spec d 0); [lia|].
  pose proof (Z.div_mod t d). lia.
Qed.

Lemma Truncate_mono t u d : 0 < d -> t <= u -> Truncate t d <= Truncate u d.
Proof.
  intros Hd Htu. rewrite !Truncate_div by done.
  apply Z.mul_le_mono_nonneg_l; [lia|]. apply Z.div_le_mono; lia.
Qed.

(** Two moments of one slot truncate to the same instant. *)
Lemma Truncate_same t d : 0 < d -> Truncate (Truncate t d) d = Truncate t d.
Proof.
  intros Hd. rewrite (Truncate_div (Truncate t d)) by done.
  rewrite (Truncate_div t d) at 1 by done. rewrite (Truncate_div t d) by done.
  rewrite Z.mul_comm with (m := t / d), Z.div_mul by lia. lia.
Qed.

(** Instants a millisecond apart have different numbers. *)
Lemma UnixMilli_lt t u : t + Millisecond <= u -> UnixMilli t < UnixMilli u.
Proof.
  intros Htu. unfold UnixMilli.
  assert (E : (t - unix_epoch) / Millisecond + 1 <= (u - unix_epoch) / Millisecond); [|lia].
  rewrite <- Z.div_add by done. apply Z.div_le_mono; [done|]. lia.
Qed.

(** Different multiples of [d] are at least [d] apart. *)
Lemma multiples_apart d t u : 0 < d -> t mod d = 0 -> u mod d = 0 -> t < u -> t + d <= u.
Proof.
  intros Hd Ht Hu Hlt. apply Z.mod_divide in Ht as [a ->]; [|lia].
  apply Z.mod_divide in Hu as [b ->]; [|lia]. assert (a < b) by nia. nia.
Qed.
End TimeLemmas.

#[export] Hint Resolve Truncate_le Truncate_gt Truncate_mod Truncate_mono : hostd.

(** strconv.FormatFloat(f, 'f', decimals, 64), which is fmt's "%.<decimals>f":
    the exact value rounded to the nearest, ties to the even digit. *)
Definition div_even (a b : Z) : Z :=
  let q := a / b in let r := a mod b in
  if (2 * r <? b) || ((2 * r =? b) && Z.even q) then q else q + 1.

Definition FormatFixed (decimals : nat) (f : float64) : string :=
  let digits (neg : bool) (a : Z) :=
    let s := pad (S decimals) a in
    let cut := (String.length s - decimals)%nat in
    (if neg then "-" else "") +:+ take_bytes cut s +:+
    (match decimals with O => "" | _ => "." +:+ drop_bytes cut s end) in
  match f with
  | S754_nan => "NaN"
  | S754_infinity s => if s then "-Inf" else "+Inf"
  | S754_zero s => digits s 0
  | S754_finite s m e =>
      let n := Z.pos m * 10 ^ Z.of_nat decimals in
      digits s (if 0 <=? e then n * 2 ^ e else div_even n (2 ^ (- e)))
  end.

Example format_half : FormatFixed 1 (f64_div (f64_of_Z 5) (f64_of_Z 4)) = "1.2". Proof. reflexivity. Qed.
Example format_whole : FormatFixed 0 (f64_of_Z (-1536)) = "-1536". Proof. reflexivity. Qed.

(** ** Time.Parse with the layout time.RFC3339Nano *)
Definition digit_of (c : ascii) : option Z := if is_digit c then Some (code c - 48) else None.

(** getnum(s, fixed) *)
Definition getnum (s : string) (fixed : bool) : option (Z * string) :=
  match s with
  | String a s1 =>
      x ← digit_of a;
      match s1 with
      | String b s2 => match digit_of b with
                       | Some y => Some (x * 10 + y, s2)
                       | None => if fixed then None else Some (x, s1)
                       end
      | "" => if fixed then None else Some (x, s1)
      end
  | "" => None
  end.

Definition expect (c : ascii) (s : string) : option string :=
  match s with String d s' => if Ascii.eqb c d then Some s' else None | "" => None end.

Definition within (lo hi : Z) (p : Z * string) : option (Z * string) :=
  if (lo <=? p.1) && (p.1 <=? hi) then Some p else None.

(** The fraction of a second, in nanoseconds: nine digits count. *)
Definition parse_fraction (s : string) : Z * string :=
  match s with
  | String p s' =>
      if Ascii.eqb p "." || Ascii.eqb p "," then
        match span_digits s' with
        | ("", _) => (0, s)
        | (d, r) => let nine := take_bytes 9 d in
                    (default 0 (digits_value nine 0) * 10 ^ (9 - len nine), r)
        end
      else (0, s)
  | "" => (0, s)
  end.

(** The zone, in seconds east of UTC. *)
Definition parse_zone (s : string) : option (Z * string) :=
  match s with
  | String z s' =>
      if Ascii.eqb z "Z" then Some (0, s')
      else
        sign ← (if Ascii.eqb z "+" then Some 1 else if Ascii.eqb z "-" then Some (-1) else None);
        '(hr, s1) ← getnum s' true ≫= within 0 24;
        s2 ← expect ":" s1;
        '(mm, s3) ← getnum s2 true ≫= within 0 60;
        Some (sign * ((hr * 60 + mm) * 60), s3)
  | "" => None
  end.

Definition leap (y : Z) : bool := (y mod 4 =? 0) && (negb (y mod 100 =? 0) || (y mod 400 =? 0)).
Definition days_in (m y : Z) : Z :=
  if m =? 2 then (if leap y then 29 else 28)
  else if (m =? 4) || (m =? 6) || (m =? 9) || (m =? 11) then 30 else 31.

(** The day of a date, counted from 1 January of year 1. *)
Definition days_of (y m d : Z) : Z :=
  let y' := if m <=? 2 then y - 1 else y in
  let yoe := y' mod 400 in
  let doy := (153 * ((m + 9) mod 12) + 2) / 5 + d - 1 in
  y' / 400 * 146097 + (yoe * 365 + yoe / 4 - yoe / 100 + doy) - 306.

Definition ParseRFC3339Nano (s : string) : option Time :=
  '(hi, s) ← getnum s true;
  '(lo, s) ← getnum s true;
  let y := hi * 100 + lo in
  s ← expect "-" s;
  '(m, s) ← getnum s true ≫= within 1 12;
  s ← expect "-" s;
  '(d, s) ← getnum s true;
  s ← expect "T" s;
  '(hh, s) ← getnum s false ≫= within 0 23;
  s ← expect ":" s;
  '(mm, s) ← getnum s true ≫= within 0 59;
  s ← expect ":" s;
  '(ss, s) ← getnum s true ≫= within 0 59;
  let '(ns, s) := parse_fraction s in
  '(zone, s) ← parse_zone s;
  match s with
  | "" => if (1 <=? d) && (d <=? days_in m y)
          then Some (days_of y m d * Day + ((hh * 60 + mm) * 60 + ss - zone) * Second + ns)
          else None
  | _ => None
  end.

(** t.Unix() and t.Nanosecond() *)
Definition Unix (t : Time) : Z := (t - unix_epoch) / Second.
Definition NanosecondOf (t : Time) : Z := t mod Second.

Example parse_epoch : ParseRFC3339Nano "1970-01-01T00:00:00Z" = Some unix_epoch.
Proof. vm_compute. reflexivity. Qed.
Example parse_fractional :
  ParseRFC3339Nano "2024-02-29T12:34:56.123456789Z" = Some (of_unix_sec 1709210096 + 123456789).
Proof. vm_compute. reflexivity. Qed.
Example parse_zoned : ParseRFC3339Nano "2024-02-29T9:34:56.5-03:00" = Some (of_unix_sec 1709210096 + 500000000).
Proof. vm_compute. reflexivity. Qed.
Example parse_refused : ParseRFC3339Nano "2023-02-29T12:34:56Z" = None /\ ParseRFC3339Nano "2024-02-29 12:34:56Z" = None.
Proof. vm_compute. auto. Qed.

(** Seconds and nanoseconds give the instant back. *)
Lemma Unix_Nanosecond t : unix_epoch + Unix t * Second + NanosecondOf t = t.
Proof.
  unfold Unix, NanosecondOf. pose proof (Z.div_mod (t - unix_epoch) Second).
  assert ((t - unix_epoch) mod Second = t mod Second) as <-; [|unfold Second in *; lia].
  unfold unix_epoch. rewrite Zminus_mod, Z_mod_mult, Z.sub_0_r. by rewrite Zmod_mod.
Qed.
