(* ===== verification/GoPath.v ===== *)
(** * GoPath: path, path/filepath and net/url on a Unix machine *)
From S2P Require Import Prelude GoText.
From Stdlib Require Import Ascii.
Open Scope string_scope.
Open Scope list_scope.
Open Scope Z_scope.

Definition slash : ascii := "/"%char.

(** filepath.IsAbs(p) *)
Definition IsAbs (p : string) : bool := HasPrefix p "/".

(** One element of a path against the elements already kept, innermost first:
    empty and "." are dropped, ".." takes the last element away where there is
    one, stays at the root of a rooted path, and is kept in a relative one. *)
Definition clean_step (rooted : bool) (kept : list string) (e : string) : list string :=
  if String.eqb e "" || String.eqb e "." then kept
  else if String.eqb e ".." then
    match kept with
    | [] => if rooted then [] else [".."]
    | k :: ks => if String.eqb k ".." then ".." :: kept else ks
    end
  else e :: kept.

(** path.Clean and filepath.Clean *)
Definition Clean (p : string) : string :=
  let rooted := IsAbs p in
  let kept := rev (foldl (clean_step rooted) [] (Split p slash)) in
  let body := Join kept "/" in
  if rooted then "/" +:+ body else if String.eqb body "" then "." else body.

(** filepath.Base(p) *)
Definition Base (p : string) : string :=
  if String.eqb p "" then "."
  else let t := TrimRight p "/" in
       let b := match cut_last t slash with Some (_, b) => b | None => t end in
       if String.eqb b "" then "/" else b.

(** filepath.Join(a, b): empty elements are skipped, the rest is cleaned. *)
Definition PathJoin (parts : list string) : string :=
  match filter (fun p => p <> "") parts with
  | [] => ""
  | l => Clean (Join l "/")
  end.

Example Clean_rooted : Clean "/var//run/../run/./docker.sock" = "/var/run/docker.sock".
Proof. reflexivity. Qed.
Example Clean_relative : Clean "a/../../b/" = "../b" /\ Clean "" = "." /\ Clean "/.." = "/".
Proof. auto. Qed.
Example Base_examples : Base "a/b.filo" = "b.filo" /\ Base "/" = "/" /\ Base "x/" = "x" /\ Base "" = ".".
Proof. auto. Qed.

Section PathLemmas.
Lemma Base_no_slash p : contains_byte slash p = false -> p <> "" -> Base p = p.
Proof.
  intros H Hne. unfold Base. destruct (String.eqb_spec p "") as [|_]; [done|].
  assert (Ht : TrimRight p "/" = p).
  { clear Hne. induction p as [|c p IH]; [done|].
    rewrite contains_byte_cons in H. apply orb_false_iff in H as [Hc Hp].
    cbn [TrimRight]. rewrite IH by done.
    destruct p; [|done].
    destruct (contains_byte c "/") eqn:E; [|done].
    rewrite contains_byte_cons in E. fold slash in E. rewrite Ascii.eqb_sym, Hc in E. done. }
  rewrite Ht, cut_last_none by done.
  by destruct (String.eqb_spec p "").
Qed.

(** What Base answers never holds a slash, the root alone apart. *)
Lemma Base_slash p : contains_byte slash (Base p) = true -> Base p = "/".
Proof.
  unfold Base. destruct (String.eqb p ""); [done|].
  destruct (cut_last (TrimRight p "/") slash) as [[a b]|] eqn:E.
  - apply cut_last_spec in E as [_ Hb]. destruct (String.eqb b ""); [done|]. congruence.
  - destruct (String.eqb (TrimRight p "/") ""); [done|]. intros H.
    exfalso. revert E H. generalize (TrimRight p "/"). intros s. clear.
    induction s as [|c s IH]; [done|]. cbn [cut_last].
    destruct (cut_last s slash) as [[]|]; [done|]. rewrite contains_byte_cons, (Ascii.eqb_sym slash).
    destruct (Ascii.eqb c slash); [done|]. auto.
Qed.
End PathLemmas.

(** ** Net/url as the program uses it *)
(** The parts of a URL that are escaped by rules of their own. *)
Inductive Encoding := PathSegment | QueryComponent.

Definition letter (c : ascii) : bool :=
  ((97 <=? code c) && (code c <=? 122)) || ((65 <=? code c) && (code c <=? 90)).

(** shouldEscape(c, mode) *)
Definition shouldEscape (c : ascii) (mode : Encoding) : bool :=
  if letter c || is_digit c || contains_byte c "-_.~" then false
  else if contains_byte c "$&+,/:;=?@" then
    match mode with
    | PathSegment => contains_byte c "/;,?"
    | QueryComponent => true
    end
  else true.

Definition upper_hex (z : Z) : ascii := chr (Z.to_nat (if z <? 10 then 48 + z else 55 + z)).

(** escape(s, mode) *)
Fixpoint escape (s : string) (mode : Encoding) : string :=
  match s with
  | "" => ""
  | String c s' =>
      match mode with
      | QueryComponent =>
          if Ascii.eqb c " " then String "+" (escape s' mode)
          else if shouldEscape c mode
          then String "%" (String (upper_hex (code c / 16)) (String (upper_hex (code c mod 16)) (escape s' mode)))
          else String c (escape s' mode)
      | PathSegment =>
          if shouldEscape c mode
          then String "%" (String (upper_hex (code c / 16)) (String (upper_hex (code c mod 16)) (escape s' mode)))
          else String c (escape s' mode)
      end
  end.

Definition PathEscape (s : string) : string := escape s PathSegment.
Definition QueryEscape (s : string) : string := escape s QueryComponent.

(** unescape(s, mode): [None] is an escape that is not two hex digits. *)
Definition unhex (c : ascii) : option Z :=
  if is_digit c then Some (code c - 48)
  else if (97 <=? code c) && (code c <=? 102) then Some (code c - 87)
  else if (65 <=? code c) && (code c <=? 70) then Some (code c - 55)
  else None.

Fixpoint unescape (s : string) (mode : Encoding) : option string :=
  match s with
  | "" => Some ""
  | String c s' =>
      if Ascii.eqb c "%" then
        match s' with
        | String h (String l s'') =>
            match unhex h, unhex l with
            | Some x, Some y => String (chr (Z.to_nat (16 * x + y))) <$> unescape s'' mode
            | _, _ => None
            end
        | _ => None
        end
      else match mode with
           | QueryComponent => String (if Ascii.eqb c "+" then " "%char else c) <$> unescape s' mode
           | PathSegment => String c <$> unescape s' mode
           end
  end.

(** url.Values with one value for each key, and Encode: sorted by key. *)
Definition Values : Type := list (string * string).

Definition key_le (a b : string * string) : Prop := String.le a.1 b.1.
#[export] Instance key_le_dec a b : Decision (key_le a b).
Proof. unfold key_le. apply _. Defined.

Definition Encode (v : Values) : string :=
  Join ((fun kv => QueryEscape kv.1 +:+ "=" +:+ QueryEscape kv.2) <$> merge_sort key_le v) "&".

Example Encode_sorted : Encode [("tag", "latest"); ("fromImage", "reg.io/a b")] = "fromImage=reg.io%2Fa+b&tag=latest".
Proof. vm_compute. reflexivity. Qed.
Example PathEscape_slash : PathEscape "a/b:c?d#e%" = "a%2Fb:c%3Fd%23e%25".
Proof. vm_compute. reflexivity. Qed.

(** ** What escaping guarantees *)
Section Escaping.

(** A fact about one byte is checked on all of them. *)
Definition bytes : list ascii := chr <$> seq 0 256.
Lemma every_byte (p : ascii -> bool) : forallb p bytes = true -> forall c, p c = true.
Proof.
  intros H c. rewrite forallb_forall in H. apply H. unfold bytes, chr.
  apply In_elem_of, list_elem_of_fmap. exists (nat_of_ascii c).
  rewrite ascii_nat_embedding. split; [done|]. apply elem_of_seq.
  pose proof (nat_ascii_bounded c). lia.
Qed.

Definition hex_ok (c : ascii) : bool :=
  match unhex (upper_hex (code c / 16)), unhex (upper_hex (code c mod 16)) with
  | Some x, Some y => Ascii.eqb (chr (Z.to_nat (16 * x + y))) c
  | _, _ => false
  end.
Lemma hex_back c :
  exists x y, unhex (upper_hex (code c / 16)) = Some x /\ unhex (upper_hex (code c mod 16)) = Some y /\
              chr (Z.to_nat (16 * x + y)) = c.
Proof.
  assert (H : hex_ok c = true) by (apply (every_byte hex_ok); vm_compute; reflexivity).
  unfold hex_ok in H. destruct (unhex _) as [x|]; [|done]. destruct (unhex _) as [y|]; [|done].
  exists x, y. split_and!; [done..|]. by apply Ascii.eqb_eq.
Qed.

Lemma escape_back s mode : unescape (escape s mode) mode = Some s.
Proof.
  induction s as [|c s IH]; [done|].
  assert (Hp : forall m, shouldEscape c m = false -> Ascii.eqb c "%" = false /\ (m = QueryComponent -> Ascii.eqb c "+" = false)).
  { intros m Hc. split; [|intros ->]; apply not_true_is_false; intros E%Ascii.eqb_eq; subst c; [by destruct m|done]. }
  assert (He : forall m, unescape (escape s m) m = Some s ->
    unescape (String "%" (String (upper_hex (code c / 16)) (String (upper_hex (code c mod 16)) (escape s m)))) m = Some (String c s)).
  { intros m Hm. destruct (hex_back c) as (x & y & Hx & Hy & Hc). cbn [unescape]. change (Ascii.eqb "%" "%") with true.
    cbn iota. rewrite Hx, Hy, Hm. cbn. by rewrite Hc. }
  destruct mode; cbn [escape].
  - destruct (shouldEscape c PathSegment) eqn:E; [by apply He|].
    destruct (Hp _ E) as [H1 _]. cbn [unescape]. by rewrite H1, IH.
  - destruct (Ascii.eqb_spec c " ") as [->|_]; [cbn; by rewrite IH|].
    destruct (shouldEscape c QueryComponent) eqn:E; [by apply He|].
    destruct (Hp _ E) as [H1 H2]. cbn [unescape]. rewrite H1, (H2 eq_refl). by rewrite IH.
Qed.

(** No byte that would end a segment of a path is left in an escaped one. *)
Lemma segment_free b s : contains_byte b "/?#" = true -> contains_byte b (PathEscape s) = false.
Proof.
  intros Hb. unfold PathEscape. induction s as [|c s IH]; [done|]. cbn [escape].
  assert (Hhex : forall z, 0 <= z < 16 -> Ascii.eqb b (upper_hex z) = false).
  { intros z Hz. apply not_true_is_false. intros ->%Ascii.eqb_eq.
    assert (z ∈ seqZ 0 16) as Hin by (apply elem_of_seqZ; lia).
    assert (Hall : forallb (fun z => negb (contains_byte (upper_hex z) "/?#")) (seqZ 0 16) = true) by (vm_compute; reflexivity).
    rewrite forallb_forall in Hall. specialize (Hall z (proj2 (In_elem_of _ _) Hin)). by rewrite Hb in Hall. }
  assert (Hc : 0 <= code c < 256) by (unfold code; pose proof (nat_ascii_bounded c); lia).
  destruct (shouldEscape c PathSegment) eqn:E; rewrite !contains_byte_cons, IH.
  - rewrite !Hhex, !orb_false_r; [|apply Z.mod_pos_bound; lia|split; [apply Z.div_pos; lia|apply Z.div_lt_upper_bound; lia]].
    apply not_true_is_false. intros ->%Ascii.eqb_eq. done.
  - rewrite orb_false_r. apply not_true_is_false. intros ->%Ascii.eqb_eq. revert Hb E.
    assert (Hall : forall c, (negb (contains_byte c "/?#") || shouldEscape c PathSegment) = true)
      by (apply every_byte; vm_compute; reflexivity).
    specialize (Hall c). intros Hb E. by rewrite Hb, E in Hall.
Qed.
End Escaping.
