(* ===== verification/Json.v ===== *)
(** * Json: encoding/json as the program uses it

    Values, the text Marshal writes, the reader behind Unmarshal and Decoder,
    and the rules by which a value fills a struct.  A number is kept as its
    literal, as the package keeps it until it knows the type to fill. *)
From S2P Require Import Prelude GoText.
From Stdlib Require Import Ascii.
Open Scope string_scope.
Open Scope list_scope.
Open Scope Z_scope.

Inductive Json :=
  | JNull
  | JBool (b : bool)
  | JNum (literal : string)
  | JStr (s : string)
  | JArr (items : list Json)
  | JObj (members : list (string * Json)).

(** ** Runes *)
Definition between (lo hi : Z) (c : ascii) : bool := (lo <=? code c) && (code c <=? hi).
Definition tail_byte : ascii -> bool := between 128 191.

(** utf8.DecodeRune: how many bytes the first rune takes; [None] where they
    are not UTF-8. *)
Definition rune_len (s : string) : option nat :=
  match s with
  | "" => None
  | String a s1 =>
      if code a <? 128 then Some 1%nat
      else if between 194 223 a then
        match s1 with String b _ => if tail_byte b then Some 2%nat else None | _ => None end
      else if between 224 239 a then
        match s1 with
        | String b (String c _) =>
            if between (if code a =? 224 then 160 else 128) (if code a =? 237 then 159 else 191) b && tail_byte c
            then Some 3%nat else None
        | _ => None
        end
      else if between 240 244 a then
        match s1 with
        | String b (String c (String d _)) =>
            if between (if code a =? 240 then 144 else 128) (if code a =? 244 then 143 else 191) b &&
               tail_byte c && tail_byte d
            then Some 4%nat else None
        | _ => None
        end
      else None
  end.

Definition bytes_of (l : list Z) : string := foldr (fun z s => String (chr (Z.to_nat z)) s) "" l.

(** utf8.EncodeRune *)
Definition encode_rune (r : Z) : string :=
  if r <? 128 then bytes_of [r]
  else if r <? 2048 then bytes_of [192 + r / 64; 128 + r mod 64]
  else if r <? 65536 then bytes_of [224 + r / 4096; 128 + r / 64 mod 64; 128 + r mod 64]
  else bytes_of [240 + r / 262144; 128 + r / 4096 mod 64; 128 + r / 64 mod 64; 128 + r mod 64].
Definition replacement : string := bytes_of [239; 191; 189].

(** utf8.ValidString *)
Fixpoint valid_go (fuel : nat) (s : string) : bool :=
  match s, fuel with
  | "", _ => true
  | _, O => false
  | _, S n => match rune_len s with Some k => valid_go n (drop_bytes k s) | None => false end
  end.
Definition valid_utf8 (s : string) : bool := valid_go (String.length s) s.
#[global] Arguments valid_utf8 : simpl never.

(** ** Writing *)
Definition quote_char : ascii := chr 34.
Definition backslash : ascii := chr 92.
Definition low_hex (z : Z) : ascii := chr (Z.to_nat (if z <? 10 then 48 + z else 87 + z)).

(** The escape of one ASCII byte inside a string, HTML bytes included. *)
Definition escape_byte (c : ascii) : string :=
  if Ascii.eqb c quote_char || Ascii.eqb c backslash then String backslash (String c "")
  else if code c =? 8 then String backslash "b"
  else if code c =? 12 then String backslash "f"
  else if code c =? 10 then String backslash "n"
  else if code c =? 13 then String backslash "r"
  else if code c =? 9 then String backslash "t"
  else if (code c <? 32) || contains_byte c "<>&"
  then String backslash ("u00" +:+ String (low_hex (code c / 16)) (String (low_hex (code c mod 16)) ""))
  else String c "".

Definition line_separator : string := bytes_of [226; 128; 168].
Definition paragraph_separator : string := bytes_of [226; 128; 169].

Fixpoint quote_go (fuel : nat) (s : string) : string :=
  match s, fuel with
  | String c s', S n =>
      match rune_len s with
      | None => String backslash "ufffd" +:+ quote_go n s'
      | Some k =>
          let r := take_bytes k s in
          (if Nat.eqb k 1 then escape_byte c
           else if String.eqb r line_separator then String backslash "u2028"
           else if String.eqb r paragraph_separator then String backslash "u2029"
           else r) +:+ quote_go n (drop_bytes k s)
      end
  | _, _ => ""
  end.
Definition quote (s : string) : string := String quote_char (quote_go (String.length s) s +:+ String quote_char "").

(** json.Marshal *)
Fixpoint print (j : Json) : string :=
  match j with
  | JNull => "null"
  | JBool b => if b then "true" else "false"
  | JNum literal => literal
  | JStr s => quote s
  | JArr items => "[" +:+ Join (map print items) "," +:+ "]"
  | JObj members =>
      "{" +:+ Join (map (fun kv => match kv with (k, v) => quote k +:+ ":" +:+ print v end) members) "," +:+ "}"
  end.

(** ** Reading *)
Definition is_ws (c : ascii) : bool := (code c =? 32) || (code c =? 9) || (code c =? 10) || (code c =? 13).
Fixpoint skip_ws (s : string) : string :=
  match s with String c s' => if is_ws c then skip_ws s' else s | "" => "" end.

Definition hex_value (c : ascii) : option Z :=
  if is_digit c then Some (code c - 48)
  else if between 97 102 c then Some (code c - 87)
  else if between 65 70 c then Some (code c - 55)
  else None.

Definition hex4 (s : string) : option (Z * string) :=
  match s with
  | String a (String b (String c (String d s'))) =>
      match hex_value a, hex_value b, hex_value c, hex_value d with
      | Some w, Some x, Some y, Some z => Some (((w * 16 + x) * 16 + y) * 16 + z, s')
      | _, _, _, _ => None
      end
  | _ => None
  end.

Definition escaped (c : ascii) : option ascii :=
  if Ascii.eqb c quote_char || Ascii.eqb c backslash || Ascii.eqb c "/" then Some c
  else if Ascii.eqb c "b" then Some (chr 8)
  else if Ascii.eqb c "f" then Some (chr 12)
  else if Ascii.eqb c "n" then Some (chr 10)
  else if Ascii.eqb c "r" then Some (chr 13)
  else if Ascii.eqb c "t" then Some (chr 9)
  else None.

Definition high_surrogate (r : Z) : bool := (55296 <=? r) && (r <? 56320).
Definition low_surrogate (r : Z) : bool := (56320 <=? r) && (r <? 57344).

(** After \u and its four digits [r]: the bytes meant, and what is left. *)
Definition unit_text (r : Z) (s : string) : string * string :=
  if high_surrogate r then
    match s with
    | String b (String u s') =>
        if Ascii.eqb b backslash && Ascii.eqb u "u" then
          match hex4 s' with
          | Some (r2, s'') =>
              if low_surrogate r2
              then (encode_rune ((r - 55296) * 1024 + (r2 - 56320) + 65536), s'')
              else (replacement, s)
          | None => (replacement, s)
          end
        else (replacement, s)
    | _ => (replacement, s)
    end
  else if low_surrogate r then (replacement, s)
  else (encode_rune r, s).

(** The content of a string up to its closing quote, and the rest. *)
Fixpoint string_go (fuel : nat) (s : string) : option (string * string) :=
  match s, fuel with
  | String c s', S n =>
      let then_ (text rest : string) := '(t, r) ← string_go n rest; Some (text +:+ t, r) in
      if Ascii.eqb c quote_char then Some ("", s')
      else if Ascii.eqb c backslash then
        match s' with
        | String e s'' =>
            match escaped e with
            | Some b => then_ (String b "") s''
            | None =>
                if Ascii.eqb e "u" then
                  match hex4 s'' with
                  | Some (r, s3) => let '(text, rest) := unit_text r s3 in then_ text rest
                  | None => None
                  end
                else None
            end
        | "" => None
        end
      else if code c <? 32 then None
      else match rune_len s with
           | Some k => then_ (take_bytes k s) (drop_bytes k s)
           | None => then_ replacement s'
           end
  | _, _ => None
  end.

Definition fraction (s : string) : option (string * string) :=
  match s with
  | String c s' =>
      if Ascii.eqb c "." then
        match span_digits s' with ("", _) => None | (d, r) => Some (String c d, r) end
      else Some ("", s)
  | "" => Some ("", "")
  end.

Definition exponent (s : string) : option (string * string) :=
  match s with
  | String c s' =>
      if Ascii.eqb c "e" || Ascii.eqb c "E" then
        let '(sign, s'') := match s' with
                            | String p s3 => if Ascii.eqb p "+" || Ascii.eqb p "-" then (String p "", s3) else ("", s')
                            | "" => ("", "")
                            end in
        match span_digits s'' with ("", _) => None | (d, r) => Some (String c (sign +:+ d), r) end
      else Some ("", s)
  | "" => Some ("", "")
  end.

Definition number (s : string) : option (string * string) :=
  let '(sign, s1) := match s with
                     | String c s' => if Ascii.eqb c "-" then ("-", s') else ("", s)
                     | "" => ("", "")
                     end in
  match span_digits s1 with
  | ("", _) => None
  | (String d more, s2) =>
      let '(whole, s3) := if Ascii.eqb d "0" then ("0", more +:+ s2) else (String d more, s2) in
      '(f, s4) ← fraction s3;
      '(e, s5) ← exponent s4;
      Some (sign +:+ whole +:+ f +:+ e, s5)
  end.

Definition maxNestingDepth : Z := 10000.

(** A value, the items of an array and the members of an object: each answers
    with what it read and what is left.  [depth] counts what is open. *)
Fixpoint value (fuel : nat) (depth : Z) (s : string) {struct fuel} : option (Json * string) :=
  match fuel with
  | O => None
  | S n =>
      match skip_ws s with
      | "" => None
      | String c s' =>
          if Ascii.eqb c quote_char then '(t, r) ← string_go (String.length s') s'; Some (JStr t, r)
          else if Ascii.eqb c "[" then
            if maxNestingDepth <=? depth then None else
            match skip_ws s' with
            | String d r => if Ascii.eqb d "]" then Some (JArr [], r)
                            else '(l, r) ← items n (depth + 1) s'; Some (JArr l, r)
            | "" => None
            end
          else if Ascii.eqb c "{" then
            if maxNestingDepth <=? depth then None else
            match skip_ws s' with
            | String d r => if Ascii.eqb d "}" then Some (JObj [], r)
                            else '(l, r) ← members n (depth + 1) s'; Some (JObj l, r)
            | "" => None
            end
          else if HasPrefix (String c s') "null" then Some (JNull, drop_bytes 4 (String c s'))
          else if HasPrefix (String c s') "true" then Some (JBool true, drop_bytes 4 (String c s'))
          else if HasPrefix (String c s') "false" then Some (JBool false, drop_bytes 5 (String c s'))
          else '(l, r) ← number (String c s'); Some (JNum l, r)
      end
  end
with items (fuel : nat) (depth : Z) (s : string) {struct fuel} : option (list Json * string) :=
  match fuel with
  | O => None
  | S n =>
      '(v, r) ← value n depth s;
      match skip_ws r with
      | String c r' =>
          if Ascii.eqb c "," then '(l, r'') ← items n depth r'; Some (v :: l, r'')
          else if Ascii.eqb c "]" then Some ([v], r')
          else None
      | "" => None
      end
  end
with members (fuel : nat) (depth : Z) (s : string) {struct fuel} : option (list (string * Json) * string) :=
  match fuel with
  | O => None
  | S n =>
      match skip_ws s with
      | String q s' =>
          if Ascii.eqb q quote_char then
            '(k, r) ← string_go (String.length s') s';
            match skip_ws r with
            | String c r' =>
                if Ascii.eqb c ":" then
                  '(v, r2) ← value n depth r';
                  match skip_ws r2 with
                  | String d r3 =>
                      if Ascii.eqb d "," then '(l, r4) ← members n depth r3; Some ((k, v) :: l, r4)
                      else if Ascii.eqb d "}" then Some ([(k, v)], r3)
                      else None
                  | "" => None
                  end
                else None
            | "" => None
            end
          else None
      | "" => None
      end
  end.

(** Fuel for a text: a value inside another is at least one byte shorter. *)
Definition enough (s : string) : nat := S (2 * String.length s).

(** json.Unmarshal reads one value and nothing after it. *)
Definition Unmarshal (s : string) : option Json :=
  '(j, r) ← value (enough s) 0 s;
  match skip_ws r with "" => Some j | _ => None end.

(** Decoder.Decode on the bytes not read yet. *)
Inductive Next := AtEnd | Next_value (j : Json) (rest : string) | Malformed.
Definition decode_next (s : string) : Next :=
  match skip_ws s with
  | "" => AtEnd
  | _ => match value (enough s) 0 s with Some (j, r) => Next_value j r | None => Malformed end
  end.

(** ** Filling a Go value: [None] is an UnmarshalTypeError; null changes
    nothing. *)
Definition Fill (A : Type) : Type := Json -> A -> option A.

Definition fill_string : Fill string := fun j old =>
  match j with JStr s => Some s | JNull => Some old | _ => None end.
Definition fill_bool : Fill bool := fun j old =>
  match j with JBool b => Some b | JNull => Some old | _ => None end.
Definition fill_int : Fill Z := fun j old =>
  match j with JNum l => Atoi l | JNull => Some old | _ => None end.
Definition fill_list {A} (zero : A) (fill : Fill A) : Fill (list A) := fun j _ =>
  match j with JArr l => mapM (fun x => fill x zero) l | JNull => Some [] | _ => None end.
Definition fill_map : Fill (gmap string string) := fun j old =>
  match j with
  | JObj members => foldl (fun acc kv => m ← acc; v ← fill_string kv.2 ""; Some (<[kv.1 := v]> m)) (Some old) members
  | JNull => Some ∅
  | _ => None
  end.

(** A key names a field whatever its case (foldName): ASCII letters, and the
    two other runes that fold to one. *)
Fixpoint fold_name (s : string) : string :=
  match s with
  | "" => ""
  | String a s1 =>
      let plain := String (lower_byte a) (fold_name s1) in
      match s1 with
      | "" => plain
      | String b s2 =>
          if (code a =? 197) && (code b =? 191) then String "s" (fold_name s2)
          else match s2 with
               | String c s3 =>
                   if (code a =? 226) && (code b =? 132) && (code c =? 170) then String "k" (fold_name s3) else plain
               | "" => plain
               end
      end
  end.
Definition names (field key : string) : bool := String.eqb (fold_name field) (fold_name key).

(** A field of a struct, named by the path from the value: every member that
    names it fills it in turn, so the last one wins.  Each field is filled on its
    own, which is the same because one key names one field. *)
Fixpoint at_path {A} (path : list string) (fill : Fill A) : Fill A :=
  match path with
  | [] => fill
  | name :: path' => fun j old =>
      match j with
      | JObj members =>
          foldl (fun acc kv => a ← acc; if names name kv.1 then at_path path' fill kv.2 a else Some a) (Some old) members
      | JNull => Some old
      | _ => None
      end
  end.
