(* ===== verification/JsonProofs.v ===== *)
(** * JsonProofs: what Marshal writes is read back

    For values whose texts are UTF-8, whose numbers are integers and whose
    nesting the reader accepts. *)
From S2P Require Import Prelude GoText Json.
From Stdlib Require Import Ascii.
Open Scope string_scope.
Open Scope list_scope.
Open Scope Z_scope.

(** ** Induction on nested values *)
Section JsonInd.
Variable P : Json -> Prop.
Hypothesis HNull : P JNull.
Hypothesis HBool : forall b, P (JBool b).
Hypothesis HNum : forall l, P (JNum l).
Hypothesis HStr : forall s, P (JStr s).
Hypothesis HArr : forall l, Forall P l -> P (JArr l).
Hypothesis HObj : forall l, Forall (fun kv => P kv.2) l -> P (JObj l).

Lemma Json_nested_ind j : P j.
Proof using All.
  revert j. fix FIX 1. intros [|b|l|s|l|l]; [exact HNull|apply HBool|apply HNum|apply HStr|apply HArr|apply HObj].
  - induction l as [|j l IH]; constructor; [apply FIX|exact IH].
  - induction l as [|[k j] l IH]; constructor; [apply FIX|exact IH].
Qed.
End JsonInd.

(** ** Strings *)
(** A rune is decided by its own bytes. *)
Lemma rune_len_app s k t : rune_len s = Some k -> rune_len (take_bytes k s +:+ t) = Some k.
Proof.
  unfold rune_len. destruct s as [|a s1]; [done|].
  destruct (code a <? 128) eqn:E1.
  { intros [= <-]. cbn [take_bytes]. rewrite !append_cons. by rewrite E1. }
  destruct (between 194 223 a) eqn:E2.
  { destruct s1 as [|b s1]; [done|]. destruct (tail_byte b) eqn:Eb; [|done]. intros [= <-]. cbn [take_bytes]. rewrite !append_cons. by rewrite E1, E2, Eb. }
  destruct (between 224 239 a) eqn:E3.
  { destruct s1 as [|b [|c s1]]; [done..|]. destruct (_ && _) eqn:Eb; [|done]. intros [= <-]. cbn [take_bytes]. rewrite !append_cons. by rewrite E1, E2, E3, Eb. }
  destruct (between 240 244 a) eqn:E4; [|done].
  destruct s1 as [|b [|c [|d s1]]]; [done..|]. destruct (_ && _) eqn:Eb; [|done].
  intros [= <-]. cbn [take_bytes]. rewrite !append_cons. by rewrite E1, E2, E3, E4, Eb.
Qed.

Lemma rune_len_bounds s k : rune_len s = Some k -> (1 <= k <= String.length s)%nat.
Proof.
  unfold rune_len. destruct s as [|a s1]; [done|].
  destruct (code a <? 128); [intros [= <-]; cbn; lia|].
  destruct (between 194 223 a).
  { destruct s1 as [|b s1]; [done|]. destruct (tail_byte b); [|done]. intros [= <-]; cbn; lia. }
  destruct (between 224 239 a).
  { destruct s1 as [|b [|c s1]]; [done..|]. destruct (_ && _); [|done]. intros [= <-]; cbn; lia. }
  destruct (between 240 244 a); [|done].
  destruct s1 as [|b [|c [|d s1]]]; [done..|]. destruct (_ && _); [|done]. intros [= <-]; cbn; lia.
Qed.

Lemma rune_len_ascii c s : rune_len (String c s) = Some 1%nat -> (code c <? 128) = true.
Proof.
  unfold rune_len. destruct (code c <? 128) eqn:E; [done|].
  destruct (between 194 223 c); [destruct s; [done|]; by destruct (tail_byte _)|].
  destruct (between 224 239 c); [destruct s as [|? [|]]; [done..|]; by destruct (_ && _)|].
  destruct (between 240 244 c); [|done]. destruct s as [|? [|? [|]]]; [done..|]; by destruct (_ && _).
Qed.

Lemma take_bytes_len k s t : (k <= String.length s)%nat -> take_bytes k (take_bytes k s +:+ t) = take_bytes k s.
Proof.
  revert s. induction k as [|k IH]; intros [|c s] Hk; cbn [String.length] in Hk; [done..|lia|].
  cbn [take_bytes]. rewrite append_cons. cbn [take_bytes]. f_equal. apply IH. lia.
Qed.
Lemma drop_bytes_len k s t : (k <= String.length s)%nat -> drop_bytes k (take_bytes k s +:+ t) = t.
Proof.
  revert s. induction k as [|k IH]; intros [|c s] Hk; cbn [String.length] in Hk; [done..|lia|].
  cbn [take_bytes]. rewrite append_cons. cbn [drop_bytes]. apply IH. lia.
Qed.

(** One more piece of a string, read in front of the rest. *)
Definition read_more (text : string) (r : option (string * string)) : option (string * string) :=
  '(t, rest) ← r; Some (text +:+ t, rest).

Lemma read_escaped c m t :
  (code c <? 128) = true -> string_go (S m) (escape_byte c +:+ t) = read_more (String c "") (string_go m t).
Proof. destruct c as [[][][][][][][][]]; intros Hc; try discriminate Hc; reflexivity. Qed.

Lemma read_separator r m t :
  r = line_separator \/ r = paragraph_separator ->
  string_go (S m) ((if String.eqb r line_separator then String backslash "u2028" else String backslash "u2029") +:+ t) =
  read_more r (string_go m t).
Proof. intros [-> | ->]; reflexivity. Qed.

Lemma read_rune c s k m t :
  rune_len (String c s) = Some (S (S k)) ->
  string_go (S m) (take_bytes (S (S k)) (String c s) +:+ t) = read_more (take_bytes (S (S k)) (String c s)) (string_go m t).
Proof.
  intros Hk. pose proof (rune_len_app _ _ t Hk) as Ht. pose proof (rune_len_bounds _ _ Hk) as Hb.
  assert (Hc : (code c <? 128) = false).
  { revert Hk. unfold rune_len. destruct (code c <? 128); [done|]. done. }
  pose proof (take_bytes_len _ _ t (proj2 Hb)) as H1. pose proof (drop_bytes_len _ _ t (proj2 Hb)) as H2.
  remember (take_bytes (S (S k)) (String c s)) as w eqn:Hw.
  assert (HX : exists u, w +:+ t = String c u) by (subst w; eexists; reflexivity). destruct HX as [u HX].
  assert (Hq : Ascii.eqb c quote_char = false /\ Ascii.eqb c backslash = false /\ (code c <? 32) = false).
  { split_and!; [apply not_true_is_false; intros ->%Ascii.eqb_eq; done..|]. apply Z.ltb_ge in Hc. apply Z.ltb_ge. lia. }
  destruct Hq as (Hq1 & Hq2 & Hq3). rewrite HX. cbn [string_go]. rewrite Hq1, Hq2, Hq3. rewrite <- HX, Ht, H1, H2. done.
Qed.

(** What quote wrote is read up to the closing quote. *)
Lemma string_go_quote n s q m rest :
  valid_go n s = true -> (String.length s <= q)%nat -> (String.length (quote_go q s) < m)%nat ->
  string_go m (quote_go q s +:+ String quote_char rest) = Some (s, rest).
Proof.
  revert s q m. induction n as [|n IH]; intros s q m Hv Hq Hm.
  { destruct s as [|c s]; [|done]. destruct m; [lia|]. by destruct q. }
  destruct s as [|c s]; [destruct m; [lia|]; by destruct q|].
  cbn [valid_go] in Hv. destruct (rune_len (String c s)) as [k|] eqn:Hk; [|done].
  pose proof (rune_len_bounds _ _ Hk) as Hb. pose proof (take_drop_bytes k (String c s)) as Hsplit.
  destruct q as [|q]; [cbn in Hq; lia|]. revert Hm. cbn [quote_go]. rewrite Hk.
  pose proof (length_drop_bytes k (String c s)) as Hl.
  set (d := drop_bytes k (String c s)) in *.
  assert (Hrest : forall m, (String.length (quote_go q d) < m)%nat ->
    string_go m (quote_go q d +:+ String quote_char rest) = Some (d, rest)).
  { intros m' Hm'. apply (IH d q m'); [done|lia|done]. }
  assert (Hread : read_more (take_bytes k (String c s)) (Some (d, rest)) = Some (String c s, rest))
    by (cbn [read_more]; unfold read_more; cbn; by rewrite Hsplit).
  rewrite string_app_assoc, app_string_length.
  destruct k as [|[|k]]; [lia|..].
  - cbn [Nat.eqb]. intros Hm. destruct m as [|m]; [lia|]. apply rune_len_ascii in Hk.
    rewrite read_escaped by done. rewrite Hrest; [exact Hread|].
    assert (1 <= String.length (escape_byte c))%nat; [|lia].
    clear. by destruct c as [[][][][][][][][]]; apply Nat.leb_le.
  - cbn [Nat.eqb]. set (w := take_bytes (S (S k)) (String c s)) in *.
    destruct (String.eqb_spec w line_separator) as [Ew|_].
    { intros Hm. destruct m as [|m]; [lia|].
      pose proof (read_separator w m (quote_go q d +:+ String quote_char rest) (or_introl Ew)) as R.
      rewrite Ew, String.eqb_refl in R. rewrite R, Hrest; [by rewrite <- Ew|]. vm_compute (String.length (String _ _)) in Hm. lia. }
    destruct (String.eqb_spec w paragraph_separator) as [Ew|_].
    { intros Hm. destruct m as [|m]; [lia|].
      pose proof (read_separator w m (quote_go q d +:+ String quote_char rest) (or_intror Ew)) as R.
      rewrite Ew in R. change (String.eqb paragraph_separator line_separator) with false in R.
      rewrite R, Hrest; [by rewrite <- Ew|]. vm_compute (String.length (String _ _)) in Hm. lia. }
    intros Hm. destruct m as [|m]; [lia|]. unfold w. rewrite read_rune by done. rewrite Hrest; [exact Hread|].
    assert (1 <= String.length w)%nat; [|lia]. unfold w. rewrite length_take_bytes. cbn [String.length] in *. lia.
Qed.

Lemma quote_read s rest :
  valid_utf8 s = true ->
  exists body, quote s +:+ rest = String quote_char body /\ string_go (String.length body) body = Some (s, rest).
Proof.
  intros Hv. unfold quote. eexists. split; [by rewrite append_cons, string_app_assoc|].
  rewrite append_cons. apply (string_go_quote (String.length s)); [done..|].
  rewrite app_string_length. cbn [String.length]. lia.
Qed.

(** ** Numbers *)
Definition stops (s : string) : bool :=
  match s with String c _ => negb (is_digit c || contains_byte c ".eE") | "" => true end.

Lemma span_digits_app d rest :
  all_digits d = true -> match rest with String c _ => is_digit c = false | "" => True end ->
  span_digits (d +:+ rest) = (d, rest).
Proof.
  intros Hd Hr. induction d as [|c d IH].
  - change ("" +:+ rest) with rest. destruct rest as [|c rest]; [done|]. cbn [span_digits]. by rewrite Hr.
  - cbn [all_digits] in Hd. apply andb_true_iff in Hd as [Hc Hd].
    rewrite append_cons. cbn [span_digits]. by rewrite Hc, IH.
Qed.

Lemma itoa_go_nonzero fuel z acc :
  0 < z < 2 ^ Z.of_nat fuel -> exists c s, itoa_go fuel z acc = String c s /\ c <> "0"%char.
Proof.
  revert z acc. induction fuel as [|n IH]; intros z acc Hz; [cbn in Hz; lia|].
  cbn [itoa_go]. destruct (Z.eqb_spec (z / 10) 0) as [E|E].
  - exists (digit (z mod 10)), acc. split; [done|]. intros Hc.
    assert (Hm : z mod 10 = z) by (apply Z.mod_small; pose proof (Z.div_mod z 10); pose proof (Z.mod_pos_bound z 10); lia).
    apply (f_equal code) in Hc. rewrite code_digit in Hc by (pose proof (Z.mod_pos_bound z 10); lia).
    change (code "0") with 48 in Hc. lia.
  - apply IH. rewrite Nat2Z.inj_succ, Z.pow_succ_r in Hz by lia.
    assert (0 <= z / 10) by (apply Z.div_pos; lia). split; [lia|].
    apply Z.div_lt_upper_bound; lia.
Qed.

Lemma utoa_head z : 0 <= z -> exists c s, utoa z = String c s /\ is_digit c = true /\ (c = "0"%char -> s = "").
Proof.
  intros Hz. destruct (Z.eq_dec z 0) as [->|Hn]; [by exists "0"%char, ""|].
  pose proof (utoa_all_digits z Hz) as Hd. unfold utoa in *.
  destruct (itoa_go_nonzero (S (Z.to_nat (Z.log2 z))) z "") as (c & s & E & Hc).
  { rewrite Nat2Z.inj_succ, Z2Nat.id by apply Z.log2_nonneg. pose proof (Z.log2_spec z). lia. }
  rewrite E in *. cbn [all_digits] in Hd. apply andb_true_iff in Hd as [Hd _]. by exists c, s.
Qed.

Lemma number_itoa z rest : stops rest = true -> number (itoa z +:+ rest) = Some (itoa z, rest).
Proof.
  intros Hr.
  assert (Hs : match rest with String c _ => is_digit c = false | "" => True end).
  { destruct rest as [|c r]; [done|]. cbn in Hr. by destruct (is_digit c). }
  assert (Hu : forall u, 0 <= u -> number (utoa u +:+ rest) = Some (utoa u, rest) /\
                         number (String "-" (utoa u) +:+ rest) = Some (String "-" (utoa u), rest)).
  { intros u Hu. destruct (utoa_head u Hu) as (c & s & E & Hc & H0).
    assert (Hm : Ascii.eqb c "-" = false) by (apply not_true_is_false; intros ->%Ascii.eqb_eq; done).
    pose proof (span_digits_app (utoa u) rest (utoa_all_digits u Hu) Hs) as Hd.
    assert (Hf : fraction rest = Some ("", rest) /\ exponent rest = Some ("", rest)).
    { destruct rest as [|d r]; [done|]. cbn in Hr. unfold fraction, exponent.
      rewrite contains_byte_cons in Hr || idtac.
      destruct (Ascii.eqb_spec d ".") as [->|]; [done|]. destruct (Ascii.eqb_spec d "e") as [->|]; [done|].
      by destruct (Ascii.eqb_spec d "E") as [->|]. }
    destruct Hf as [Hf He].
    assert (Hw : (if Ascii.eqb c "0" then ("0", s +:+ rest) else (String c s, rest)) = (utoa u, rest)).
    { rewrite E. destruct (Ascii.eqb_spec c "0") as [->|]; [|done]. by rewrite (H0 eq_refl). }
    rewrite E in Hd, Hw |- *. unfold number. split.
    - rewrite append_cons. cbv beta iota. rewrite Hm. cbv beta iota. rewrite <- append_cons, Hd. cbv beta iota. rewrite Hw. cbn. rewrite Hf. cbn. rewrite He. cbn.
      by rewrite !string_app_nil.
    - rewrite append_cons. cbv beta iota. change (Ascii.eqb "-" "-") with true. cbv beta iota. rewrite Hd. cbv beta iota. rewrite Hw. cbn. rewrite Hf. cbn. rewrite He. cbn.
      by rewrite !string_app_nil. }
  unfold itoa. destruct (Z.ltb_spec z 0); [apply (Hu (- z)); lia|by apply Hu].
Qed.

(** ** Values *)
Fixpoint writable (j : Json) : Prop :=
  match j with
  | JNull | JBool _ => True
  | JNum l => exists z, l = itoa z
  | JStr s => valid_utf8 s = true
  | JArr l => foldr (fun x rest => writable x /\ rest) True l
  | JObj l => foldr (fun kv rest => match kv with (k, x) => valid_utf8 k = true /\ writable x /\ rest end) True l
  end.

Fixpoint height (j : Json) : Z :=
  match j with
  | JArr l => 1 + foldr (fun x h => Z.max (height x) h) 0 l
  | JObj l => 1 + foldr (fun kv h => match kv with (_, x) => Z.max (height x) h end) 0 l
  | _ => 0
  end.

Lemma height_nonneg j : 0 <= height j.
Proof.
  induction j as [| | | |l IH|l IH] using Json_nested_ind; cbn [height]; [lia..| |].
  - assert (0 <= foldr (fun x h => Z.max (height x) h) 0 l); [|lia]. induction IH; cbn; lia.
  - assert (0 <= foldr (fun kv h => match kv with (_, x) => Z.max (height x) h end) 0 l); [|lia].
    induction IH as [|[k x] l' Hx _ IHl]; cbn in *; lia.
Qed.

(** A value starts with no space and never closes an array. *)
Lemma print_head j :
  writable j -> exists c t, print j = String c t /\ is_ws c = false /\ Ascii.eqb c "]" = false.
Proof.
  destruct j as [|[]|l|s|l|l]; cbn [print writable]; intros Hw; try (eexists _, _; split; [reflexivity|done]).
  destruct Hw as [z ->]. unfold itoa. destruct (z <? 0) eqn:E; [by eexists _, _|].
  destruct (utoa_head z) as (c & s & -> & Hc & _); [lia|]. eexists _, _. split; [done|].
  destruct c as [[][][][][][][][]]; by try discriminate Hc.
Qed.

Lemma skip_ws_head c t : is_ws c = false -> skip_ws (String c t) = String c t.
Proof. intros H. cbn [skip_ws]. by rewrite H. Qed.

Lemma value_number n depth c s :
  is_digit c || Ascii.eqb c "-" = true ->
  value (S n) depth (String c s) = '(l, r) ← number (String c s); Some (JNum l, r).
Proof. intros Hc. destruct c as [[][][][][][][][]]; try discriminate Hc; reflexivity. Qed.

Lemma HasPrefix_other a b s p : Ascii.eqb b a = false -> HasPrefix (String a s) (String b p) = false.
Proof.
  intros H. unfold HasPrefix. cbn [String.prefix]. destruct (ascii_dec b a) as [->|]; [|done].
  by rewrite Ascii.eqb_refl in H.
Qed.

Lemma value_word n depth rest :
  value (S n) depth ("null" +:+ rest) = Some (JNull, rest) /\
  value (S n) depth ("true" +:+ rest) = Some (JBool true, rest) /\
  value (S n) depth ("false" +:+ rest) = Some (JBool false, rest).
Proof.
  split_and!; cbn [value];
    match goal with |- context [skip_ws (String ?a ?w +:+ ?r)] => change (String a w +:+ r) with (String a (w +:+ r)) end;
    rewrite skip_ws_head by done;
    repeat match goal with |- context [Ascii.eqb ?a ?b] => change (Ascii.eqb a b) with false end; cbn iota;
    rewrite ?(HasPrefix_other "t" "n"), ?(HasPrefix_other "f" "n"), ?(HasPrefix_other "f" "t") by done;
    rewrite <- append_cons, HasPrefix_app; reflexivity.
Qed.

Definition reads (j : Json) : Prop := forall n depth rest,
  (2 * String.length (print j) < n)%nat -> depth + height j <= maxNestingDepth -> stops rest = true ->
  value n depth (print j +:+ rest) = Some (j, rest).

(** The members of an object as they are printed. *)
Definition member (kv : string * Json) : string := match kv with (k, v) => quote k +:+ ":" +:+ print v end.

Lemma items_read l n depth rest :
  l <> [] -> Forall reads l -> Forall writable l ->
  (2 * String.length (Join (map print l) ",") + 1 < n)%nat ->
  depth + foldr (fun x h => Z.max (height x) h) 0 l <= maxNestingDepth ->
  items n depth (Join (map print l) "," +:+ String "]" rest) = Some (l, rest).
Proof.
  intros Hne Hr Hw. revert n Hne Hw. induction Hr as [|j l Hj Hl IH]; intros n Hne Hw Hn Hd; [done|].
  apply Forall_cons in Hw as [Hwj Hwl]. cbn [foldr] in Hd. pose proof (height_nonneg j).
  destruct n as [|n]; [lia|]. cbn [items]. destruct l as [|j' l].
  - cbn [map Join] in *. rewrite Hj; [|lia|cbn in Hd; lia|done]. cbn [mbind option_bind]. by rewrite skip_ws_head.
  - change (Join (map print (j :: j' :: l)) ",") with (print j +:+ String "," (Join (map print (j' :: l)) ",")) in *.
    rewrite string_app_assoc, append_cons, Hj.
    + rewrite app_string_length in Hn. cbn [String.length] in Hn.
      cbn [mbind option_bind]. rewrite skip_ws_head by done. change (Ascii.eqb "," ",") with true. cbn iota.
      rewrite IH; [done|done|done|lia|lia].
    + rewrite app_string_length in Hn. lia.
    + lia.
    + done.
Qed.

Lemma members_read l n depth rest :
  l <> [] -> Forall (fun kv => reads kv.2) l -> Forall (fun kv => valid_utf8 kv.1 = true /\ writable kv.2) l ->
  (2 * String.length (Join (map member l) ",") + 1 < n)%nat ->
  depth + foldr (fun kv h => match kv with (_, x) => Z.max (height x) h end) 0 l <= maxNestingDepth ->
  members n depth (Join (map member l) "," +:+ String "}" rest) = Some (l, rest).
Proof.
  intros Hne Hr Hw. revert n Hne Hw. induction Hr as [|[k j] l Hj Hl IH]; intros n Hne Hw Hn Hd; [done|].
  apply Forall_cons in Hw as [[Hk Hwj] Hwl]. cbn [foldr fst snd] in *. pose proof (height_nonneg j).
  destruct n as [|n]; [lia|].
  assert (Hone : forall tail, stops tail = true -> (2 * String.length (print j) < n)%nat ->
    members (S n) depth (member (k, j) +:+ tail) =
    match skip_ws tail with
    | String d r3 =>
        if Ascii.eqb d "," then '(l, r4) ← members n depth r3; Some ((k, j) :: l, r4)
        else if Ascii.eqb d "}" then Some ([(k, j)], r3)
        else None
    | "" => None
    end).
  { intros tail Ht Hlen. cbn [members member]. rewrite !string_app_assoc.
    destruct (quote_read k (":" +:+ print j +:+ tail) Hk) as (body & -> & Hb).
    rewrite skip_ws_head by done. rewrite Ascii.eqb_refl, Hb. cbn [mbind option_bind].
    rewrite append_cons. rewrite skip_ws_head by done. rewrite Ascii.eqb_refl.
    change ("" +:+ print j +:+ tail) with (print j +:+ tail). rewrite Hj; [done|lia|lia|done]. }
  assert (Hm : (String.length (print j) < String.length (member (k, j)))%nat).
  { cbn [member]. rewrite !app_string_length. cbn [String.length]. lia. }
  destruct l as [|kv l].
  - cbn [map Join] in *. rewrite Hone; [|done|lia]. rewrite skip_ws_head by done. done.
  - change (Join (map member ((k, j) :: kv :: l)) ",")
      with (member (k, j) +:+ String "," (Join (map member (kv :: l)) ",")) in *.
    rewrite app_string_length in Hn. cbn [String.length] in Hn.
    rewrite string_app_assoc, append_cons, Hone; [|done|lia].
    rewrite skip_ws_head by done. change (Ascii.eqb "," ",") with true. cbn iota.
    rewrite IH; [done|done|done|lia|lia].
Qed.

Lemma print_reads j : writable j -> reads j.
Proof.
  induction j as [|b|l|s|l IH|l IH] using Json_nested_ind; intros Hw n depth rest Hn Hd Hs.
  - destruct n as [|n]; [cbn in Hn; lia|apply value_word].
  - destruct n as [|n]; [lia|]. destruct b; apply value_word.
  - cbn [writable print] in *. destruct Hw as [z ->]. destruct n as [|n]; [lia|].
    assert (Hh : exists c s, itoa z = String c s /\ is_digit c || Ascii.eqb c "-" = true).
    { unfold itoa. destruct (Z.ltb_spec z 0); [by eexists _, _|].
      destruct (utoa_head z) as (c & s & -> & Hc & _); [lia|]. exists c, s. by rewrite Hc. }
    destruct Hh as (c & s & E & Hc). rewrite E, append_cons, value_number by done.
    by rewrite <- append_cons, <- E, number_itoa.
  - cbn [writable print] in *. destruct n as [|n]; [lia|].
    destruct (quote_read s rest Hw) as (body & -> & Hb). cbn [value]. rewrite skip_ws_head by done.
    by rewrite Ascii.eqb_refl, Hb.
  - cbn [writable print height] in *. destruct n as [|n]; [lia|].
    rewrite !app_string_length in Hn. cbn [String.length] in Hn.
    rewrite !string_app_assoc, append_cons. cbn [value]. rewrite skip_ws_head by done.
    change (Ascii.eqb "[" quote_char) with false. change (Ascii.eqb "[" "[") with true. cbn iota.
    assert (Hf : Forall writable l).
    { clear -Hw. induction l; [done|]. cbn in Hw. destruct Hw. constructor; auto. }
    assert (Hr : Forall reads l) by (eapply Forall_impl; [apply Forall_and; split; [exact IH|exact Hf]|]; intros x [H1 H2]; exact (H1 H2)).
    destruct (Z.leb_spec maxNestingDepth depth).
    { assert (0 <= foldr (fun x h => Z.max (height x) h) 0 l); [|lia]. clear. induction l; cbn; [|lia]. lia. }
    destruct l as [|j l]; [done|].
    assert (Hhd : exists c t, Join (map print (j :: l)) "," = String c t /\ is_ws c = false /\ Ascii.eqb c "]" = false).
    { apply Forall_cons in Hf as [Hj _]. destruct (print_head j Hj) as (c & t & E & H1 & H2).
      destruct l; cbn [map Join]; rewrite E, ?append_cons; eauto. }
    destruct Hhd as (c & t & E & H1 & H2).
    change ("" +:+ ?x) with x. rewrite E, append_cons, skip_ws_head by done. rewrite H2. rewrite <- append_cons, <- E.
    change ("]" +:+ rest) with (String "]" rest).
    rewrite items_read; [done|done|done|done|lia|lia].
  - cbn [writable print height] in *. destruct n as [|n]; [lia|].
    rewrite !app_string_length in Hn. cbn [String.length] in Hn.
    rewrite !string_app_assoc, append_cons. cbn [value]. rewrite skip_ws_head by done.
    change (Ascii.eqb "{" quote_char) with false. change (Ascii.eqb "{" "[") with false.
    change (Ascii.eqb "{" "{") with true. cbn iota.
    assert (Hf : Forall (fun kv => valid_utf8 kv.1 = true /\ writable kv.2) l).
    { clear -Hw. induction l as [|[] ? IH]; [done|]. cbn in Hw. destruct Hw as (? & ? & ?). constructor; auto. }
    assert (Hr : Forall (fun kv => reads kv.2) l)
      by (eapply Forall_impl; [apply Forall_and; split; [exact IH|exact Hf]|];
          intros kv [H1 [_ H2]]; exact (H1 H2)).
    destruct (Z.leb_spec maxNestingDepth depth).
    { assert (0 <= foldr (fun kv h => match kv with (_, x) => Z.max (height x) h end) 0 l); [|lia].
      clear. induction l as [|[] ? IH]; cbn; lia. }
    destruct l as [|[k j] l]; [done|].
    assert (Hhd : exists t, Join (map member ((k, j) :: l)) "," = String quote_char t).
    { unfold member, quote. destruct l; cbn [map Join]; eexists; by rewrite ?append_cons. }
    destruct Hhd as (t & E).
    change ("" +:+ ?x) with x. change (map _ ?x) with (map member x) in Hn |- *.
    rewrite E, append_cons, skip_ws_head by done. change (Ascii.eqb quote_char "}") with false. cbn iota.
    rewrite <- append_cons, <- E. change ("}" +:+ rest) with (String "}" rest).
    rewrite members_read; [done|done|done|done|lia|lia].
Qed.

(** json.Unmarshal gives back what json.Marshal was given. *)
Lemma Unmarshal_print j : writable j -> height j <= maxNestingDepth -> Unmarshal (print j) = Some j.
Proof.
  intros Hw Hh. unfold Unmarshal, enough.
  pose proof (print_reads j Hw (S (2 * String.length (print j))) 0 "") as H.
  rewrite string_app_nil in H. rewrite H; [done|lia|lia|done].
Qed.

(** ** Text that is UTF-8 *)
Lemma valid_go_enough n s m : valid_go n s = true -> (String.length s <= m)%nat -> valid_go m s = true.
Proof.
  revert s m. induction n as [|n IH]; intros s m Hv Hm; [destruct s; [by destruct m|done]|].
  destruct s as [|c s]; [by destruct m|]. destruct m as [|m]; [cbn in Hm; lia|].
  cbn [valid_go] in *. destruct (rune_len (String c s)) as [k|] eqn:Hk; [|done].
  apply IH; [done|]. pose proof (rune_len_bounds _ _ Hk). rewrite length_drop_bytes. lia.
Qed.

Lemma valid_utf8_app s t : valid_utf8 s = true -> valid_utf8 t = true -> valid_utf8 (s +:+ t) = true.
Proof.
  unfold valid_utf8. intros Hs Ht.
  assert (G : forall n s, valid_go n s = true -> valid_go (n + String.length t) (s +:+ t) = true).
  { clear s Hs. intros n. induction n as [|n IH]; intros s Hs.
    - destruct s; [|done]. change ("" +:+ t) with t. done.
    - destruct s as [|c s]; [apply (valid_go_enough _ _ _ Ht); lia|].
      cbn [valid_go] in Hs. destruct (rune_len (String c s)) as [k|] eqn:Hk; [|done].
      pose proof (rune_len_app _ _ (drop_bytes k (String c s) +:+ t) Hk) as Hk'.
      rewrite <- string_app_assoc, take_drop_bytes in Hk'.
      pose proof (rune_len_bounds _ _ Hk). cbn [Nat.add]. rewrite append_cons in *. cbn [valid_go].
      rewrite Hk', <- append_cons, drop_bytes_app by lia. by apply IH. }
  eapply valid_go_enough; [apply G, Hs|lia].
Qed.

Lemma valid_digits s : all_digits s = true -> valid_utf8 s = true.
Proof.
  induction s as [|c s IH]; [done|]. cbn [all_digits]. intros [Hc Hs]%andb_true_iff.
  change (String c s) with (String c "" +:+ s). apply valid_utf8_app; [|auto].
  destruct c as [[][][][][][][][]]; by try discriminate Hc.
Qed.
Lemma valid_itoa z : valid_utf8 (itoa z) = true.
Proof.
  unfold itoa. destruct (Z.ltb_spec z 0).
  - change (String "-" ?x) with ("-" +:+ x). apply valid_utf8_app; [done|]. apply valid_digits, utoa_all_digits. lia.
  - by apply valid_digits, utoa_all_digits.
Qed.

Lemma writable_arr l : Forall writable l -> writable (JArr l).
Proof. cbn [writable]. induction 1; cbn; auto. Qed.
Lemma writable_obj l : Forall (fun kv => valid_utf8 kv.1 = true /\ writable kv.2) l -> writable (JObj l).
Proof. cbn [writable]. induction 1 as [|[] ? []]; cbn; auto. Qed.
Lemma height_arr l h : 0 <= h -> Forall (fun x => height x <= h) l -> height (JArr l) <= 1 + h.
Proof. intros Hh. cbn [height]. induction 1; cbn; lia. Qed.
Lemma height_obj l h : 0 <= h -> Forall (fun kv => height kv.2 <= h) l -> height (JObj l) <= 1 + h.
Proof. intros Hh. cbn [height]. induction 1 as [|[] ? ? ? ?]; cbn in *; lia. Qed.

(** ** Streams of values *)
Lemma value_skip n depth s : value (S n) depth (String newline s) = value (S n) depth s.
Proof. done. Qed.

Lemma decode_next_print j rest :
  writable j -> height j <= maxNestingDepth -> stops rest = true ->
  decode_next (print j +:+ rest) = Next_value j rest.
Proof.
  intros Hw Hh Hs. unfold decode_next, enough.
  destruct (print_head j Hw) as (c & t & E & Hc & _).
  replace (skip_ws (print j +:+ rest)) with (print j +:+ rest) by (rewrite E, append_cons; by rewrite skip_ws_head).
  rewrite (print_reads j Hw); [|rewrite app_string_length; lia|lia|done]. by rewrite E, append_cons.
Qed.

Lemma decode_next_newline j rest :
  writable j -> height j <= maxNestingDepth -> stops rest = true ->
  decode_next (String newline (print j +:+ rest)) = Next_value j rest.
Proof.
  intros Hw Hh Hs. unfold decode_next, enough. rewrite value_skip.
  destruct (print_head j Hw) as (c & t & E & Hc & _).
  replace (skip_ws (String newline (print j +:+ rest))) with (print j +:+ rest).
  2: { change (skip_ws (String newline ?x)) with (skip_ws x). rewrite E, append_cons. by rewrite skip_ws_head. }
  rewrite (print_reads j Hw); [|cbn [String.length]; rewrite app_string_length; lia|lia|done].
  by rewrite E, append_cons.
Qed.

(** Values one after another, each followed by a newline. *)
Fixpoint stream (js : list Json) : string :=
  match js with [] => "" | j :: js' => print j +:+ String newline (stream js') end.
