(* ===== verification/Service.v ===== *)
(** * Service: what a service is and how its declaration is normalised

    src/service/service.go.  A declaration is a [Service]; [normalize] applies
    the defaults and refuses what the supervisor must never see; [parsePort]
    and [parseMount] read the two small languages inside it. *)
From S2P Require Import Prelude GoText GoTime GoPath.
From Stdlib Require Import Ascii SpecFloat.
Open Scope string_scope.
Open Scope list_scope.
Open Scope Z_scope.

Definition StateRunning := "running".
Definition StateStopped := "stopped".
Definition RestartAlways := "always".
Definition RestartOnFailure := "on-failure".
Definition RestartNever := "never".
Definition OverlapAllow := "overlap".
Definition OverlapSkip := "skip".
Definition MinimumEvery : Z := Second.
Definition DefaultMaxParallel : Z := 10.
Definition DefaultStopTimeout : Z := 30 * Second.
Definition Extension := ".filo".
Definition ArtifactSuffix := ".d".

Record Service := MkService {
  Name : string;
  Args : list string;
  Dir : string;
  Env : list string;
  State : string;
  Restart : string;
  StopTimeout : float64;
  Image : string;
  Ports : list string;
  Volumes : list string;
  Domain : list string;
  UpstreamPort : float64;
  Memory : float64;
  CPUs : float64;
  Every : string;
  Overlap : string;
  MaxParallel : float64;
  RunTimeout : string;
  ConfigHash : string;
}.

#[export] Instance Service_eq_dec : EqDecision Service.
Proof. solve_decision. Defined.

(** service.Service{} *)
Definition empty_service : Service :=
  MkService "" [] "" [] "" "" f64_zero "" [] [] [] f64_zero f64_zero f64_zero "" "" f64_zero "" "".

Definition with_Name (s : Service) (n : string) : Service :=
  MkService n (Args s) (Dir s) (Env s) (State s) (Restart s) (StopTimeout s) (Image s) (Ports s)
    (Volumes s) (Domain s) (UpstreamPort s) (Memory s) (CPUs s) (Every s) (Overlap s)
    (MaxParallel s) (RunTimeout s) (ConfigHash s).
Definition with_State (s : Service) (v : string) : Service :=
  MkService (Name s) (Args s) (Dir s) (Env s) v (Restart s) (StopTimeout s) (Image s) (Ports s)
    (Volumes s) (Domain s) (UpstreamPort s) (Memory s) (CPUs s) (Every s) (Overlap s)
    (MaxParallel s) (RunTimeout s) (ConfigHash s).
Definition with_Restart (s : Service) (v : string) : Service :=
  MkService (Name s) (Args s) (Dir s) (Env s) (State s) v (StopTimeout s) (Image s) (Ports s)
    (Volumes s) (Domain s) (UpstreamPort s) (Memory s) (CPUs s) (Every s) (Overlap s)
    (MaxParallel s) (RunTimeout s) (ConfigHash s).
Definition with_Overlap (s : Service) (v : string) : Service :=
  MkService (Name s) (Args s) (Dir s) (Env s) (State s) (Restart s) (StopTimeout s) (Image s)
    (Ports s) (Volumes s) (Domain s) (UpstreamPort s) (Memory s) (CPUs s) (Every s) v
    (MaxParallel s) (RunTimeout s) (ConfigHash s).
Definition with_Args (s : Service) (v : list string) : Service :=
  MkService (Name s) v (Dir s) (Env s) (State s) (Restart s) (StopTimeout s) (Image s) (Ports s)
    (Volumes s) (Domain s) (UpstreamPort s) (Memory s) (CPUs s) (Every s) (Overlap s)
    (MaxParallel s) (RunTimeout s) (ConfigHash s).
Definition with_ConfigHash (s : Service) (v : string) : Service :=
  MkService (Name s) (Args s) (Dir s) (Env s) (State s) (Restart s) (StopTimeout s) (Image s)
    (Ports s) (Volumes s) (Domain s) (UpstreamPort s) (Memory s) (CPUs s) (Every s) (Overlap s)
    (MaxParallel s) (RunTimeout s) v.

(** fmt.Errorf("%w: %s", ErrInvalid, ...) *)
Definition invalid (format : string) (args : list Arg) : error := EWrap (format, args) ErrInvalid.
Definition Errorf (format : string) (args : list Arg) : error := EMsg (format, args).

(** ** Volumes *)
Record Mount := MkMount {
  mount_Source : string;
  mount_Target : string;
  mount_ReadOnly : bool;
  mount_Named : bool;
}.

Definition forbiddenMounts : list string :=
  ["/var/run/docker.sock"; "/run/docker.sock"; "/run/podman/podman.sock"].

Definition parseMount (spec : string) : result Mount :=
  let fields := Split spec ":" in
  readOnly_fields ←
    (match fields with
     | [a; b; mode] =>
         if negb (String.eqb mode "ro") && negb (String.eqb mode "rw")
         then Err (Errorf "volume %q: the third field is ro or rw" [AStr spec])
         else Ok (String.eqb mode "ro", [a; b])
     | _ => Ok (false, fields)
     end);
  let '(readOnly, fields) := readOnly_fields : bool * list string in
  match fields with
  | [source; target] =>
      if String.eqb source "" || negb (HasPrefix target "/")
      then Err (Errorf "volume %q: the path inside the container must be absolute" [AStr spec])
      else
        let named := negb (contains_byte slash source) in
        if negb named && negb (HasPrefix source "/")
        then Err (Errorf "volume %q: a path on the machine must be absolute" [AStr spec])
        else if negb named && bool_decide (Clean source ∈ forbiddenMounts)
        then Err (Errorf "volume %q: mounting the container runtime's socket" [AStr spec])
        else Ok (MkMount source target readOnly named)
  | _ => Err (Errorf "volume %q must be source:/path" [AStr spec])
  end.

Definition Mounts (s : Service) : result (list Mount) := map_result parseMount (Volumes s).

(** ** Published ports *)
Record Port := MkPort {
  HostIP : string;
  HostPort : Z;
  ContainerPort : Z;
  Protocol : string;
}.

(** net.ParseIP on text with no colon, which is all [parsePort] can hand it:
    four decimal octets, none empty, past 255 or with a leading zero. *)
Definition ipv4_octet (f : string) : bool :=
  match f with
  | "" => false
  | String c rest =>
      (String.eqb rest "" || negb (Ascii.eqb c "0")) &&
      match digits_value f 0 with Some v => v <=? 255 | None => false end
  end.
Definition ParseIP (s : string) : bool :=
  let fields := Split s "." in Nat.eqb (length fields) 4 && forallb ipv4_octet fields.

Definition port_number (s : string) : option Z :=
  match Atoi s with
  | Some n => if (n <? 1) || (65535 <? n) then None else Some n
  | None => None
  end.

Definition parsePort (spec : string) : result Port :=
  let '(rest, protocol, hasProtocol) := Cut spec slash in
  let protocol := if hasProtocol then protocol else "tcp" in
  if negb (String.eqb protocol "tcp") && negb (String.eqb protocol "udp")
  then Err (Errorf "port %q: protocol must be tcp or udp" [AStr spec])
  else
    address_fields ←
      (match Split rest ":" with
       | [h; c] => Ok ("", h, c)
       | [a; h; c] => Ok (a, h, c)
       | _ => Err (Errorf "port %q must be host:container" [AStr spec])
       end);
    let '(address, h, c) := address_fields : string * string * string in
    match port_number h with
    | None => Err (Errorf "port %q: %q is not a port number" [AStr spec; AStr h])
    | Some host =>
        match port_number c with
        | None => Err (Errorf "port %q: %q is not a port number" [AStr spec; AStr c])
        | Some inside =>
            if negb (String.eqb address "") && negb (ParseIP address)
            then Err (Errorf "port %q: %q is not an address" [AStr spec; AStr address])
            else Ok (MkPort address host inside protocol)
        end
    end.

Definition PublishedPorts (s : Service) : result (list Port) := map_result parsePort (Ports s).

(** ** What the supervisor reads from a declaration *)

(** if s.StopTimeout <= 0 { return DefaultStopTimeout } ... *)
Definition StopGrace (s : Service) : Z :=
  if f64_leb (StopTimeout s) f64_zero then DefaultStopTimeout
  else f64_to_int64 (f64_mul (StopTimeout s) (f64_of_Z Second)).

Definition WantRunning (s : Service) : bool := String.eqb (State s) StateRunning.
Definition IsJob (s : Service) : bool := negb (String.eqb (Every s) "").
Definition Interval (s : Service) : Z := default 0 (ParseDuration (Every s)).
Definition RunLimit (s : Service) : Z := default 0 (ParseDuration (RunTimeout s)).
Definition Parallel (s : Service) : Z :=
  if f64_leb (MaxParallel s) f64_zero then DefaultMaxParallel else f64_to_int64 (MaxParallel s).
Definition ConfigDir (name : string) : string := "/etc/hostd/" +:+ name.

(** fmt.Sprintf("%s:%d", s.Name, port) *)
Definition Upstream (s : Service) : string :=
  let port := if f64_ltb f64_zero (UpstreamPort s) then f64_to_int64 (UpstreamPort s) else 80 in
  Name s +:+ ":" +:+ itoa port.

(** ** Names *)
Definition name_byte (c : ascii) : bool :=
  ((97 <=? code c) && (code c <=? 122)) || is_digit c.
Definition name_mark (c : ascii) : bool := Ascii.eqb c "-" || Ascii.eqb c "_".

(** for i := range len(name): the switch on each byte; [i] counts from 0. *)
Fixpoint valid_name_from (n : nat) (i : nat) (s : string) : bool :=
  match s with
  | "" => true
  | String c s' =>
      if name_byte c then valid_name_from n (S i) s'
      else if name_mark c then
        if Nat.eqb i 0 || Nat.eqb i (n - 1) then false else valid_name_from n (S i) s'
      else false
  end.

Definition ValidName (name : string) : bool :=
  if String.eqb name "" || (64 <? len name) then false
  else valid_name_from (String.length name) 0 name.

(** ** Normalisation *)

(** The check of one domain. *)
Definition check_domain (name domain : string) : result unit :=
  if String.eqb domain "" then Err (invalid "%s: a domain cannot be empty" [AStr name])
  else
    let bare := TrimPrefix (TrimPrefix domain "https://") "http://" in
    if String.eqb bare "" || ContainsAny bare (String " " (String (chr 9) "/{}"))
    then Err (invalid "%s: domain %q is what a proxy answers on" [AStr name; AStr domain])
    else Ok tt.

Definition normalizeProxy (s : Service) : result Service :=
  _ ← map_result (check_domain (Name s)) (Domain s);
  if f64_eqb (UpstreamPort s) f64_zero then Ok s
  else if Nat.eqb (length (Domain s)) 0
  then Err (invalid "%s: upstream-port says where a proxy should send" [AStr (Name s)])
  else if negb (f64_integral (UpstreamPort s)) || f64_ltb (UpstreamPort s) (f64_of_Z 1)
          || f64_ltb (f64_of_Z 65535) (UpstreamPort s)
  then Err (invalid "%s: upstream-port is not a port" [AStr (Name s)])
  else Ok s.

Definition normalizeSchedule (s : Service) : result Service :=
  if negb (IsJob s) then
    if negb (String.eqb (Overlap s) "") || negb (f64_eqb (MaxParallel s) f64_zero)
       || negb (String.eqb (RunTimeout s) "")
    then Err (invalid "%s: overlap, max-parallel and run-timeout belong to a job" [AStr (Name s)])
    else Ok s
  else
    match ParseDuration (Every s) with
    | None => Err (invalid "%s: every %q is not a duration" [AStr (Name s); AStr (Every s)])
    | Some every =>
        if every <? MinimumEvery
        then Err (invalid "%s: every %s is below %s" [AStr (Name s); AInt every; AInt MinimumEvery])
        else
          let s := if String.eqb (Overlap s) "" then with_Overlap s OverlapAllow else s in
          if negb (String.eqb (Overlap s) OverlapAllow) && negb (String.eqb (Overlap s) OverlapSkip)
          then Err (invalid "%s: overlap %q is not known" [AStr (Name s); AStr (Overlap s)])
          else if f64_ltb (MaxParallel s) f64_zero
          then Err (invalid "%s: max-parallel must not be negative" [AStr (Name s)])
          else
            _ ← (if String.eqb (RunTimeout s) "" then Ok tt
                 else match ParseDuration (RunTimeout s) with
                      | None => Err (invalid "%s: run-timeout %q is not a duration"
                                       [AStr (Name s); AStr (RunTimeout s)])
                      | Some limit =>
                          if limit <=? 0
                          then Err (invalid "%s: run-timeout %s would stop every run"
                                      [AStr (Name s); AInt limit])
                          else Ok tt
                      end);
            if negb (String.eqb (Restart s) "") && negb (String.eqb (Restart s) RestartNever)
            then Err (invalid "%s: a job ends when it is done" [AStr (Name s)])
            else
              let s := with_Restart s RestartNever in
              if Nat.ltb 0 (length (Ports s))
              then Err (invalid "%s: a job publishes no port" [AStr (Name s)])
              else Ok s
    end.

(** invalid("%s: %v", s.Name, err) around an error of a part. *)
Definition invalid_part {A} (name : string) (r : result A) : result A :=
  match r with
  | Ok a => Ok a
  | Err e => Err (invalid "%s: %v" [AStr name; AMsg (error_msg e)])
  end.

Definition normalizeContainer (s : Service) : result Service :=
  if String.eqb (Image s) "" then Err (invalid "%s: image is required" [AStr (Name s)])
  else if negb (String.eqb (Dir s) "") && negb (IsAbs (Dir s))
  then Err (invalid "%s: dir %q must be an absolute path" [AStr (Name s); AStr (Dir s)])
  else
    _ ← invalid_part (Name s) (PublishedPorts s);
    _ ← invalid_part (Name s) (Mounts s);
    s ← normalizeProxy s;
    s ← normalizeSchedule s;
    if f64_ltb (Memory s) f64_zero || f64_ltb (CPUs s) f64_zero
    then Err (invalid "%s: memory-mb and cpus must not be negative" [AStr (Name s)])
    else Ok s.

Definition normalize (s : Service) : result Service :=
  let s := with_Name s (TrimSpace (Name s)) in
  if negb (ValidName (Name s))
  then Err (invalid "name %q must be 1-64 characters of a-z, 0-9, - and _" [AStr (Name s)])
  else
    s ← normalizeContainer s;
    _ ← map_result (fun e => if contains_byte "=" e then Ok tt
                             else Err (invalid "%s: env entry %q" [AStr (Name s); AStr e])) (Env s);
    let s := if String.eqb (State s) "" then with_State s StateRunning else s in
    if negb (String.eqb (State s) StateRunning) && negb (String.eqb (State s) StateStopped)
    then Err (invalid "%s: unknown state %q" [AStr (Name s); AStr (State s)])
    else
      let s := if String.eqb (Restart s) "" then with_Restart s RestartAlways else s in
      if negb (bool_decide (Restart s ∈ [RestartAlways; RestartOnFailure; RestartNever]))
      then Err (invalid "%s: unknown restart policy %q" [AStr (Name s); AStr (Restart s)])
      else if f64_ltb (StopTimeout s) f64_zero
      then Err (invalid "%s: stop-timeout must not be negative" [AStr (Name s)])
      else Ok s.
