(* ===== verification/ServiceProofs.v ===== *)
(** * ServiceProofs: what a declaration that was accepted can be relied on for *)
From S2P Require Import Prelude GoText GoTime GoPath Service.
From Stdlib Require Import Ascii SpecFloat.
Open Scope string_scope.
Open Scope list_scope.
Open Scope Z_scope.

(** ** Names *)

(** The rule the message of [normalize] states. *)
Definition NameRule (n : string) : Prop :=
  1 <= len n <= 64 /\
  forall i c, String.get i n = Some c ->
    name_byte c = true \/
    (name_mark c = true /\ i <> 0%nat /\ i <> (String.length n - 1)%nat).

Lemma valid_name_from_spec n s i :
  valid_name_from n i s = true <->
  forall j c, String.get j s = Some c ->
    name_byte c = true \/ (name_mark c = true /\ (i + j)%nat <> 0%nat /\ (i + j)%nat <> (n - 1)%nat).
Proof.
  revert i. induction s as [|x s IH]; intros i; cbn [valid_name_from].
  - split; [|done]. intros _ [|j] c; done.
  - assert (Hshift : forall P : nat -> ascii -> Prop,
      (forall j c, String.get j (String x s) = Some c -> P (i + j)%nat c) <->
      P i x /\ (forall j c, String.get j s = Some c -> P (S i + j)%nat c)).
    { intros P. split.
      - intros H. split; [rewrite <- (Nat.add_0_r i); by apply (H 0%nat)|].
        intros j c Hj. rewrite Nat.add_succ_comm. by apply (H (S j)).
      - intros [H0 HS] [|j] c Hj; cbn in Hj.
        + rewrite Nat.add_0_r. by simplify_eq.
        + rewrite <- Nat.add_succ_comm. by apply HS. }
    rewrite (Hshift (fun k c => name_byte c = true \/
      (name_mark c = true /\ k <> 0%nat /\ k <> (n - 1)%nat))).
    destruct (name_byte x) eqn:Hb; [rewrite IH; naive_solver|].
    destruct (name_mark x) eqn:Hm; [|split; [done|naive_solver]].
    destruct (Nat.eqb_spec i 0), (Nat.eqb_spec i (n - 1)); cbn;
      try (split; [done|naive_solver]). rewrite IH. naive_solver.
Qed.

Lemma valid_name_rule n : ValidName n = true <-> NameRule n.
Proof.
  unfold ValidName, NameRule, len.
  destruct (String.eqb_spec n "") as [->|Hne].
  - cbn. split; [done|lia].
  - assert (0 < Z.of_nat (String.length n)).
    { destruct n; [done|]. cbn. lia. }
    destruct (Z.ltb_spec 64 (Z.of_nat (String.length n))); cbn.
    + split; [done|lia].
    + rewrite valid_name_from_spec. cbn. split; [split; [lia|done]|naive_solver].
Qed.

(** Every byte of a valid name is printable ASCII. *)
Lemma valid_name_bytes n i c : ValidName n = true -> String.get i n = Some c -> 33 <= code c <= 126.
Proof.
  intros [_ H]%valid_name_rule Hc. destruct (H _ _ Hc) as [Hb|[Hm _]].
  - unfold name_byte, is_digit in Hb. lia.
  - unfold name_mark in Hm. apply orb_true_iff in Hm as [->%Ascii.eqb_eq| ->%Ascii.eqb_eq]; split; by vm_compute.
Qed.

Lemma valid_name_no_slash n : ValidName n = true -> contains_byte slash n = false.
Proof.
  intros [_ H]%valid_name_rule. clear -H. revert H.
  generalize (String.length n - 1)%nat. intros k.
  assert (Hg : forall m s, (forall i c, String.get i s = Some c ->
      name_byte c = true \/ (name_mark c = true /\ (m + i)%nat <> 0%nat /\ (m + i)%nat <> k)) ->
      contains_byte slash s = false).
  { intros m s. revert m. induction s as [|x s IH]; intros m H; [done|].
    rewrite contains_byte_cons, (IH (S m)).
    - rewrite orb_false_r. destruct (Ascii.eqb_spec slash x) as [<-|]; [|done].
      destruct (H 0%nat slash eq_refl) as [?|[? _]]; done.
    - intros i c Hi. destruct (H (S i) c Hi) as [?|?]; [by left|right].
      by rewrite Nat.add_succ_comm. }
  apply (Hg 0%nat).
Qed.

(** ** Trimming leaves a valid name alone *)
Section Trimming.
Lemma strip_one_none spaces c s :
  Forall (fun p => match p with "" => False | String b _ => ~ (33 <= code b <= 126) end) spaces ->
  33 <= code c <= 126 -> strip_one spaces (String c s) = None.
Proof.
  intros Hs Hc. unfold strip_one.
  assert (filter (fun p => Is_true (HasPrefix (String c s) p)) spaces = []) as ->; [|done].
  induction Hs as [|p ps Hp _ IH]; [done|].
  rewrite filter_cons_False; [done|]. intros H%Is_true_true.
  destruct p as [|b p]; [done|]. unfold HasPrefix in H. cbn in H.
  destruct (ascii_dec b c) as [->|]; [|done]. done.
Qed.

Lemma space_heads :
  Forall (fun p => match p with "" => False | String b _ => ~ (33 <= code b <= 126) end)
    space_encodings.
Proof. repeat constructor; vm_compute; intros [? ?]; auto. Qed.

Lemma space_tails :
  Forall (fun p => match p with "" => False | String b _ => ~ (33 <= code b <= 126) end)
    (rev_string <$> space_encodings).
Proof. repeat constructor; vm_compute; intros [? ?]; auto. Qed.

Lemma trim_left_id fuel spaces s :
  Forall (fun p => match p with "" => False | String b _ => ~ (33 <= code b <= 126) end) spaces ->
  (forall c, String.get 0 s = Some c -> 33 <= code c <= 126) ->
  trim_left fuel spaces s = s.
Proof.
  intros Hs Hc. destruct fuel as [|fuel]; [done|]. cbn [trim_left].
  destruct s as [|c s].
  - assert (strip_one spaces "" = None) as ->; [|done]. unfold strip_one.
    assert (filter (fun p => Is_true (HasPrefix "" p)) spaces = []) as ->; [|done].
    induction Hs as [|p ps Hp _ IH]; [done|]. rewrite filter_cons_False; [done|].
    destruct p; [done|]. intros H%Is_true_true. done.
  - by rewrite strip_one_none by auto.
Qed.

Lemma get_app_l i s t c : String.get i s = Some c -> String.get i (s +:+ t) = Some c.
Proof.
  revert i. induction s as [|x s IH]; intros [|i]; try done.
  change (String x s +:+ t) with (String x (s +:+ t)). cbn. apply IH.
Qed.

Lemma rev_string_bytes (P : ascii -> Prop) s :
  (forall i c, String.get i s = Some c -> P c) ->
  (forall i c, String.get i (rev_string s) = Some c -> P c).
Proof.
  induction s as [|x s IH]; intros H i c; [by destruct i|].
  unfold rev_string. cbn [rev_string_app]. rewrite rev_string_app_spec. intros Hi.
  assert (Hs : forall i c, String.get i s = Some c -> P c).
  { intros j d Hj. by apply (H (S j)). }
  specialize (IH Hs). revert i Hi IH. generalize (rev_string s). intros r.
  induction r as [|y r IHr]; intros i Hi IH.
  - destruct i as [|i]; [|by destruct i]. cbn in Hi. simplify_eq. by apply (H 0%nat).
  - change (String y r +:+ ?u) with (String y (r +:+ u)) in Hi.
    destruct i as [|i]; cbn in Hi.
    + simplify_eq. by apply (IH 0%nat).
    + apply (IHr i Hi). intros j d Hj. by apply (IH (S j)).
Qed.

Lemma TrimSpace_valid n : ValidName n = true -> TrimSpace n = n.
Proof.
  intros Hn. unfold TrimSpace.
  assert (Hb : forall i c, String.get i n = Some c -> 33 <= code c <= 126)
    by eauto using valid_name_bytes.
  rewrite (trim_left_id _ space_encodings); [|apply space_heads|eauto].
  rewrite (trim_left_id _ (rev_string <$> _)); [|apply space_tails|].
  - apply rev_string_involutive.
  - intros c. apply (rev_string_bytes (fun c => 33 <= code c <= 126)); eauto.
Qed.
End Trimming.

#[export] Hint Resolve TrimSpace_valid valid_name_no_slash : hostd.

(** ** Ports *)

(** [address:]host:container/protocol, the form the documentation gives. *)
Definition print_port (p : Port) : string :=
  (if String.eqb (HostIP p) "" then "" else HostIP p +:+ ":") +:+
  itoa (HostPort p) +:+ ":" +:+ itoa (ContainerPort p) +:+ "/" +:+ Protocol p.

Definition PortRule (p : Port) : Prop :=
  1 <= HostPort p <= 65535 /\ 1 <= ContainerPort p <= 65535 /\
  Protocol p ∈ ["tcp"; "udp"] /\
  (HostIP p = "" \/ ParseIP (HostIP p) = true).

Section Ports.
Lemma port_number_spec s n : port_number s = Some n -> 1 <= n <= 65535.
Proof.
  unfold port_number. destruct (Atoi s) as [z|]; [|done].
  destruct ((z <? 1) || (65535 <? z)) eqn:E; [done|]. intros [= <-]. lia.
Qed.

Lemma port_number_itoa z : 1 <= z <= 65535 -> port_number (itoa z) = Some z.
Proof.
  intros Hz. unfold port_number.
  rewrite Atoi_itoa by (unfold max_int64; lia).
  by replace ((z <? 1) || (65535 <? z)) with false by lia.
Qed.

Lemma digits_value_all s acc v : digits_value s acc = Some v -> all_digits s = true.
Proof.
  revert acc. induction s as [|c s IH]; intros acc; [done|]. cbn.
  destruct (is_digit c); [|done]. apply IH.
Qed.

(** An address ParseIP accepts holds digits and points only. *)
Lemma ParseIP_no_byte c s :
  is_digit c = false -> c <> "."%char -> ParseIP s = true -> contains_byte c s = false.
Proof.
  intros Hc Hd [_ H]%andb_true_iff. rewrite <- (Split_join "." s).
  rewrite forallb_forall in H.
  assert (Hp : forall p, In p (Split s ".") -> contains_byte c p = false).
  { intros p Hp. specialize (H p Hp). unfold ipv4_octet in H.
    destruct p as [|x p]; [done|]. apply andb_true_iff in H as [_ H].
    destruct (digits_value (String x p) 0) eqn:E; [|done].
    eapply digits_no_byte; eauto using digits_value_all. }
  revert Hp. generalize (Split s "."). intros l. clear -Hd.
  induction l as [|f fs IH]; intros Hp; [done|].
  destruct fs as [|g gs]; cbn [Join] in *; [apply Hp; by left|].
  rewrite !contains_byte_app, (Hp f), IH by (naive_solver).
  rewrite contains_byte_cons, contains_byte_nil.
  by destruct (Ascii.eqb_spec c ".").
Qed.

Lemma itoa_no_byte c z : is_digit c = false -> 0 <= z -> contains_byte c (itoa z) = false.
Proof. eauto using digits_no_byte, all_digits_itoa. Qed.

(** C-port: reading a port specification. *)
Lemma parsePort_rule spec p : parsePort spec = Ok p -> PortRule p.
Proof.
  unfold parsePort. destruct (Cut spec slash) as [[rest protocol] has].
  set (proto := if has then protocol else "tcp").
  destruct (negb (String.eqb proto "tcp") && negb (String.eqb proto "udp")) eqn:Hp; [done|].
  assert (Hproto : proto ∈ ["tcp"; "udp"]).
  { clear -Hp. clearbody proto. rewrite !elem_of_cons.
    destruct (String.eqb_spec proto "tcp") as [E|]; [by left|].
    destruct (String.eqb_spec proto "udp") as [E|]; [by right; left|done]. }
  intros H. destruct (Split rest ":") as [|a [|b [|c [|]]]]; try done; simpl in H.
  all: ok_inv H; subst p; unfold PortRule; cbn.
  all: repeat match goal with H : port_number _ = Some _ |- _ => apply port_number_spec in H end.
  all: split_and!; try lia; try done.
  - by left.
  - bool_hyps. destruct (String.eqb_spec a "") as [->|Hne]; [by left|]. right.
    by destruct (ParseIP a).
Qed.

Lemma parsePort_print p : PortRule p -> parsePort (print_port p) = Ok p.
Proof.
  intros (Hh & Hc & Hp & Hip). destruct p as [ip h c proto]; cbn in *. unfold print_port; cbn.
  assert (Hnb : forall x z, is_digit x = false -> 1 <= z -> contains_byte x (itoa z) = false)
    by (intros; apply itoa_no_byte; [done|lia]).
  assert (Hproto : negb (String.eqb proto "tcp") && negb (String.eqb proto "udp") = false).
  { rewrite !elem_of_cons, elem_of_nil in Hp. by destruct Hp as [->|[->|[]]]. }
  unfold parsePort. destruct (String.eqb_spec ip "") as [->|Hne].
  - change ("" +:+ ?x) with x.
    rewrite <- (string_app_assoc ":" (itoa c)), <- (string_app_assoc (itoa h)).
    change ("/" +:+ proto) with (String slash proto).
    rewrite Cut_app by (rewrite !contains_byte_app, !Hnb by (done || lia); done).
    rewrite Hproto. change (":" +:+ itoa c) with (String ":" (itoa c)).
    rewrite Split_app, Split_none by (apply Hnb; done || lia).
    cbn [mbind result_bind]. rewrite !port_number_itoa by lia. done.
  - destruct Hip as [?|Hip]; [done|].
    rewrite (string_app_assoc ip), <- (string_app_assoc ":" (itoa c)), <- (string_app_assoc (itoa h)),
      <- (string_app_assoc ":" (itoa h +:+ _)), <- (string_app_assoc ip).
    change ("/" +:+ proto) with (String slash proto).
    rewrite Cut_app by (rewrite !contains_byte_app, !Hnb, (ParseIP_no_byte slash ip) by (done || lia); done).
    rewrite Hproto. change (":" +:+ itoa c) with (String ":" (itoa c)).
    change (":" +:+ (itoa h +:+ ?x)) with (String ":" (itoa h +:+ x)).
    rewrite Split_app by (by apply ParseIP_no_byte).
    rewrite Split_app, Split_none by (apply Hnb; done || lia).
    cbn [mbind result_bind]. rewrite !port_number_itoa by lia. rewrite Hip.
    by destruct (String.eqb_spec ip "").
Qed.
End Ports.

(** ** Mounts *)
Definition MountRule (m : Mount) : Prop :=
  HasPrefix (mount_Target m) "/" = true /\ mount_Source m <> "" /\
  mount_Named m = negb (contains_byte slash (mount_Source m)) /\
  (mount_Named m = false ->
     HasPrefix (mount_Source m) "/" = true /\ Clean (mount_Source m) ∉ forbiddenMounts).

Definition print_mount (m : Mount) : string :=
  mount_Source m +:+ ":" +:+ mount_Target m +:+ (if mount_ReadOnly m then ":ro" else ":rw").

Section MountFacts.
Lemma parseMount_rule spec m : parseMount spec = Ok m -> MountRule m.
Proof.
  unfold parseMount. intros H.
  assert (Hk : forall ro a b, (if String.eqb a "" || negb (HasPrefix b "/")
    then Err (Errorf "volume %q: the path inside the container must be absolute" [AStr spec])
    else
      let named := negb (contains_byte slash a) in
      if negb named && negb (HasPrefix a "/")
      then Err (Errorf "volume %q: a path on the machine must be absolute" [AStr spec])
      else if negb named && bool_decide (Clean a ∈ forbiddenMounts)
      then Err (Errorf "volume %q: mounting the container runtime's socket" [AStr spec])
      else Ok (MkMount a b ro named)) = Ok m -> MountRule m).
  { intros ro a b E. cbv zeta in E. ok_inv E. subst m. bool_hyps.
    unfold MountRule; cbn. split_and!; try done.
    intros Hn. rewrite Hn in *. cbn in *. bool_hyps. done. }
  destruct (Split spec ":") as [|a [|b [|c [|]]]]; try done; simpl in H.
  - by apply Hk in H.
  - destruct (negb (String.eqb c "ro") && negb (String.eqb c "rw")); [done|].
    by apply Hk in H.
Qed.

Lemma parseMount_print m :
  MountRule m -> contains_byte ":" (mount_Source m) = false ->
  contains_byte ":" (mount_Target m) = false -> parseMount (print_mount m) = Ok m.
Proof.
  intros (Ht & Hs & Hn & Hb) Hcs Hct. destruct m as [src tgt ro named]; cbn in *.
  unfold print_mount, parseMount; cbn. change (":" +:+ ?x) with (String ":" x).
  rewrite Split_app by done.
  assert (Hro : Split (tgt +:+ (if ro then ":ro" else ":rw")) ":" = [tgt; if ro then "ro" else "rw"]).
  { destruct ro; [change ":ro" with (String ":" "ro")|change ":rw" with (String ":" "rw")];
      by rewrite Split_app. }
  rewrite Hro.
  assert (Hmode : negb (String.eqb (if ro then "ro" else "rw") "ro") &&
                  negb (String.eqb (if ro then "ro" else "rw") "rw") = false) by (by destruct ro).
  rewrite Hmode. cbn [mbind result_bind].
  destruct (String.eqb_spec src ""); [done|]. rewrite Ht. cbn [orb negb].
  rewrite <- Hn. destruct named; cbn [negb andb].
  - by destruct ro.
  - destruct (Hb eq_refl) as [-> Hf]. cbn [negb]. rewrite bool_decide_eq_false_2 by done.
    by destruct ro.
Qed.
End MountFacts.

(** ** Normalisation *)

(** A job runs and ends; a service has nothing of a job. *)
Definition ScheduleRule (s : Service) : Prop :=
  if IsJob s then
    MinimumEvery <= Interval s /\ Overlap s ∈ [OverlapAllow; OverlapSkip] /\
    f64_ltb (MaxParallel s) f64_zero = false /\
    (RunTimeout s = "" \/ 0 < RunLimit s) /\ Restart s = RestartNever /\ Ports s = []
  else
    Overlap s = "" /\ f64_eqb (MaxParallel s) f64_zero = true /\ RunTimeout s = "".

Definition ProxyRule (s : Service) : Prop :=
  (forall d, In d (Domain s) -> check_domain (Name s) d = Ok tt) /\
  (f64_eqb (UpstreamPort s) f64_zero = true \/
   Domain s <> [] /\ f64_integral (UpstreamPort s) = true /\
   f64_ltb (UpstreamPort s) (f64_of_Z 1) = false /\
   f64_ltb (f64_of_Z 65535) (UpstreamPort s) = false).

(** What the supervisor may assume of a declaration it is given. *)
Record WellFormed (s : Service) : Prop := {
  wf_name : ValidName (Name s) = true;
  wf_image : Image s <> "";
  wf_dir : Dir s = "" \/ IsAbs (Dir s) = true;
  wf_ports : is_ok (PublishedPorts s) = true;
  wf_mounts : is_ok (Mounts s) = true;
  wf_proxy : ProxyRule s;
  wf_schedule : ScheduleRule s;
  wf_limits : f64_ltb (Memory s) f64_zero = false /\ f64_ltb (CPUs s) f64_zero = false;
  wf_env : forall e, In e (Env s) -> contains_byte "=" e = true;
  wf_state : State s ∈ [StateRunning; StateStopped];
  wf_restart : Restart s ∈ [RestartAlways; RestartOnFailure; RestartNever];
  wf_grace : f64_ltb (StopTimeout s) f64_zero = false;
}.

Section Normalisation.
Lemma map_result_unit {A} (f : A -> result unit) l :
  (exists us, map_result f l = Ok us) <-> (forall x, In x l -> f x = Ok tt).
Proof.
  induction l as [|x l IH]; cbn [map_result].
  - split; [done|eauto].
  - split.
    + intros [us H]. destruct (f x) as [[]|] eqn:E; [|done]. cbn in H.
      destruct (map_result f l) eqn:E'; [|done].
      intros y [<-|Hy]; [done|]. apply IH; eauto.
    + intros H. rewrite (H x) by (by left). cbn.
      destruct (proj2 IH) as [us ->]; [|cbn; eauto]. intros y Hy. apply H. by right.
Qed.

Lemma normalizeProxy_rule s s' : normalizeProxy s = Ok s' <-> s' = s /\ ProxyRule s.
Proof.
  unfold normalizeProxy, ProxyRule.
  destruct (map_result (check_domain (Name s)) (Domain s)) as [us|e] eqn:E; cbn.
  - assert (Hd : forall d, In d (Domain s) -> check_domain (Name s) d = Ok tt)
      by (apply map_result_unit; eauto).
    destruct (f64_eqb (UpstreamPort s) f64_zero); [naive_solver|].
    destruct (Domain s) as [|d ds]; cbn; [naive_solver|].
    destruct (f64_integral _), (f64_ltb _ _), (f64_ltb _ _); cbn; naive_solver.
  - split; [done|]. intros [_ [Hd _]].
    apply map_result_unit in Hd as [us Hus]. congruence.
Qed.

Definition schedule_default (s : Service) : Service :=
  if IsJob s
  then with_Restart (if String.eqb (Overlap s) "" then with_Overlap s OverlapAllow else s) RestartNever
  else s.

Lemma default_pos (o : option Z) v : o = Some v -> default 0 o = v.
Proof. by intros ->. Qed.

Lemma overlap_cases o :
  negb (String.eqb o OverlapAllow) && negb (String.eqb o OverlapSkip) = false ->
  o ∈ [OverlapAllow; OverlapSkip].
Proof.
  rewrite !elem_of_cons. destruct (String.eqb_spec o OverlapAllow); [by left|].
  destruct (String.eqb_spec o OverlapSkip); [by right; left|done].
Qed.

Lemma normalizeSchedule_sound s s' :
  normalizeSchedule s = Ok s' -> s' = schedule_default s /\ ScheduleRule s'.
Proof.
  unfold normalizeSchedule, schedule_default, ScheduleRule.
  destruct (IsJob s) eqn:Hj; cbn [negb].
  - intros H. destruct (ParseDuration (Every s)) as [every|] eqn:Hevery; [|done].
    destruct (every <? MinimumEvery) eqn:Hmin; [done|].
    set (t := if String.eqb (Overlap s) "" then with_Overlap s OverlapAllow else s) in *.
    assert (Ht : Every t = Every s /\ Ports t = Ports s /\ MaxParallel t = MaxParallel s /\
      RunTimeout t = RunTimeout s) by (unfold t; by destruct (String.eqb (Overlap s) "")).
    destruct Ht as (He & Hp & Hm & Hr). cbv zeta in H.
    destruct (negb _ && negb _) eqn:Ho in H; [done|].
    destruct (f64_ltb (MaxParallel t) f64_zero) eqn:Hn; [done|].
    match type of H with mbind _ ?m = _ => destruct m eqn:Hlim; [|done] end.
    cbn [mbind result_bind] in H. destruct (negb (String.eqb (Restart t) "") && _) in H; [done|].
    destruct (Nat.ltb _ _) eqn:Hports in H; [done|]. change (Ports _) with (Ports t) in Hports.
    injection H as <-. split; [done|].
    unfold IsJob in *. cbn. rewrite He, Hj. split_and!; try done.
    + unfold Interval. cbn. rewrite He, (default_pos _ _ Hevery). lia.
    + by apply overlap_cases.
    + unfold RunLimit. cbn. destruct (String.eqb_spec (RunTimeout t) "") as [->|_]; [by left|right].
      destruct (ParseDuration (RunTimeout t)) as [l|]; [|done].
      destruct (Z.leb_spec l 0); [done|]. cbn. lia.
    + destruct (Ports t); [done|]. done.
  - intros H.
    destruct (negb _ || negb _ || negb _) eqn:E in H; [done|].
    injection H as <-. split; [done|]. rewrite Hj. bool_hyps. done.
Qed.

Lemma normalizeSchedule_fixed s : ScheduleRule s -> normalizeSchedule s = Ok s.
Proof.
  unfold ScheduleRule, normalizeSchedule. destruct (IsJob s) eqn:Hj; cbn [negb].
  - intros (Hi & Ho & Hm & Hr & Hre & Hp).
    unfold Interval in Hi. destruct (ParseDuration (Every s)) as [every|] eqn:Hevery;
      [|cbn in Hi; unfold MinimumEvery, Second in Hi; lia]. cbn in Hi.
    replace (every <? MinimumEvery) with false by lia.
    assert (Ho' : String.eqb (Overlap s) "" = false /\
      negb (String.eqb (Overlap s) OverlapAllow) && negb (String.eqb (Overlap s) OverlapSkip) = false).
    { rewrite !elem_of_cons, elem_of_nil in Ho. by destruct Ho as [->|[->|[]]]. }
    destruct Ho' as [-> Ho']. cbv zeta. rewrite Ho', Hm.
    assert (Hl : (if String.eqb (RunTimeout s) "" then Ok tt
               else match ParseDuration (RunTimeout s) with
                    | None => Err (invalid "%s: run-timeout %q is not a duration"
                                     [AStr (Name s); AStr (RunTimeout s)])
                    | Some limit =>
                        if limit <=? 0
                        then Err (invalid "%s: run-timeout %s would stop every run"
                                    [AStr (Name s); AInt limit])
                        else Ok tt
                    end) = Ok tt).
    { destruct Hr as [->|Hr]; [done|]. destruct (String.eqb (RunTimeout s) ""); [done|].
      unfold RunLimit in Hr. destruct (ParseDuration (RunTimeout s)) as [l|]; cbn in Hr; [|lia].
      by replace (l <=? 0) with false by lia. }
    rewrite Hl. cbn. rewrite Hre, Hp. cbn. destruct s; cbn in *; subst. done.
  - intros (-> & -> & ->). done.
Qed.
End Normalisation.

(** Fields [schedule_default] leaves alone. *)
Lemma schedule_default_fields s :
  let t := schedule_default s in
  Name t = Name s /\ Image t = Image s /\ Dir t = Dir s /\ Ports t = Ports s /\
  Volumes t = Volumes s /\ Domain t = Domain s /\ UpstreamPort t = UpstreamPort s /\
  Memory t = Memory s /\ CPUs t = CPUs s /\ Env t = Env s /\ State t = State s /\
  StopTimeout t = StopTimeout s.
Proof.
  unfold schedule_default. destruct (IsJob s); [|done].
  by destruct (String.eqb (Overlap s) "").
Qed.

Definition ContainerRule (s : Service) : Prop :=
  Image s <> "" /\ (Dir s = "" \/ IsAbs (Dir s) = true) /\
  is_ok (PublishedPorts s) = true /\ is_ok (Mounts s) = true /\
  ProxyRule s /\ ScheduleRule s /\
  f64_ltb (Memory s) f64_zero = false /\ f64_ltb (CPUs s) f64_zero = false.

Lemma normalizeContainer_sound s s' :
  normalizeContainer s = Ok s' -> s' = schedule_default s /\ ContainerRule s'.
Proof.
  unfold normalizeContainer. intros H.
  destruct (String.eqb_spec (Image s) ""); [done|].
  destruct (negb _ && negb _) eqn:Hdir in H; [done|].
  destruct (PublishedPorts s) eqn:Hp; [|done]. destruct (Mounts s) eqn:Hm; [|done]. cbn in H.
  destruct (normalizeProxy s) as [s1|] eqn:Hx; [|done]. cbn in H.
  apply normalizeProxy_rule in Hx as [-> Hx].
  destruct (normalizeSchedule s) as [s2|] eqn:Hs; [|done]. cbn in H.
  apply normalizeSchedule_sound in Hs as [-> Hs].
  destruct (_ || _) eqn:Hl in H; [done|]. injection H as <-. split; [done|].
  pose proof (schedule_default_fields s) as Hf. cbv zeta in Hf.
  destruct Hf as (E1&E2&E3&E4&E5&E6&E7&E8&E9&E10&E11&E12). bool_hyps.
  unfold ContainerRule, PublishedPorts, Mounts, ProxyRule in *.
  rewrite ?E1, ?E2, ?E3, ?E4, ?E5, ?E6, ?E7, ?E8, ?E9, ?Hp, ?Hm in *.
  split_and!; try done; try (destruct Hx; done).
  destruct (String.eqb_spec (Dir s) ""); [by left|right]. by destruct (IsAbs (Dir s)).
Qed.

Lemma normalizeContainer_fixed s : ContainerRule s -> normalizeContainer s = Ok s.
Proof.
  intros (Hi & Hd & Hp & Hm & Hx & Hs & Hme & Hc). unfold normalizeContainer.
  destruct (String.eqb_spec (Image s) ""); [done|].
  replace (negb (String.eqb (Dir s) "") && negb (IsAbs (Dir s))) with false
    by (destruct Hd as [-> | ->]; [done|by rewrite andb_false_r]).
  destruct (PublishedPorts s); [|done]. destruct (Mounts s); [|done]. cbn.
  rewrite (proj2 (normalizeProxy_rule s s)) by done. cbn.
  rewrite normalizeSchedule_fixed by done. cbn. by rewrite Hme, Hc.
Qed.

Lemma restart_cases r :
  negb (bool_decide (r ∈ [RestartAlways; RestartOnFailure; RestartNever])) = false ->
  r ∈ [RestartAlways; RestartOnFailure; RestartNever].
Proof. intros H. by bool_hyps. Qed.

Lemma state_cases r :
  negb (String.eqb r StateRunning) && negb (String.eqb r StateStopped) = false ->
  r ∈ [StateRunning; StateStopped].
Proof.
  rewrite !elem_of_cons. destruct (String.eqb_spec r StateRunning); [by left|].
  destruct (String.eqb_spec r StateStopped); [by right; left|done].
Qed.

(** Filling an empty state or an empty restart policy keeps the rules that do
    not speak of them. *)
Lemma ContainerRule_fill s st re :
  ContainerRule s -> (IsJob s = true -> re = Restart s) ->
  ContainerRule (with_Restart (with_State s st) re).
Proof.
  intros (Hi & Hd & Hp & Hm & Hx & Hs & Hl) Hre. unfold ContainerRule.
  split_and!; try done; try apply Hl.
  unfold ScheduleRule in *. change (IsJob (with_Restart _ _)) with (IsJob s).
  destruct (IsJob s); [|done]. cbn. rewrite Hre by done. done.
Qed.

Lemma normalize_wf s s' : normalize s = Ok s' -> WellFormed s'.
Proof.
  unfold normalize. intros H.
  destruct (ValidName _) eqn:Hn in H; [|done]. cbn [negb] in H.
  destruct (normalizeContainer _) as [t|] eqn:Hc in H; [|done]. cbn [mbind result_bind] in H.
  apply normalizeContainer_sound in Hc as [Ht Hc].
  assert (Hname : Name t = TrimSpace (Name s)).
  { rewrite Ht. apply (schedule_default_fields (with_Name s _)). }
  destruct (map_result _ (Env t)) as [us|] eqn:He in H; [|done]. cbn [mbind result_bind] in H.
  assert (Henv := proj1 (map_result_unit _ (Env t)) (ex_intro _ us He)). clear He Ht.
  cbv zeta in H.
  set (st := if String.eqb (State t) "" then StateRunning else State t).
  set (re := if String.eqb (Restart t) "" then RestartAlways else Restart t).
  assert (E1 : (if String.eqb (State t) "" then with_State t StateRunning else t) = with_State t st)
    by (unfold st; destruct (String.eqb (State t) ""), t; done).
  rewrite E1 in H. cbn in H.
  assert (E2 : (if String.eqb (Restart t) "" then with_Restart (with_State t st) RestartAlways
                else with_State t st) = with_Restart (with_State t st) re)
    by (unfold re; destruct (String.eqb (Restart t) ""), t; done).
  destruct (negb _ && negb _) eqn:Hst in H; [done|].
  rewrite E2 in H. cbn [Restart with_Restart] in H.
  destruct (negb _) eqn:Hre in H; [done|].
  destruct (f64_ltb _ _) eqn:Hg in H; [done|]. injection H as <-.
  assert (Hcr : ContainerRule (with_Restart (with_State t st) re)).
  { apply ContainerRule_fill; [done|]. intros Hj.
    destruct Hc as (_&_&_&_&_&Hs&_). unfold ScheduleRule in Hs. rewrite Hj in Hs.
    unfold re. by destruct Hs as (_&_&_&_&->&_). }
  destruct Hcr as (?&?&?&?&?&?&?&?). constructor; try done.
  - cbn. by rewrite Hname.
  - cbn. intros e Hin. specialize (Henv e Hin). cbn in Henv. by destruct (contains_byte "=" e).
  - by apply state_cases.
  - by apply restart_cases.
Qed.

Lemma normalize_fixed s : WellFormed s -> normalize s = Ok s.
Proof.
  intros []. unfold normalize. rewrite TrimSpace_valid by done.
  replace (with_Name s (Name s)) with s by (by destruct s). cbv zeta. rewrite wf_name0. cbn [negb].
  rewrite normalizeContainer_fixed by (unfold ContainerRule; naive_solver). cbn [mbind result_bind].
  destruct (proj2 (map_result_unit (fun e => if contains_byte "=" e then Ok tt
     else Err (invalid "%s: env entry %q" [AStr (Name s); AStr e])) (Env s))) as [us ->].
  { intros e He. by rewrite wf_env0. }
  cbn [mbind result_bind].
  assert (String.eqb (State s) "" = false /\
    negb (String.eqb (State s) StateRunning) && negb (String.eqb (State s) StateStopped) = false) as [-> ->].
  { rewrite !elem_of_cons, elem_of_nil in wf_state0. by destruct wf_state0 as [->|[->|[]]]. }
  assert (String.eqb (Restart s) "" = false) as ->.
  { rewrite !elem_of_cons, elem_of_nil in wf_restart0. by destruct wf_restart0 as [->|[->|[->|[]]]]. }
  rewrite bool_decide_eq_true_2 by done. cbn [negb]. by rewrite wf_grace0.
Qed.

(** ** What the reader of a declaration can rely on *)

(** A name is accepted exactly when it has 1 to 64 bytes, every one of them
    a letter, a digit, or a mark that is neither first nor last. *)
Theorem valid_name_exact n : ValidName n = true <-> NameRule n.
Proof. apply valid_name_rule. Qed.

(** A published port that is accepted has both numbers in 1..65535, a known
    protocol and an address that is empty or an IP; and every such port is what
    its own written form is read back as. *)
Theorem port_roundtrip :
  (forall spec p, parsePort spec = Ok p -> PortRule p) /\
  (forall p, PortRule p -> parsePort (print_port p) = Ok p).
Proof. split; [exact parsePort_rule|exact parsePort_print]. Qed.

(** A volume that is accepted has an absolute place inside the container
    and is either named storage or an absolute path of the machine that does
    not clean to the runtime's socket; and every such volume whose paths hold
    no colon is what its own written form is read back as. *)
Theorem mount_roundtrip :
  (forall spec m, parseMount spec = Ok m -> MountRule m) /\
  (forall m, MountRule m -> contains_byte ":" (mount_Source m) = false ->
     contains_byte ":" (mount_Target m) = false -> parseMount (print_mount m) = Ok m).
Proof. split; [exact parseMount_rule|exact parseMount_print]. Qed.

(** C12: A declaration that is accepted is well formed, and reading it again
    changes nothing: normalising is idempotent on what it accepts. *)
Theorem normalize_accepts s s' : normalize s = Ok s' -> WellFormed s' /\ normalize s' = Ok s'.
Proof. intros H. apply normalize_wf in H. split; [done|by apply normalize_fixed]. Qed.

(** A job every five minutes, as a file may write it. *)
Definition written_job : Service :=
  MkService " sweep " ["-v"] "" ["TZ=UTC"] "" "" f64_zero "worker:1" [] ["data:/data"] [] f64_zero
    f64_zero f64_zero "5m" "" f64_zero "" "".

Lemma normalize_accepts_witness :
  exists s', normalize written_job = Ok s' /\ WellFormed s' /\ normalize s' = Ok s' /\ Name s' = "sweep".
Proof.
  eexists. split; [vm_compute; reflexivity|].
  refine (match normalize_accepts written_job _ _ with conj a b => conj a (conj b _) end);
    [vm_compute; reflexivity|reflexivity].
Defined.
