(* ===== verification/Filo.v ===== *)
(** * Filo: the configuration language, as the program uses it

    src/filoconf/filoconf.go.  The evaluator and the reflection-based decoder
    are a third-party module (github.com/crgimenes/filo): they are the two
    classes below, parameters of everything that reads or writes Filo. *)
From S2P Require Import Prelude GoText.
From Stdlib Require Import Ascii.
Open Scope string_scope.
Open Scope list_scope.
Open Scope Z_scope.

(** The engine with hostd's limits: a script evaluates to a value or fails. *)
Class FiloEngine := {
  Value : Type;
  RunScript : string -> result Value;
}.

(** What filo knows of one Go type: decoding fills a target that already holds
    its defaults, marshalling may fail. *)
Class FiloType `{FiloEngine} (A : Type) := {
  UnmarshalFromValue : Value -> A -> result A;
  filo_Marshal : A -> result string;
}.

Definition maxSourceSize : Z := 2 ^ 20.

(** fmt.Errorf("%s: %w", name, err) *)
Definition named_error {A} (name : string) (r : result A) : result A :=
  match r with Ok a => Ok a | Err e => Err (EWrap ("%s", [AStr name]) e) end.

Definition Eval_src `{FiloEngine} (name src : string) : result Value :=
  if maxSourceSize <? len src
  then Err (EMsg ("%s: %w (%d bytes, limit %d)", [AStr name; AInt (len src); AInt maxSourceSize]))
  else named_error name (RunScript src).

Definition Decode `{FiloType A} (name src : string) (target : A) : result A :=
  value ← Eval_src name src;
  named_error name (UnmarshalFromValue value target).

Definition nl : string := String newline "".

Definition Marshal `{FiloType A} (v : A) : result string :=
  out ← filo_Marshal v;
  Ok (TrimRight out nl +:+ nl).

Lemma Decode_too_large `{FiloType A} name src (target : A) :
  maxSourceSize < len src -> exists e, Decode name src target = Err e.
Proof.
  intros H2. unfold Decode, Eval_src. replace (maxSourceSize <? len src) with true by lia.
  cbn. eauto.
Qed.
