(* ===== verification/AuditLog.v ===== *)
(** * AuditLog: the generation counter and the audit log

    src/state/state.go.  [Store] is the state in memory, [Disk] the three files
    of the state directory.  Record is three steps, as in the code: the change
    in memory under the lock, the line appended to the audit file, and the
    snapshot saved after the lock was released. *)
From S2P Require Import Prelude GoText GoTime GoPath Filo.
From Stdlib Require Import Ascii SpecFloat.
Open Scope string_scope.
Open Scope list_scope.
Open Scope Z_scope.

Definition maxAuditBytes : Z := 4 * 2 ^ 20.
Definition maxAuditMemory : nat := 1000.
Definition ActorLocal := "local".
Definition ResultOK := "ok".
Definition ResultRefused := "refused".
Definition ResultFailed := "failed".
Definition FirstGeneration : Z := 1.

(** uint64 arithmetic *)
Definition uint64_succ (z : Z) : Z := (z + 1) mod 2 ^ 64.

Record Entry := MkEntry {
  Seq : Z;
  TimeMS : float64;
  Actor : string;
  OnBehalfOf : string;
  Operation : string;
  Target : string;
  Before : Z;
  After : Z;
  Result : string;
  Detail : Msg;
}.

#[export] Instance Entry_eq_dec : EqDecision Entry.
Proof. solve_decision. Defined.

(** Entry{} as a decoder finds it *)
Definition empty_entry : Entry := MkEntry 0 f64_zero "" "" "" "" 0 0 "" (Lit "").

Record snapshot := MkSnapshot { Generation_ : Z; AuditSeq : Z }.

Record Store := MkStore {
  generation : Z;
  seq : Z;
  recent : list Entry;
}.

Definition Generation (s : Store) : Z := generation s.

Definition Check (expected : Z) (s : Store) : result unit :=
  if expected =? 0 then Ok tt
  else if negb (expected =? generation s)
  then Err (ErrConflict expected (generation s))
  else Ok tt.

Definition Recent (limit : Z) (s : Store) : list Entry :=
  let n := length (recent s) in
  let limit := if (limit <=? 0) || (Z.of_nat n <? limit) then n else Z.to_nat limit in
  drop (n - limit) (recent s).

(** The part of Record under the lock: the entry as it is kept, the generation
    to answer with, and the new state.  [now_ms] is the clock. *)
Definition record_mem (now_ms : float64) (e : Entry) (changed : bool) (s : Store)
    : Entry * Z * Store :=
  let before := generation s in
  let gen := if String.eqb (Result e) ResultOK && changed
             then uint64_succ (generation s) else generation s in
  let q := uint64_succ (seq s) in
  let e' := MkEntry q
              (if f64_eqb (TimeMS e) f64_zero then now_ms else TimeMS e)
              (if String.eqb (Actor e) "" then ActorLocal else Actor e)
              (OnBehalfOf e) (Operation e) (Target e) before gen (Result e) (Detail e) in
  let kept := recent s ++ [e'] in
  let kept := if Nat.ltb maxAuditMemory (length kept) then last_n maxAuditMemory kept else kept in
  (e', gen, MkStore gen q kept).

(** ** The files *)
Record Disk := MkDisk {
  snapshot_file : option string;
  audit_file : option string;
  prev_file : option string;
}.

Definition empty_disk : Disk := MkDisk None None None.

Section Files.
Context `{FiloEngine} `{!FiloType Entry} `{!FiloType snapshot}.

Definition rotateIfNeeded (d : Disk) : Disk :=
  match audit_file d with
  | None => d
  | Some a => if len a <? maxAuditBytes then d
              else MkDisk (snapshot_file d) None (Some a)
  end.

(** append: [fails] is a failure to open or to write the file. *)
Definition append (fails : bool) (e : Entry) (d : Disk) : result unit * Disk :=
  match Marshal e with
  | Err err => (Err err, d)
  | Ok line =>
      let d := rotateIfNeeded d in
      if fails then (Err (EMsg ("could not write", [])), d)
      else (Ok tt, MkDisk (snapshot_file d)
                     (Some (default "" (audit_file d) +:+ (TrimRight line nl +:+ nl)))
                     (prev_file d))
  end.

(** saveSnapshot writes beside and renames: it replaces the file or leaves it. *)
Definition saveSnapshot (fails : bool) (gen q : Z) (d : Disk) : result unit * Disk :=
  match Marshal (MkSnapshot gen q) with
  | Err err => (Err err, d)
  | Ok body => if fails then (Err (EMsg ("could not save", [])), d)
               else (Ok tt, MkDisk (Some body) (audit_file d) (prev_file d))
  end.

(** Record, run without interruption.  A failure to write is reported on
    stderr and does not change the answer. *)
Definition Record_entry (now_ms : float64) (append_fails save_fails : bool)
    (e : Entry) (changed : bool) (w : Store * Disk) : Z * (Store * Disk) :=
  let '(e', gen, s') := record_mem now_ms e changed w.1 in
  let d1 := (append append_fails e' w.2).2 in
  let d2 := (saveSnapshot save_fails gen (Seq e') d1).2 in
  (gen, (s', d2)).

(** A line that cannot be decoded is counted and dropped. *)
Definition read_line (name line : string) : option Entry :=
  let line := TrimSpace line in
  if String.eqb line "" then None
  else match Decode name line empty_entry with Ok e => Some e | Err _ => None end.

Definition readAudit (name : string) (file : option string) : list Entry :=
  match file with
  | None => []
  | Some data => omap (read_line name) (Lines data)
  end.

Definition loadAudit (d : Disk) : list Entry :=
  let out := readAudit "audit.filo.prev" (prev_file d) ++ readAudit "audit.filo" (audit_file d) in
  if Nat.ltb maxAuditMemory (length out) then last_n maxAuditMemory out else out.

Definition readSnapshot (d : Disk) : result (Z * Z) :=
  match snapshot_file d with
  | None => Ok (FirstGeneration, 0)
  | Some data =>
      match Decode "generation.filo" data (MkSnapshot FirstGeneration 0) with
      | Ok snap => Ok (Generation_ snap, AuditSeq snap)
      | Err e => Err (EWrap ("read state", []) e)
      end
  end.

Definition Open (d : Disk) : result Store :=
  gs ← readSnapshot d;
  Ok (MkStore gs.1 gs.2 (loadAudit d)).
End Files.

(** ** Two handlers recording at once

    Each call of Record is a thread of three atomic steps.  [pending] holds what
    a thread still has to do; the lock covers the first two steps only. *)
Inductive pending :=
  | PAppend (e : Entry) (gen : Z)
  | PSave (gen q : Z).

Record machine := MkMachine {
  m_store : Store;
  m_disk : Disk;
  m_threads : list pending;
}.

Section Interleaving.
Context `{FiloEngine} `{!FiloType Entry} `{!FiloType snapshot}.

Inductive step : machine -> machine -> Prop :=
  | step_record now e changed s d ts e' gen s' :
      record_mem now e changed s = (e', gen, s') ->
      step (MkMachine s d ts) (MkMachine s' d (PAppend e' gen :: ts))
  | step_append s d ts1 ts2 e gen fails :
      step (MkMachine s d (ts1 ++ PAppend e gen :: ts2))
           (MkMachine s (append fails e d).2 (ts1 ++ PSave gen (Seq e) :: ts2))
  | step_save s d ts1 ts2 gen q fails :
      step (MkMachine s d (ts1 ++ PSave gen q :: ts2))
           (MkMachine s (saveSnapshot fails gen q d).2 (ts1 ++ ts2)).
End Interleaving.
