(* ===== verification/AuditProofs.v ===== *)
(** * AuditProofs: the guarantees of the generation counter and the audit log *)
From S2P Require Import Prelude GoText GoTime GoPath Filo AuditLog.
From Stdlib Require Import Ascii SpecFloat.
Open Scope string_scope.
Open Scope list_scope.
Open Scope Z_scope.

(** ** In memory *)
Definition uint64_ok (z : Z) : Prop := 0 <= z < 2 ^ 64.

Lemma uint64_succ_ne z : uint64_ok z -> uint64_succ z <> z.
Proof.
  unfold uint64_ok, uint64_succ. intros H.
  destruct (Z.eq_dec (z + 1) (2 ^ 64)) as [E|]; [rewrite E|].
  - rewrite Z.mod_same by lia. lia.
  - rewrite Z.mod_small by lia. lia.
Qed.

Lemma uint64_succ_small z : 0 <= z < 2 ^ 64 - 1 -> uint64_succ z = z + 1.
Proof. intros H. unfold uint64_succ. apply Z.mod_small. lia. Qed.

(** Runs of Record against the memory alone, newest last. *)
Record call := MkCall { c_now : float64; c_entry : Entry; c_changed : bool }.

Fixpoint run_calls (cs : list call) (s : Store) : list Entry * Store :=
  match cs with
  | [] => ([], s)
  | c :: cs' => let '(e, _, s1) := record_mem (c_now c) (c_entry c) (c_changed c) s in
                let '(es, s2) := run_calls cs' s1 in (e :: es, s2)
  end.

(** Each entry starts at the generation the previous one ended at, carries the
    next sequence number, and moves the generation by at most one step. *)
Fixpoint chain (g q : Z) (es : list Entry) : Prop :=
  match es with
  | [] => True
  | e :: es' =>
      Before e = g /\ Seq e = q + 1 /\ (After e = g \/ After e = g + 1 /\ Result e = ResultOK) /\
      chain (After e) (q + 1) es'
  end.

Section Memory.
Lemma record_mem_window now e changed s e' gen s' all :
  recent s = last_n maxAuditMemory all -> record_mem now e changed s = (e', gen, s') ->
  recent s' = last_n maxAuditMemory (all ++ [e']).
Proof.
  intros Hw Hr.
  assert (E : recent s' = last_n maxAuditMemory (recent s ++ [e'])).
  { injection Hr as <- _ <-. cbn [recent].
    match goal with |- (if ?b then _ else ?k) = _ => destruct b eqn:E; [done|] end.
    symmetry. apply last_n_all. by apply Nat.ltb_ge in E. }
  rewrite E, Hw. apply last_n_snoc.
Qed.

Lemma run_calls_window cs s es s' all :
  recent s = last_n maxAuditMemory all -> run_calls cs s = (es, s') ->
  recent s' = last_n maxAuditMemory (all ++ es).
Proof.
  revert s es all. induction cs as [|c cs IH]; intros s es all Hw; cbn [run_calls].
  - intros [= <- <-]. by rewrite app_nil_r.
  - destruct (record_mem _ _ _ _) as [[e gen] s1] eqn:E1.
    destruct (run_calls cs s1) as [es1 s2] eqn:E2. intros [= <- <-].
    eapply IH in E2; [|by eapply record_mem_window].
    by rewrite E2, <- app_assoc.
Qed.

Lemma run_calls_length cs s : length (run_calls cs s).1 = length cs.
Proof.
  revert s. induction cs as [|c cs IH]; intros s; [done|]. cbn [run_calls].
  destruct (record_mem _ _ _ _) as [[e gen] s1]. specialize (IH s1).
  destruct (run_calls cs s1). cbn in *. lia.
Qed.

Lemma run_calls_chain cs s es s' :
  0 <= generation s -> 0 <= seq s ->
  generation s + Z.of_nat (length cs) < 2 ^ 64 -> seq s + Z.of_nat (length cs) < 2 ^ 64 ->
  run_calls cs s = (es, s') ->
  chain (generation s) (seq s) es /\ seq s' = seq s + Z.of_nat (length cs) /\
  generation s <= generation s' <= generation s + Z.of_nat (length cs) /\
  generation s' = default (generation s) (After <$> last es).
Proof.
  revert s es. induction cs as [|c cs IH]; intros s es Hg Hq Hlg Hlq; cbn [run_calls].
  - intros [= <- <-]. cbn. lia.
  - destruct (record_mem _ _ _ _) as [[e gen] s1] eqn:E1.
    destruct (run_calls cs s1) as [es1 s2] eqn:E2. intros [= <- <-].
    cbn [length] in *.
    assert (H1 : seq s1 = seq s + 1 /\ Seq e = seq s + 1 /\ Before e = generation s /\
      After e = generation s1 /\
      (generation s1 = generation s \/ generation s1 = generation s + 1 /\ Result e = ResultOK)).
    { unfold record_mem in E1. injection E1 as <- <- <-. cbn.
      rewrite !uint64_succ_small by lia.
      destruct (String.eqb_spec (Result (c_entry c)) ResultOK); cbn; [|lia].
      destruct (c_changed c); lia || naive_solver. }
    destruct H1 as (Hs & He & Hb & Ha & Hc).
    eapply IH in E2 as (Hch & Hs2 & Hg2 & Hl); [|lia..].
    cbn [chain]. rewrite Ha, He. split_and!; try done; try lia.
    + by rewrite <- Hs.
    + rewrite Hl. destruct es1 as [|e1 es1]; [by cbn; rewrite Ha|].
      rewrite last_cons_cons. destruct (last (e1 :: es1)) eqn:El; [done|].
      by apply last_None in El.
Qed.
End Memory.

(** ** On disk *)

(** Lines written one after the other, each with its newline. *)
Fixpoint unlines (ls : list string) : string :=
  match ls with [] => "" | l :: ls' => l +:+ String newline (unlines ls') end.

Section Text.
Lemma unlines_snoc ls l : unlines (ls ++ [l]) = unlines ls +:+ (l +:+ nl).
Proof.
  induction ls as [|k ls IH]; [done|]. cbn [unlines app]. rewrite IH.
  rewrite string_app_assoc. done.
Qed.

Lemma Lines_go_line cur l rest :
  contains_byte newline l = false ->
  Lines_go (l +:+ String newline rest) cur =
  (rev_string cur +:+ (l +:+ nl)) :: Lines_go rest "".
Proof.
  assert (Hrev : forall c s, rev_string (String c s) = rev_string s +:+ String c "").
  { assert (Hacc : forall s acc, rev_string_app s acc = rev_string s +:+ acc).
    { unfold rev_string. induction s as [|c s IH]; intros acc; [done|]. cbn [rev_string_app].
      rewrite IH, (IH (String c "")), string_app_assoc. done. }
    intros c s. unfold rev_string at 1. cbn [rev_string_app]. apply Hacc. }
  revert cur. induction l as [|c l IH]; intros cur Hl.
  - change ("" +:+ ?x) with x. cbn [Lines_go]. rewrite Ascii.eqb_refl, Hrev. done.
  - rewrite contains_byte_cons in Hl. apply orb_false_iff in Hl as [Hc Hl].
    change (String c l +:+ ?x) with (String c (l +:+ x)). cbn [Lines_go].
    rewrite Ascii.eqb_sym, Hc, IH by done. rewrite Hrev, string_app_assoc. done.
Qed.

Lemma Lines_unlines ls :
  Forall (fun l => contains_byte newline l = false) ls ->
  Lines (unlines ls) = (fun l => l +:+ nl) <$> ls.
Proof.
  unfold Lines. induction 1 as [|l ls Hl _ IH]; [done|].
  cbn [unlines]. rewrite Lines_go_line, IH by done. done.
Qed.
End Text.

Section Reopening.
Context `{FiloEngine} `{!FiloType Entry} `{!FiloType snapshot}.

(** What filo documents of the lines it writes: one line each, read back as
    the entry written.  Asked only of the entries at hand. *)
Definition entry_line (e : Entry) (l : string) : Prop :=
  (exists out, Marshal e = Ok out /\ TrimRight out nl = l) /\
  contains_byte newline l = false /\
  read_line "audit.filo" (l +:+ nl) = Some e /\
  read_line "audit.filo.prev" (l +:+ nl) = Some e.

Definition snapshot_kept (g q : Z) : Prop :=
  exists out, Marshal (MkSnapshot g q) = Ok out /\
    Decode "generation.filo" out (MkSnapshot FirstGeneration 0) = Ok (MkSnapshot g q).

(** The two files hold the newest lines of the history, oldest first. *)
Definition disk_history (d : Disk) (all : list Entry) : Prop :=
  exists gone prev cur lp lc,
    all = gone ++ prev ++ cur /\
    Forall2 entry_line prev lp /\ Forall2 entry_line cur lc /\
    default "" (prev_file d) = unlines lp /\ default "" (audit_file d) = unlines lc /\
    (prev_file d = None -> gone = []).

Lemma rotate_history d all : disk_history d all -> disk_history (rotateIfNeeded d) all.
Proof.
  intros (gone & prev & cur & lp & lc & -> & Hp & Hc & Ep & Ec & Hg). unfold rotateIfNeeded.
  destruct (audit_file d) as [a|] eqn:Ea; [|by exists gone, prev, cur, lp, lc; rewrite Ea].
  destruct (len a <? maxAuditBytes); [by exists gone, prev, cur, lp, lc; rewrite Ea|].
  exists (gone ++ prev), cur, [], lc, []. cbn in *. rewrite app_nil_r, <- app_assoc.
  split_and!; done || constructor.
Qed.

Lemma append_history d all e l :
  disk_history d all -> entry_line e l ->
  disk_history (append false e d).2 (all ++ [e]).
Proof.
  intros Hd He. pose proof He as ([out [Em Et]] & _). unfold append. rewrite Em. cbn [snd].
  apply rotate_history in Hd as (gone & prev & cur & lp & lc & -> & Hp & Hc & Ep & Ec & Hg).
  exists gone, prev, (cur ++ [e]), lp, (lc ++ [l]). cbn [prev_file audit_file default].
  rewrite Et, unlines_snoc, Ec, <- !app_assoc. split_and!; try done.
  apply Forall2_app; [done|]. constructor; [done|constructor].
Qed.

Lemma save_history d all fails g q : disk_history d all -> disk_history (saveSnapshot fails g q d).2 all.
Proof. unfold saveSnapshot. destruct (Marshal _), fails; done. Qed.

Lemma readAudit_lines name es ls file :
  default "" file = unlines ls ->
  Forall2 (fun e l => contains_byte newline l = false /\ read_line name (l +:+ nl) = Some e) es ls ->
  readAudit name file = es.
Proof.
  intros Hf Hl. assert (readAudit name file = omap (read_line name) (Lines (unlines ls))) as ->.
  { rewrite <- Hf. by destruct file. }
  rewrite Lines_unlines by (clear Hf; induction Hl as [|? ? ? ? [? ?]]; [apply Forall_nil_2|by apply Forall_cons_2]).
  clear Hf. induction Hl as [|e l es ls [_ Hr] _ IH]; [done|]. cbn. by rewrite Hr, IH.
Qed.

Lemma loadAudit_history d all :
  disk_history d all ->
  exists k, loadAudit d = last_n maxAuditMemory (drop k all) /\ (prev_file d = None -> k = 0%nat).
Proof.
  intros (gone & prev & cur & lp & lc & -> & Hp & Hc & Ep & Ec & Hg).
  exists (length gone). split; [|intros ->%Hg; done].
  rewrite drop_app_length. unfold loadAudit.
  rewrite (readAudit_lines "audit.filo.prev" prev lp), (readAudit_lines "audit.filo" cur lc);
    try done; [|eapply Forall2_impl; [done|]; intros ?? (_&?&?&?); done..].
  match goal with |- (if ?b then _ else ?k) = last_n _ ?k => destruct b eqn:E; [done|] end.
  symmetry. apply last_n_all. by apply Nat.ltb_ge in E.
Qed.

(** One entry at a time, nothing failing, nothing interleaved. *)
Fixpoint run_records (cs : list call) (w : Store * Disk) : Store * Disk :=
  match cs with
  | [] => w
  | c :: cs' => run_records cs' (Record_entry (c_now c) false false (c_entry c) (c_changed c) w).2
  end.

Lemma run_records_store cs w : (run_records cs w).1 = (run_calls cs w.1).2.
Proof.
  revert w. induction cs as [|c cs IH]; intros [s d]; [done|]. cbn [run_records run_calls].
  unfold Record_entry. cbn [fst snd]. destruct (record_mem _ _ _ _) as [[e g] s1]. rewrite IH.
  cbn [fst snd]. destruct (run_calls cs s1). done.
Qed.

Lemma run_records_history cs s d all :
  disk_history d all ->
  Forall (fun e => exists l, entry_line e l) (run_calls cs s).1 ->
  disk_history (run_records cs (s, d)).2 (all ++ (run_calls cs s).1).
Proof.
  revert s d all. induction cs as [|c cs IH]; intros s d all Hd; cbn [run_records run_calls].
  - intros _. by rewrite app_nil_r.
  - unfold Record_entry. cbn [fst snd].
    destruct (record_mem _ _ _ _) as [[e g] s1] eqn:E1.
    specialize (IH s1). destruct (run_calls cs s1) as [es s2]. cbn [fst snd] in *.
    intros [[l Hl] Hes]%Forall_cons.
    replace (all ++ e :: es) with ((all ++ [e]) ++ es) by (by rewrite <- app_assoc).
    apply IH; [|done]. apply save_history. by eapply append_history.
Qed.

Lemma saveSnapshot_read g q d :
  snapshot_kept g q -> readSnapshot (saveSnapshot false g q d).2 = Ok (g, q).
Proof.
  intros (out & Em & Ed). unfold saveSnapshot, readSnapshot. rewrite Em. cbn. by rewrite Ed.
Qed.

Lemma run_records_snapshot cs c s d :
  let w := run_records (cs ++ [c]) (s, d) in
  snapshot_kept (generation w.1) (seq w.1) ->
  readSnapshot w.2 = Ok (generation w.1, seq w.1).
Proof.
  cbv zeta. revert s d. induction cs as [|x cs IH]; intros s d; [|apply IH].
  cbn [run_records app]. unfold Record_entry. cbn [fst snd].
  destruct (record_mem _ _ _ _) as [[e g] s1] eqn:E1. cbn [fst snd].
  assert (g = generation s1 /\ Seq e = seq s1) as [-> ->].
  { unfold record_mem in E1. injection E1 as <- <- <-. done. }
  apply saveSnapshot_read.
Qed.
End Reopening.

(** Neither file grows past the ceiling by more than one line. *)
Definition files_bounded (L : Z) (d : Disk) : Prop :=
  len (default "" (audit_file d)) < maxAuditBytes + L /\
  len (default "" (prev_file d)) < maxAuditBytes + L.

Lemma append_bounded `{FiloEngine} `{!FiloType Entry} L fails e d :
  0 <= L ->
  (forall out, Marshal e = Ok out -> len (TrimRight out nl +:+ nl) <= L) ->
  files_bounded L d -> files_bounded L (append fails e d).2.
Proof.
  intros HL Hline [Ha Hp]. unfold append.
  destruct (Marshal e) as [out|] eqn:Em; [|done]. specialize (Hline out eq_refl).
  set (line := TrimRight out nl +:+ nl) in *.
  assert (Hr : len (default "" (audit_file (rotateIfNeeded d))) < maxAuditBytes /\
               len (default "" (prev_file (rotateIfNeeded d))) < maxAuditBytes + L).
  { assert (0 < maxAuditBytes) by done. assert (len "" = 0) by done.
    unfold rotateIfNeeded. destruct (audit_file d) as [a|] eqn:Ea; cbn [default from_option id] in *.
    - destruct (Z.ltb_spec (len a) maxAuditBytes).
      + rewrite Ea. cbn [default from_option id]. lia.
      + cbn [audit_file prev_file default from_option id]. lia.
    - rewrite Ea. cbn [default from_option id]. lia. }
  destruct fails; unfold files_bounded; cbn [snd audit_file prev_file default from_option id]; [lia|].
  assert (Happ : forall x y, len (x +:+ y) = len x + len y)
    by (intros x y; unfold len; rewrite app_string_length; lia).
  rewrite Happ. lia.
Qed.

(** ** A codec to run the theorems on *)
Module Demo.
(** A value is the text itself; a snapshot is "generation sequence", an entry
    its sequence number in brackets, the other fields being fixed. *)
Definition stamp : Entry := MkEntry 1 (f64_of_Z 5) "local" "" "apply" "x" 1 2 "ok" (Lit "").
Definition stamp_at (q b a : Z) : Entry := MkEntry q (f64_of_Z 5) "local" "" "apply" "x" b a "ok" (Lit "").

#[export] Instance engine : FiloEngine := {| Value := string; RunScript := fun s => Ok s |}.
#[export] Instance snapshot_codec : @FiloType engine snapshot := {|
  filo_Marshal := fun s => Ok (itoa (Generation_ s) +:+ " " +:+ itoa (AuditSeq s));
  UnmarshalFromValue := fun v (_ : _) =>
    match Cut (TrimRight (v : string) nl) " " with
    | (g, q, true) => match Atoi g, Atoi q with
                      | Some g, Some q => Ok (MkSnapshot g q)
                      | _, _ => Err ErrInvalid
                      end
    | _ => Err ErrInvalid
    end |}.
#[export] Instance entry_codec : @FiloType engine Entry := {|
  filo_Marshal := fun e => Ok ("(" +:+ itoa (Seq e) +:+ ")");
  UnmarshalFromValue := fun v (_ : _) =>
    match Atoi (Trim (v : string) "()") with
    | Some q => Ok (stamp_at q q (q + 1))
    | None => Err ErrInvalid
    end |}.

Definition fresh : Store := MkStore FirstGeneration 0 [].
Definition apply_ok : call := MkCall (f64_of_Z 5) (MkEntry 0 f64_zero "" "" "apply" "x" 0 0 "ok" (Lit "")) true.
End Demo.
#[local] Existing Instances Demo.engine Demo.snapshot_codec Demo.entry_codec.

(** ** Theorems *)

(** Record moves the generation exactly when an operation succeeded and
    changed something; every entry is stamped with the generation before and
    after it and with the next sequence number, and the answer is the new
    generation. *)
Theorem record_moves_generation now e changed s e' gen s' :
  uint64_ok (generation s) ->
  record_mem now e changed s = (e', gen, s') ->
  (generation s' <> generation s <-> Result e = ResultOK /\ changed = true) /\
  Before e' = generation s /\ After e' = generation s' /\ gen = generation s' /\
  Seq e' = uint64_succ (seq s) /\ seq s' = Seq e' /\
  Operation e' = Operation e /\ Target e' = Target e /\ Result e' = Result e /\ Detail e' = Detail e /\
  Actor e' <> "".
Proof.
  intros Hg Hr. unfold record_mem in Hr. injection Hr as <- <- <-. cbn.
  split; [|split_and!; try done; by destruct (String.eqb_spec (Actor e) "")].
  destruct (String.eqb_spec (Result e) ResultOK), changed; cbn; try naive_solver.
  split; [done|]. intros _. by apply uint64_succ_ne.
Qed.

Theorem record_moves_generation_witness :
  uint64_ok (generation Demo.fresh) /\
  (generation (record_mem f64_zero (c_entry Demo.apply_ok) true Demo.fresh).2 <> generation Demo.fresh
   <-> Result (c_entry Demo.apply_ok) = ResultOK /\ true = true).
Proof.
  split; [by split|].
  refine (proj1 (record_moves_generation f64_zero (c_entry Demo.apply_ok) true Demo.fresh _ _ _ _ eq_refl)).
  by split.
Defined.

(** C11: Optimistic control: a caller that checked the generation it read is the
    only one of two who carries a change out — after a change was recorded, a
    second caller's check of the same generation is refused with the current one.
    A caller that claims nothing (zero) is never refused. *)
Theorem optimistic_control now e s e' gen s' g :
  uint64_ok (generation s) -> g <> 0 ->
  Result e = ResultOK ->
  Check g s = Ok tt ->
  record_mem now e true s = (e', gen, s') ->
  Check g s' = Err (ErrConflict g gen) /\ Check 0 s' = Ok tt.
Proof.
  intros Hg Hz Hr Hc Hm. unfold Check in *.
  destruct (Z.eqb_spec g 0); [done|]. destruct (Z.eqb_spec g (generation s)) as [->|]; [|done].
  unfold record_mem in Hm. rewrite Hr in Hm. injection Hm as _ <- <-. cbn.
  pose proof (uint64_succ_ne _ Hg).
  destruct (Z.eqb_spec (generation s) (uint64_succ (generation s))); [congruence|done].
Qed.

Theorem optimistic_control_witness :
  Check 1 Demo.fresh = Ok tt /\
  Check 1 (record_mem f64_zero (c_entry Demo.apply_ok) true Demo.fresh).2 = Err (ErrConflict 1 2) /\
  Check 0 (record_mem f64_zero (c_entry Demo.apply_ok) true Demo.fresh).2 = Ok tt.
Proof.
  split; [done|].
  refine (optimistic_control f64_zero (c_entry Demo.apply_ok) Demo.fresh _ 2 _ 1 _ _ _ _ eq_refl);
    done.
Defined.

(** The audit in memory, over any sequence of recordings on a fresh host:
    the entries form one chain (each starts where the previous one ended, the
    sequence numbers have no gap, the generation moves one step at a time and
    only for an operation that succeeded), and what the store keeps is exactly
    the newest thousand of them. *)
Theorem audit_timeline cs es s' :
  Z.of_nat (length cs) < 2 ^ 64 - 1 ->
  run_calls cs (MkStore FirstGeneration 0 []) = (es, s') ->
  chain FirstGeneration 0 es /\ recent s' = last_n maxAuditMemory es /\
  (length (recent s') <= maxAuditMemory)%nat /\
  seq s' = Z.of_nat (length cs) /\ generation s' = default FirstGeneration (After <$> last es).
Proof.
  intros Hl Hr.
  destruct (run_calls_chain cs (MkStore FirstGeneration 0 []) es s') as (Hc & Hs & Hg & Ha);
    cbn; unfold FirstGeneration in *; try lia; try done.
  assert (Hw : recent s' = last_n maxAuditMemory es).
  { eapply (run_calls_window cs _ es s' []) in Hr; done. }
  split_and!; try done. rewrite Hw, length_last_n. lia.
Qed.

Theorem audit_timeline_witness :
  chain FirstGeneration 0 (run_calls [Demo.apply_ok; Demo.apply_ok] (MkStore FirstGeneration 0 [])).1.
Proof.
  refine (proj1 (audit_timeline [Demo.apply_ok; Demo.apply_ok] _ _ _ eq_refl)). vm_compute. reflexivity.
Defined.

(** A restart loses nothing it can keep: after any sequence of recordings
    that reached the disk, opening the directory again gives the same generation
    and sequence, and as history the newest thousand entries of what the two
    audit files hold — all of it when no rotation dropped any. *)
Theorem reopen_restores `{FiloEngine} `{!FiloType Entry} `{!FiloType snapshot} cs c s d :
  let w := run_records (cs ++ [c]) (MkStore FirstGeneration 0 [], empty_disk) in
  let es := (run_calls (cs ++ [c]) (MkStore FirstGeneration 0 [])).1 in
  w = (s, d) ->
  Forall (fun e => exists l, entry_line e l) es ->
  snapshot_kept (generation s) (seq s) ->
  exists k, Open d = Ok (MkStore (generation s) (seq s) (last_n maxAuditMemory (drop k es))) /\
    (prev_file d = None -> Open d = Ok s).
Proof.
  cbv zeta. intros Hw Hes Hsnap.
  assert (Hd : disk_history d (run_calls (cs ++ [c]) (MkStore FirstGeneration 0 [])).1).
  { pose proof (run_records_history (cs ++ [c]) (MkStore FirstGeneration 0 []) empty_disk []) as Hh.
    rewrite Hw in Hh. apply Hh; [|done]. exists [], [], [], [], []. split_and!; done || constructor. }
  pose proof (run_records_snapshot cs c (MkStore FirstGeneration 0 []) empty_disk) as Hs.
  cbv zeta in Hs. rewrite Hw in Hs. cbn [fst snd] in Hs. specialize (Hs Hsnap).
  destruct (loadAudit_history d _ Hd) as (k & Hk & Hnone).
  exists k. unfold Open. rewrite Hs. cbn. rewrite Hk. split; [done|].
  intros Hp. rewrite (Hnone Hp), drop_0.
  pose proof (run_records_store (cs ++ [c]) (MkStore FirstGeneration 0 [], empty_disk)) as Hst.
  rewrite Hw in Hst. cbn [fst] in Hst. destruct (run_calls _ _) as [es s2] eqn:E.
  cbn [fst snd] in *. subst s2.
  assert (Hwin : recent s = last_n maxAuditMemory ([] ++ es)) by (eapply run_calls_window; [|exact E]; done).
  cbn [app] in Hwin. rewrite <- Hwin. by destruct s.
Qed.

Theorem reopen_restores_witness :
  let w := run_records [Demo.apply_ok] (MkStore FirstGeneration 0 [], empty_disk) in
  exists k, Open w.2 = Ok (MkStore (generation w.1) (seq w.1)
      (last_n maxAuditMemory (drop k (run_calls [Demo.apply_ok] (MkStore FirstGeneration 0 [])).1))) /\
    (prev_file w.2 = None -> Open w.2 = Ok w.1).
Proof.
  refine (reopen_restores [] Demo.apply_ok _ _ eq_refl _ _).
  - apply Forall_cons_2; [|apply Forall_nil_2]. exists "(1)". unfold entry_line.
    split; [exists ("(1)" +:+ nl); split; vm_compute; reflexivity|].
    split_and!; vm_compute; reflexivity.
  - exists ("2 1" +:+ nl). split; vm_compute; reflexivity.
Defined.

(** The audit log has a ceiling: whatever is appended, failing or not, each
    of the two files stays below the rotation size plus one line. *)
Theorem audit_disk_bounded `{FiloEngine} `{!FiloType Entry} L (es : list (bool * Entry)) d :
  0 <= L -> files_bounded L d ->
  Forall (fun x => forall out, Marshal x.2 = Ok out -> len (TrimRight out nl +:+ nl) <= L) es ->
  files_bounded L (foldl (fun d x => (append x.1 x.2 d).2) d es).
Proof.
  intros HL Hd Hes. revert d Hd. induction Hes as [|[fails e] es He _ IH]; intros d Hd; [done|].
  cbn [foldl]. apply IH. by apply append_bounded.
Qed.

Theorem audit_disk_bounded_witness :
  files_bounded 8 (foldl (fun d x => (append x.1 x.2 d).2) empty_disk [(false, Demo.stamp); (true, Demo.stamp)]).
Proof.
  refine (audit_disk_bounded 8 [(false, Demo.stamp); (true, Demo.stamp)] empty_disk _ _ _).
  - lia.
  - by split.
  - apply Forall_cons_2; [|apply Forall_cons_2; [|apply Forall_nil_2]];
      intros out [= <-]; vm_compute; discriminate.
Defined.

(** Two operations recorded at once can leave an older generation on disk
    than the one the clients were answered with: the snapshot is written after
    the lock was released, so the two writes can land in the wrong order, and a
    daemon that restarts then reads the older one. *)
Theorem snapshot_write_race :
  exists m, rtc step (MkMachine (MkStore FirstGeneration 0 []) empty_disk []) m /\
    m_threads m = [] /\ generation (m_store m) = 3 /\ readSnapshot (m_disk m) = Ok (2, 1).
Proof.
  set (c := Demo.apply_ok). set (s0 := MkStore FirstGeneration 0 []).
  destruct (record_mem (c_now c) (c_entry c) true s0) as [[e1 g1] s1] eqn:E1.
  destruct (record_mem (c_now c) (c_entry c) true s1) as [[e2 g2] s2] eqn:E2.
  eexists. split.
  - eapply rtc_l; [eapply step_record; exact E1|].
    eapply rtc_l; [eapply step_record; exact E2|].
    eapply rtc_l; [eapply (step_append _ _ [] _ e2 g2 false)|].
    eapply rtc_l; [eapply (step_append _ _ [_] _ e1 g1 false)|].
    eapply rtc_l; [eapply (step_save _ _ [] _ g2 _ false)|].
    eapply rtc_l; [eapply (step_save _ _ [] _ g1 _ false)|].
    apply rtc_refl.
  - injection E1 as <- <- <-. injection E2 as <- <- <-. split_and!; vm_compute; reflexivity.
Qed.
