(* ===== verification/Runtime.v ===== *)
(** * Runtime: what the program asks of the container runtime

    The data of src/docker/docker.go and, as a typeclass, the operations of its
    Client the rest of the daemon calls.  The runtime itself (Docker or Podman)
    is not code of the repository: the supervisor is written against the class,
    and TraceRuntime.v gives the instance the theorems are proved over, which Simulation.v shows to be every instance. *)
From S2P Require Import Prelude GoText GoTime.
From Stdlib Require Import Ascii SpecFloat.
Open Scope string_scope.
Open Scope list_scope.
Open Scope Z_scope.

Module Docker.

Record Mount := MkMount {
  Source : string;
  Target : string;
  ReadOnly : bool;
  Named : bool;
}.

Record Port := MkPort {
  HostIP : string;
  HostPort : Z;
  ContainerPort : Z;
  Protocol : string;
}.

Record Spec := MkSpec {
  sp_Name : string;
  sp_Image : string;
  sp_Args : list string;
  sp_Env : list string;
  sp_Dir : string;
  sp_Ports : list Port;
  sp_Mounts : list Mount;
  sp_Labels : gmap string string;
  sp_Memory : Z;
  sp_NanoCPU : Z;
  sp_Network : string;
  sp_Alias : string;
  sp_Restart : string;
}.

Record Container := MkContainer {
  c_ID : string;
  c_Name : string;
  c_Image : string;
  c_Digest : string;
  c_Running : bool;
  c_PID : Z;
  c_Started : Time;
  c_Exit : Z;
  c_Status : string;
  c_Restarts : Z;
  c_Error : string;
  c_Restart : string;
  c_Labels : gmap string string;
}.

Record ImageInfo := MkImageInfo { ii_Digest : string; ii_Arch : string }.

Record ImageSummary := MkImageSummary {
  im_Digest : string;
  im_Tags : list string;
  im_Bytes : Z;
  im_Created : Time;
}.

Record Line := MkLine { ln_Stream : string; ln_Text : string; ln_At : Time }.

Record Event := MkEvent {
  ev_Action : string;
  ev_ID : string;
  ev_At : Time;
  ev_Attributes : gmap string string;
}.

Record ServerInfo := MkServerInfo { si_Version : string; si_Arch : string }.

(** An entry of a tar: whether it is a regular file, the base of its name, its
    declared size and the bytes that can be read of it. *)
Record TarEntry := MkTarEntry { te_Regular : bool; te_Name : string; te_Size : Z; te_Content : string }.

(** A lookup in a Go map[string]string: absent reads as empty. *)
Definition label (k : string) (m : gmap string string) : string := default "" (m !! k).

(** m.kind(), s.restartPolicy(), p.protocol(), p.hostIP() *)
Definition mount_kind (m : Mount) : string := if Named m then "volume" else "bind".
Definition spec_restartPolicy (s : Spec) : string :=
  if String.eqb (sp_Restart s) "" then "no" else sp_Restart s.
Definition port_protocol (p : Port) : string :=
  if String.eqb (Protocol p) "" then "tcp" else Protocol p.
Definition port_hostIP (p : Port) : string :=
  if String.eqb (HostIP p) "" then "127.0.0.1" else HostIP p.

End Docker.

(** The operations of docker.Client, over the state [W] of the machine outside
    the daemon.  A container is named by its id or by its name.  Pull answers
    with what it said on the way; Load is given the bytes and what cut them
    short; Archive answers with the entries of a tar and what ended it. *)
Class Runtime (W : Type) := {
  rt_List : string -> ST W (result (list Docker.Container));
  rt_Inspect : string -> ST W (result Docker.Container);
  rt_Create : Docker.Spec -> ST W (result string);
  rt_Start : string -> ST W (result unit);
  rt_Stop : string -> Z -> ST W (result unit);
  rt_Remove : string -> ST W (result unit);
  rt_UpdateRestart : string -> string -> ST W (result unit);
  rt_Wait : string -> ST W (result Z);
  rt_EnsureNetwork : string -> ST W (result unit);
  rt_EnsureVolume : string -> gmap string string -> ST W (result unit);
  rt_Image : string -> ST W (result Docker.ImageInfo);
  rt_Images : ST W (result (list Docker.ImageSummary));
  rt_Tag : string -> string -> string -> ST W (result unit);
  rt_RemoveImage : string -> ST W (result unit);
  rt_Server : ST W (result Docker.ServerInfo);
  rt_Pull : string -> ST W (list string * result unit);
  rt_VolumeMountpoint : string -> ST W (result string);
  rt_Load : string -> option error -> ST W (result unit);
  rt_Archive : string -> string -> ST W (result (list Docker.TarEntry * error));
}.

(** ** Log records

    src/logs/record.go: what the daemon hands to the log store. *)
Module Logs.

Definition StreamOut := "stdout".
Definition StreamErr := "stderr".
Definition StreamEvent := "event".

Definition EventStarted := "service.started".
Definition EventExited := "service.exited".
Definition EventStopped := "service.stopped".
Definition EventKilled := "service.killed".
Definition EventOrphan := "service.orphan".
Definition EventApplied := "config.applied".
Definition EventLogDropped := "logs.dropped".
Definition EventJobStarted := "job.started".
Definition EventJobFinished := "job.finished".
Definition EventJobSkipped := "job.skipped".
Definition EventJobOverran := "job.overran".
Definition EventImage := "image.received".
Definition EventBackup := "backup".
Definition EventProblem := "hostd.problem".

Record Record_ := MkRecord {
  r_Seq : Z;
  r_Time : Time;
  r_Service : string;
  r_Stream : string;
  r_Kind : string;
  r_Run : string;
  r_Text : Msg;
}.

End Logs.

(** Where a log store stopped holding output of a service: what the readers of
    the supervisor ask of the log component. *)
Class LogStore := { LastAt : list Logs.Record_ -> string -> result Time }.

(** The order in which a range over a Go map visits it: any order. *)
Class MapOrder (A : Type) := {
  range : gmap string A -> list (string * A);
  range_perm : forall m, range m ≡ₚ map_to_list m;
}.

#[export] Instance some_order A : MapOrder A.
Proof. refine {| range := map_to_list |}. done. Defined.

Section RangeFacts.
Context {A} `{MapOrder A}.
Lemma elem_of_range (m : gmap string A) k v : (k, v) ∈ range m <-> m !! k = Some v.
Proof. by rewrite range_perm, elem_of_map_to_list. Qed.
Lemma NoDup_range (m : gmap string A) : NoDup (range m).*1.
Proof. rewrite range_perm. apply NoDup_fst_map_to_list. Qed.
End RangeFacts.
