(* ===== verification/DockerClient.v ===== *)
(** * DockerClient: the runtime spoken to over HTTP

    src/docker/docker.go.  What the program relies on is net/http and the
    daemon behind the socket: the class [Transport] is one exchange over it.
    Everything else, from the URL and the JSON of a request to the reading of
    an answer or a stream, is here.  [docker_runtime] is the instance of the
    interface the supervisor is written against. *)
From S2P Require Import Prelude GoText GoTime GoPath Json Runtime.
From Stdlib Require Import Ascii SpecFloat.
Open Scope string_scope.
Open Scope list_scope.
Open Scope Z_scope.
Open Scope hostd_scope.

(** ** One exchange *)

(** [rq_Cut] is what cut the body of a request short, when its source did. *)
Record HttpRequest := MkHttpRequest {
  rq_Method : string;
  rq_URL : string;
  rq_ContentType : string;
  rq_Body : string;
  rq_Cut : option error;
}.

(** The bytes of an answer's body, and what ended them if not its end. *)
Record HttpResponse := MkHttpResponse {
  rs_StatusCode : Z;
  rs_Status : string;
  rs_Body : string;
  rs_Cut : option error;
}.

Class Transport (W : Type) := { http_Do : HttpRequest -> ST W (result HttpResponse) }.

(** ** Errors as text *)

(** strconv.Quote, on the ASCII text the program quotes. *)
Fixpoint quote_ascii (s : string) : string :=
  match s with
  | "" => ""
  | String c s' =>
      (if Ascii.eqb c quote_char || Ascii.eqb c backslash then String backslash (String c "")
       else if code c =? 7 then String backslash "a" else if code c =? 8 then String backslash "b"
       else if code c =? 9 then String backslash "t" else if code c =? 10 then String backslash "n"
       else if code c =? 11 then String backslash "v" else if code c =? 12 then String backslash "f"
       else if code c =? 13 then String backslash "r"
       else if (code c <? 32) || (code c =? 127)
       then String backslash (String "x" (String (low_hex (code c / 16)) (String (low_hex (code c mod 16)) "")))
       else String c "") +:+ quote_ascii s'
  end.
Definition Quote (s : string) : string := String quote_char (quote_ascii s +:+ String quote_char "").

(** fmt.Sprintf with the verbs the program uses; a number with a precision,
    %.1f, arrives as the text FormatFixed gives it. *)
Fixpoint sprintf (format : string) (args : list string) : string :=
  match format with
  | String p rest =>
      match rest with
      | String v f =>
          if Ascii.eqb p "%" then
            if Ascii.eqb v "%" then String "%" (sprintf f args)
            else if Ascii.eqb v "." then
              match f, args with
              | String _ (String _ f'), a :: args' => a +:+ sprintf f' args'
              | String _ (String _ f'), [] => sprintf f' []
              | _, _ => f
              end
            else match args with
                 | a :: args' => (if Ascii.eqb v "q" then Quote a else a) +:+ sprintf f args'
                 | [] => sprintf f []
                 end
          else String p (sprintf rest args)
      | "" => format
      end
  | "" => ""
  end.
Fixpoint render_arg (a : Arg) : string :=
  match a with
  | AStr s => s
  | AInt z => itoa z
  | AFmt format args => sprintf format (map render_arg args)
  end.
(** err.Error() *)
Definition error_text (e : error) : string := render_arg (AMsg (error_msg e)).

(** ** The client *)
Definition apiVersion := "v1.41".
Definition maxFrameBytes : Z := 2 ^ 20.

Definition url (path : string) (query : Values) : string :=
  "http://docker/" +:+ apiVersion +:+ path +:+
  match query with [] => "" | _ => "?" +:+ Encode query end.

(** The daemon's own words in an answer, or the answer itself. *)
Definition message (body : string) : string :=
  match Unmarshal body ≫= fun j => at_path ["message"] fill_string j "" with
  | Some "" | None => TrimSpace body
  | Some said => said
  end.

Section Client.
Context {W : Type} `{Transport W}.

Definition do_ (method path : string) (query : Values) (body : option Json) : ST W (result HttpResponse) :=
  answer ← http_Do (MkHttpRequest method (url path query)
                      (match body with Some _ => "application/json" | None => "" end)
                      (match body with Some j => print j | None => "" end) None);
  mret match answer with
       | Err e => Err (EWrap ("%s %s: %w", [AStr method; AStr path]) e)
       | Ok resp =>
           if rs_StatusCode resp <? 400 then Ok resp
           else let detail := message (take_bytes (Z.to_nat 4096) (rs_Body resp)) in
                if rs_StatusCode resp =? 404 then Err (EWrap ("%w: %s", [AStr detail]) ErrNotFound)
                else Err (EMsg ("%s %s: %s: %s", [AStr method; AStr path; AStr (rs_Status resp); AStr detail]))
       end.

(** Decoder.Decode of the first value of an answer. *)
Definition decode_body {A} (fill : Json -> option A) (resp : HttpResponse) : result A :=
  match decode_next (rs_Body resp) with
  | AtEnd => Err (default (EMsg ("EOF", [])) (rs_Cut resp))
  | Malformed => Err (EMsg (Lit "the answer is not JSON"))
  | Next_value j _ => match fill j with
                      | Some a => Ok a
                      | None => Err (EMsg (Lit "a value of the answer has another type"))
                      end
  end.

(** call with out, and call with out nil *)
Definition call {A} (method path : string) (query : Values) (body : option Json) (fill : Json -> option A)
    : ST W (result A) :=
  resp ←! do_ method path query body;
  mret (decode_body fill resp).
Definition call_ (method path : string) (query : Values) (body : option Json) : ST W (result unit) :=
  resp ←! do_ method path query body;
  mret (Ok tt).

Definition GET := "GET".
Definition POST := "POST".
Definition DELETE := "DELETE".

Definition Ping (socket : string) : ST W (result unit) :=
  r ← call GET "/version" [] None (fun j => at_path ["Version"] fill_string j "");
  mret match r with
       | Ok _ => Ok tt
       | Err e => Err (EWrap ("the container runtime on %s does not answer: %w", [AStr socket]) e)
       end.

(** *** Containers *)

(** The key of a port and the ports of one key, in the order declared. *)
Definition port_key (p : Docker.Port) : string := itoa (Docker.ContainerPort p) +:+ "/" +:+ Docker.port_protocol p.
Definition port_keys (ports : list Docker.Port) : list string := sorted_keys (list_to_set (port_key <$> ports)).
Definition binding (p : Docker.Port) : Json :=
  JObj [("HostIp", JStr (Docker.port_hostIP p)); ("HostPort", JStr (itoa (Docker.HostPort p)))].
Definition bindings (ports : list Docker.Port) : Json :=
  JObj ((fun k => (k, JArr (binding <$> filter (fun p => port_key p = k) ports))) <$> port_keys ports).
Definition exposed (ports : list Docker.Port) : Json := JObj ((fun k => (k, JObj [])) <$> port_keys ports).

Definition mount_json (m : Docker.Mount) : Json :=
  JObj [("ReadOnly", JBool (Docker.ReadOnly m)); ("Source", JStr (Docker.Source m));
        ("Target", JStr (Docker.Target m)); ("Type", JStr (Docker.mount_kind m))].

Definition strings_json (l : list string) : Json := JArr (JStr <$> l).
Definition labels_json (m : gmap string string) : Json :=
  JObj ((fun k => (k, JStr (Docker.label k m))) <$> sorted_keys (dom m)).

Definition hostConfig (spec : Docker.Spec) : Json :=
  JObj [("CapAdd", JArr []);
        ("Init", JBool true);
        ("Memory", JNum (itoa (Docker.sp_Memory spec)));
        ("Mounts", JArr (mount_json <$> Docker.sp_Mounts spec));
        ("NanoCpus", JNum (itoa (Docker.sp_NanoCPU spec)));
        ("NetworkMode", JStr "bridge");
        ("PidMode", JStr "");
        ("PortBindings", bindings (Docker.sp_Ports spec));
        ("Privileged", JBool false);
        ("RestartPolicy", JObj [("Name", JStr (Docker.spec_restartPolicy spec))]);
        ("SecurityOpt", strings_json ["no-new-privileges"])].

(** The body of a create, as json.Marshal writes the map: keys in order.  A
    nil list of arguments, variables or labels, which Marshal writes as null, is
    written here as the empty one. *)
Definition create_body (spec : Docker.Spec) : Json :=
  JObj ([("Cmd", strings_json (Docker.sp_Args spec));
         ("Env", strings_json (Docker.sp_Env spec));
         ("ExposedPorts", exposed (Docker.sp_Ports spec));
         ("HostConfig", hostConfig spec);
         ("Image", JStr (Docker.sp_Image spec));
         ("Labels", labels_json (Docker.sp_Labels spec))] ++
        (if String.eqb (Docker.sp_Network spec) "" then []
         else [("NetworkingConfig",
                JObj [("EndpointsConfig",
                       JObj [(Docker.sp_Network spec,
                              JObj [("Aliases", strings_json [Docker.sp_Alias spec])])])])]) ++
        (if String.eqb (Docker.sp_Dir spec) "" then [] else [("WorkingDir", JStr (Docker.sp_Dir spec))])).

Definition Create (spec : Docker.Spec) : ST W (result string) :=
  call POST "/containers/create" [("name", Docker.sp_Name spec)] (Some (create_body spec))
    (fun j => at_path ["Id"] fill_string j "").

Definition container_path (id rest : string) : string := "/containers/" +:+ PathEscape id +:+ rest.

Definition UpdateRestart (id policy : string) : ST W (result unit) :=
  call_ POST (container_path id "/update") [] (Some (JObj [("RestartPolicy", JObj [("Name", JStr policy)])])).

Definition Start (id : string) : ST W (result unit) := call_ POST (container_path id "/start") [] None.

(** A container that is not there is as stopped, and as removed, as can be. *)
Definition forgive_absent (r : result unit) : result unit :=
  match r with
  | Err e => if errors_is e ErrNotFound then Ok tt else Err e
  | Ok _ => r
  end.

(** int(grace.Seconds()) *)
Definition whole_seconds (grace : Z) : Z :=
  f64_to_int64 (Seconds grace).

Definition Stop (id : string) (grace : Z) : ST W (result unit) :=
  r ← call_ POST (container_path id "/stop") [("t", itoa (whole_seconds grace))] None;
  mret (forgive_absent r).

Definition Remove (id : string) : ST W (result unit) :=
  r ← call_ DELETE (container_path id "") [("force", "true"); ("v", "false")] None;
  mret (forgive_absent r).

(** Where a tag is missing, the field has the name of the Go field. *)
Definition read_inspect (j : Json) : option Docker.Container :=
  id ← at_path ["Id"] fill_string j "";
  name ← at_path ["Name"] fill_string j "";
  digest ← at_path ["Image"] fill_string j "";
  status ← at_path ["State"; "Status"] fill_string j "";
  running ← at_path ["State"; "Running"] fill_bool j false;
  pid ← at_path ["State"; "Pid"] fill_int j 0;
  exit ← at_path ["State"; "ExitCode"] fill_int j 0;
  error ← at_path ["State"; "Error"] fill_string j "";
  started ← at_path ["State"; "StartedAt"] fill_string j "";
  _ ← at_path ["State"; "FinishedAt"] fill_string j "";
  restarts ← at_path ["RestartCount"] fill_int j 0;
  restart ← at_path ["HostConfig"; "RestartPolicy"; "Name"] fill_string j "";
  image ← at_path ["Config"; "Image"] fill_string j "";
  Some (Docker.MkContainer id (TrimPrefix name "/") image digest running pid
          (default zero_time (ParseRFC3339Nano started)) exit status restarts error restart ∅).

Definition Inspect (id : string) : ST W (result Docker.Container) :=
  call GET (container_path id "/json") [] None read_inspect.

Definition read_listed (j : Json) : option Docker.Container :=
  id ← at_path ["Id"] fill_string j "";
  names ← at_path ["Names"] (fill_list "" fill_string) j [];
  image ← at_path ["Image"] fill_string j "";
  digest ← at_path ["ImageID"] fill_string j "";
  state ← at_path ["State"] fill_string j "";
  labels ← at_path ["Labels"] fill_map j ∅;
  Some (Docker.MkContainer id (match names with n :: _ => TrimPrefix n "/" | [] => "" end) image digest
          (String.eqb state "running") 0 zero_time 0 state 0 "" "" labels).

(** A []struct decoded from nothing. *)
Definition read_list {A} (read : Json -> option A) (j : Json) : option (list A) :=
  match j with JArr l => mapM read l | JNull => Some [] | _ => None end.

Definition label_filter (label : string) : string :=
  "{" +:+ Quote "label" +:+ ":[" +:+ Quote label +:+ "]}".

Definition List_ (label : string) : ST W (result (list Docker.Container)) :=
  call GET "/containers/json"
    ([("all", "true")] ++ if String.eqb label "" then [] else [("filters", label_filter label)])
    None (read_list read_listed).

(** The exit code comes with an error where the runtime says so; what is left
    of it then is not used by any caller. *)
Definition read_wait (j : Json) : option (Z * string) :=
  c ← at_path ["StatusCode"] fill_int j 0;
  m ← at_path ["Error"; "Message"] fill_string j "";
  Some (c, m).

Definition Wait (id : string) : ST W (result Z) :=
  ' (c, m) ←! call POST (container_path id "/wait") [] None read_wait;
  mret (if String.eqb m "" then Ok c else Err (EMsg (Lit m))).

(** *** Networks and volumes *)
Definition EnsureNetwork (name : string) : ST W (result unit) :=
  found ← call_ GET ("/networks/" +:+ PathEscape name) [] None;
  match found with
  | Ok _ => mret (Ok tt)
  | Err e =>
      if negb (errors_is e ErrNotFound) then mret (Err e)
      else
        made ← call_ POST "/networks/create" [] (Some (JObj [("Driver", JStr "bridge"); ("Name", JStr name)]));
        mret match made with
             | Err e => if Contains (error_text e) "already exists" then Ok tt else Err e
             | Ok _ => Ok tt
             end
  end.

Definition VolumeMountpoint (name : string) : ST W (result string) :=
  at_ ←! call GET ("/volumes/" +:+ PathEscape name) [] None (fun j => at_path ["Mountpoint"] fill_string j "");
  mret (if String.eqb at_ ""
        then Err (EMsg ("the runtime holds volume %s but does not say where", [AStr name]))
        else Ok at_).

Definition EnsureVolume (name : string) (labels : gmap string string) : ST W (result unit) :=
  found ← call_ GET ("/volumes/" +:+ PathEscape name) [] None;
  match found with
  | Ok _ => mret (Ok tt)
  | Err e =>
      if negb (errors_is e ErrNotFound) then mret (Err e)
      else call_ POST "/volumes/create" [] (Some (JObj [("Labels", labels_json labels); ("Name", JStr name)]))
  end.

(** *** Images *)
Definition image_path (image rest : string) : string := "/images/" +:+ PathEscape image +:+ rest.

Definition read_image (j : Json) : option Docker.ImageInfo :=
  id ← at_path ["Id"] fill_string j "";
  arch ← at_path ["Architecture"] fill_string j "";
  Some (Docker.MkImageInfo id arch).
Definition Image (image : string) : ST W (result Docker.ImageInfo) :=
  call GET (image_path image "/json") [] None read_image.
Definition ImageDigest (image : string) : ST W (result string) :=
  found ←! Image image; mret (Ok (Docker.ii_Digest found)).

Definition none_tag := "<none>:<none>".
Definition read_summary (j : Json) : option Docker.ImageSummary :=
  id ← at_path ["Id"] fill_string j "";
  tags ← at_path ["RepoTags"] (fill_list "" fill_string) j [];
  size ← at_path ["Size"] fill_int j 0;
  created ← at_path ["Created"] fill_int j 0;
  Some (Docker.MkImageSummary id (filter (fun t => t <> none_tag) tags) size (of_unix_sec created)).
Definition Images : ST W (result (list Docker.ImageSummary)) :=
  call GET "/images/json" [] None (read_list read_summary).

Definition Tag (image repo tag : string) : ST W (result unit) :=
  call_ POST (image_path image "/tag") [("repo", repo); ("tag", tag)] None.
Definition RemoveImage (reference : string) : ST W (result unit) :=
  call_ DELETE (image_path reference "") [] None.

Definition read_server (j : Json) : option Docker.ServerInfo :=
  version ← at_path ["Version"] fill_string j "";
  arch ← at_path ["Arch"] fill_string j "";
  Some (Docker.MkServerInfo version arch).
Definition Server : ST W (result Docker.ServerInfo) := call GET "/version" [] None read_server.
Definition Arch : ST W (result string) := info ←! Server; mret (Ok (Docker.si_Arch info)).

(** The body of a tar, to be read by whoever asked. *)
Definition Archive (id path : string) : ST W (result (string * option error)) :=
  resp ←! do_ GET (container_path id "/archive") [("path", path)] None;
  mret (Ok (rs_Body resp, rs_Cut resp)).

(** What was written to [w] and what ended it. *)
Definition Save (image : string) : ST W (result (string * option error)) :=
  resp ←! do_ GET (image_path image "/get") [] None;
  mret (Ok (rs_Body resp, rs_Cut resp)).

Definition Load (content : string) (cut : option error) : ST W (result unit) :=
  answer ← http_Do (MkHttpRequest POST (url "/images/load" [("quiet", "1")]) "application/x-tar" content cut);
  mret match answer with
       | Err e => Err (EWrap ("load the image into the runtime: %w", []) e)
       | Ok resp =>
           let body := take_bytes (Z.to_nat 8192) (rs_Body resp) in
           if 400 <=? rs_StatusCode resp
           then Err (EMsg ("load the image into the runtime: %s: %s", [AStr (rs_Status resp); AStr (message body)]))
           else if Contains body (Quote "error")
           then Err (EMsg ("load the image into the runtime: %s", [AStr (message body)]))
           else Ok tt
       end.

(** ** Streams *)

(** strconv of a time as seconds and nanoseconds: "%d.%09d". *)
Definition since_value (t : Time) : string := itoa (Unix t) +:+ "." +:+ pad 9 (NanosecondOf t).

Definition splitTimestamp (raw : string) : Time * string :=
  match Cut raw " " with
  | (_, _, false) => (zero_time, raw)
  | (stamp, rest, true) =>
      match ParseRFC3339Nano stamp with
      | Some at_ => (at_, rest)
      | None => (zero_time, raw)
      end
  end.

Definition byte_at (n : nat) (s : string) : Z := match String.get n s with Some c => code c | None => 0 end.
Definition frame_size (header : string) : Z :=
  Z.lor (Z.lor (Z.lor (Z.shiftl (byte_at 4 header) 24) (Z.shiftl (byte_at 5 header) 16))
               (Z.shiftl (byte_at 6 header) 8)) (byte_at 7 header).

Definition payload_lines (payload : string) : list string :=
  Split (TrimRight payload (String newline "")) newline.

Section Streams.
Context {F : Type}.

(** The lines of one frame, handed to [fn] until it fails. *)
Definition hand_line (fn : Docker.Line -> ST F (result unit)) (stream raw : string) : ST F (result unit) :=
  let '(at_, text) := splitTimestamp raw in fn (Docker.MkLine stream text at_).

(** The loop of Logs over what a body still holds.  Each round takes the eight
    bytes of a header, so the length of the body is fuel enough. *)
Fixpoint read_frames (fuel : nat) (id body : string) (cut : option error) (fn : Docker.Line -> ST F (result unit))
    : ST F (result unit) :=
  if Nat.ltb (String.length body) 8 then
    mret match cut with Some e => Err e | None => Ok tt end
  else
    match fuel with
    | O => mret (Ok tt)
    | S n =>
        let header := take_bytes 8 body in
        let rest := drop_bytes 8 body in
        let size := frame_size header in
        if (size <? 0) || (maxFrameBytes <? size)
        then mret (Err (EMsg ("log frame of %d bytes from container %s", [AInt size; AStr id])))
        else if len rest <? size
        then mret (Err (default (EMsg (Lit "unexpected EOF")) cut))
        else
          let payload := take_bytes (Z.to_nat size) rest in
          let stream := if byte_at 0 header =? 2 then "stderr" else "stdout" in
          _ ←! for_eachE (payload_lines payload) (hand_line fn stream);
          read_frames n id (drop_bytes (Z.to_nat size) rest) cut fn
    end.
End Streams.

(** The request of Logs; the answer is read by [read_frames]. *)
Definition Logs_request (id : string) (since : Time) : ST W (result HttpResponse) :=
  do_ GET (container_path id "/logs")
    ([("stdout", "true"); ("stderr", "true"); ("follow", "true"); ("timestamps", "true")] ++
     if IsZero since then [] else [("since", since_value since)]) None.

Definition Logs {F} (id : string) (since : Time) (fn : Docker.Line -> ST F (result unit))
    : ST (W * F) (result unit) :=
  fun '(w, f) =>
    match Logs_request id since w with
    | (Err e, w') => (Err e, (w', f))
    | (Ok resp, w') =>
        let '(r, f') := read_frames (String.length (rs_Body resp)) id (rs_Body resp) (rs_Cut resp) fn f in
        (r, (w', f'))
    end.

(** A stream of JSON values: those that decode, and what ended them — [None]
    is io.EOF.  Each value takes a byte, so the length is fuel enough. *)
Fixpoint decode_stream {A} (fuel : nat) (fill : Json -> option A) (body : string) (cut : option error)
    : list A * option error :=
  match decode_next body, fuel with
  | AtEnd, _ => ([], cut)
  | Malformed, _ => ([], Some (default (EMsg (Lit "the stream is not JSON")) cut))
  | Next_value j rest, S n =>
      match fill j with
      | None => ([], Some (EMsg (Lit "a value of the stream has another type")))
      | Some a => let '(l, e) := decode_stream n fill rest cut in (a :: l, e)
      end
  | Next_value _ _, O => ([], None)
  end.

Definition read_event (j : Json) : option Docker.Event :=
  action ← at_path ["Action"] fill_string j "";
  id ← at_path ["id"] fill_string j "";
  nanos ← at_path ["timeNano"] fill_int j 0;
  attributes ← at_path ["Actor"; "Attributes"] fill_map j ∅;
  Some (Docker.MkEvent action id (unix_epoch + nanos) attributes).

Definition event_filter (label : string) : string :=
  "{" +:+ Quote "type" +:+ ":[" +:+ Quote "container" +:+ "]," +:+ Quote "label" +:+ ":[" +:+ Quote label +:+ "]}".

Definition Events_request (since : Time) (label : string) : ST W (result HttpResponse) :=
  do_ GET "/events"
    ([("filters", event_filter label)] ++ if IsZero since then [] else [("since", since_value since)]) None.

Definition Events {F} (since : Time) (label : string) (fn : Docker.Event -> ST F (result unit))
    : ST (W * F) (result unit) :=
  fun '(w, f) =>
    match Events_request since label w with
    | (Err e, w') => (Err e, (w', f))
    | (Ok resp, w') =>
        let '(events, ended) := decode_stream (String.length (rs_Body resp)) read_event (rs_Body resp) (rs_Cut resp) in
        match for_eachE events fn f with
        | (Err e, f') => (Err e, (w', f'))
        | (Ok _, f') => (match ended with Some e => Err e | None => Ok tt end, (w', f'))
        end
    end.

(** *** Pulling an image *)
Definition progressInterval : Z := Second.

Record PullLine := MkPullLine { pl_Status : string; pl_ID : string; pl_Progress : string; pl_Error : string }.
Definition read_pull (j : Json) : option PullLine :=
  status ← at_path ["status"] fill_string j "";
  id ← at_path ["id"] fill_string j "";
  progress ← at_path ["progress"] fill_string j "";
  error ← at_path ["error"] fill_string j "";
  Some (MkPullLine status id progress error).

(** One line of the stream: the last error so far, when progress was last said
    and what was said.  [clock] is the time at the n-th look at it: one for the
    interval, one more when it is over. *)
Definition pull_line (clock : nat -> Time) (s : string * Time * nat * list string) (line : PullLine)
    : string * Time * nat * list string :=
  let '(failed, said, looks, out) := s in
  if negb (String.eqb (pl_Error line) "") then (pl_Error line, said, looks, out)
  else if String.eqb (pl_Status line) "" then s
  else if Sub (clock looks) said <? progressInterval then (failed, said, S looks, out)
  else (failed, clock (S looks), S (S looks),
        out ++ [TrimSpace (Join [pl_ID line; pl_Status line; pl_Progress line] " ")]).

(** What the answer to a pull means, and what was said on the way. *)
Definition read_pull_stream (clock : nat -> Time) (image : string) (resp : HttpResponse) : list string * result unit :=
  let '(lines, ended) := decode_stream (String.length (rs_Body resp)) read_pull (rs_Body resp) (rs_Cut resp) in
  let '(failed, _, _, out) := foldl (pull_line clock) ("", zero_time, O, []) lines in
  (out, match ended with
        | Some e => Err (EWrap ("pulling %s: %w", [AStr image]) e)
        | None => if String.eqb failed "" then Ok tt
                  else Err (EMsg ("pulling %s: %s", [AStr image; AStr failed]))
        end).

(** The reference is cut at its first colon. *)
Definition pull_query (image : string) : Values :=
  let '(name, tag, found) := Cut image ":" in
  [("fromImage", name); ("tag", if found : bool then tag else "latest")].

Definition Pull (clock : nat -> Time) (image : string) : ST W (list string * result unit) :=
  answer ← do_ POST "/images/create" (pull_query image) None;
  mret match answer with
       | Err e => ([], Err e)
       | Ok resp => read_pull_stream clock image resp
       end.
End Client.

(** ** Progress of a transfer

    [counter.Read]: what one read of the source gave, and the report it makes
    if the interval is over.  [now] and [now'] are the two looks at the clock. *)
Record counter := MkCounter { ct_total : Z; ct_said : Time }.
Definition Progress (now : Time) : counter := MkCounter 0 now.
Definition counter_Read (c : counter) (read : Z) (now now' : Time) : counter * option Z :=
  let total := ct_total c + read in
  if progressInterval <=? Sub now (ct_said c)
  then (MkCounter total now', Some total)
  else (MkCounter total (ct_said c), None).

(** ** The interface of the supervisor *)

(** archive/tar over the bytes of an archive and what ended them. *)
Class TarReader := { tar_entries : string -> option error -> list Docker.TarEntry * error }.

#[export] Instance docker_runtime {W} `{Transport W} `{TarReader} (clock : nat -> Time) : Runtime W := {|
  rt_List := List_;
  rt_Inspect := Inspect;
  rt_Create := Create;
  rt_Start := Start;
  rt_Stop := Stop;
  rt_Remove := Remove;
  rt_UpdateRestart := UpdateRestart;
  rt_Wait := Wait;
  rt_EnsureNetwork := EnsureNetwork;
  rt_EnsureVolume := EnsureVolume;
  rt_Image := Image;
  rt_Images := Images;
  rt_Tag := Tag;
  rt_RemoveImage := RemoveImage;
  rt_Server := Server;
  rt_Pull := Pull clock;
  rt_VolumeMountpoint := VolumeMountpoint;
  rt_Load := Load;
  rt_Archive := fun id path => '(body, cut) ←! Archive id path; mret (Ok (tar_entries body cut));
|}.
