(* ===== verification/DockerProofs.v ===== *)
(** * DockerProofs: what the runtime is asked, and how its answers are read *)
From S2P Require Import Prelude GoText GoTime GoPath Json JsonProofs Runtime DockerClient.
From Stdlib Require Import Ascii SpecFloat.
Open Scope string_scope.
Open Scope list_scope.
Open Scope Z_scope.
Open Scope hostd_scope.

(** ** Every server at once

    The state is the list of requests sent; the answers are an arbitrary
    function of it. *)
Definition Wire : Type := list HttpRequest.
Definition Server_ : Type := Wire -> HttpRequest -> result HttpResponse.
Definition wire (server : Server_) : Transport Wire := {| http_Do := fun rq h => (server h rq, h ++ [rq]) |}.

(** net/http's errors are its own: none of them is the client's ErrNotFound. *)
Definition honest (server : Server_) : Prop :=
  forall h rq e, server h rq = Err e -> errors_is e ErrNotFound = false.

Section Requests.
Context (server : Server_).
#[local] Instance wired : Transport Wire := wire server.

Definition request (method path : string) (query : Values) (body : option Json) : HttpRequest :=
  MkHttpRequest method (url path query) (match body with Some _ => "application/json" | None => "" end)
    (match body with Some j => print j | None => "" end) None.

(** What an answer means to [do_]. *)
Inductive outcome := Answered (resp : HttpResponse) | Absent | Failed (e : error).
Definition outcome_of (a : result HttpResponse) : outcome :=
  match a with
  | Err e => Failed e
  | Ok r => if rs_StatusCode r <? 400 then Answered r
            else if rs_StatusCode r =? 404 then Absent else Failed (EMsg (rs_Status r, []))
  end.

Lemma do_sends method path query body h :
  (do_ method path query body h).2 = h ++ [request method path query body].
Proof. done. Qed.

Lemma do_answers method path query body h :
  honest server ->
  match outcome_of (server h (request method path query body)) with
  | Answered r => (do_ method path query body h).1 = Ok r
  | Absent => exists e, (do_ method path query body h).1 = Err e /\ errors_is e ErrNotFound = true
  | Failed _ => exists e, (do_ method path query body h).1 = Err e /\ errors_is e ErrNotFound = false
  end.
Proof.
  intros Hh. unfold do_. rewrite ST_step. unfold http_Do, wired, wire. cbn [fst snd].
  change (MkHttpRequest _ _ _ _ _) with (request method path query body).
  specialize (Hh h (request method path query body)).
  destruct (server h (request method path query body)) as [r|e]; cbn [outcome_of fst].
  - destruct (rs_StatusCode r <? 400); [done|]. destruct (rs_StatusCode r =? 404); cbn; eauto.
  - exists (EWrap ("%s %s: %w", [AStr method; AStr path]) e). split; [done|]. cbn. rewrite (Hh e eq_refl).
    rewrite orb_false_r. by apply bool_decide_eq_false_2.
Qed.

Lemma call_answers method path query body h :
  honest server ->
  match outcome_of (server h (request method path query body)) with
  | Answered r => (call_ method path query body h).1 = Ok tt
  | Absent => exists e, (call_ method path query body h).1 = Err e /\ errors_is e ErrNotFound = true
  | Failed _ => exists e, (call_ method path query body h).1 = Err e /\ errors_is e ErrNotFound = false
  end.
Proof.
  intros Hh. pose proof (do_answers method path query body h Hh) as H. unfold call_, bindE.
  destruct (do_ method path query body h) as [a h'].
  destruct (outcome_of _); cbn in H; [by rewrite H|destruct H as (e' & -> & He); cbn; eauto..].
Qed.

Lemma call_sends method path query body h :
  (call_ method path query body h).2 = h ++ [request method path query body].
Proof. unfold call_, bindE. pose proof (do_sends method path query body h). destruct (do_ _ _ _ _ _) as [[] ]; done. Qed.

(** ** Stopping, removing, ensuring *)
Definition settled (o : outcome) : Prop := match o with Failed _ => False | _ => True end.

Definition accepted (o : outcome) : Prop := match o with Answered _ => True | _ => False end.

(** Stopping or removing a container asks once and succeeds exactly where
    the runtime did it or holds no such container; any other answer, and a
    runtime that cannot be reached, is an error. *)
Theorem absent_is_settled id grace (h : Wire) :
  honest server ->
  (let rq := request POST (container_path id "/stop") [("t", itoa (whole_seconds grace))] None in
   (Stop id grace h).2 = h ++ [rq] /\ ((Stop id grace h).1 = Ok tt <-> settled (outcome_of (server h rq)))) /\
  (let rq := request DELETE (container_path id "") [("force", "true"); ("v", "false")] None in
   (Remove id h).2 = h ++ [rq] /\ ((Remove id h).1 = Ok tt <-> settled (outcome_of (server h rq)))).
Proof.
  intros Hh. unfold Stop, Remove.
  assert (G : forall m p q, let rq := request m p q None in
    (mbind (M := ST Wire) (fun r => mret (forgive_absent r)) (call_ m p q None) h).2 = h ++ [rq] /\
    ((mbind (M := ST Wire) (fun r => mret (forgive_absent r)) (call_ m p q None) h).1 = Ok tt <->
     settled (outcome_of (server h rq)))); [|split; apply G].
  intros m p q rq. rewrite ST_step. cbn [fst snd mret ST_ret]. split; [apply call_sends|].
  pose proof (call_answers m p q None h Hh) as H. fold rq in H.
  destruct (outcome_of _); cbn [settled].
  - by rewrite H.
  - destruct H as (e' & -> & He). cbn. by rewrite He.
  - destruct H as (e' & -> & He). cbn. by rewrite He.
Qed.

(** Ensuring a volume or a network asks whether it is there and creates it
    only where the runtime says it is not; what is there is never touched and
    what cannot be asked is never created. *)
Theorem ensure_creates_only_missing name labels (h : Wire) :
  honest server ->
  let make probe create m :=
    (m h).2 = h ++ [probe] ++ (match outcome_of (server h probe) with Absent => [create] | _ => [] end) /\
    match outcome_of (server h probe) with
    | Answered _ => (m h).1 = Ok tt
    | Failed _ => is_ok (m h).1 = false
    | Absent => accepted (outcome_of (server (h ++ [probe]) create)) -> (m h).1 = Ok tt
    end in
  make (request GET ("/volumes/" +:+ PathEscape name) [] None)
       (request POST "/volumes/create" [] (Some (JObj [("Labels", labels_json labels); ("Name", JStr name)])))
       (EnsureVolume name labels) /\
  make (request GET ("/networks/" +:+ PathEscape name) [] None)
       (request POST "/networks/create" [] (Some (JObj [("Driver", JStr "bridge"); ("Name", JStr name)])))
       (EnsureNetwork name).
Proof.
  intros Hh make. unfold make. clear make.
  split.
  - unfold EnsureVolume. rewrite !ST_step.
    pose proof (call_answers GET ("/volumes/" +:+ PathEscape name) [] None h Hh) as H.
    destruct (outcome_of (server h _)) as [r| |e].
    + rewrite H. cbn [fst snd mret ST_ret]. by rewrite call_sends.
    + destruct H as (e & -> & He). rewrite He. cbn [negb]. rewrite !call_sends, <- app_assoc. split; [done|].
      intros Hs.
      pose proof (call_answers POST "/volumes/create" [] (Some (JObj [("Labels", labels_json labels); ("Name", JStr name)]))
        (h ++ [request GET ("/volumes/" +:+ PathEscape name) [] None]) Hh) as H.
      destruct (outcome_of _); [done|by destruct Hs..].
    + destruct H as (e' & -> & He). rewrite He. cbn [negb fst snd mret ST_ret]. by rewrite call_sends.
  - unfold EnsureNetwork. rewrite !ST_step.
    pose proof (call_answers GET ("/networks/" +:+ PathEscape name) [] None h Hh) as H.
    destruct (outcome_of (server h _)) as [r| |e].
    + rewrite H. cbn [fst snd mret ST_ret]. by rewrite call_sends.
    + destruct H as (e & -> & He). rewrite He. cbn [negb]. rewrite !ST_step. cbn [fst snd mret ST_ret].
      rewrite !call_sends, <- app_assoc. split; [done|]. intros Hs.
      pose proof (call_answers POST "/networks/create" [] (Some (JObj [("Driver", JStr "bridge"); ("Name", JStr name)]))
        (h ++ [request GET ("/networks/" +:+ PathEscape name) [] None]) Hh) as H.
      destruct (outcome_of _); [by rewrite H|by destruct Hs..].
    + destruct H as (e' & -> & He). rewrite He. cbn [negb fst snd mret ST_ret]. by rewrite call_sends.
Qed.
End Requests.

(** ** One request, one resource *)
Definition delimiter (c : ascii) : bool := contains_byte c "/?#".
Definition delimited (s : string) : Prop := match s with String c _ => delimiter c = true | "" => True end.

Lemma segment_cut a b s t :
  (forall c, delimiter c = true -> contains_byte c a = false) ->
  (forall c, delimiter c = true -> contains_byte c b = false) ->
  delimited s -> delimited t -> a +:+ s = b +:+ t -> a = b /\ s = t.
Proof.
  revert b. induction a as [|x a IH]; intros [|y b] Ha Hb Hs Ht E.
  - by split.
  - change ("" +:+ s) with s in E. subst s. rewrite append_cons in Hs. cbn in Hs.
    specialize (Hb y Hs). by rewrite contains_byte_cons, Ascii.eqb_refl in Hb.
  - change ("" +:+ t) with t in E. subst t. rewrite append_cons in Ht. cbn in Ht.
    specialize (Ha x Ht). by rewrite contains_byte_cons, Ascii.eqb_refl in Ha.
  - rewrite !append_cons in E. injection E as -> E.
    assert (G : forall l, (forall c, delimiter c = true -> contains_byte c (String y l) = false) ->
                          forall c, delimiter c = true -> contains_byte c l = false).
    { intros l Hl c Hc. specialize (Hl c Hc). rewrite contains_byte_cons in Hl. by apply orb_false_iff in Hl as [_ ?]. }
    destruct (IH b (G _ Ha) (G _ Hb) Hs Ht E) as [-> ->]. done.
Qed.

(** The name of a container never reaches past its place in a request: two
    URLs about containers are equal only when they name the same container, and
    the name is read back from the URL as it was given, whatever bytes it has. *)
Theorem container_urls_separate a b rest rest' query query' :
  delimited rest -> delimited rest' ->
  (url (container_path a rest) query = url (container_path b rest') query' -> a = b) /\
  unescape (PathEscape a) PathSegment = Some a /\
  (forall c, delimiter c = true -> contains_byte c (PathEscape a) = false).
Proof.
  intros Hr Hr'. split_and!.
  - unfold url, container_path. rewrite !string_app_assoc. intros E.
    apply (inj (String.append "http://docker/")), (inj (String.append apiVersion)), (inj (String.append "/containers/")) in E.
    assert (Hd : forall r (q : Values), delimited r ->
      delimited (r +:+ match q with [] => "" | _ => "?" +:+ Encode q end)).
    { intros [|c r] q Hd; [by destruct q|done]. }
    apply segment_cut in E as [E _]; [|intros c Hc; by apply segment_free..|by apply Hd|by apply Hd].
    apply (f_equal (fun s => unescape s PathSegment)) in E. unfold PathEscape in E. rewrite !escape_back in E. congruence.
  - apply escape_back.
  - intros c Hc. by apply segment_free.
Qed.

(** ** Following a log *)
Definition size_bytes (n : Z) : string := bytes_of [Z.shiftr n 24 mod 256; Z.shiftr n 16 mod 256; Z.shiftr n 8 mod 256; n mod 256].
Definition frame_of (stderr : bool) (payload : string) : string :=
  bytes_of [if stderr then 2 else 1; 0; 0; 0] +:+ size_bytes (len payload) +:+ payload.

Record LogEntry := MkLogEntry { le_stderr : bool; le_stamp : string; le_at : Time; le_text : string }.
Definition entry_frame (e : LogEntry) : string :=
  frame_of (le_stderr e) (le_stamp e +:+ String " " (le_text e +:+ String newline "")).
Definition entry_line (e : LogEntry) : Docker.Line :=
  Docker.MkLine (if le_stderr e then "stderr" else "stdout") (le_text e) (le_at e).

(** What the runtime writes: a stamp it can read, a text of one line and a
    frame below the ceiling. *)
Record entry_ok (e : LogEntry) : Prop := {
  ok_stamp : ParseRFC3339Nano (le_stamp e) = Some (le_at e);
  ok_space : contains_byte " " (le_stamp e) = false;
  ok_break : contains_byte newline (le_stamp e +:+ le_text e) = false;
  ok_size : len (le_stamp e) + len (le_text e) + 2 <= maxFrameBytes;
}.

Lemma byte_mod z : code (chr (Z.to_nat (z mod 256))) = z mod 256.
Proof.
  pose proof (Z.mod_pos_bound z 256). unfold code, chr. rewrite nat_ascii_embedding by lia. lia.
Qed.

Lemma byte_placed n k i :
  0 <= k -> 0 <= i ->
  Z.testbit (Z.shiftl (Z.shiftr n k mod 256) k) i = (k <=? i) && (i <? k + 8) && Z.testbit n i.
Proof.
  intros Hk Hi. rewrite Z.shiftl_spec by done. change 256 with (2 ^ 8).
  destruct (Z.leb_spec k i); [|rewrite Z.testbit_neg_r by lia; done].
  destruct (Z.ltb_spec i (k + 8)).
  - rewrite Z.mod_pow2_bits_low by lia. rewrite Z.shiftr_spec by lia. cbn. f_equal. lia.
  - rewrite Z.mod_pow2_bits_high by lia. done.
Qed.

Lemma four_bytes n :
  0 <= n < 2 ^ 32 ->
  Z.lor (Z.lor (Z.lor (Z.shiftl (Z.shiftr n 24 mod 256) 24) (Z.shiftl (Z.shiftr n 16 mod 256) 16))
               (Z.shiftl (Z.shiftr n 8 mod 256) 8)) (n mod 256) = n.
Proof.
  intros Hn. apply Z.bits_inj'. intros i Hi. rewrite !Z.lor_spec, !byte_placed by lia.
  replace (n mod 256) with (Z.shiftl (Z.shiftr n 0 mod 256) 0) by by rewrite Z.shiftr_0_r, Z.shiftl_0_r.
  rewrite byte_placed by lia.
  destruct (Z.ltb_spec i 32).
  - destruct (Z.testbit n i); [|by rewrite !andb_false_r]. rewrite !andb_true_r. lia.
  - assert (Z.testbit n i = false) as ->; [|by rewrite !andb_false_r].
    rewrite <- (Z.mod_small n (2 ^ 32)) by done. by apply Z.mod_pow2_bits_high.
Qed.

Lemma frame_parts stderr payload rest :
  len payload < 2 ^ 32 ->
  let body := frame_of stderr payload +:+ rest in
  let header := take_bytes 8 body in
  Nat.ltb (String.length body) 8 = false /\ drop_bytes 8 body = payload +:+ rest /\
  frame_size header = len payload /\ byte_at 0 header = (if stderr then 2 else 1).
Proof.
  intros Hn. unfold frame_of, size_bytes. cbn [bytes_of foldr]. rewrite !append_cons.
  repeat change ("" +:+ ?x) with x. rewrite !append_cons. cbv zeta.
  split_and!.
  - apply Nat.ltb_ge. cbn [String.length]. lia.
  - done.
  - unfold frame_size, byte_at. cbn [take_bytes String.get]. rewrite !byte_mod.
    apply four_bytes. unfold len in *. lia.
  - unfold byte_at. cbn [take_bytes String.get]. by destruct stderr.
Qed.

(** One frame is one turn of the loop. *)
Lemma read_frame_step {F} fuel id stderr payload rest cut (fn : Docker.Line -> ST F (result unit)) :
  len payload <= maxFrameBytes ->
  read_frames (S fuel) id (frame_of stderr payload +:+ rest) cut fn =
  (_ ←! for_eachE (payload_lines payload) (hand_line fn (if stderr then "stderr" else "stdout"));
   read_frames fuel id rest cut fn).
Proof.
  intros Hn. assert (H0 : 0 <= len payload) by (unfold len; lia).
  destruct (frame_parts stderr payload rest) as (H1 & H2 & H3 & H4); [unfold maxFrameBytes in Hn; lia|].
  cbn [read_frames]. rewrite H1, H2, H3, H4. cbv zeta.
  replace ((len payload <? 0) || (maxFrameBytes <? len payload)) with false by lia.
  replace (len (payload +:+ rest) <? len payload) with false by (symmetry; apply Z.ltb_ge; rewrite len_app; unfold len; lia).
  replace (Z.to_nat (len payload)) with (String.length payload) by (unfold len; lia).
  rewrite take_bytes_all, drop_bytes_all. by destruct stderr.
Qed.

Lemma TrimRight_line s : contains_byte newline s = false -> TrimRight (s +:+ String newline "") (String newline "") = s.
Proof.
  induction s as [|c s IH]; [done|]. rewrite contains_byte_cons. intros [Hc Hs]%orb_false_iff.
  rewrite append_cons. cbn [TrimRight]. rewrite IH by done. destruct s as [|d s]; [|done].
  rewrite contains_byte_cons, Ascii.eqb_sym, Hc. done.
Qed.

Lemma entry_read {F} e (fn : Docker.Line -> ST F (result unit)) f :
  entry_ok e ->
  for_eachE (payload_lines (le_stamp e +:+ String " " (le_text e +:+ String newline "")))
    (hand_line fn (if le_stderr e then "stderr" else "stdout")) f = fn (entry_line e) f.
Proof.
  intros [Hp Hs Hb _]. unfold payload_lines.
  rewrite contains_byte_app in Hb. apply orb_false_iff in Hb as [Hb1 Hb2].
  assert (Hn : contains_byte newline (le_stamp e +:+ String " " (le_text e)) = false).
  { rewrite contains_byte_app, contains_byte_cons. by rewrite Hb1, Hb2. }
  replace (le_stamp e +:+ String " " (le_text e +:+ String newline ""))
    with ((le_stamp e +:+ String " " (le_text e)) +:+ String newline "") by (by rewrite string_app_assoc, append_cons).
  rewrite TrimRight_line, Split_none by done. cbn [for_eachE]. unfold hand_line, splitTimestamp.
  rewrite Cut_app, Hp by done. unfold bindE. unfold entry_line. by destruct (fn _ f) as [[[]|]].
Qed.

Fixpoint frames (es : list LogEntry) : string :=
  match es with [] => "" | e :: es' => entry_frame e +:+ frames es' end.

Lemma length_frame stderr payload : (8 <= String.length (frame_of stderr payload))%nat.
Proof. unfold frame_of, size_bytes. rewrite !app_string_length. cbn [bytes_of foldr String.length]. lia. Qed.

(** Following a container hands over what it wrote, each line once, in
    order, on its stream and at the moment the runtime stamped it, and stops
    where whoever takes the lines says so; a stream that ends, even inside a
    header, is the end of the log and not an error. *)
Theorem log_stream_exact {F} (es : list LogEntry) (tail id : string) (fn : Docker.Line -> ST F (result unit)) (f : F) :
  Forall entry_ok es -> (String.length tail < 8)%nat ->
  let body := frames es +:+ tail in
  read_frames (String.length body) id body None fn f = for_eachE (entry_line <$> es) fn f.
Proof.
  intros Hes Ht. cbv zeta.
  assert (G : forall fuel f, (String.length (frames es +:+ tail) <= fuel)%nat ->
    read_frames fuel id (frames es +:+ tail) None fn f = for_eachE (entry_line <$> es) fn f); [|by apply G].
  induction Hes as [|e es He Hes IH]; intros fuel g Hf.
  - change (frames [] +:+ tail) with tail. apply Nat.ltb_lt in Ht. by destruct fuel; cbn [read_frames]; rewrite Ht.
  - cbn [frames]. unfold entry_frame in *. cbn [frames] in Hf. unfold entry_frame in Hf.
    rewrite string_app_assoc, app_string_length in Hf. rewrite string_app_assoc.
    destruct fuel as [|fuel]; [pose proof (length_frame (le_stderr e) (le_stamp e +:+ String " " (le_text e +:+ String newline ""))); lia|].
    rewrite read_frame_step.
    + unfold bindE. rewrite entry_read by done. cbn [fmap list_fmap for_eachE]. unfold bindE.
      destruct (fn (entry_line e) g) as [[[]|] g']; [|done]. apply IH.
      pose proof (length_frame (le_stderr e) (le_stamp e +:+ String " " (le_text e +:+ String newline ""))). lia.
    + destruct He as [_ _ _ Hsz]. revert Hsz. unfold len. rewrite !app_string_length. cbn [String.length].
      rewrite app_string_length. cbn [String.length]. lia.
Qed.

(** Taking the lines down. *)
Definition collected (l : Docker.Line) : ST (list Docker.Line) (result unit) := fun acc => (Ok tt, acc ++ [l]).

Lemma collect_all (ls : list string) stream acc :
  exists new, for_eachE ls (hand_line collected stream) acc = (Ok tt, acc ++ new).
Proof.
  revert acc. induction ls as [|l ls IH]; intros acc; [exists []; by rewrite app_nil_r|].
  assert (E : exists text at_, hand_line collected stream l acc = (Ok tt, acc ++ [Docker.MkLine stream text at_]))
    by (unfold hand_line; destruct (splitTimestamp l); eauto).
  destruct E as (text & at_ & E). cbn [for_eachE]. unfold bindE at 1. rewrite E.
  destruct (IH (acc ++ [Docker.MkLine stream text at_])) as [new ->]. exists ([Docker.MkLine stream text at_] ++ new).
  by rewrite app_assoc.
Qed.

Lemma frames_extend fuel id body cut acc :
  acc `prefix_of` (read_frames fuel id body cut collected acc).2.
Proof.
  revert body acc. induction fuel as [|fuel IH]; intros body acc; cbn [read_frames];
    (destruct (Nat.ltb _ 8); [done|]); [done|]. cbv zeta.
  destruct (_ || _); [done|]. destruct (_ <? _); [done|]. unfold bindE.
  destruct (collect_all (payload_lines (take_bytes (Z.to_nat (frame_size (take_bytes 8 body))) (drop_bytes 8 body)))
    (if byte_at 0 (take_bytes 8 body) =? 2 then "stderr" else "stdout") acc) as [new ->].
  etrans; [|apply IH]. by apply prefix_app_r.
Qed.

(** A log stream cut at any byte, with or without an error, hands over the
    first of the lines the whole stream would have: never half a frame, never
    one out of order. *)
Theorem log_stream_cut (body rest id : string) (cut cut' : option error) :
  (read_frames (String.length body) id body cut collected []).2 `prefix_of`
  (read_frames (String.length (body +:+ rest)) id (body +:+ rest) cut' collected []).2.
Proof.
  assert (G : forall fuel fuel' body acc,
    (String.length body <= fuel)%nat -> (String.length (body +:+ rest) <= fuel')%nat ->
    (read_frames fuel id body cut collected acc).2 `prefix_of` (read_frames fuel' id (body +:+ rest) cut' collected acc).2);
    [|by apply G].
  clear body. intros fuel. induction fuel as [|fuel IH]; intros fuel' body acc Hf Hf'.
  { destruct body; [|cbn in Hf; lia]. cbn [read_frames]. apply frames_extend. }
  cbn [read_frames]. destruct (Nat.ltb_spec (String.length body) 8) as [Hs|Hs]; [apply frames_extend|].
  rewrite app_string_length in Hf'. destruct fuel' as [|fuel']; [lia|]. cbn [read_frames].
  replace (Nat.ltb (String.length (body +:+ rest)) 8) with false
    by (symmetry; apply Nat.ltb_ge; rewrite app_string_length; lia).
  rewrite take_bytes_app, drop_bytes_app by lia. cbv zeta.
  set (header := take_bytes 8 body). set (body' := drop_bytes 8 body).
  destruct (_ || _) eqn:Hsize; [done|].
  apply orb_false_iff in Hsize as [Hneg _]. apply Z.ltb_ge in Hneg.
  destruct (Z.ltb_spec (len body') (frame_size header)) as [Hshort|Hlong].
  { destruct (_ <? _); [done|]. unfold bindE.
    match goal with |- context [for_eachE ?l (hand_line collected ?s) acc] => destruct (collect_all l s acc) as [new ->] end.
    etrans; [|apply frames_extend]. by apply prefix_app_r. }
  replace (len (body' +:+ rest) <? frame_size header) with false
    by (symmetry; apply Z.ltb_ge; rewrite len_app; unfold len in *; lia).
  assert (Hl : (Z.to_nat (frame_size header) <= String.length body')%nat) by (unfold len in Hlong; lia).
  rewrite take_bytes_app, drop_bytes_app by done. unfold bindE.
  match goal with |- context [for_eachE ?l (hand_line collected ?s) acc] => destruct (collect_all l s acc) as [new ->] end.
  apply IH; rewrite ?app_string_length, length_drop_bytes; unfold body'; rewrite length_drop_bytes; lia.
Qed.

(** ** Pulling *)
Definition pull_json (l : PullLine) : Json :=
  JObj [("status", JStr (pl_Status l)); ("id", JStr (pl_ID l)); ("progress", JStr (pl_Progress l)); ("error", JStr (pl_Error l))].

Lemma read_pull_json l : read_pull (pull_json l) = Some l.
Proof. by destruct l. Qed.

Lemma decode_stream_print {A} (fill : Json -> option A) js (l : list A) n cut :
  Forall2 (fun j a => writable j /\ height j <= maxNestingDepth /\ fill j = Some a) js l -> (length js <= n)%nat ->
  decode_stream n fill (stream js) cut = (l, cut).
Proof.
  intros H. assert (G : forall n, (length js <= n)%nat ->
    decode_stream n fill (stream js) cut = (l, cut) /\ decode_stream n fill (String newline (stream js)) cut = (l, cut));
    [|intros Hn; by apply G].
  induction H as [|j a js l (Hw & Hh & Ha) Hl IH]; intros [|m] Hm; [done..|cbn in Hm; lia|]. cbn [length] in Hm.
  destruct (IH m) as [_ IH2]; [lia|]. cbn [stream decode_stream].
  rewrite decode_next_print, decode_next_newline by done. by rewrite Ha, IH2.
Qed.

Definition texts_ok (l : PullLine) : Prop :=
  Forall (fun t => valid_utf8 t = true) [pl_Status l; pl_ID l; pl_Progress l; pl_Error l].

Lemma pull_json_ok l : texts_ok l -> writable (pull_json l) /\ height (pull_json l) <= maxNestingDepth.
Proof.
  intros Ht. apply Forall_cons in Ht as [? Ht]. apply Forall_cons in Ht as [? Ht]. apply Forall_cons in Ht as [? Ht].
  apply Forall_cons in Ht as [? _]. split; [|done]. cbn. auto 10.
Qed.

Definition complaints (lines : list PullLine) : list string := filter (fun e => e <> "") (pl_Error <$> lines).

Lemma pull_lines_failed clock lines s :
  (foldl (pull_line clock) s lines).1.1.1 = default s.1.1.1 (last (complaints lines)).
Proof.
  revert s. induction lines as [|l lines IH] using rev_ind; intros s; [done|].
  rewrite foldl_app. cbn [foldl]. unfold complaints. rewrite fmap_app, filter_app.
  specialize (IH s). destruct (foldl (pull_line clock) s lines) as [[[failed said] looks] out]. cbn [fst] in IH. subst failed.
  cbn [pull_line fmap list_fmap filter list_filter]. destruct (String.eqb_spec (pl_Error l) "") as [E|E]; cbn [negb].
  - rewrite decide_False by tauto. rewrite app_nil_r. fold (complaints lines).
    by destruct (String.eqb (pl_Status l) ""), (Sub (clock looks) said <? progressInterval).
  - rewrite decide_True by done. by rewrite last_snoc.
Qed.

(** A pull succeeds exactly where its stream came to its end and no line of
    it complained; otherwise it fails with the last complaint, or with what cut
    the stream. *)
Theorem pull_last_error clock image code status (lines : list PullLine) (cut : option error) :
  Forall texts_ok lines ->
  (read_pull_stream clock image (MkHttpResponse code status (stream (pull_json <$> lines)) cut)).2 =
  match cut, last (complaints lines) with
  | Some e, _ => Err (EWrap ("pulling %s: %w", [AStr image]) e)
  | None, Some m => Err (EMsg ("pulling %s: %s", [AStr image; AStr m]))
  | None, None => Ok tt
  end.
Proof.
  intros Hl. unfold read_pull_stream. cbn [rs_Body rs_Cut].
  rewrite (decode_stream_print _ _ lines).
  - pose proof (pull_lines_failed clock lines ("", zero_time, O, [])) as H.
    destruct (foldl _ _ lines) as [[[failed said] looks] out]. cbn in H. subst failed. cbn [snd].
    destruct cut; [done|]. destruct (last (complaints lines)) as [m|] eqn:E; [|done]. cbn [default]. unfold id.
    destruct (String.eqb_spec m "") as [->|]; [|done].
    exfalso. apply last_Some_elem_of in E. unfold complaints in E. apply list_elem_of_filter in E as [E _]. by apply E.
  - induction Hl as [|l lines Hl _ IH]; constructor; [|done].
    destruct (pull_json_ok l Hl). by rewrite read_pull_json.
  - assert (G : forall js, (length js <= String.length (stream js))%nat).
    { induction js as [|j js IH]; cbn [stream length]; [lia|]. rewrite app_string_length. cbn [String.length]. lia. }
    apply G.
Qed.

(** ** What a container is made of *)
Lemma at_member {A} name path (fill : Fill A) ms k v old :
  List.filter (fun kv => names name kv.1) ms = [(k, v)] ->
  at_path (name :: path) fill (JObj ms) old = at_path path fill v old.
Proof.
  cbn [at_path].
  assert (N : forall ms acc, List.filter (fun kv => names name kv.1) ms = [] ->
    foldl (fun acc kv => a ← acc; if names name kv.1 then at_path path fill kv.2 a else Some a) acc ms = acc).
  { intros ms'. induction ms' as [|kv ms' IH]; intros acc; [done|]. cbn [List.filter foldl].
    destruct (names name kv.1); [done|]. intros H. rewrite IH by done. by destruct acc. }
  induction ms as [|kv ms IH]; [done|]. cbn [List.filter foldl].
  destruct (names name kv.1) eqn:E.
  - intros [= -> H]. rewrite N by done. cbn in E |- *. done.
  - intros H. rewrite <- IH by done. done.
Qed.

Lemma fill_strings l old : fill_list "" fill_string (strings_json l) old = Some l.
Proof. unfold fill_list, strings_json. induction l as [|s l IH]; [done|]. cbn. cbn in IH. by rewrite IH. Qed.

Lemma fill_labels m : fill_map (labels_json m) ∅ = Some m.
Proof.
  unfold fill_map, labels_json.
  assert (G : forall ks (acc : gmap string string), foldl (fun acc kv => a ← acc; v ← fill_string kv.2 ""; Some (<[kv.1 := v]> a)) (Some acc)
      ((fun k => (k, JStr (Docker.label k m))) <$> ks) =
    Some (foldl (fun a k => <[k := Docker.label k m]> a) acc ks)).
  { intros ks. induction ks as [|k ks IH]; intros acc; [done|]. cbn [fmap list_fmap foldl]. apply IH. }
  rewrite G. f_equal. apply map_eq. intros i.
  assert (L : forall ks (acc : gmap string string), foldl (fun a k => <[k := Docker.label k m]> a) acc ks !! i =
    if decide (i ∈ ks) then Some (Docker.label i m) else acc !! i).
  { intros ks. induction ks as [|k ks IH]; intros acc; [done|]. cbn [foldl]. rewrite IH.
    destruct (decide (i ∈ ks)) as [Hi|Hi]; [rewrite decide_True by (by right); done|].
    destruct (decide (i = k)) as [->|Hk]; [rewrite decide_True by left; apply lookup_insert_eq|].
    rewrite decide_False by (rewrite not_elem_of_cons; done). by rewrite lookup_insert_ne. }
  rewrite L. unfold sorted_keys. destruct (m !! i) as [v|] eqn:E.
  - rewrite decide_True; [unfold Docker.label; by rewrite E|].
    rewrite merge_sort_Permutation, elem_of_elements. by apply elem_of_dom_2 in E.
  - rewrite decide_False; [apply lookup_empty|].
    rewrite merge_sort_Permutation, elem_of_elements. by apply not_elem_of_dom.
Qed.

Definition fill_mount : Fill Docker.Mount := fun j _ =>
  ro ← at_path ["ReadOnly"] fill_bool j false;
  source ← at_path ["Source"] fill_string j "";
  target ← at_path ["Target"] fill_string j "";
  type ← at_path ["Type"] fill_string j "";
  Some (Docker.MkMount source target ro (String.eqb type "volume")).

Lemma fill_mounts ms old zero : fill_list zero fill_mount (JArr (mount_json <$> ms)) old = Some ms.
Proof.
  unfold fill_list. induction ms as [|m ms IH]; [done|]. cbn [fmap list_fmap mapM].
  assert (E : fill_mount (mount_json m) zero = Some m) by (destruct m as [? ? ? []]; reflexivity).
  rewrite E. cbn [mbind option_bind]. rewrite IH. done.
Qed.

Lemma fill_itoa z old : in_int64 z = true -> fill_int (JNum (itoa z)) old = Some z.
Proof.
  unfold in_int64. intros Hz. cbn. destruct (Z.leb_spec 0 z).
  - apply Atoi_itoa. lia.
  - unfold itoa. replace (z <? 0) with true by lia. unfold Atoi. change (Ascii.eqb "-" "-") with true. cbv beta iota.
    pose proof (digits_value_utoa (- z)) as Hd. destruct (utoa_head (- z)) as (c & s & E & _); [lia|].
    rewrite E in *. rewrite Hd by lia. rewrite Z.opp_involutive. unfold in_int64. by rewrite Hz.
Qed.

Definition fill_raw : Fill Json := fun j _ => Some j.

(** The texts of a specification are UTF-8 and its numbers are int64. *)
Record spec_ok (s : Docker.Spec) : Prop := {
  ok_texts : Forall (fun t => valid_utf8 t = true)
    ([Docker.sp_Image s; Docker.sp_Dir s; Docker.sp_Network s; Docker.sp_Alias s; Docker.sp_Restart s] ++
     Docker.sp_Args s ++ Docker.sp_Env s);
  ok_ports : Forall (fun p => valid_utf8 (Docker.HostIP p) = true /\ valid_utf8 (Docker.Protocol p) = true) (Docker.sp_Ports s);
  ok_mounts : Forall (fun m => valid_utf8 (Docker.Source m) = true /\ valid_utf8 (Docker.Target m) = true) (Docker.sp_Mounts s);
  ok_labels : map_Forall (fun k v => valid_utf8 k = true /\ valid_utf8 v = true) (Docker.sp_Labels s);
  ok_numbers : in_int64 (Docker.sp_Memory s) = true /\ in_int64 (Docker.sp_NanoCPU s) = true;
}.

Lemma strings_ok l : Forall (fun t => valid_utf8 t = true) l -> writable (strings_json l) /\ height (strings_json l) <= 1.
Proof.
  intros H. split; [apply writable_arr|apply (height_arr _ 0); [done|]]; apply Forall_fmap; eapply Forall_impl; eauto.
  done.
Qed.

Lemma port_key_ok p : valid_utf8 (Docker.Protocol p) = true -> valid_utf8 (port_key p) = true.
Proof.
  intros Hp. unfold port_key. apply valid_utf8_app; [apply valid_itoa|]. apply valid_utf8_app; [done|].
  unfold Docker.port_protocol. by destruct (String.eqb _ "").
Qed.
Lemma binding_ok p : valid_utf8 (Docker.HostIP p) = true -> writable (binding p) /\ height (binding p) <= 1.
Proof.
  intros Hp. split; [|done]. cbn. unfold Docker.port_hostIP. destruct (String.eqb _ ""); by rewrite ?valid_itoa.
Qed.

Lemma port_keys_in k ports : k ∈ port_keys ports <-> exists p, p ∈ ports /\ port_key p = k.
Proof.
  unfold port_keys, sorted_keys. rewrite merge_sort_Permutation, elem_of_elements, elem_of_list_to_set, list_elem_of_fmap.
  split; intros (p & ? & ?); eauto.
Qed.

Lemma keyed_ok {A} (f : A -> Json) (key : A -> string) (l : list A) h :
  0 <= h -> Forall (fun x => valid_utf8 (key x) = true /\ writable (f x) /\ height (f x) <= h) l ->
  writable (JObj ((fun x => (key x, f x)) <$> l)) /\ height (JObj ((fun x => (key x, f x)) <$> l)) <= 1 + h.
Proof.
  intros Hh H. split; [apply writable_obj|apply height_obj; [done|]]; apply Forall_fmap; eapply Forall_impl; eauto; cbn; tauto.
Qed.

Lemma ports_ok ports :
  Forall (fun p => valid_utf8 (Docker.HostIP p) = true /\ valid_utf8 (Docker.Protocol p) = true) ports ->
  (writable (bindings ports) /\ height (bindings ports) <= 3) /\ (writable (exposed ports) /\ height (exposed ports) <= 2).
Proof.
  intros H. rewrite Forall_forall in H.
  assert (Hk : forall k, k ∈ port_keys ports -> valid_utf8 k = true).
  { intros k (p & Hp & <-)%port_keys_in. apply port_key_ok, H, Hp. }
  split.
  - apply (keyed_ok (fun k => JArr (binding <$> filter (fun p => port_key p = k) ports)) id _ 2); [done|].
    apply Forall_forall. intros k Hin. split; [by apply Hk|].
    assert (Hb : Forall (fun p => writable (binding p) /\ height (binding p) <= 1) (filter (fun p => port_key p = k) ports)).
    { apply Forall_forall. intros p [_ Hp]%list_elem_of_filter. apply binding_ok, H, Hp. }
    split; [apply writable_arr|apply (height_arr _ 1); [done|]]; apply Forall_fmap; eapply Forall_impl; eauto; cbn; tauto.
  - apply (keyed_ok (fun _ => JObj []) id _ 1); [done|]. apply Forall_forall. intros k Hin. split; [by apply Hk|done].
Qed.

Lemma labels_ok m :
  map_Forall (fun k v => valid_utf8 k = true /\ valid_utf8 v = true) m ->
  writable (labels_json m) /\ height (labels_json m) <= 1.
Proof.
  intros H. apply (keyed_ok (fun k => JStr (Docker.label k m)) id _ 0); [done|]. apply Forall_forall. intros k Hk.
  unfold sorted_keys in Hk. rewrite merge_sort_Permutation, elem_of_elements in Hk. apply elem_of_dom in Hk as [v Hv].
  destruct (H k v Hv). unfold Docker.label. cbn. rewrite Hv. done.
Qed.

Lemma mounts_ok ms :
  Forall (fun m => valid_utf8 (Docker.Source m) = true /\ valid_utf8 (Docker.Target m) = true) ms ->
  writable (JArr (mount_json <$> ms)) /\ height (JArr (mount_json <$> ms)) <= 2.
Proof.
  intros H. split; [apply writable_arr|apply (height_arr _ 1); [done|]]; apply Forall_fmap; eapply Forall_impl; eauto; cbn.
  - intros m [H1 H2]. rewrite H1, H2. by destruct m as [? ? ? []].
  - done.
Qed.

Definition fine (h : Z) (kv : string * Json) : Prop := (valid_utf8 kv.1 = true /\ writable kv.2) /\ height kv.2 <= h.
Lemma object_ok h ms : 0 <= h -> Forall (fine h) ms -> writable (JObj ms) /\ height (JObj ms) <= 1 + h.
Proof.
  intros Hh H. split; [apply writable_obj|apply height_obj; [done|]]; eapply Forall_impl; eauto; unfold fine; tauto.
Qed.

Lemma create_body_ok spec : spec_ok spec -> writable (create_body spec) /\ height (create_body spec) <= 6.
Proof.
  intros [Ht Hp Hm Hl _]. destruct (ports_ok _ Hp) as [[P1 P2] [E1 E2]].
  destruct (labels_ok _ Hl) as [L1 L2]. destruct (mounts_ok _ Hm) as [M1 M2].
  apply Forall_app in Ht as [Ht Hargs]. apply Forall_app in Hargs as [Ha Henv].
  destruct (strings_ok _ Ha) as [A1 A2]. destruct (strings_ok _ Henv) as [V1 V2].
  assert (Ht' : valid_utf8 (Docker.sp_Image spec) = true /\ valid_utf8 (Docker.sp_Dir spec) = true /\
    valid_utf8 (Docker.sp_Network spec) = true /\ valid_utf8 (Docker.sp_Alias spec) = true /\
    valid_utf8 (Docker.sp_Restart spec) = true) by (by repeat (apply Forall_cons in Ht as [? Ht])).
  destruct Ht' as (T1 & T2 & T3 & T4 & T5).
  assert (Hrestart : valid_utf8 (Docker.spec_restartPolicy spec) = true)
    by (unfold Docker.spec_restartPolicy; by destruct (String.eqb _ "")).
  assert (Hhost : writable (hostConfig spec) /\ height (hostConfig spec) <= 4).
  { apply (object_ok 3); [done|]. repeat apply Forall_cons_2; try apply Forall_nil_2; unfold fine; cbn [fst snd];
      (split; [split; [done|]|]); try done; try lia; cbn [writable]; eauto; cbn; by rewrite ?Hrestart. }
  destruct Hhost as [H1 H2]. apply (object_ok 5); [done|].
  apply Forall_app. split; [|apply Forall_app; split].
  - repeat apply Forall_cons_2; try apply Forall_nil_2; unfold fine; cbn [fst snd]; (split; [split; [done|]|]); try done; lia.
  - destruct (String.eqb _ ""); [done|]. apply Forall_singleton. unfold fine. cbn. by rewrite T3, T4.
  - destruct (String.eqb _ ""); [done|]. apply Forall_singleton. unfold fine. cbn. by rewrite T2.
Qed.


(** ** At concrete inputs *)
Definition silent : Server_ := fun _ _ => Ok (MkHttpResponse 404 "404 Not Found" "" None).
Lemma silent_honest : honest silent.
Proof. done. Qed.

Lemma absent_is_settled_witness :
  settled (outcome_of (silent [] (request DELETE (container_path "web" "") [("force", "true"); ("v", "false")] None))) /\
  (Remove (H := wire silent) "web" []).1 = Ok tt.
Proof.
  split; [exact I|]. apply (absent_is_settled silent "web" Second []); [exact silent_honest|exact I].
Defined.

Lemma ensure_creates_only_missing_witness :
  length (EnsureVolume (H := wire silent) "data" ∅ []).2 = 2%nat.
Proof.
  destruct (ensure_creates_only_missing silent "data" ∅ [] silent_honest) as [[E _] _]. exact (f_equal (length (A := HttpRequest)) E).
Defined.

Lemma container_urls_separate_witness :
  delimited "/json" /\ unescape (PathEscape "a/b?c") PathSegment = Some "a/b?c".
Proof. split; [done|]. by apply (container_urls_separate "a/b?c" "b" "/json" "/json" [] []). Defined.

Definition said_hello : LogEntry := MkLogEntry true "1970-01-01T00:00:00Z" unix_epoch "hello".
Lemma said_hello_ok : entry_ok said_hello.
Proof. split; by vm_compute. Qed.

Lemma log_stream_exact_witness :
  (read_frames (String.length (frames [said_hello] +:+ "")) "web" (frames [said_hello] +:+ "") None collected []).2 =
  [Docker.MkLine "stderr" "hello" unix_epoch].
Proof.
  rewrite (log_stream_exact [said_hello] "" "web" collected []); [done|by apply Forall_singleton, said_hello_ok|by apply Nat.ltb_lt].
Defined.

Lemma pull_last_error_witness :
  (read_pull_stream (fun _ => zero_time) "app"
     (MkHttpResponse 200 "200 OK" (stream (pull_json <$> [MkPullLine "" "" "" "denied"])) None)).2 =
  Err (EMsg ("pulling %s: %s", [AStr "app"; AStr "denied"])).
Proof. rewrite pull_last_error; [done|]. apply Forall_singleton. repeat constructor. Defined.

Definition plain_spec : Docker.Spec :=
  Docker.MkSpec "hostd-web" "nginx" ["-g"] ["A=1"] "" [Docker.MkPort "" 8080 80 ""] [] {["hostd" := "web"]} 0 0 "hostd" "web" "".
Lemma plain_spec_ok : spec_ok plain_spec.
Proof. split; try (repeat constructor; done). apply map_Forall_singleton. done. Qed.


(** The reference of an image is cut at its first colon, which in a reference
    to a registry with a port is the port's. *)
Theorem pull_splits_the_port :
  pull_query "registry:5000/app:v1" = [("fromImage", "registry"); ("tag", "5000/app:v1")].
Proof. vm_compute. reflexivity. Qed.
