(* ===== verification/Supervisor.v ===== *)
(** * Supervisor: its state, its timeline and the containers it makes

    src/supervisor/supervisor.go (state, events, reports, policies) and
    src/supervisor/container.go.  A method that takes the receiver is a
    computation in [ST Sup]; what the runtime holds is the field [world]. *)
From S2P Require Import Prelude GoText GoTime GoPath Service Runtime.
From Stdlib Require Import Ascii SpecFloat.
Open Scope string_scope.
Open Scope list_scope.
Open Scope Z_scope.
Open Scope hostd_scope.

Definition labelService := "hostd.service".
Definition labelRun := "hostd.run".
Definition Network := "hostd".
Definition driftInterval : Z := 15 * Second.
Definition containerName (service : string) : string := "hostd-" +:+ service.
Definition VolumeName (service volume : string) : string := "hostd-" +:+ service +:+ "-" +:+ volume.

(** A goroutine started and not waited for. *)
Inductive Task :=
  | Reader (id name service : string) (since : Time)
  | Awaiter (service run id : string) (started : Time)
  | Timer (service run id : string) (delay limit : Z).

(** The Supervisor struct.  [client] says whether a runtime was handed over,
    [artifacts] which services have a directory of files beside their
    declaration and [scripts] which of these hold a backup script — the file
    system as os.Stat sees it; [now] is the clock; [left] is the closed channel
    [done]; [nudged] the pending wake-up. *)
Record Sup (W : Type) := MkSup {
  world : W;
  client : bool;
  services : string;
  declared : gmap string Service;
  following : gset string;
  reported : gmap string Msg;
  fired : gmap string Time;
  awaiting : gset string;
  timeline : list Logs.Record_;
  tasks : list Task;
  nudged : bool;
  left : bool;
  now : Time;
  artifacts : gset string;
  scripts : gset string;
}.
Arguments MkSup {W}.
Arguments world {W}. Arguments client {W}. Arguments services {W}. Arguments declared {W}.
Arguments following {W}. Arguments reported {W}. Arguments fired {W}. Arguments awaiting {W}.
Arguments timeline {W}. Arguments tasks {W}. Arguments nudged {W}. Arguments left {W}.
Arguments now {W}. Arguments artifacts {W}. Arguments scripts {W}.

Section Setters.
Context {W : Type}.
Implicit Types s : Sup W.
Definition set_world (w : W) s : Sup W :=
  MkSup w (client s) (services s) (declared s) (following s) (reported s) (fired s) (awaiting s)
    (timeline s) (tasks s) (nudged s) (left s) (now s) (artifacts s) (scripts s).
Definition set_declared m s : Sup W :=
  MkSup (world s) (client s) (services s) m (following s) (reported s) (fired s) (awaiting s)
    (timeline s) (tasks s) (nudged s) (left s) (now s) (artifacts s) (scripts s).
Definition set_following f s : Sup W :=
  MkSup (world s) (client s) (services s) (declared s) f (reported s) (fired s) (awaiting s)
    (timeline s) (tasks s) (nudged s) (left s) (now s) (artifacts s) (scripts s).
Definition set_reported r s : Sup W :=
  MkSup (world s) (client s) (services s) (declared s) (following s) r (fired s) (awaiting s)
    (timeline s) (tasks s) (nudged s) (left s) (now s) (artifacts s) (scripts s).
Definition set_fired f s : Sup W :=
  MkSup (world s) (client s) (services s) (declared s) (following s) (reported s) f (awaiting s)
    (timeline s) (tasks s) (nudged s) (left s) (now s) (artifacts s) (scripts s).
Definition set_awaiting a s : Sup W :=
  MkSup (world s) (client s) (services s) (declared s) (following s) (reported s) (fired s) a
    (timeline s) (tasks s) (nudged s) (left s) (now s) (artifacts s) (scripts s).
Definition add_record r s : Sup W :=
  MkSup (world s) (client s) (services s) (declared s) (following s) (reported s) (fired s)
    (awaiting s) (timeline s ++ [r]) (tasks s) (nudged s) (left s) (now s) (artifacts s) (scripts s).
Definition add_task t s : Sup W :=
  MkSup (world s) (client s) (services s) (declared s) (following s) (reported s) (fired s)
    (awaiting s) (timeline s) (tasks s ++ [t]) (nudged s) (left s) (now s) (artifacts s) (scripts s).
Definition set_nudged s : Sup W :=
  MkSup (world s) (client s) (services s) (declared s) (following s) (reported s) (fired s)
    (awaiting s) (timeline s) (tasks s) true (left s) (now s) (artifacts s) (scripts s).
End Setters.

(** What the runtime is holding for this host. *)
Record held := MkHeld { h_Container : Docker.Container; h_Service : string }.

Definition short (id : string) : string :=
  let '(_, hex, found) := Cut id ":" in
  let id := if found then hex else id in
  if 12 <? len id then take_bytes 12 id else id.

Definition restartPolicy (svc : Service) : string :=
  if String.eqb (Restart svc) RestartOnFailure then "on-failure"
  else if String.eqb (Restart svc) RestartNever then "no"
  else "unless-stopped".

Definition toDockerPorts (ports : list Port) : list Docker.Port :=
  (fun p => Docker.MkPort (HostIP p) (HostPort p) (ContainerPort p) (Protocol p)) <$> ports.

(** int64 arithmetic *)
Definition wrap64 (z : Z) : Z := (z + 2 ^ 63) mod 2 ^ 64 - 2 ^ 63.
Definition memory_bytes (svc : Service) : Z :=
  wrap64 (wrap64 (f64_to_int64 (Memory svc) * 1024) * 1024).
Definition nano_cpus (svc : Service) : Z :=
  f64_to_int64 (f64_mul (CPUs svc) (f64_of_Z 1000000000)).

Section Supervisor.
Context {W : Type} `{Runtime W} `{LogStore} `{MapOrder Service}.

Definition lift {A} (m : ST W A) : ST (Sup W) A :=
  fun s => let '(a, w) := m (world s) in (a, set_world w s).

(** s.log.Append with the time of the call; the store numbers the record. *)
Definition log_append (service stream kind run : string) (text : Msg) : ST (Sup W) unit :=
  fun s => (tt, add_record (Logs.MkRecord 0 (now s) service stream kind run text) s).

Definition event (kind name : string) (text : Msg) : ST (Sup W) unit :=
  log_append name Logs.StreamEvent kind "" text.

Definition logRun (service run kind : string) (text : Msg) : ST (Sup W) unit :=
  log_append service Logs.StreamEvent kind run text.

Definition nudge : ST (Sup W) unit := modify set_nudged.

Definition declaration (name : string) : ST (Sup W) (option Service) :=
  gets (fun s => declared s !! name).
Definition declarations : ST (Sup W) (gmap string Service) := gets declared.

Definition reportOnce (name : string) (text : Msg) : ST (Sup W) unit :=
  last ← gets (fun s => default (Lit "") (reported s !! name));
  modify (fun s => set_reported (<[name := text]> (reported s)) s) ;;
  if bool_decide (last = text) then mret tt else event Logs.EventProblem name text.

Definition clearReport (name : string) : ST (Sup W) unit :=
  modify (fun s => set_reported (delete name (reported s)) s).

(** s.containers: what the runtime holds, labelled. *)
Definition containers : ST (Sup W) (result (list held)) :=
  c ← gets client;
  if negb c
  then mret (Err (EWrap ("this machine has no container runtime", []) ErrNoRuntime))
  else found ←! lift (rt_List labelService);
       mret (Ok ((fun x => MkHeld x (Docker.label labelService (Docker.c_Labels x))) <$> found)).

(** Named storage is created if it is not there. *)
Definition prepare_mount (svc : Service) (m : Mount) : ST (Sup W) (result Docker.Mount) :=
  if mount_Named m then
    let source := VolumeName (Name svc) (mount_Source m) in
    _ ←! lift (rt_EnsureVolume source {[labelService := Name svc]});
    mret (Ok (Docker.MkMount source (mount_Target m) (mount_ReadOnly m) true))
  else mret (Ok (Docker.MkMount (mount_Source m) (mount_Target m) (mount_ReadOnly m) false)).

Definition prepareMounts (svc : Service) : ST (Sup W) (result (list Docker.Mount)) :=
  match Mounts svc with
  | Err e => mret (Err e)
  | Ok declared => map_ST declared (prepare_mount svc)
  end.

Definition configMount (svc : Service) : ST (Sup W) (list Docker.Mount) :=
  fun s => (if bool_decide (Name svc ∈ artifacts s)
            then [Docker.MkMount (PathJoin [services s; Name svc +:+ ArtifactSuffix])
                    (ConfigDir (Name svc)) true false]
            else [], s).

(** The container a declaration describes. *)
Definition service_spec (svc : Service) (ports : list Port) (mounts : list Docker.Mount) : Docker.Spec :=
  Docker.MkSpec (containerName (Name svc)) (Image svc) (Args svc) (Env svc) (Dir svc)
    (toDockerPorts ports) mounts {[labelService := Name svc]} (memory_bytes svc) (nano_cpus svc)
    Network (Name svc) (restartPolicy svc).

Definition image_for (svc : Service) : ST (Sup W) (result Docker.ImageInfo) :=
  r ← lift (rt_Image (Image svc));
  match r with
  | Ok i => mret (Ok i)
  | Err e => mret (Err (if errors_is e ErrNotFound
                        then EMsg ("image %s is not on this machine; send it with hostctl image push",
                                   [AStr (Image svc)])
                        else e))
  end.

Definition create (svc : Service) (start : bool) : ST (Sup W) (result unit) :=
  c ← gets client;
  if negb c then mret (Err ErrNoRuntime) else
  match PublishedPorts svc with
  | Err e => mret (Err e)
  | Ok ports =>
      mounts ←! prepareMounts svc;
      extra ← configMount svc;
      _ ←! lift (rt_EnsureNetwork Network);
      image ←! image_for svc;
      _ ←! lift (rt_Remove (containerName (Name svc)));
      id ←! lift (rt_Create (service_spec svc ports (mounts ++ extra)));
      if negb start then
        event Logs.EventStarted (Name svc)
          ("created container %s from %s, not started", [AStr (short id); AStr (short (Docker.ii_Digest image))]) ;;
        mret (Ok tt)
      else
        r ← lift (rt_Start id);
        match r with
        | Err e => _ ← lift (rt_Remove id); mret (Err e)
        | Ok _ =>
            event Logs.EventStarted (Name svc)
              ("started container %s from %s", [AStr (short id); AStr (short (Docker.ii_Digest image))]) ;;
            nudge ;; mret (Ok tt)
        end
  end.

(** A container whose policy drifted is corrected in place. *)
Definition convergePolicy (svc : Service) (container : held) : ST (Sup W) unit :=
  let wanted := restartPolicy svc in
  c ← gets client;
  if negb c then mret tt else
  r ← lift (rt_Inspect (Docker.c_ID (h_Container container)));
  match r with
  | Err _ => mret tt
  | Ok observed =>
      if String.eqb (Docker.c_Restart observed) wanted then mret tt else
      u ← lift (rt_UpdateRestart (Docker.c_ID (h_Container container)) wanted);
      match u with
      | Err e => reportOnce (Name svc) ("cannot set the restart policy of %s: %v",
                   [AStr (Name svc); AMsg (error_msg e)])
      | Ok _ => event Logs.EventApplied (Name svc)
                  ("restart policy was %q and the file asks for %q",
                   [AStr (Docker.c_Restart observed); AStr wanted])
      end
  end.

Definition sayStopping (svc : Service) : ST (Sup W) unit :=
  event Logs.EventStopped (Name svc)
    ("asking it to stop, waiting up to %s for it to go (stop-timeout)", [AInt (StopGrace svc)]).

Definition retire (svc : Service) : ST (Sup W) unit :=
  c ← gets client;
  if negb c then mret tt else
  sayStopping svc ;;
  _ ← lift (rt_Stop (containerName (Name svc)) (StopGrace svc));
  _ ← lift (rt_Remove (containerName (Name svc)));
  mret tt.

Definition startFollowing (container : held) : ST (Sup W) unit :=
  t ← gets timeline;
  match LastAt t (h_Service container) with
  | Err e => reportOnce (h_Service container)
               ("cannot tell where the log of %s stopped: %v", [AStr (h_Service container); AMsg (error_msg e)])
  | Ok since =>
      let id := Docker.c_ID (h_Container container) in
      modify (fun s => set_following ({[id]} ∪ following s) s) ;;
      modify (add_task (Reader id (Docker.c_Name (h_Container container)) (h_Service container) since))
  end.

Definition follow_one (container : held) : ST (Sup W) unit :=
  if negb (Docker.c_Running (h_Container container)) then mret tt else
  already ← gets (fun s => bool_decide (Docker.c_ID (h_Container container) ∈ following s));
  if already : bool then mret tt else startFollowing container.

Definition live_ids (running : list held) : gset string :=
  list_to_set ((fun h => Docker.c_ID (h_Container h)) <$>
               filter (fun h => Is_true (Docker.c_Running (h_Container h))) running).

Definition follow (running : list held) : ST (Sup W) unit :=
  for_each running follow_one ;;
  modify (fun s => set_following (following s ∩ live_ids running) s).

(** The run a container belongs to, from the name hostd gave it. *)
Definition runOf (container : held) : string :=
  let '(_, run, found) :=
    Cut (TrimPrefix (Docker.c_Name (h_Container container)) (containerName (h_Service container))) "-" in
  if found then run else "".

(** What a reader appends for one line of output. *)
Definition reader_line (container : held) (line : Docker.Line) : ST (Sup W) unit :=
  fun s =>
    let at_ := if IsZero (Docker.ln_At line) then now s else Docker.ln_At line in
    (tt, add_record (Logs.MkRecord 0 at_ (h_Service container) (Docker.ln_Stream line) ""
                       (runOf container) (Lit (Docker.ln_Text line))) s).

(** The announcements of the runtime that enter the timeline. *)
Definition runtimeEvent (e : Docker.Event) : ST (Sup W) unit :=
  let name := Docker.label labelService (Docker.ev_Attributes e) in
  if String.eqb name "" then mret tt else
  fun s =>
    let at_ := if IsZero (Docker.ev_At e) then now s else Docker.ev_At e in
    let run := Docker.label labelRun (Docker.ev_Attributes e) in
    if String.eqb (Docker.ev_Action e) "oom" then
      (tt, add_record (Logs.MkRecord 0 at_ name Logs.StreamEvent Logs.EventKilled run
             ("the kernel killed container %s: out of memory", [AStr (short (Docker.ev_ID e))])) s)
    else if String.eqb (Docker.ev_Action e) "die" then
      if negb (String.eqb run "") then (tt, s) else
      let exit_code := Docker.label "exitCode" (Docker.ev_Attributes e) in
      let text := ("container %s exited", [AStr (short (Docker.ev_ID e))]) : Msg in
      let text := if String.eqb exit_code "" then text
                  else ("%s with code %s", [AMsg text; AStr exit_code]) in
      (tt, add_record (Logs.MkRecord 0 at_ name Logs.StreamEvent Logs.EventExited "" text) s)
    else (tt, s).

(** Adopt: what the files declare, and what runs without being declared. *)
Definition adopt_one (container : held) : ST (Sup W) unit :=
  known ← declaration (h_Service container);
  match known with
  | Some _ => mret tt
  | None =>
      if negb (Docker.c_Running (h_Container container)) then mret tt
      else event Logs.EventOrphan (h_Service container)
             ("container %s is running but no file declares it; stop it with hostctl service stop %s",
              [AStr (short (Docker.c_ID (h_Container container))); AStr (h_Service container)])
  end.

Definition store_declared (l : list Service) : ST (Sup W) unit :=
  modify (fun s => set_declared (foldl (fun m svc => <[Name svc := svc]> m) (declared s) l) s).

Definition Adopt (l : list Service) : ST (Sup W) (result unit) :=
  store_declared l ;;
  c ← gets client;
  if negb c then mret (Ok tt) else
  running ←! containers;
  for_each running adopt_one ;;
  mret (Ok tt).

End Supervisor.

(** ** The durations -debug reports *)
Definition tickSamples : Z := 256.
Record Ticks := MkTicks { ticks : Z; sampled : Z; tickRing : gmap Z Z }.

Definition sample (d : Z) (t : Ticks) : Ticks :=
  MkTicks ((ticks t + 1) mod 2 ^ 64)
          (if sampled t <? tickSamples then sampled t + 1 else sampled t)
          (<[ticks t mod tickSamples := d]> (tickRing t)).

(** sorted[int(float64(len(sorted)-1)*p)] *)
Definition percentile (sorted : list Z) (p : float64) : Z :=
  match sorted with
  | [] => 0
  | _ => let i := f64_to_int64 (f64_mul (f64_of_Z (Z.of_nat (length sorted) - 1)) p) in
         default 0 (sorted !! Z.to_nat i)
  end.
