(* ===== verification/Schedule.v ===== *)
(** * Schedule: jobs, their runs, and the drift round

    src/supervisor/schedule.go, src/supervisor/backup.go and the convergence
    round of src/supervisor/supervisor.go (observe), which adopts runs. *)
From S2P Require Import Prelude GoText GoTime GoPath Service Runtime Supervisor.
From Stdlib Require Import Ascii SpecFloat.
Open Scope string_scope.
Open Scope list_scope.
Open Scope Z_scope.
Open Scope hostd_scope.

Definition runID (slot : Time) : string := itoa (UnixMilli slot).
Definition runName (service : string) (slot : Time) : string :=
  containerName service +:+ "-" +:+ itoa (UnixMilli slot).
Definition slotOf (now : Time) (every : Z) : Time := Truncate now every.

(** How long a run has left before its limit. *)
Definition killAfter (started now : Time) (limit : Z) : Z :=
  let left := limit - Sub now started in
  if left <? 0 then 0 else left.

(** d.Truncate(time.Millisecond) for printing *)
Definition truncate_ms (d : Z) : Z := Z.quot d Millisecond * Millisecond.

Section Schedule.
Context {W : Type} `{Runtime W} `{LogStore} `{MapOrder Service}.

Definition refuseRun (name : string) (reason : Msg) : ST (Sup W) error :=
  event Logs.EventJobSkipped name reason ;; mret (ErrRunRefused reason).

(** The runs of a job that have not ended. *)
Definition runsOf (name : string) : ST (Sup W) (result (list held)) :=
  found ←! containers;
  mret (Ok (filter (fun h => h_Service h = name /\ Is_true (Docker.c_Running (h_Container h))) found)).

Definition run_spec (svc : Service) (slot : Time) (mounts : list Docker.Mount) : Docker.Spec :=
  Docker.MkSpec (runName (Name svc) slot) (Image svc) (Args svc) (Env svc) (Dir svc)
    [] mounts (<[labelRun := runID slot]> {[labelService := Name svc]})
    (memory_bytes svc) (nano_cpus svc) Network (Name svc +:+ "-" +:+ runID slot) "no".

Definition createRun (svc : Service) (slot : Time) : ST (Sup W) (result string) :=
  mounts ←! prepareMounts svc;
  extra ← configMount svc;
  _ ←! lift (rt_EnsureNetwork Network);
  _ ←! lift (rt_Remove (runName (Name svc) slot));
  id ←! lift (rt_Create (run_spec svc slot (mounts ++ extra)));
  r ← lift (rt_Start id);
  match r with
  | Err e => _ ← lift (rt_Remove id); mret (Err e)
  | Ok _ => mret (Ok id)
  end.

(** A container only as far as the reader of a new run needs it. *)
Definition run_held (id name service : string) : held :=
  MkHeld (Docker.MkContainer id name "" "" true 0 zero_time 0 "" 0 "" "" ∅) service.

(** startRun once the run is created: it is recorded, read and waited for. *)
Definition run_started (svc : Service) (slot : Time) (id : string) : ST (Sup W) (result string) :=
  clearReport (Name svc) ;;
  logRun (Name svc) (runID slot) Logs.EventJobStarted
    ("run %s started as container %s", [AStr (runID slot); AStr (short id)]) ;;
  startFollowing (run_held id (runName (Name svc) slot) (Name svc)) ;;
  modify (fun s => set_awaiting ({[id]} ∪ awaiting s) s) ;;
  t ← gets now;
  modify (add_task (Awaiter (Name svc) (runID slot) id t)) ;;
  mret (Ok (runID slot)).

Definition startRun (svc : Service) (slot : Time) (because : string) : ST (Sup W) (result string) :=
  r ← runsOf (Name svc);
  match r with
  | Err e =>
      reportOnce (Name svc) ("cannot tell what %s is already running: %v",
        [AStr (Name svc); AMsg (error_msg e)]) ;;
      mret (Err e)
  | Ok live =>
      if String.eqb (Overlap svc) OverlapSkip && Nat.ltb 0 (length live) then
        e ← refuseRun (Name svc) ("%s and the previous one is still going; this service is declared %q",
              [AStr because; AStr OverlapSkip]);
        mret (Err e)
      else if Parallel svc <=? Z.of_nat (length live) then
        e ← refuseRun (Name svc) ("%s and %d are already going, which is the ceiling",
              [AStr because; AInt (Z.of_nat (length live))]);
        mret (Err e)
      else
        c ← createRun svc slot;
        match c with
        | Err e =>
            reportOnce (Name svc) ("cannot start a run of %s: %v", [AStr (Name svc); AMsg (error_msg e)]) ;;
            mret (Err e)
        | Ok id =>
            run_started svc slot id
        end
  end.

(** One job at one look at the clock.  The slot is marked fired before the run
    is asked for, and a first sight only marks it. *)
Definition fire_one (at_ : Time) (ns : string * Service) : ST (Sup W) unit :=
  let '(name, svc) := ns in
  if negb (IsJob svc) || negb (WantRunning svc) then mret tt else
  let every := Interval svc in
  if every <=? 0 then mret tt else
  let slot := slotOf at_ every in
  seen ← gets (fun s => fired s !! name);
  match seen with
  | None => modify (fun s => set_fired (<[name := slot]> (fired s)) s)
  | Some last =>
      if negb (After slot last) then mret tt else
      modify (fun s => set_fired (<[name := slot]> (fired s)) s) ;;
      _ ← startRun svc slot "a run was due";
      mret tt
  end.

Definition fireDue (at_ : Time) : ST (Sup W) unit :=
  c ← gets client;
  if negb c then mret tt else
  m ← declarations;
  for_each (range m) (fire_one at_).

Definition RunNow (name : string) : ST (Sup W) (result string) :=
  d ← declaration name;
  match d with
  | None => mret (Err (ErrUnknownService name))
  | Some svc =>
      if negb (IsJob svc) then mret (Err (ErrNotAJob name)) else
      c ← gets client;
      if negb c then mret (Err ErrNoRuntime) else
      t ← gets now;
      startRun svc t "a run was asked for"
  end.

Definition runLimitOf (name : string) : ST (Sup W) Z :=
  d ← declaration name;
  mret (match d with None => 0 | Some svc => RunLimit svc end).

Definition stopOverrun (name run id : string) (limit : Z) : ST (Sup W) unit :=
  c ← gets client;
  if negb c then mret tt else
  logRun name run Logs.EventJobOverran
    ("run %s passed its run-timeout of %s and is being stopped", [AStr run; AInt limit]) ;;
  d ← declaration name;
  let grace := match d with None => DefaultStopTimeout | Some svc => StopGrace svc end in
  r ← lift (rt_Stop id grace);
  match r with
  | Ok _ => mret tt
  | Err e => reportOnce name ("run %s passed its run-timeout and could not be stopped: %v",
               [AStr run; AMsg (error_msg e)])
  end.

(** The start of awaitRun: a run with a limit gets a timer. *)
Definition await_arm (name run id : string) (started : Time) : ST (Sup W) unit :=
  limit ← runLimitOf name;
  t ← gets now;
  if 0 <? limit then modify (add_task (Timer name run id (killAfter started t limit) limit))
  else mret tt.

Definition await_done (id : string) : ST (Sup W) unit :=
  modify (fun s => set_awaiting (awaiting s ∖ {[id]}) s).

(** awaitRun, with the answer of the runtime's wait; the deferred deletion from
    [awaiting] runs on every path. *)
Definition awaitRun (name run id : string) (started : Time) : ST (Sup W) unit :=
  c ← gets client;
  if negb c then await_done id else
  await_arm name run id started ;;
  code ← lift (rt_Wait id);
  leaving ← gets left;
  match code with
  | Err e =>
      if errors_is e ErrCanceled || leaving then await_done id else
      logRun name run Logs.EventJobFinished
        ("run %s ended and could not be read: %v", [AStr run; AMsg (error_msg e)]) ;;
      await_done id
  | Ok code =>
      if leaving : bool then await_done id else
      t ← gets now;
      logRun name run Logs.EventJobFinished
        ("run %s finished with exit %d after %s",
         [AStr run; AInt code; AInt (truncate_ms (Sub t started))]) ;;
      _ ← lift (rt_Remove id);
      await_done id
  end.

(** One container of a run nobody waits on. *)
Definition adopt_run (container : held) : ST (Sup W) unit :=
  let c := h_Container container in
  let run := Docker.label labelRun (Docker.c_Labels c) in
  if String.eqb run "" then mret tt else
  awaited ← gets (fun s => bool_decide (Docker.c_ID c ∈ awaiting s));
  (if Docker.c_Running c && negb awaited
   then modify (fun s => set_awaiting ({[Docker.c_ID c]} ∪ awaiting s) s) else mret tt) ;;
  if awaited : bool then mret tt else
  observed ← lift (rt_Inspect (Docker.c_ID c));
  if Docker.c_Running c then
    t ← gets now;
    let started := match observed with
                   | Ok o => if IsZero (Docker.c_Started o) then t else Docker.c_Started o
                   | Err _ => t
                   end in
    modify (add_task (Awaiter (h_Service container) run (Docker.c_ID c) started))
  else
    (match observed with
     | Ok o => logRun (h_Service container) run Logs.EventJobFinished
                 ("run %s finished with exit %d while no daemon was watching",
                  [AStr run; AInt (Docker.c_Exit o)])
     | Err _ => mret tt
     end) ;;
    _ ← lift (rt_Remove (Docker.c_ID c));
    mret tt.

Definition adoptRuns (running : list held) : ST (Sup W) unit :=
  c ← gets client;
  if negb c then mret tt else for_each running adopt_run.

(** The containers that stand for a service: the runs of jobs are excluded. *)
Definition present_of (running : list held) : gmap string held :=
  foldl (fun m h => if String.eqb (Docker.label labelRun (Docker.c_Labels (h_Container h))) ""
                    then <[h_Service h := h]> m else m) ∅ running.

(** One declaration against what is present. *)
Definition observe_one (present : gmap string held) (ns : string * Service) : ST (Sup W) unit :=
  let '(name, svc) := ns in
  if IsJob svc then
    match present !! name with Some _ => retire svc | None => mret tt end
  else
    match present !! name with
    | Some container => convergePolicy svc container
    | None =>
        if negb (WantRunning svc) then mret tt else
        r ← create svc true;
        match r with
        | Err e => reportOnce name ("cannot start %s: %v", [AStr name; AMsg (error_msg e)])
        | Ok _ => clearReport name
        end
    end.

Definition observe : ST (Sup W) unit :=
  c ← gets client;
  if negb c then mret tt else
  r ← containers;
  match r with
  | Err e => reportOnce "runtime" ("cannot ask the container runtime what it is running: %v",
               [AMsg (error_msg e)])
  | Ok running =>
      follow running ;;
      adoptRuns running ;;
      m ← declarations;
      for_each (range m) (observe_one (present_of running))
  end.

(** ** Backups *)
Definition BackupScript := "backup_data.sh".
Definition defaultBackupLimit : Z := 30 * Minute.

Record BackupRun := MkBackupRun { br_Run : string; br_Container : string; br_Path : string; br_Exit : Z }.

Definition backup_path (name : string) (slot : Time) : string :=
  "/tmp/" +:+ name +:+ "_" +:+ FormatCompact slot +:+ ".backup".

(** The limit that bounds the run's context. *)
Definition backup_limit (svc : Service) : Z :=
  if IsJob svc then (if 0 <? RunLimit svc then RunLimit svc else defaultBackupLimit)
  else defaultBackupLimit.

Definition no_backup : BackupRun := MkBackupRun "" "" "" 0.

Definition Backup (name : string)
    : ST (Sup W) (BackupRun * option error) :=
  d ← declaration name;
  match d with
  | None => mret (no_backup, Some (ErrUnknownService name))
  | Some svc =>
      c ← gets client;
      if negb c then mret (no_backup, Some ErrNoRuntime) else
      found ← gets (fun s => bool_decide (name ∈ scripts s));
      if negb found then mret (no_backup, Some (ErrNoBackup name)) else
      slot ← gets now;
      let run := runID slot in
      let target := backup_path name slot in
      let svc := with_Args svc ["/bin/sh"; PathJoin [ConfigDir name; BackupScript]; target] in
      r ← createRun svc slot;
      match r with
      | Err e => mret (no_backup, Some e)
      | Ok id =>
          logRun name run Logs.EventBackup
            ("backup %s started as container %s, running %s",
             [AStr run; AStr (short id); AStr BackupScript]) ;;
          startFollowing (run_held id (runName name slot) name) ;;
          w ← lift (rt_Wait id);
          match w with
          | Err e =>
              logRun name run Logs.EventBackup
                ("backup %s ended and could not be read: %v", [AStr run; AMsg (error_msg e)]) ;;
              mret (MkBackupRun run id target (-1), Some (EWrap ("backup of %s", [AStr name]) e))
          | Ok code =>
              t ← gets now;
              logRun name run Logs.EventBackup
                ("backup %s finished with exit %d after %s",
                 [AStr run; AInt code; AInt (truncate_ms (Sub t slot))]) ;;
              mret (MkBackupRun run id target code, None)
          end
      end
  end.

End Schedule.
