(* ===== verification/Plan.v ===== *)
(** * Plan: what an apply would do, and the commands that do it

    src/supervisor/plan.go and src/supervisor/commands.go. *)
From S2P Require Import Prelude GoText GoTime GoPath Service Runtime Supervisor Schedule.
From Stdlib Require Import Ascii SpecFloat.
Open Scope string_scope.
Open Scope list_scope.
Open Scope Z_scope.
Open Scope hostd_scope.

Definition ActionAdd := "add".
Definition ActionRemove := "remove".
Definition ActionUpdate := "update".

Record Change := MkChange {
  ch_Service : string;
  ch_Action : string;
  ch_Detail : Msg;
  ch_Destructive : bool;
  ch_Disruptive : bool;
}.

#[export] Instance Change_eq_dec : EqDecision Change.
Proof. solve_decision. Defined.

Definition removedDetail (svc : Service) : Msg :=
  if IsJob svc
  then ("no file declares this job any more; it stops running every %s", [AStr (Every svc)])
  else Lit "no file declares this service any more".

Definition addedDetail (svc : Service) : Msg :=
  if IsJob svc
  then ("declared as a job, every %s, state %s", [AStr (Every svc); AStr (State svc)])
  else ("declared, state %s", [AStr (State svc)]).

Definition orNone (value : string) : string := if String.eqb value "" then "none" else value.

(** A float64 as an operand of a message: its sign, mantissa and exponent. *)
Definition AFloat (f : float64) : Arg :=
  match f with
  | S754_zero s => AFmt "zero" [AInt (if s then 1 else 0)]
  | S754_infinity s => AFmt "inf" [AInt (if s then 1 else 0)]
  | S754_nan => AFmt "nan" []
  | S754_finite s m e => AFmt "finite" [AInt (if s then 1 else 0); AInt (Z.pos m); AInt e]
  end.

Definition part (b : bool) (m : Msg) : list Msg := if b then [m] else [].

Definition definitionDiff (old updated : Service) : Msg :=
  let parts :=
    part (negb (bool_decide (Args old = Args updated))) (Lit "arguments changed") ++
    part (negb (bool_decide (Env old = Env updated))) (Lit "environment changed") ++
    part (negb (String.eqb (Dir old) (Dir updated))) ("dir %q -> %q", [AStr (Dir old); AStr (Dir updated)]) ++
    part (negb (String.eqb (Image old) (Image updated))) ("image %s -> %s", [AStr (Image old); AStr (Image updated)]) ++
    part (negb (bool_decide (Ports old = Ports updated))) (Lit "published ports changed") ++
    part (negb (f64_eqb (Memory old) (Memory updated)) || negb (f64_eqb (CPUs old) (CPUs updated)))
      (Lit "resource limits changed") ++
    part (negb (String.eqb (ConfigHash old) (ConfigHash updated))) (Lit "configuration files changed") ++
    part (negb (String.eqb (Restart old) (Restart updated)))
      ("restart %s -> %s", [AStr (Restart old); AStr (Restart updated)]) ++
    part (negb (f64_eqb (StopTimeout old) (StopTimeout updated)))
      ("stop timeout %gs -> %gs", [AFloat (StopTimeout old); AFloat (StopTimeout updated)]) ++
    part (negb (String.eqb (Every old) (Every updated))) ("every %s -> %s", [AStr (Every old); AStr (Every updated)]) ++
    part (negb (String.eqb (Overlap old) (Overlap updated)))
      ("overlap %s -> %s", [AStr (Overlap old); AStr (Overlap updated)]) ++
    part (negb (f64_eqb (MaxParallel old) (MaxParallel updated)))
      ("max-parallel %g -> %g", [AFloat (MaxParallel old); AFloat (MaxParallel updated)]) ++
    part (negb (String.eqb (RunTimeout old) (RunTimeout updated)))
      ("run-timeout %s -> %s", [AStr (orNone (RunTimeout old)); AStr (orNone (RunTimeout updated))]) in
  match parts with
  | [] => Lit "definition changed"
  | _ => ("strings.Join(parts)", AMsg <$> parts)
  end.

Definition sameDefinition (a b : Service) : bool :=
  String.eqb (Dir a) (Dir b) && String.eqb (Restart a) (Restart b) &&
  f64_eqb (StopTimeout a) (StopTimeout b) &&
  String.eqb (Image a) (Image b) && f64_eqb (Memory a) (Memory b) && f64_eqb (CPUs a) (CPUs b) &&
  String.eqb (ConfigHash a) (ConfigHash b) &&
  String.eqb (Every a) (Every b) && String.eqb (Overlap a) (Overlap b) &&
  f64_eqb (MaxParallel a) (MaxParallel b) && String.eqb (RunTimeout a) (RunTimeout b) &&
  bool_decide (Args a = Args b) && bool_decide (Env a = Env b) &&
  bool_decide (Ports a = Ports b) && bool_decide (Volumes a = Volumes b).

Definition HasDestructive (changes : list Change) : bool := existsb ch_Destructive changes.
Definition Destructive (changes : list Change) : list Change :=
  filter (fun c => Is_true (ch_Destructive c)) changes.

(** make(map[string]service.Service) filled from a list: the last one wins. *)
Definition by_name (l : list Service) : gmap string Service :=
  foldl (fun m svc => <[Name svc := svc]> m) ∅ l.

(** live[container.Service] = container.Running, in the order of the listing. *)
Definition live_map (found : list held) : gmap string bool :=
  foldl (fun m h => <[h_Service h := Docker.c_Running (h_Container h)]> m) ∅ found.

Definition change_le (a b : Change) : Prop :=
  if String.eqb (ch_Service a) (ch_Service b) then String.le (ch_Action a) (ch_Action b)
  else String.le (ch_Service a) (ch_Service b).
#[export] Instance change_le_dec a b : Decision (change_le a b).
Proof. unfold change_le. destruct (String.eqb _ _); apply _. Defined.

(** The changes of one declaration the supervisor knows. *)
Definition known_change (live : gmap string bool) (wanted : gmap string Service)
    (ns : string * Service) : list Change :=
  let '(name, known) := ns in
  match wanted !! name with
  | None => [MkChange name ActionRemove (removedDetail known) (default false (live !! name)) false]
  | Some svc =>
      if sameDefinition known svc then []
      else [MkChange name ActionUpdate (definitionDiff known svc) false (default false (live !! name))]
  end.

Definition added_change (known : gmap string Service) (ns : string * Service) : list Change :=
  let '(name, svc) := ns in
  match known !! name with
  | Some _ => []
  | None => [MkChange name ActionAdd (addedDetail svc) false false]
  end.

(** The computation of Plan, once the machine has answered. *)
Definition plan_of (live : gmap string bool) (known wanted : gmap string Service) : list Change :=
  merge_sort change_le
    (concat (known_change live wanted <$> map_to_list known) ++
     concat (added_change known <$> map_to_list wanted)).

Section Commands.
Context {W : Type} `{Runtime W} `{LogStore} `{MapOrder Service}.

Definition Plan (l : list Service) : ST (Sup W) (list Change) :=
  r ← containers;
  let live := match r with Ok found => live_map found | Err _ => ∅ end in
  known ← declarations;
  mret (plan_of live known (by_name l)).

(** ** Status *)
Record Status := MkStatus {
  st_Name : string;
  st_Desired : string;
  st_State : string;
  st_PID : Z;
  st_Orphan : bool;
  st_Since : float64;
  st_Runs : Z;
  st_Restarts : Z;
  st_LastExit : Z;
  st_LastError : Msg;
  st_Image : string;
  st_Digest : string;
  st_Every : string;
}.

Definition StatusStarting := "starting".
Definition StatusFailed := "failed".
Definition StatusScheduled := "scheduled".

Definition mapState (observed : Docker.Container) (svc : Service) : string :=
  let st := Docker.c_Status observed in
  if String.eqb st "running" then StateRunning
  else if String.eqb st "restarting" then StatusStarting
  else if String.eqb st "paused" || String.eqb st "dead" then StatusFailed
  else if String.eqb st "created" then
    if WantRunning svc then StatusStarting else StateStopped
  else
    let keepsAlive := String.eqb (Docker.c_Restart observed) "always" ||
                      String.eqb (Docker.c_Restart observed) "unless-stopped" in
    if keepsAlive then StateStopped
    else if negb (Docker.c_Exit observed =? 0) then StatusFailed
    else StateStopped.

(** describe: only the runtime's answer is filled in. *)
Definition describe (st : Status) (svc : Service) (container : held) : ST (Sup W) Status :=
  c ← gets client;
  if negb c then mret st else
  r ← lift (rt_Inspect (Docker.c_ID (h_Container container)));
  mret (match r with
  | Err e => MkStatus (st_Name st) (st_Desired st) (st_State st) (st_PID st) (st_Orphan st)
               (st_Since st) (st_Runs st) (st_Restarts st) (st_LastExit st) (error_msg e)
               (st_Image st) (st_Digest st) (st_Every st)
  | Ok o =>
      let state := mapState o svc in
      MkStatus (st_Name st) (st_Desired st) state (Docker.c_PID o) (st_Orphan st)
        (if IsZero (Docker.c_Started o) then st_Since st
         else f64_of_Z (UnixMilli (Docker.c_Started o)))
        (st_Runs st) (Docker.c_Restarts o) (Docker.c_Exit o)
        (if String.eqb state StatusFailed && negb (String.eqb (Docker.c_Error o) "")
         then Lit (Docker.c_Error o) else st_LastError st)
        (if String.eqb (st_Image st) "" then Docker.c_Image o else st_Image st)
        (Docker.c_Digest o) (st_Every st)
  end).

(** The two maps Status builds from the listing. *)
Definition running_map (found : list held) : gmap string held :=
  foldl (fun m h => <[h_Service h := h]> m) ∅ found.
Definition live_count (found : list held) (name : string) : Z :=
  Z.of_nat (length (filter (fun h => h_Service h = name /\ Is_true (Docker.c_Running (h_Container h))) found)).

Definition base_status (name : string) (svc : Service) (problem : Msg) : Status :=
  MkStatus name (State svc) StateStopped 0 false f64_zero 0 0 0 problem (Image svc) "" "".

Definition job_status (st : Status) (svc : Service) (runs : Z) (problem : Msg) : Status :=
  MkStatus (st_Name st) (st_Desired st)
    (if 0 <? runs then StateRunning else StatusScheduled)
    (if runs =? 0 then 0 else st_PID st) (st_Orphan st)
    (if runs =? 0 then f64_zero else st_Since st) runs (st_Restarts st) (st_LastExit st) problem
    (st_Image st) (st_Digest st) (Every svc).

Definition missing_status (st : Status) : Status :=
  MkStatus (st_Name st) (st_Desired st) StatusFailed (st_PID st) (st_Orphan st) (st_Since st)
    (st_Runs st) (st_Restarts st) (st_LastExit st) (Lit "no container exists for this service")
    (st_Image st) (st_Digest st) (st_Every st).

Definition declared_status (found : list held) (problem : option Msg) (ns : string * Service)
    : ST (Sup W) (result Status) :=
  let '(name, svc) := ns in
  let text := default (Lit "") problem in
  let st := base_status name svc text in
  st ← match running_map found !! name with
       | Some container => describe st svc container
       | None => mret st
       end;
  mret (Ok (if IsJob svc then job_status st svc (live_count found name) text
            else match running_map found !! name with
                 | None => if WantRunning svc && bool_decide (problem = None) then missing_status st else st
                 | Some _ => st
                 end)).

Definition orphan_status (ns : string * held) : ST (Sup W) (result Status) :=
  let '(name, container) := ns in
  st ← describe (MkStatus name "" StateStopped 0 true f64_zero 0 0 0 (Lit "") "" "" "")
         empty_service container;
  mret (Ok st).

Definition status_le (a b : Status) : Prop := String.le (st_Name a) (st_Name b).
#[export] Instance status_le_dec a b : Decision (status_le a b).
Proof. unfold status_le. apply _. Defined.

Definition oks {A} (r : result (list A)) : list A := match r with Ok l => l | Err _ => [] end.

Definition Status_ : ST (Sup W) (list Status) :=
  m ← declarations;
  r ← containers;
  let '(found, problem) :=
    match r with Ok found => (found, None) | Err e => ([], Some (error_msg e)) end in
  a ← map_ST (map_to_list m) (declared_status found problem);
  b ← map_ST (filter (fun ns => m !! ns.1 = None) (map_to_list (running_map found))) orphan_status;
  mret (merge_sort status_le (oks a ++ oks b)).

Definition StatusOf (name : string) : ST (Sup W) (result Status) :=
  l ← Status_;
  mret (match filter (fun st => st_Name st = name) l with
        | st :: _ => Ok st
        | [] => Err (ErrUnknownService name)
        end).

(** ** Commands *)
Definition heldBy (name : string) : ST (Sup W) (option held) :=
  r ← containers;
  mret (match r with
        | Err _ => None
        | Ok found => head (filter (fun h => h_Service h = name) found)
        end).

Definition Start (name : string) : ST (Sup W) (result bool) :=
  d ← declaration name;
  match d with
  | None => mret (Err (ErrUnknownService name))
  | Some svc =>
      c ← gets client;
      if negb c then mret (Err ErrNoRuntime) else
      o ← lift (rt_Inspect (containerName name));
      match o with
      | Err e =>
          if errors_is e ErrNotFound
          then _ ←! create svc true; mret (Ok true)
          else mret (Err e)
      | Ok observed =>
          if Docker.c_Running observed then mret (Ok false) else
          _ ←! lift (rt_Start (Docker.c_ID observed));
          event Logs.EventStarted name ("started container %s", [AStr (short (Docker.c_ID observed))]) ;;
          nudge ;; mret (Ok true)
      end
  end.

Definition Stop (name : string) : ST (Sup W) (result bool) :=
  d ← declaration name;
  orphan ← match d with
           | Some _ => mret true
           | None => h ← heldBy name; mret (bool_decide (is_Some h))
           end;
  if negb orphan then mret (Err (ErrUnknownService name)) else
  let svc := default empty_service d in
  c ← gets client;
  if negb c then mret (Err ErrNoRuntime) else
  o ← lift (rt_Inspect (containerName name));
  match o with
  | Err e => mret (if errors_is e ErrNotFound then Ok false else Err e)
  | Ok observed =>
      if negb (Docker.c_Running observed) then mret (Ok false) else
      sayStopping svc ;;
      _ ←! lift (rt_Stop (Docker.c_ID observed) (StopGrace svc));
      event Logs.EventStopped name ("stopped container %s", [AStr (short (Docker.c_ID observed))]) ;;
      nudge ;; mret (Ok true)
  end.

Definition put_declared (svc : Service) : ST (Sup W) unit :=
  modify (fun s => set_declared (<[Name svc := svc]> (declared s)) s).
Definition drop_declared (name : string) : ST (Sup W) unit :=
  modify (fun s => set_declared (delete name (declared s)) s).

Definition Deploy (svc : Service) : ST (Sup W) (result bool) :=
  c ← gets client;
  if negb c then mret (Err ErrNoRuntime) else
  put_declared svc ;;
  retire svc ;;
  if IsJob svc then nudge ;; mret (Ok true) else
  _ ←! create svc (WantRunning svc);
  nudge ;; mret (Ok true).

Definition Remove (name : string) : ST (Sup W) (result bool) :=
  d ← declaration name;
  known ← match d with
          | Some svc => mret (Some svc)
          | None => h ← heldBy name;
                    mret (match h with Some _ => Some (with_Name empty_service name) | None => None end)
          end;
  match known with
  | None => mret (Err (ErrUnknownService name))
  | Some svc =>
      c ← gets client;
      if negb c then mret (Err ErrNoRuntime) else
      drop_declared name ;;
      retire svc ;;
      event Logs.EventStopped name
        (Lit "removed from this machine; the tree still describes it, and a deploy puts it back") ;;
      nudge ;; mret (Ok true)
  end.

Definition Restart_ (name : string) : ST (Sup W) (result bool) :=
  _ ←! Stop name;
  _ ←! Start name;
  mret (Ok true).

(** One change of a plan, carried out. *)
Definition apply_change (wanted : gmap string Service) (change : Change) : ST (Sup W) unit :=
  if String.eqb (ch_Action change) ActionRemove then
    r ← Stop (ch_Service change);
    match r with
    | Err e => event Logs.EventProblem (ch_Service change)
                 ("could not stop it to remove it: %v", [AMsg (error_msg e)])
    | Ok _ =>
        c ← gets client;
        (if c : bool then _ ← lift (rt_Remove (containerName (ch_Service change))); mret tt else mret tt) ;;
        drop_declared (ch_Service change)
    end
  else if bool_decide (ch_Action change ∈ [ActionUpdate; ActionAdd]) then
    let svc := default empty_service (wanted !! ch_Service change) in
    modify (fun s => set_declared (<[ch_Service change := svc]> (declared s)) s) ;;
    if IsJob svc then retire svc else
    r ← create svc (WantRunning svc);
    match r with
    | Err e => event Logs.EventProblem (ch_Service change) (error_msg e)
    | Ok _ => mret tt
    end
  else mret tt.

Definition Apply (l : list Service) : ST (Sup W) (list Change) :=
  changes ← Plan l;
  for_each changes (apply_change (by_name l)) ;;
  store_declared l ;;
  event Logs.EventApplied "hostd"
    ("applied configuration: %d change(s)", [AInt (Z.of_nat (length changes))]) ;;
  nudge ;;
  mret changes.

End Commands.
