(* ===== verification/TraceRuntime.v ===== *)
(** * TraceRuntime: every runtime at once

    A runtime whose state is the list of the calls made so far and whose answers
    come from an arbitrary function of that list.  A theorem for every [Oracle]
    is a theorem for every behaviour a container runtime can have, and the list
    says which calls the supervisor made and in which order. *)
From S2P Require Import Prelude GoText GoTime Service Runtime Supervisor.
Open Scope string_scope.
Open Scope list_scope.
Open Scope Z_scope.

Inductive Call :=
  | CList (label : string)
  | CInspect (ref : string)
  | CCreate (spec : Docker.Spec) (answer : result string)
  | CStart (ref : string)
  | CStop (ref : string) (grace : Z)
  | CRemove (ref : string)
  | CUpdateRestart (ref policy : string)
  | CWait (ref : string)
  | CEnsureNetwork (name : string)
  | CEnsureVolume (name : string) (labels : gmap string string)
  | CImage (name : string)
  | CImages
  | CTag (image repo tag : string)
  | CRemoveImage (ref : string)
  | CServer
  | CPull (name : string)
  | CVolumeMountpoint (name : string)
  | CLoad (content : string) (cut : option error)
  | CArchive (ref path : string).

Definition Trace : Type := list Call.

Record Oracle := MkOracle {
  o_List : Trace -> string -> result (list Docker.Container);
  o_Inspect : Trace -> string -> result Docker.Container;
  o_Create : Trace -> Docker.Spec -> result string;
  o_Start : Trace -> string -> result unit;
  o_Stop : Trace -> string -> Z -> result unit;
  o_Remove : Trace -> string -> result unit;
  o_UpdateRestart : Trace -> string -> string -> result unit;
  o_Wait : Trace -> string -> result Z;
  o_EnsureNetwork : Trace -> string -> result unit;
  o_EnsureVolume : Trace -> string -> gmap string string -> result unit;
  o_Image : Trace -> string -> result Docker.ImageInfo;
  o_Images : Trace -> result (list Docker.ImageSummary);
  o_Tag : Trace -> string -> string -> string -> result unit;
  o_RemoveImage : Trace -> string -> result unit;
  o_Server : Trace -> result Docker.ServerInfo;
  o_Pull : Trace -> string -> list string * result unit;
  o_VolumeMountpoint : Trace -> string -> result string;
  o_Load : Trace -> string -> option error -> result unit;
  o_Archive : Trace -> string -> string -> result (list Docker.TarEntry * error);
}.

Definition trace_runtime (o : Oracle) : Runtime Trace := {|
  rt_List := fun l h => (o_List o h l, h ++ [CList l]);
  rt_Inspect := fun r h => (o_Inspect o h r, h ++ [CInspect r]);
  rt_Create := fun s h => (o_Create o h s, h ++ [CCreate s (o_Create o h s)]);
  rt_Start := fun r h => (o_Start o h r, h ++ [CStart r]);
  rt_Stop := fun r g h => (o_Stop o h r g, h ++ [CStop r g]);
  rt_Remove := fun r h => (o_Remove o h r, h ++ [CRemove r]);
  rt_UpdateRestart := fun r p h => (o_UpdateRestart o h r p, h ++ [CUpdateRestart r p]);
  rt_Wait := fun r h => (o_Wait o h r, h ++ [CWait r]);
  rt_EnsureNetwork := fun n h => (o_EnsureNetwork o h n, h ++ [CEnsureNetwork n]);
  rt_EnsureVolume := fun n l h => (o_EnsureVolume o h n l, h ++ [CEnsureVolume n l]);
  rt_Image := fun n h => (o_Image o h n, h ++ [CImage n]);
  rt_Images := fun h => (o_Images o h, h ++ [CImages]);
  rt_Tag := fun i r t h => (o_Tag o h i r t, h ++ [CTag i r t]);
  rt_RemoveImage := fun r h => (o_RemoveImage o h r, h ++ [CRemoveImage r]);
  rt_Server := fun h => (o_Server o h, h ++ [CServer]);
  rt_Pull := fun n h => (o_Pull o h n, h ++ [CPull n]);
  rt_VolumeMountpoint := fun n h => (o_VolumeMountpoint o h n, h ++ [CVolumeMountpoint n]);
  rt_Load := fun c e h => (o_Load o h c e, h ++ [CLoad c e]);
  rt_Archive := fun r p h => (o_Archive o h r p, h ++ [CArchive r p]);
|}.

(** A runtime that answers everything well and holds [l]; ids are the names. *)
Definition calm (l : list Docker.Container) : Oracle := {|
  o_List := fun _ lb => Ok (filter (fun c => Docker.label lb (Docker.c_Labels c) <> "") l);
  o_Inspect := fun _ r => match filter (fun c => Docker.c_ID c = r \/ Docker.c_Name c = r) l with
                          | c :: _ => Ok c
                          | [] => Err ErrNotFound
                          end;
  o_Create := fun _ s => Ok (Docker.sp_Name s);
  o_Start := fun _ _ => Ok tt; o_Stop := fun _ _ _ => Ok tt; o_Remove := fun _ _ => Ok tt;
  o_UpdateRestart := fun _ _ _ => Ok tt; o_Wait := fun _ _ => Ok 0; o_EnsureNetwork := fun _ _ => Ok tt;
  o_EnsureVolume := fun _ _ _ => Ok tt;
  o_Image := fun _ n => Ok (Docker.MkImageInfo n "amd64"); o_Images := fun _ => Ok [];
  o_Tag := fun _ _ _ _ => Ok tt; o_RemoveImage := fun _ _ => Ok tt;
  o_Server := fun _ => Ok (Docker.MkServerInfo "27" "amd64"); o_Pull := fun _ _ => ([], Ok tt);
  o_VolumeMountpoint := fun _ n => Ok n; o_Load := fun _ _ _ => Ok tt;
  o_Archive := fun _ _ _ => Ok ([], EMsg ("EOF", []));
|}.

(** ** A small program logic for what a computation calls

    [does P m]: whatever the state, [m] only appends calls allowed by [P], which
    may look at the calls made before. *)
Section Logic.
Context (o : Oracle).
#[local] Instance rt : Runtime Trace := trace_runtime o.

Definition CallPred : Type := Trace -> Call -> Prop.

Inductive extends (P : CallPred) : Trace -> Trace -> Prop :=
  | extends_refl h : extends P h h
  | extends_call h c h' : P h c -> extends P (h ++ [c]) h' -> extends P h h'.

Lemma extends_trans P a b c : extends P a b -> extends P b c -> extends P a c.
Proof. induction 1; eauto using extends. Qed.

Lemma extends_one (P : CallPred) h c : P h c -> extends P h (h ++ [c]).
Proof. eauto using extends. Qed.

Lemma extends_mono (P Q : CallPred) a b : (forall h c, P h c -> Q h c) -> extends P a b -> extends Q a b.
Proof. induction 2; eauto using extends. Qed.

(** The calls appended. *)
Lemma extends_app P a b : extends P a b -> exists new, b = a ++ new.
Proof.
  induction 1 as [h|h c h' _ _ [new ->]]; [exists []; by rewrite app_nil_r|].
  exists (c :: new). by rewrite <- app_assoc.
Qed.

Lemma extends_Forall (Q : Call -> Prop) a b :
  extends (fun _ c => Q c) a b -> exists new, b = a ++ new /\ Forall Q new.
Proof.
  induction 1 as [h|h c h' HQ _ (new & -> & Hn)]; [exists []; by rewrite app_nil_r|].
  exists (c :: new). split; [by rewrite <- app_assoc|by apply Forall_cons_2].
Qed.

Definition does {A} (P : CallPred) (m : ST (Sup Trace) A) : Prop :=
  forall s, extends P (world s) (world (m s).2).

Lemma does_ret {A} P (a : A) : does P (mret a).
Proof. intros s. apply extends_refl. Qed.

Lemma does_bind {A B} P (m : ST (Sup Trace) A) (f : A -> ST (Sup Trace) B) :
  does P m -> (forall a, does P (f a)) -> does P (m ≫= f).
Proof.
  intros Hm Hf s. specialize (Hm s). unfold mbind, ST_bind.
  destruct (m s) as [a s1]. eapply extends_trans; [exact Hm|apply Hf].
Qed.

Lemma does_bindE {A B} P (m : ST (Sup Trace) (result A)) (f : A -> ST (Sup Trace) (result B)) :
  does P m -> (forall a, does P (f a)) -> does P (bindE m f).
Proof.
  intros Hm Hf s. specialize (Hm s). unfold bindE.
  destruct (m s) as [[a|e] s1]; [eapply extends_trans; [exact Hm|apply Hf]|done].
Qed.

(** A computation that leaves the runtime alone. *)
Lemma does_pure {A} P (m : ST (Sup Trace) A) : (forall s, world (m s).2 = world s) -> does P m.
Proof. intros Hm s. rewrite Hm. apply extends_refl. Qed.

Lemma does_for_each {A} P (l : list A) body : (forall x, x ∈ l -> does P (body x)) -> does P (for_each l body).
Proof.
  induction l as [|x l IH]; intros Hb; [apply does_ret|]. cbn [for_each].
  apply does_bind; [apply Hb; left|]. intros _. apply IH. intros y Hy. apply Hb. by right.
Qed.

Lemma does_map_ST {A B} P (l : list A) (body : A -> ST (Sup Trace) (result B)) :
  (forall x, does P (body x)) -> does P (map_ST l body).
Proof.
  intros Hb. induction l as [|x l IH]; [apply does_ret|]. cbn [map_ST].
  apply does_bindE; [done|]. intros y. apply does_bindE; [done|]. intros ys. apply does_ret.
Qed.

Lemma does_lift {A} P (m : ST Trace A) : (forall h, extends P h (m h).2) -> does P (lift m).
Proof. intros Hm s. unfold lift. specialize (Hm (world s)). by destruct (m (world s)). Qed.
End Logic.

(** Peel a computation down to the calls it makes. *)
Ltac does_step :=
  match goal with
  | |- does _ (mret _) => apply does_ret
  | |- does _ (if ?b then _ else _) => destruct b
  | |- does _ (match ?x with _ => _ end) => destruct x
  | |- does _ (mbind _ _) => apply does_bind; [|intros ?]
  | |- does _ (bindE _ _) => apply does_bindE; [|intros ?]
  | |- does _ (gets _) => apply does_pure; intros ?; reflexivity
  | |- does _ (modify _) => apply does_pure; intros ?; reflexivity
  | |- does _ (event _ _ _) => apply does_pure; intros ?; reflexivity
  | |- does _ (logRun _ _ _ _) => apply does_pure; intros ?; reflexivity
  | |- does _ nudge => apply does_pure; intros ?; reflexivity
  | |- does _ (declaration _) => apply does_pure; intros ?; reflexivity
  | |- does _ declarations => apply does_pure; intros ?; reflexivity
  | |- does _ (configMount _) => apply does_pure; intros ?; reflexivity
  | |- does _ (clearReport _) => apply does_pure; intros ?; reflexivity
  | |- does _ (sayStopping _) => apply does_pure; intros ?; reflexivity
  | |- does _ (lift (_ _ _)) => apply does_lift; intros ?; apply extends_one
  | |- does _ (lift (_ _)) => apply does_lift; intros ?; apply extends_one
  end.

Section Pieces.
Context (o : Oracle) `{LogStore} `{MapOrder Service}.
#[local] Existing Instance rt.

Lemma does_reportOnce P name text : does P (reportOnce (W := Trace) name text).
Proof. unfold reportOnce. repeat does_step. Qed.

Lemma does_startFollowing P h : does P (startFollowing (W := Trace) h).
Proof. unfold startFollowing. repeat does_step. apply does_reportOnce. Qed.

Lemma does_follow P l : does P (follow (W := Trace) l).
Proof.
  unfold follow. does_step; [|does_step]. apply does_for_each. intros h _. unfold follow_one.
  repeat does_step. apply does_startFollowing.
Qed.

Lemma does_containers (P : CallPred) :
  (forall h, P h (CList labelService)) -> does P (@containers _ (trace_runtime o)).
Proof. intros HP. unfold containers. repeat does_step. apply HP. Qed.

Lemma does_prepareMounts (P : CallPred) svc :
  (forall h n l, P h (CEnsureVolume n l)) -> does P (@prepareMounts _ (trace_runtime o) svc).
Proof.
  intros HP. unfold prepareMounts. does_step; [|does_step]. apply does_map_ST. intros m.
  unfold prepare_mount. repeat does_step. apply HP.
Qed.
End Pieces.

(** ** Concrete machines, for the examples *)
Module Samples.

(** A log store that never saw anything. *)
Definition no_log : LogStore := {| LastAt _ _ := Ok zero_time |}.

Definition web : Service :=
  MkService "web" ["-listen"; ":8080"] "" ["TZ=UTC"] StateRunning RestartAlways f64_zero
    "nginx@sha256:aa" ["8080:80"] [] [] f64_zero f64_zero f64_zero "" "" f64_zero "" "".
Definition tick : Service :=
  MkService "tick" [] "" [] StateRunning RestartNever f64_zero
    "worker@sha256:bb" [] [] [] f64_zero f64_zero f64_zero "2s" OverlapSkip f64_zero "" "".

Definition container_of (name id service run : string) (running : bool) : Docker.Container :=
  Docker.MkContainer id name "img" "sha256:cc" running 42 zero_time 0
    (if running then "running" else "exited") 0 "" "unless-stopped"
    (if String.eqb run "" then {[labelService := service]}
     else <[labelRun := run]> {[labelService := service]}).

(** A supervisor with a runtime, these declarations and nothing else yet. *)
Definition quiet (l : list Service) (t : Time) : Sup Trace :=
  MkSup [] true "/srv" (foldl (fun m svc => <[Name svc := svc]> m) ∅ l) ∅ ∅ ∅ ∅ [] [] false false t ∅ ∅.

Definition noon : Time := of_unix_sec 1700000000.
End Samples.
