(* ===== verification/Simulation.v ===== *)
(** * Simulation: every runtime is one of the oracles

    The theorems about the supervisor are stated for the runtime of
    TraceRuntime.v, whose state is the list of the calls made.  Here any
    implementation of the interface, the HTTP client of DockerClient.v among
    them, is shown to behave as that runtime with one oracle: the one that asks
    the implementation, in the state the calls made so far have taken it to. *)
From S2P Require Import Prelude GoText GoTime GoPath Service Runtime Supervisor Schedule Plan TraceRuntime.
Open Scope string_scope.
Open Scope list_scope.
Open Scope Z_scope.
Open Scope hostd_scope.

(** ** Two computations that do the same *)
Section Simulated.
Context {S T : Type} (C : T -> S).

(** [m], on the states [C] gives, answers what [n] answers and goes where [C]
    takes the state [n] goes to. *)
Definition simulated {A} (m : ST S A) (n : ST T A) : Prop := forall t, m (C t) = ((n t).1, C (n t).2).

Lemma sim_ret {A} (a : A) : simulated (mret a) (mret a).
Proof. by intros s. Qed.
Lemma sim_bind {A B} (m : ST S A) n (f : A -> ST S B) g :
  simulated m n -> (forall a, simulated (f a) (g a)) -> simulated (m ≫= f) (n ≫= g).
Proof. intros Hm Hf s. by rewrite (ST_step n), (ST_step_eq _ _ _ _ _ (Hm s)), Hf. Qed.
Lemma sim_bindE {A B} (m : ST S (result A)) n (f : A -> ST S (result B)) g :
  simulated m n -> (forall a, simulated (f a) (g a)) -> simulated (bindE m f) (bindE n g).
Proof. intros Hm Hf s. unfold bindE. rewrite Hm. destruct (n s) as [[a|e] s1]; cbn [fst snd]; [apply Hf|done]. Qed.
Lemma sim_for_each {A} (l : list A) (f : A -> ST S unit) g :
  (forall a, simulated (f a) (g a)) -> simulated (for_each l f) (for_each l g).
Proof. intros Hf. induction l as [|x l IH]; [apply sim_ret|]. apply sim_bind; [apply Hf|]. by intros _. Qed.
Lemma sim_map_ST {A B} (l : list A) (f : A -> ST S (result B)) g :
  (forall a, simulated (f a) (g a)) -> simulated (map_ST l f) (map_ST l g).
Proof.
  intros Hf. induction l as [|x l IH]; [apply sim_ret|]. cbn [map_ST].
  apply sim_bindE; [apply Hf|]. intros y. apply sim_bindE; [done|]. intros ys. apply sim_ret.
Qed.
(** A computation that does not look at what [C] changes. *)
Lemma sim_blind {A} (m : ST S A) n : (forall t, m (C t) = ((n t).1, C (n t).2)) -> simulated m n.
Proof. done. Qed.
End Simulated.

(** ** The implementation, replayed *)
Section Replay.
Context {W : Type} `{R : Runtime W} (start : W).

(** What one call does to the implementation. *)
Definition perform (c : Call) (w : W) : W :=
  match c with
  | CList l => (rt_List l w).2
  | CInspect r => (rt_Inspect r w).2
  | CCreate s _ => (rt_Create s w).2
  | CStart r => (rt_Start r w).2
  | CStop r g => (rt_Stop r g w).2
  | CRemove r => (rt_Remove r w).2
  | CUpdateRestart r p => (rt_UpdateRestart r p w).2
  | CWait r => (rt_Wait r w).2
  | CEnsureNetwork n => (rt_EnsureNetwork n w).2
  | CEnsureVolume n l => (rt_EnsureVolume n l w).2
  | CImage n => (rt_Image n w).2
  | CImages => (rt_Images w).2
  | CTag i r t => (rt_Tag i r t w).2
  | CRemoveImage r => (rt_RemoveImage r w).2
  | CServer => (rt_Server w).2
  | CPull n => (rt_Pull n w).2
  | CVolumeMountpoint n => (rt_VolumeMountpoint n w).2
  | CLoad c e => (rt_Load c e w).2
  | CArchive r p => (rt_Archive r p w).2
  end.
Definition reached (h : Trace) : W := foldl (fun w c => perform c w) start h.

#[local] Arguments reached : simpl never.

Lemma reached_call h c : reached (h ++ [c]) = perform c (reached h).
Proof. unfold reached. by rewrite foldl_app. Qed.

Definition oracle_of : Oracle := {|
  o_List h l := (rt_List l (reached h)).1;
  o_Inspect h r := (rt_Inspect r (reached h)).1;
  o_Create h s := (rt_Create s (reached h)).1;
  o_Start h r := (rt_Start r (reached h)).1;
  o_Stop h r g := (rt_Stop r g (reached h)).1;
  o_Remove h r := (rt_Remove r (reached h)).1;
  o_UpdateRestart h r p := (rt_UpdateRestart r p (reached h)).1;
  o_Wait h r := (rt_Wait r (reached h)).1;
  o_EnsureNetwork h n := (rt_EnsureNetwork n (reached h)).1;
  o_EnsureVolume h n l := (rt_EnsureVolume n l (reached h)).1;
  o_Image h n := (rt_Image n (reached h)).1;
  o_Images h := (rt_Images (reached h)).1;
  o_Tag h i r t := (rt_Tag i r t (reached h)).1;
  o_RemoveImage h r := (rt_RemoveImage r (reached h)).1;
  o_Server h := (rt_Server (reached h)).1;
  o_Pull h n := (rt_Pull n (reached h)).1;
  o_VolumeMountpoint h n := (rt_VolumeMountpoint n (reached h)).1;
  o_Load h c e := (rt_Load c e (reached h)).1;
  o_Archive h r p := (rt_Archive r p (reached h)).1;
|}.
#[local] Instance traced : Runtime Trace := trace_runtime oracle_of.

(** The supervisor over the implementation, read off the one over the trace. *)
Definition concrete (s : Sup Trace) : Sup W :=
  MkSup (reached (world s)) (client s) (services s) (declared s) (following s) (reported s) (fired s) (awaiting s)
    (timeline s) (tasks s) (nudged s) (left s) (now s) (artifacts s) (scripts s).

(** A call. *)
Lemma sim_lift {A} (m : ST W A) (n : ST Trace A) :
  (forall h, m (reached h) = ((n h).1, reached (n h).2)) -> simulated concrete (lift m) (lift n).
Proof.
  intros Hm s. unfold lift. cbn [world concrete]. rewrite Hm. by destruct (n (world s)).
Qed.
End Replay.
#[global] Arguments reached {W R} start h : simpl never.

(** Take both sides apart together, down to the steps. *)
Ltac sim_step :=
  match goal with
  | |- simulated _ (mret _) _ => apply sim_ret
  | |- simulated _ (mbind _ _) _ => apply sim_bind; [|intros ?]
  | |- simulated _ (bindE _ _) _ => apply sim_bindE; [|intros ?]
  | |- simulated _ (for_each _ _) _ => apply sim_for_each; intros ?
  | |- simulated _ (map_ST _ _) _ => apply sim_map_ST; intros ?
  | |- simulated _ (lift _) _ =>
      apply sim_lift; intros ?; cbn; rewrite ?reached_call; apply surjective_pairing
  | |- simulated _ (gets _) _ => apply sim_blind; intros ?; reflexivity
  | |- simulated _ (modify _) _ => apply sim_blind; intros ?; reflexivity
  | |- simulated _ (match ?x with _ => _ end) _ => destruct x eqn:?
  | |- simulated _ (match ?x with _ => _ end _) _ => destruct x eqn:?
  end.
Ltac simulate := repeat sim_step.

Section Supervisor.
Context {W : Type} `{R : Runtime W} `{LogStore} `{MapOrder Service} (start : W).
#[local] Instance traced_ : Runtime Trace := trace_runtime (oracle_of start).
Abbreviation sim := (simulated (concrete start)).

Lemma sim_containers : sim containers containers.
Proof. unfold containers. simulate. Qed.
Lemma sim_event kind name text : sim (event kind name text) (event kind name text).
Proof. by apply sim_blind. Qed.
Lemma sim_logRun service run kind text : sim (logRun service run kind text) (logRun service run kind text).
Proof. by apply sim_blind. Qed.
Lemma sim_reportOnce name text : sim (reportOnce name text) (reportOnce name text).
Proof. unfold reportOnce. simulate. apply sim_event. Qed.
Lemma sim_prepareMounts svc : sim (prepareMounts svc) (prepareMounts svc).
Proof. unfold prepareMounts, prepare_mount. simulate. Qed.
Lemma sim_configMount svc : sim (configMount svc) (configMount svc).
Proof. by apply sim_blind. Qed.
End Supervisor.
Create HintDb simulation.
#[export] Hint Resolve sim_containers sim_event sim_logRun sim_reportOnce sim_prepareMounts sim_configMount : simulation.
Ltac simulate ::= repeat first [solve [auto 2 with simulation nocore] | sim_step].

Section Operations.
Context {W : Type} `{R : Runtime W} `{LogStore} `{MapOrder Service} (start : W).
#[local] Instance traced__ : Runtime Trace := trace_runtime (oracle_of start).
Abbreviation sim := (simulated (concrete start)).

Lemma sim_create svc b : sim (create svc b) (create svc b).
Proof. unfold create, image_for, nudge. simulate. Qed.
Lemma sim_retire svc : sim (retire svc) (retire svc).
Proof. unfold retire, sayStopping. simulate. Qed.
Lemma sim_convergePolicy svc c : sim (convergePolicy svc c) (convergePolicy svc c).
Proof. unfold convergePolicy. simulate. Qed.
Lemma sim_startFollowing c : sim (startFollowing c) (startFollowing c).
Proof. unfold startFollowing. simulate. Qed.
End Operations.
#[export] Hint Resolve sim_create sim_retire sim_convergePolicy sim_startFollowing : simulation.

Section Jobs.
Context {W : Type} `{R : Runtime W} `{LogStore} `{MapOrder Service} (start : W).
#[local] Instance traced_jobs : Runtime Trace := trace_runtime (oracle_of start).
Abbreviation sim := (simulated (concrete start)).

Lemma sim_runsOf name : sim (runsOf name) (runsOf name).
Proof. unfold runsOf. simulate. Qed.
Lemma sim_createRun svc slot : sim (createRun svc slot) (createRun svc slot).
Proof. unfold createRun. simulate. Qed.
Lemma sim_run_started svc slot id : sim (run_started svc slot id) (run_started svc slot id).
Proof. unfold run_started, clearReport. simulate. Qed.
Lemma sim_refuseRun name reason : sim (refuseRun name reason) (refuseRun name reason).
Proof. unfold refuseRun. simulate. Qed.
End Jobs.
#[export] Hint Resolve sim_runsOf sim_createRun sim_run_started sim_refuseRun : simulation.

Section Rounds.
Context {W : Type} `{R : Runtime W} `{LogStore} `{MapOrder Service} (start : W).
#[local] Instance traced_rounds : Runtime Trace := trace_runtime (oracle_of start).
Abbreviation sim := (simulated (concrete start)).

Lemma sim_startRun svc slot because : sim (startRun svc slot because) (startRun svc slot because).
Proof. unfold startRun. simulate. Qed.
Lemma sim_fireDue t : sim (fireDue t) (fireDue t).
Proof. unfold fireDue, fire_one, declarations. simulate; apply sim_startRun. Qed.
Lemma sim_RunNow name : sim (RunNow name) (RunNow name).
Proof. unfold RunNow, declaration. simulate. apply sim_startRun. Qed.
Lemma sim_stopOverrun name run id limit : sim (stopOverrun name run id limit) (stopOverrun name run id limit).
Proof. unfold stopOverrun, declaration. simulate. Qed.
Lemma sim_awaitRun name run id started : sim (awaitRun name run id started) (awaitRun name run id started).
Proof. unfold awaitRun, await_arm, await_done, runLimitOf, declaration. simulate. Qed.
Lemma sim_adoptRuns l : sim (adoptRuns l) (adoptRuns l).
Proof. unfold adoptRuns, adopt_run. simulate. Qed.
Lemma sim_follow l : sim (follow l) (follow l).
Proof. unfold follow, follow_one. simulate. Qed.
Lemma sim_Backup name : sim (Backup name) (Backup name).
Proof. unfold Backup, declaration. simulate. Qed.
Lemma sim_Adopt l : sim (Adopt l) (Adopt l).
Proof. unfold Adopt, adopt_one, store_declared, declaration. simulate. Qed.
End Rounds.
#[export] Hint Resolve sim_adoptRuns sim_follow : simulation.

Section Commands.
Context {W : Type} `{R : Runtime W} `{LogStore} `{MapOrder Service} (start : W).
#[local] Instance traced_commands : Runtime Trace := trace_runtime (oracle_of start).
Abbreviation sim := (simulated (concrete start)).

Lemma sim_observe : sim observe observe.
Proof. unfold observe, observe_one, declarations, clearReport. simulate. Qed.
Lemma sim_Plan l : sim (Plan l) (Plan l).
Proof. unfold Plan, declarations. simulate. Qed.
Lemma sim_describe st svc c : sim (describe st svc c) (describe st svc c).
Proof. unfold describe. simulate. Qed.
Lemma sim_heldBy name : sim (heldBy name) (heldBy name).
Proof. unfold heldBy. simulate. Qed.
Lemma sim_Start name : sim (Start name) (Start name).
Proof. unfold Start, declaration, nudge. simulate. Qed.
End Commands.
#[export] Hint Resolve sim_Plan sim_describe sim_heldBy sim_Start : simulation.

Section Applies.
Context {W : Type} `{R : Runtime W} `{LogStore} `{MapOrder Service} (start : W).
#[local] Instance traced_applies : Runtime Trace := trace_runtime (oracle_of start).
Abbreviation sim := (simulated (concrete start)).

Lemma sim_Stop name : sim (Stop name) (Stop name).
Proof. unfold Stop, declaration, sayStopping, nudge. simulate. Qed.
Lemma sim_Deploy svc : sim (Deploy svc) (Deploy svc).
Proof. unfold Deploy, put_declared, nudge. simulate. Qed.
Lemma sim_Remove name : sim (Remove name) (Remove name).
Proof. unfold Remove, declaration, drop_declared, nudge. simulate. Qed.
Lemma sim_Restart name : sim (Restart_ name) (Restart_ name).
Proof. unfold Restart_. simulate. apply sim_Stop. Qed.
Lemma sim_Apply l : sim (Apply l) (Apply l).
Proof. unfold Apply, apply_change, store_declared, drop_declared, nudge. simulate; apply sim_Stop. Qed.
Lemma sim_Status : sim Status_ Status_.
Proof. unfold Status_, declared_status, orphan_status, declarations. simulate. Qed.
Lemma sim_StatusOf name : sim (StatusOf name) (StatusOf name).
Proof. unfold StatusOf. simulate. apply sim_Status. Qed.
End Applies.


(** ** Any history of operations *)
Inductive Act :=
  | ARound | AFire (at_ : Time) | ARunNow (name : string) | AOverrun (name run id : string) (limit : Z)
  | AAwait (name run id : string) (started : Time) | ABackup (name : string) | AAdopt (l : list Service)
  | APlan (l : list Service) | AApply (l : list Service) | AStart (name : string) | AStop (name : string)
  | ARestart (name : string) | ADeploy (svc : Service) | ARemove (name : string) | AStatus
  | AEvent (e : Docker.Event) | AClock (t : Time) | AScript (present scripts_ : gset string).
Inductive Reply :=
  | RNothing | RDone (r : result unit) | RChanged (r : result bool) | RRun (r : result string)
  | RBackup (r : BackupRun * option error) | RChanges (l : list Change) | RStatus (l : list Status).

Section History.
Context {W : Type} `{R : Runtime W} `{LogStore} `{MapOrder Service}.

(** The clock moves and files come and go without the supervisor. *)
Definition set_clock (t : Time) (s : Sup W) : Sup W :=
  MkSup (world s) (client s) (services s) (declared s) (following s) (reported s) (fired s) (awaiting s)
    (timeline s) (tasks s) (nudged s) (left s) t (artifacts s) (scripts s).
Definition set_scripts (a b : gset string) (s : Sup W) : Sup W :=
  MkSup (world s) (client s) (services s) (declared s) (following s) (reported s) (fired s) (awaiting s)
    (timeline s) (tasks s) (nudged s) (left s) (now s) a b.

Definition act (a : Act) : ST (Sup W) Reply :=
  match a with
  | ARound => _ ← observe; mret RNothing
  | AFire t => _ ← fireDue t; mret RNothing
  | ARunNow n => r ← RunNow n; mret (RRun r)
  | AOverrun n run id l => _ ← stopOverrun n run id l; mret RNothing
  | AAwait n run id t => _ ← awaitRun n run id t; mret RNothing
  | ABackup n => r ← Backup n; mret (RBackup r)
  | AAdopt l => r ← Adopt l; mret (RDone r)
  | APlan l => r ← Plan l; mret (RChanges r)
  | AApply l => r ← Apply l; mret (RChanges r)
  | AStart n => r ← Start n; mret (RChanged r)
  | AStop n => r ← Stop n; mret (RChanged r)
  | ARestart n => r ← Restart_ n; mret (RChanged r)
  | ADeploy svc => r ← Deploy svc; mret (RChanged r)
  | ARemove n => r ← Remove n; mret (RChanged r)
  | AStatus => r ← Status_; mret (RStatus r)
  | AEvent e => _ ← runtimeEvent e; mret RNothing
  | AClock t => _ ← modify (set_clock t); mret RNothing
  | AScript a b => _ ← modify (set_scripts a b); mret RNothing
  end.

Fixpoint history (acts : list Act) : ST (Sup W) (list Reply) :=
  match acts with
  | [] => mret []
  | a :: acts' => r ← act a; rs ← history acts'; mret (r :: rs)
  end.

(** The supervisor before any call, over the trace. *)
Definition untraced (s : Sup W) : Sup Trace :=
  MkSup [] (client s) (services s) (declared s) (following s) (reported s) (fired s) (awaiting s)
    (timeline s) (tasks s) (nudged s) (left s) (now s) (artifacts s) (scripts s).
End History.

Section Refinement.
Context {W : Type} `{R : Runtime W} `{LogStore} `{MapOrder Service} (start : W).
#[local] Instance traced_history : Runtime Trace := trace_runtime (oracle_of start).
Abbreviation sim := (simulated (concrete start)).

Lemma sim_act a : sim (act a) (act a).
Proof.
  destruct a; cbn [act]; (apply sim_bind; [|intros ?; apply sim_ret]).
  all: first [apply sim_observe | apply sim_fireDue | apply sim_RunNow | apply sim_stopOverrun | apply sim_awaitRun
    | apply sim_Backup | apply sim_Adopt | apply sim_Plan | apply sim_Apply | apply sim_Start | apply sim_Stop
    | apply sim_Restart | apply sim_Deploy | apply sim_Remove | apply sim_Status | idtac].
  - unfold runtimeEvent. sim_step; [apply sim_ret|]. intros s. cbn [now concrete].
    by repeat match goal with |- context [if ?b then _ else _] => destruct b end.
  - by apply sim_blind.
  - by apply sim_blind.
Qed.

Lemma sim_history acts : sim (history acts) (history acts).
Proof.
  induction acts as [|a acts IH]; [apply sim_ret|]. cbn [history].
  apply sim_bind; [apply sim_act|]. intros r. apply sim_bind; [done|]. intros rs. apply sim_ret.
Qed.
End Refinement.

(** The supervisor knows no runtime but the interface.  Over any
    implementation of it, the HTTP client included, and from any state, any
    history of operations gives the answers, the declarations, the timeline, the
    tasks and every other field it gives over the traced runtime, whose oracle
    answers as the implementation would after the calls made so far; and the
    implementation is left where exactly those calls, in that order, take it.
    What is proved for every oracle therefore holds for it. *)
Theorem any_runtime_is_an_oracle {W} `{Runtime W} `{LogStore} `{MapOrder Service} (acts : list Act) (s : Sup W) :
  let traced := @history Trace (trace_runtime (oracle_of (world s))) _ _ acts (untraced s) in
  history acts s = (traced.1, concrete (world s) traced.2) /\
  world (history acts s).2 = foldl (fun w c => perform c w) (world s) (world traced.2).
Proof.
  intros traced. pose proof (sim_history (world s) acts (untraced s)) as E.
  assert (Hs : concrete (world s) (untraced s) = s) by (by destruct s). rewrite Hs in E.
  split; [exact E|]. by rewrite E.
Qed.
