(* ===== verification/ScheduleProofs.v ===== *)
(** * ScheduleProofs: runs, ceilings, slots and the drift round

    Every theorem is stated for an arbitrary [Oracle], hence for every
    behaviour of the container runtime. *)
From S2P Require Import Prelude GoText GoTime GoPath Service Runtime Supervisor Schedule TraceRuntime.
From Stdlib Require Import Ascii SpecFloat.
Open Scope string_scope.
Open Scope list_scope.
Open Scope Z_scope.
Open Scope hostd_scope.

(** ** Fields a computation leaves alone *)
Section Keeps.
Context {W X : Type} (f : Sup W -> X).
Definition keeps {A} (m : ST (Sup W) A) : Prop := forall s, f (m s).2 = f s.

Lemma keeps_ret {A} (a : A) : keeps (mret a).
Proof. done. Qed.
Lemma keeps_bind {A B} (m : ST (Sup W) A) (g : A -> ST (Sup W) B) :
  keeps m -> (forall a, keeps (g a)) -> keeps (m ≫= g).
Proof.
  intros Hm Hg s. specialize (Hm s). unfold mbind, ST_bind.
  destruct (m s) as [a s1]. cbn in Hm. by rewrite Hg.
Qed.
Lemma keeps_bindE {A B} (m : ST (Sup W) (result A)) (g : A -> ST (Sup W) (result B)) :
  keeps m -> (forall a, keeps (g a)) -> keeps (bindE m g).
Proof.
  intros Hm Hg s. specialize (Hm s). unfold bindE.
  destruct (m s) as [[a|e] s1]; cbn in *; [by rewrite Hg|done].
Qed.
Lemma keeps_for_each {A} (l : list A) body : (forall x, keeps (body x)) -> keeps (for_each l body).
Proof. intros Hb. induction l as [|x l IH]; [done|]. by apply keeps_bind. Qed.
Lemma keeps_map_ST {A B} (l : list A) (body : A -> ST (Sup W) (result B)) :
  (forall x, keeps (body x)) -> keeps (map_ST l body).
Proof.
  intros Hb. induction l as [|x l IH]; [done|]. cbn [map_ST].
  apply keeps_bindE; [done|]. intros y. by apply keeps_bindE.
Qed.
Lemma keeps_lift {A} (m : ST W A) : (forall w s, f (set_world w s) = f s) -> keeps (lift m).
Proof. intros Hf s. unfold lift. destruct (m (world s)). apply Hf. Qed.
End Keeps.

Ltac keeps_step :=
  match goal with
  | |- keeps _ (mret _) => apply keeps_ret
  | |- keeps _ (if ?b then _ else _) => destruct b
  | |- keeps _ (match ?x with _ => _ end) => destruct x
  | |- keeps _ (mbind _ _) => apply keeps_bind; [|intros ?]
  | |- keeps _ (bindE _ _) => apply keeps_bindE; [|intros ?]
  | |- keeps _ (lift _) => apply keeps_lift; intros; reflexivity
  | |- keeps _ (for_each _ _) => apply keeps_for_each; intros ?
  | |- keeps _ (map_ST _ _) => apply keeps_map_ST; intros ?
  | |- keeps _ _ => intros ?; reflexivity
  end.

Section KeepRun.
Context {W} `{Runtime W} `{LogStore} `{MapOrder Service} {X : Type} (f : Sup W -> X).
Hypothesis f_world : forall w s, f (set_world w s) = f s.
Hypothesis f_reported : forall m s, f (set_reported m s) = f s.
Hypothesis f_timeline : forall r s, f (add_record r s) = f s.
Hypothesis f_following : forall r s, f (set_following r s) = f s.
Hypothesis f_awaiting : forall r s, f (set_awaiting r s) = f s.
Hypothesis f_tasks : forall t s, f (add_task t s) = f s.
Lemma reportOnce_keeps n t : keeps f (reportOnce n t).
Proof. unfold reportOnce. repeat keeps_step; intros s; cbn; auto. Qed.

(** A run changes none of the fields [f] looks at. *)
Lemma startRun_keeps svc slot b : keeps f (startRun svc slot b).
Proof.
  unfold startRun, run_started, runsOf, containers, createRun, prepareMounts, prepare_mount, startFollowing, refuseRun.
  repeat match goal with
  | |- keeps _ (reportOnce _ _) => apply reportOnce_keeps
  | |- keeps _ (lift _) => apply keeps_lift; intros; apply f_world
  | |- keeps _ (modify _) => intros ?; cbn; auto
  | |- keeps _ (event _ _ _) => intros ?; cbn; auto
  | |- keeps _ (logRun _ _ _ _) => intros ?; cbn; auto
  | |- keeps _ (clearReport _) => intros ?; cbn; auto
  | _ => keeps_step
  end.
Qed.
End KeepRun.

(** ** What a run may create

    Every container asked for, by the service and the run its labels name. *)
Definition spec_run (s : Docker.Spec) : string * string :=
  (Docker.label labelService (Docker.sp_Labels s), Docker.label labelRun (Docker.sp_Labels s)).
Definition created (h : Trace) : list (string * string) :=
  omap (fun c => match c with CCreate s _ => Some (spec_run s) | _ => None end) h.

Lemma run_spec_run svc slot mounts : spec_run (run_spec svc slot mounts) = (Name svc, runID slot).
Proof.
  unfold spec_run, run_spec, Docker.label. cbn [Docker.sp_Labels].
  rewrite lookup_insert_ne by done. by rewrite lookup_singleton_eq, lookup_insert_eq.
Qed.

Definition NoCreate : CallPred := fun _ c => match c with CCreate _ _ => False | _ => True end.

Lemma created_app a b : created (a ++ b) = created a ++ created b.
Proof. unfold created. by rewrite omap_app. Qed.

Lemma NoCreate_created a b : extends NoCreate a b -> created b = created a.
Proof.
  induction 1 as [|h c h' Hc _ IH]; [done|]. rewrite IH, created_app.
  destruct c; try (cbn; by rewrite app_nil_r). done.
Qed.

Section Runs.
Context (o : Oracle) `{LogStore} `{MapOrder Service}.
#[local] Existing Instance rt.
#[local] Instance rto : Runtime Trace := trace_runtime o.

(** [m] creates at most one container, for the run [n]. *)
Definition makes {A} (n : string * string) (m : ST (Sup Trace) A) : Prop :=
  forall s, created (world (m s).2) = created (world s) \/
            created (world (m s).2) = created (world s) ++ [n].

Lemma makes_none {A} n (m : ST (Sup Trace) A) : does NoCreate m -> makes n m.
Proof. intros Hm s. left. by apply NoCreate_created. Qed.

Lemma makes_after {A B} n (m : ST (Sup Trace) A) (f : A -> ST (Sup Trace) B) :
  does NoCreate m -> (forall a, makes n (f a)) -> makes n (m ≫= f).
Proof.
  intros Hm Hf s. specialize (Hm s). apply NoCreate_created in Hm. unfold mbind, ST_bind.
  destruct (m s) as [a s1]. cbn in Hm. rewrite <- Hm. apply Hf.
Qed.

Lemma makes_then {A B} n (m : ST (Sup Trace) A) (f : A -> ST (Sup Trace) B) :
  makes n m -> (forall a, does NoCreate (f a)) -> makes n (m ≫= f).
Proof.
  intros Hm Hf s. specialize (Hm s). unfold mbind, ST_bind.
  destruct (m s) as [a s1]. specialize (Hf a s1). apply NoCreate_created in Hf.
  cbn in Hm. by rewrite Hf.
Qed.

Lemma makes_afterE {A B} n (m : ST (Sup Trace) (result A)) (f : A -> ST (Sup Trace) (result B)) :
  does NoCreate m -> (forall a, makes n (f a)) -> makes n (bindE m f).
Proof.
  intros Hm Hf s. specialize (Hm s). apply NoCreate_created in Hm. unfold bindE.
  destruct (m s) as [[a|e] s1]; cbn in Hm; [rewrite <- Hm; apply Hf|by left].
Qed.

Lemma makes_thenE {A B} n (m : ST (Sup Trace) (result A)) (f : A -> ST (Sup Trace) (result B)) :
  makes n m -> (forall a, does NoCreate (f a)) -> makes n (bindE m f).
Proof.
  intros Hm Hf s. specialize (Hm s). unfold bindE.
  destruct (m s) as [[a|e] s1]; cbn in Hm; [|done]. specialize (Hf a s1).
  apply NoCreate_created in Hf. by rewrite Hf.
Qed.

Lemma createRun_makes svc slot : makes (Name svc, runID slot) (createRun svc slot).
Proof.
  unfold createRun.
  apply makes_afterE; [by apply does_prepareMounts|intros mounts].
  apply makes_after; [by does_step|intros extra].
  apply makes_afterE; [by does_step|intros _].
  apply makes_afterE; [by does_step|intros _].
  apply makes_thenE.
  - intros s. right. unfold lift. cbn. rewrite created_app. cbn. by rewrite run_spec_run.
  - intros id. repeat does_step; done.
Qed.

Lemma startRun_makes svc slot b : makes (Name svc, runID slot) (startRun svc slot b).
Proof.
  unfold startRun. apply makes_after.
  { unfold runsOf. repeat does_step. by apply does_containers. }
  intros [live|e]; [|apply makes_none; repeat does_step; apply does_reportOnce].
  destruct (_ && _); [apply makes_none; unfold refuseRun; repeat does_step|].
  destruct (_ <=? _); [apply makes_none; unfold refuseRun; repeat does_step|].
  apply makes_then; [apply createRun_makes|].
  intros [id|e]; unfold run_started; repeat does_step; try apply does_startFollowing; apply does_reportOnce.
Qed.

(** The live runs the ceiling is compared with. *)
Definition live_runs (h : Trace) (name : string) : list Docker.Container :=
  match o_List o h labelService with
  | Ok l => filter (fun c => Docker.label labelService (Docker.c_Labels c) = name /\
                             Is_true (Docker.c_Running c)) l
  | Err _ => []
  end.

Lemma runsOf_cases name s r s1 :
  runsOf name s = (r, s1) ->
  now s1 = now s /\ timeline s1 = timeline s /\ created (world s1) = created (world s) /\
  match r with
  | Ok live => client s = true /\ length live = length (live_runs (world s) name) /\
               world s1 = world s ++ [CList labelService]
  | Err _ => client s = false \/ is_ok (o_List o (world s) labelService) = false
  end.
Proof.
  unfold runsOf, containers, bindE, mbind, ST_bind, gets. cbn.
  destruct (client s) eqn:Hc; cbn; [|intros [= <- <-]; auto].
  unfold lift, live_runs; cbn. destruct (o_List o (world s) labelService) as [l|e]; cbn;
    intros [= <- <-]; (split; [done|split; [done|split; [by apply NoCreate_created, extends_one|]]]); [|by right].
  split_and!; [done| |done]. by rewrite filter_fmap, length_fmap.
Qed.

Lemma refused_outcome name reason (s : Sup Trace) :
  refuseRun name reason s =
  (ErrRunRefused reason, add_record (Logs.MkRecord 0 (now s) name Logs.StreamEvent Logs.EventJobSkipped "" reason) s).
Proof. done. Qed.

(** Whether what is running leaves room for one more run. *)
Definition room (svc : Service) (h : Trace) : Prop :=
  Z.of_nat (length (live_runs h (Name svc))) < Parallel svc /\
  (Overlap svc = OverlapSkip -> live_runs h (Name svc) = []).

Lemma startRun_refusals svc slot b s live s1 :
  runsOf (Name svc) s = (Ok live, s1) -> ~ room svc (world s) ->
  exists reason, startRun svc slot b s =
    (Err (ErrRunRefused reason),
     add_record (Logs.MkRecord 0 (now s1) (Name svc) Logs.StreamEvent Logs.EventJobSkipped "" reason) s1).
Proof.
  intros E Hno. destruct (runsOf_cases _ _ _ _ E) as (_ & _ & _ & _ & Hl & _).
  unfold startRun. unfold mbind at 1, ST_bind at 1. rewrite E.
  destruct (String.eqb (Overlap svc) OverlapSkip && Nat.ltb 0 (length live)) eqn:Eo.
  { eexists. unfold mbind, ST_bind. by rewrite refused_outcome. }
  destruct (Parallel svc <=? Z.of_nat (length live)) eqn:Ep.
  { eexists. unfold mbind, ST_bind. by rewrite refused_outcome. }
  destruct Hno. unfold room. rewrite <- Hl. bool_hyps. split; [done|]. intros Hs.
  apply andb_false_iff in Eo as [Eo|Eo]; bool_hyps; [done|]. apply Nat.ltb_ge in Eo.
  apply nil_length_inv. lia.
Qed.

#[export] Instance room_dec svc h : Decision (room svc h).
Proof. unfold room. apply _. Defined.

Lemma startRun_unlisted svc slot b s e s1 :
  runsOf (Name svc) s = (Err e, s1) -> created (world (startRun svc slot b s).2) = created (world s).
Proof.
  intros E. destruct (runsOf_cases _ _ _ _ E) as (_ & _ & Hcr & _).
  unfold startRun. unfold mbind at 1, ST_bind at 1. rewrite E, <- Hcr.
  apply NoCreate_created.
  match goal with |- extends _ _ (world (?m s1).2) => assert (Hd : does NoCreate m) end.
  { repeat does_step. apply does_reportOnce. }
  apply Hd.
Qed.

(** C9: A run of a job is started only when the container runtime, asked at
    that moment, holds fewer live runs of it than max-parallel, and none at all
    when the declaration says overlap is to be skipped; a run there is no room
    for is refused with a reason, no call changes anything on the machine, and
    the same sentence enters the timeline. *)
Theorem run_ceiling svc slot b s r s' :
  startRun svc slot b s = (r, s') ->
  (created (world s') <> created (world s) -> client s = true /\ room svc (world s)) /\
  (client s = true -> is_ok (o_List o (world s) labelService) = true -> ~ room svc (world s) ->
   exists reason, r = Err (ErrRunRefused reason) /\ world s' = world s ++ [CList labelService] /\
     timeline s' = timeline s ++
       [Logs.MkRecord 0 (now s) (Name svc) Logs.StreamEvent Logs.EventJobSkipped "" reason]).
Proof.
  intros Hr. destruct (runsOf (Name svc) s) as [[live|e] s1] eqn:E;
    destruct (runsOf_cases _ _ _ _ E) as (Hn & Ht & Hcr & Hcase).
  - destruct Hcase as (Hc & _ & Hw). destruct (decide (room svc (world s))) as [Hroom|Hno]; [done|].
    destruct (startRun_refusals svc slot b s live s1 E Hno) as (reason & Hs).
    rewrite Hs in Hr. injection Hr as <- <-. split; [done|].
    intros _ _ _. exists reason. cbn. by rewrite Hn, Ht, Hw.
  - apply (startRun_unlisted svc slot b) in E. rewrite Hr in E. split; [done|].
    intros. destruct Hcase; congruence.
Qed.
End Runs.

Section Witness.
Import Samples.
#[local] Existing Instance no_log.

(** A machine on which one run of [tick] is still going. *)
Definition busy : Oracle := calm [container_of "hostd-tick-1" "id1" "tick" "1" true].
#[local] Instance rtbusy : Runtime Trace := trace_runtime busy.

Lemma run_ceiling_witness : exists reason,
  (startRun tick noon "a run was due" (quiet [tick] noon)).1 = Err (ErrRunRefused reason).
Proof.
  refine (match proj2 (run_ceiling busy tick noon "a run was due" (quiet [tick] noon) _ _
                         (surjective_pairing _)) eq_refl eq_refl _ with
          | ex_intro _ reason H => ex_intro _ reason (proj1 H) end).
  intros [_ Hskip]. specialize (Hskip eq_refl). vm_compute in Hskip. discriminate.
Defined.
End Witness.
