(* ===== verification/SlotProofs.v ===== *)
(** * SlotProofs: a job runs at most once in each slot of its schedule

    The looks at the clock are interleaved with everything else the supervisor
    does; the only assumption about the rest is that it leaves the memory of
    fired slots alone, which every other operation does. *)
From S2P Require Import Prelude GoText GoTime GoPath Service Runtime Supervisor Schedule TraceRuntime ScheduleProofs.
From Stdlib Require Import Ascii SpecFloat.
Open Scope string_scope.
Open Scope list_scope.
Open Scope Z_scope.
Open Scope hostd_scope.

(** The map is keyed by name, and a job's interval is a millisecond or more:
    what Adopt stores of what normalize accepts. *)
Definition Schedulable (m : gmap string Service) : Prop :=
  forall n svc, m !! n = Some svc -> Name svc = n /\ (IsJob svc = true -> Millisecond <= Interval svc).

Section Slots.
Context (o : Oracle) `{LogStore} `{MapOrder Service}.
#[local] Existing Instance rt.
#[local] Instance rtslot : Runtime Trace := trace_runtime o.

Lemma startRun_keeps_fired svc slot b : keeps (@fired Trace) (startRun svc slot b).
Proof. by apply startRun_keeps. Qed.
Lemma startRun_keeps_declared svc slot b : keeps (@declared Trace) (startRun svc slot b).
Proof. by apply startRun_keeps. Qed.

(** What one look at the clock may do to one job. *)
Inductive fired_once (at_ : Time) (svc : Service) (s s' : Sup Trace) : list (string * string) -> Prop :=
  | fired_not : (forall last : Time, fired s !! Name svc = Some last ->
                   exists last' : Time, fired s' !! Name svc = Some last' /\ last <= last') ->
                fired_once at_ svc s s' []
  | fired_slot (last : Time) : IsJob svc = true -> WantRunning svc = true -> 0 < Interval svc ->
                fired s !! Name svc = Some last -> last < slotOf at_ (Interval svc) ->
                fired s' !! Name svc = Some (slotOf at_ (Interval svc)) ->
                fired_once at_ svc s s' [(Name svc, runID (slotOf at_ (Interval svc)))].

Lemma fired_still at_ svc s s' : fired s' = fired s -> fired_once at_ svc s s' [].
Proof. intros E. apply fired_not. intros last Hl. exists last. rewrite E. split; [done|lia]. Qed.

Lemma fire_one_step at_ svc s s' u :
  fire_one at_ (Name svc, svc) s = (u, s') ->
  declared s' = declared s /\ (forall n, n <> Name svc -> fired s' !! n = fired s !! n) /\
  exists new, created (world s') = created (world s) ++ new /\ fired_once at_ svc s s' new.
Proof.
  assert (Hnone : s' = s -> declared s' = declared s /\
    (forall n, n <> Name svc -> fired s' !! n = fired s !! n) /\
    exists new, created (world s') = created (world s) ++ new /\ fired_once at_ svc s s' new).
  { intros ->. split_and!; [done|done|]. exists []. rewrite app_nil_r. auto using fired_still. }
  unfold fire_one. cbn [fst snd].
  destruct (negb (IsJob svc) || negb (WantRunning svc)) eqn:Ej; [intros [= _ <-]; auto|].
  destruct (Interval svc <=? 0) eqn:Ei; [intros [= _ <-]; auto|].
  bool_hyps. unfold gets, mbind, ST_bind.
  destruct (fired s !! Name svc) as [last|] eqn:Ef.
  2:{ intros [= _ <-]. cbn. split_and!; [done|intros n Hn; by rewrite lookup_insert_ne|].
      exists []. rewrite app_nil_r. split; [done|]. apply fired_not. intros l Hl. congruence. }
  destruct (After _ _) eqn:Ea; cbn [negb]; [|intros [= _ <-]; auto].
  unfold modify. set (s1 := set_fired _ s).
  pose proof (startRun_makes o svc (slotOf at_ (Interval svc)) "a run was due" s1) as Hm.
  pose proof (startRun_keeps_fired svc (slotOf at_ (Interval svc)) "a run was due" s1) as Hf.
  pose proof (startRun_keeps_declared svc (slotOf at_ (Interval svc)) "a run was due" s1) as Hd.
  destruct (startRun _ _ _ s1) as [r s2]. cbn in Hm, Hf, Hd. intros [= _ <-].
  split_and!; [done|intros n Hn; rewrite Hf; by rewrite lookup_insert_ne|].
  unfold After in Ea. apply Z.ltb_lt in Ea.
  assert (Hslot : fired s2 !! Name svc = Some (slotOf at_ (Interval svc)))
    by (rewrite Hf; apply lookup_insert_eq).
  destruct Hm as [Hm|Hm].
  - exists []. rewrite app_nil_r. split; [done|]. apply fired_not. intros l Hl.
    eexists. split; [exact Hslot|]. rewrite Ef in Hl. injection Hl as <-. lia.
  - eexists. split; [exact Hm|]. by eapply fired_slot.
Qed.

(** ** The invariant over a whole history *)

(** The runs the scheduler started, with the slots they stand for. *)
Definition SlotInv (m : gmap string Service) (f : gmap string Time) (runs : list (string * string)) : Prop :=
  NoDup runs /\
  forall n id, (n, id) ∈ runs -> exists svc slot (last : Time),
    m !! n = Some svc /\ IsJob svc = true /\ id = runID slot /\ slot mod Interval svc = 0 /\
    f !! n = Some last /\ slot <= last.

Lemma SlotInv_still m f f' runs :
  (forall n (last : Time), f !! n = Some last -> exists last' : Time, f' !! n = Some last' /\ last <= last') ->
  SlotInv m f runs -> SlotInv m f' runs.
Proof.
  intros Hle [Hnd Hr]. split; [done|]. intros n id Hin.
  destruct (Hr n id Hin) as (svc & slot & last & ? & ? & ? & ? & Hf & Hs).
  destruct (Hle _ _ Hf) as (last' & ? & ?). exists svc, slot, last'. split_and!; try done. lia.
Qed.

Lemma SlotInv_fire m f at_ svc (last : Time) runs :
  Schedulable m -> m !! Name svc = Some svc -> IsJob svc = true ->
  f !! Name svc = Some last -> last < slotOf at_ (Interval svc) -> SlotInv m f runs ->
  SlotInv m (<[Name svc := slotOf at_ (Interval svc)]> f)
    (runs ++ [(Name svc, runID (slotOf at_ (Interval svc)))]).
Proof.
  intros Hm Hsvc Hj Hf Hlt [Hnd Hr]. destruct (Hm _ _ Hsvc) as [_ Hi]. specialize (Hi Hj).
  assert (Hd : 0 < Interval svc) by (unfold Millisecond in Hi; lia).
  split.
  - apply NoDup_app. split_and!; [done| |apply NoDup_singleton].
    intros [n id] Hin [= -> ->]%list_elem_of_singleton.
    destruct (Hr _ _ Hin) as (svc' & slot & last' & Hs' & _ & Hid & Hmod & Hf' & Hle).
    rewrite Hsvc in Hs'. injection Hs' as <-. rewrite Hf in Hf'. injection Hf' as <-.
    unfold runID in Hid. apply itoa_inj_all in Hid.
    pose proof (multiples_apart (Interval svc) slot (slotOf at_ (Interval svc)) Hd Hmod
      (Truncate_mod _ _ Hd)) as Hap.
    pose proof (UnixMilli_lt slot (slotOf at_ (Interval svc))). lia.
  - intros n id [Hin|[= -> ->]%list_elem_of_singleton]%elem_of_app.
    + destruct (Hr _ _ Hin) as (svc' & slot & last' & ? & ? & ? & ? & Hf' & Hle).
      destruct (decide (n = Name svc)) as [->|Hne].
      * exists svc', slot, (slotOf at_ (Interval svc)). rewrite lookup_insert_eq.
        rewrite Hf in Hf'. injection Hf' as <-. split_and!; try done. lia.
      * exists svc', slot, last'. by rewrite lookup_insert_ne.
    + exists svc, (slotOf at_ (Interval svc)), (slotOf at_ (Interval svc)).
      rewrite lookup_insert_eq. split_and!; try done; by apply Truncate_mod.
Qed.

(** [runs] followed by what was created since. *)
Definition SlotInvS (s : Sup Trace) (runs : list (string * string)) : Prop :=
  Schedulable (declared s) /\ SlotInv (declared s) (fired s) runs.

Lemma fire_one_inv at_ svc s runs :
  SlotInvS s runs -> declared s !! Name svc = Some svc ->
  let s' := (fire_one at_ (Name svc, svc) s).2 in
  declared s' = declared s /\
  exists new, created (world s') = created (world s) ++ new /\ SlotInvS s' (runs ++ new).
Proof.
  intros [Hm Hinv] Hsvc. cbv zeta. destruct (fire_one at_ (Name svc, svc) s) as [u s'] eqn:E.
  destruct (fire_one_step _ _ _ _ _ E) as (Hd & Hother & new & Hc & Hf). cbn. split; [done|].
  exists new. split; [done|]. unfold SlotInvS. rewrite Hd. split; [done|].
  destruct Hf as [Hle|last Hj Hw Hi Hl Hlt Hs].
  - rewrite app_nil_r. eapply SlotInv_still; [|exact Hinv]. intros n last Hl.
    destruct (decide (n = Name svc)) as [->|Hne]; [by apply Hle|].
    exists last. rewrite Hother by done. split; [done|lia].
  - assert (Hmap : fired s' = <[Name svc := slotOf at_ (Interval svc)]> (fired s)).
    { apply map_eq. intros n. destruct (decide (n = Name svc)) as [->|Hne];
        [by rewrite lookup_insert_eq|rewrite lookup_insert_ne by done; by apply Hother]. }
    rewrite Hmap. by eapply SlotInv_fire.
Qed.

Lemma fire_all_inv at_ (l : list (string * Service)) s runs :
  SlotInvS s runs -> (forall n svc, (n, svc) ∈ l -> declared s !! n = Some svc) ->
  let s' := (for_each l (fire_one at_) s).2 in
  declared s' = declared s /\
  exists new, created (world s') = created (world s) ++ new /\ SlotInvS s' (runs ++ new).
Proof.
  revert s runs. induction l as [|[n svc] l IH]; intros s runs Hinv Hl; cbv zeta.
  { split; [done|]. exists []. by rewrite !app_nil_r. }
  assert (Hn : declared s !! n = Some svc) by (apply Hl; left).
  destruct (proj1 Hinv _ _ Hn) as [<- _].
  destruct (fire_one_inv at_ svc s runs Hinv Hn) as (Hd & new & Hc & Hinv').
  rewrite for_each_cons.
  destruct (fire_one at_ (Name svc, svc) s) as [u s1]. cbn in Hd, Hc, Hinv'.
  destruct (IH s1 (runs ++ new) Hinv') as (Hd2 & new2 & Hc2 & Hinv2).
  { intros n' svc' Hin. rewrite Hd. apply Hl. by right. }
  cbn [snd]. split; [by rewrite Hd2|]. exists (new ++ new2). by rewrite Hc2, Hc, !app_assoc.
Qed.

(** A history: looks at the clock, and between them anything that leaves the
    declarations and the memory of fired slots alone.  [runs] collects the runs
    the looks started. *)
Inductive history : Sup Trace * list (string * string) -> Sup Trace * list (string * string) -> Prop :=
  | look at_ s runs new :
      created (world (fireDue at_ s).2) = created (world s) ++ new ->
      history (s, runs) ((fireDue at_ s).2, runs ++ new)
  | elsewhere s s' runs :
      fired s' = fired s -> declared s' = declared s -> history (s, runs) (s', runs).

Lemma fireDue_inv at_ s runs :
  SlotInvS s runs ->
  exists new, created (world (fireDue at_ s).2) = created (world s) ++ new /\
              SlotInvS (fireDue at_ s).2 (runs ++ new).
Proof.
  intros Hinv. unfold fireDue, declarations, gets, mbind, ST_bind.
  destruct (client s); cbn [negb]; [|exists []; by rewrite !app_nil_r].
  apply (fire_all_inv at_ (range (declared s)) s runs Hinv). intros n svc. apply elem_of_range.
Qed.

Lemma history_inv a b : SlotInvS a.1 a.2 -> history a b -> SlotInvS b.1 b.2.
Proof.
  intros Hinv Hstep. destruct Hstep as [at_ s runs new Hc|s s' runs Hf Hd]; cbn [fst snd] in *.
  - destruct (fireDue_inv at_ s runs Hinv) as (new' & Hc' & Hinv').
    rewrite Hc' in Hc. by apply app_inv_head in Hc as ->.
  - unfold SlotInvS. by rewrite Hf, Hd.
Qed.

(** C4: However often the scheduler looks at the clock and whatever happens in
    between, it starts at most one run of a job for each slot of its interval;
    every run it starts stands for an aligned slot, and the memory of the last
    slot is never behind a run already started. *)
Theorem job_slots s s' runs :
  Schedulable (declared s) -> rtc history (s, []) (s', runs) ->
  NoDup runs /\
  forall n id, (n, id) ∈ runs -> exists svc slot (last : Time),
    declared s' !! n = Some svc /\ IsJob svc = true /\ id = runID slot /\
    slot mod Interval svc = 0 /\ fired s' !! n = Some last /\ slot <= last.
Proof.
  intros Hm Hr.
  refine (proj2 (rtc_invariant history (fun a => SlotInvS a.1 a.2) (s, []) (s', runs) history_inv _ Hr)).
  split; [exact Hm|]. split; [constructor|]. intros n id Hin. by apply elem_of_nil in Hin.
Qed.
End Slots.

Section Witness.
Import Samples.
#[local] Existing Instance no_log.
#[local] Instance rtw : Runtime Trace := trace_runtime (calm []).

Definition look_twice : Sup Trace :=
  (fireDue (noon + 2 * Second) (fireDue noon (quiet [tick] noon)).2).2.

(** Two looks two seconds apart start one run: the first only remembers. *)
Lemma job_slots_witness :
  created (world look_twice) = [("tick", "1700000002000")] /\ NoDup [("tick", "1700000002000")].
Proof.
  split; [vm_compute; reflexivity|].
  refine (proj1 (job_slots (calm []) (quiet [tick] noon) look_twice [("tick", "1700000002000")] _ _)).
  - intros n svc Hn. unfold quiet in Hn. cbn in Hn. apply lookup_singleton_Some in Hn as [<- <-].
    split; [reflexivity|]. intros _. vm_compute. discriminate.
  - eapply rtc_l; [apply (look _ noon _ [] []); vm_compute; reflexivity|].
    eapply rtc_l; [apply (look _ (noon + 2 * Second) _ [] [("tick", "1700000002000")]); vm_compute; reflexivity|].
    apply rtc_refl.
Defined.
End Witness.
