(* ===== verification/SupervisorProofs.v ===== *)
(** * SupervisorProofs: what a drift round may do, and what it must do

    Stated for an arbitrary [Oracle]: whatever the container runtime answers. *)
From S2P Require Import Prelude GoText GoTime GoPath Service Runtime Supervisor Schedule TraceRuntime ScheduleProofs.
From Stdlib Require Import Ascii SpecFloat.
Open Scope string_scope.
Open Scope list_scope.
Open Scope Z_scope.
Open Scope hostd_scope.

(** ** Problems are reported when they change *)
Section Reports.
Context {W : Type}.

(** [text] where it differs from the one before. *)
Fixpoint news (last : Msg) (texts : list Msg) : list Msg :=
  match texts with
  | [] => []
  | t :: rest => if decide (last = t) then news last rest else t :: news t rest
  end.

Lemma reports_from name texts (s : Sup W) last :
  default (Lit "") (reported s !! name) = last ->
  let s' := (for_each texts (reportOnce name) s).2 in
  timeline s' = timeline s ++
    ((fun t => Logs.MkRecord 0 (now s) name Logs.StreamEvent Logs.EventProblem "" t) <$> news last texts).
Proof.
  revert s last. induction texts as [|t texts IH]; intros s last Hl; cbv zeta.
  { cbn. by rewrite app_nil_r. }
  rewrite for_each_cons. cbn [news].
  assert (E : (reportOnce name t s).2 =
    (let s1 := set_reported (<[name := t]> (reported s)) s in
     if bool_decide (last = t) then s1
     else add_record (Logs.MkRecord 0 (now s) name Logs.StreamEvent Logs.EventProblem "" t) s1)).
  { unfold reportOnce, gets, modify, mbind, ST_bind. rewrite Hl. by case_bool_decide. }
  rewrite E. cbv zeta. case_bool_decide; rewrite (IH _ t) by (destruct s; cbn; by rewrite lookup_insert_eq).
  - rewrite decide_True by done. by subst.
  - rewrite decide_False by done. cbn. by rewrite <- app_assoc.
Qed.

(** A problem that repeats is written once: over any sequence of reports
    about one service, the timeline receives exactly the reports that differ
    from the one before them, in order. *)
Theorem reports_changes_only name texts (s : Sup W) :
  reported s !! name = None ->
  timeline (for_each texts (reportOnce name) s).2 =
  timeline s ++
    ((fun t => Logs.MkRecord 0 (now s) name Logs.StreamEvent Logs.EventProblem "" t) <$> news (Lit "") texts).
Proof. intros Hn. apply reports_from. by rewrite Hn. Qed.
End Reports.

(** ** What a drift round may call *)
Section Drift.
Context (o : Oracle) `{LogStore} `{MapOrder Service}.
#[local] Existing Instance rt.
#[local] Instance rtd : Runtime Trace := trace_runtime o.

(** A container that stands for the service [n]: one without a run label. *)
Definition stands_for (l : list Docker.Container) (n : string) (c : Docker.Container) : Prop :=
  c ∈ l /\ Docker.label labelRun (Docker.c_Labels c) = "" /\
  Docker.label labelService (Docker.c_Labels c) = n.

(** A declaration that asks for a container the machine does not have. *)
Definition missing (m : gmap string Service) (l : list Docker.Container) (n : string) (svc : Service) : Prop :=
  m !! n = Some svc /\ IsJob svc = false /\ WantRunning svc = true /\ forall c, ~ stands_for l n c.

(** A job that still has a container of its own. *)
Definition stray (m : gmap string Service) (l : list Docker.Container) (n : string) (svc : Service) : Prop :=
  m !! n = Some svc /\ IsJob svc = true /\ exists c, stands_for l n c.

(** The calls a round may make, given the declarations and the listing it
    started from, and the calls already made. *)
Inductive drift_call (m : gmap string Service) (l : list Docker.Container) (h : Trace) : Call -> Prop :=
  | drift_list : drift_call m l h (CList labelService)
  | drift_inspect ref : drift_call m l h (CInspect ref)
  | drift_volume n labels : drift_call m l h (CEnsureVolume n labels)
  | drift_network : drift_call m l h (CEnsureNetwork Network)
  | drift_image n : drift_call m l h (CImage n)
  | drift_policy c n svc : stands_for l n c -> m !! n = Some svc -> IsJob svc = false ->
      drift_call m l h (CUpdateRestart (Docker.c_ID c) (restartPolicy svc))
  | drift_reap c : c ∈ l -> Docker.label labelRun (Docker.c_Labels c) <> "" ->
      Docker.c_Running c = false -> drift_call m l h (CRemove (Docker.c_ID c))
  | drift_retire_stop n svc : stray m l n svc ->
      drift_call m l h (CStop (containerName (Name svc)) (StopGrace svc))
  | drift_retire n svc : stray m l n svc -> drift_call m l h (CRemove (containerName (Name svc)))
  | drift_clear n svc : missing m l n svc -> drift_call m l h (CRemove (containerName (Name svc)))
  | drift_create n svc ports mounts answer : missing m l n svc ->
      drift_call m l h (CCreate (service_spec svc ports mounts) answer)
  | drift_start id spec h' : h = h' ++ [CCreate spec (Ok id)] -> drift_call m l h (CStart id)
  | drift_undo id spec h' : h = h' ++ [CCreate spec (Ok id); CStart id] -> drift_call m l h (CRemove id).
#[local] Hint Constructors drift_call : core.

(** The containers as the supervisor holds them. *)
Definition hold (c : Docker.Container) : held := MkHeld c (Docker.label labelService (Docker.c_Labels c)).

Lemma containers_answer s l :
  client s = true -> o_List o (world s) labelService = Ok l ->
  containers s = (Ok (hold <$> l), set_world (world s ++ [CList labelService]) s).
Proof.
  intros Hc Hl. unfold containers. rewrite ST_step. cbn [fst snd gets]. rewrite Hc. cbn [negb].
  unfold bindE, lift. cbn. by rewrite Hl.
Qed.

(** A created container is started, and removed again when that fails. *)
Lemma does_create_start (P : CallPred) spec (f : string -> ST (Sup Trace) (result unit)) :
  (forall h, P h (CCreate spec (o_Create o h spec))) ->
  (forall (h : Trace) id (s : Sup Trace), world s = h ++ [CCreate spec (Ok id)] -> extends P (world s) (world (f id s).2)) ->
  does P (bindE (lift (rt_Create spec)) f).
Proof.
  intros HC Hf s. specialize (HC (world s)). unfold bindE, lift. cbn.
  destruct (o_Create o (world s) spec) as [id|e]; cbn.
  - eapply extends_call; [exact HC|]. by apply (Hf (world s) id (set_world _ s)).
  - eapply extends_call; [exact HC|apply extends_refl].
Qed.

(** The calls of a creation, whoever asks for it. *)
Lemma does_create_calls (P : CallPred) svc start :
  (forall h n l, P h (CEnsureVolume n l)) -> (forall h, P h (CEnsureNetwork Network)) ->
  (forall h n, P h (CImage n)) -> (forall h, P h (CRemove (containerName (Name svc)))) ->
  (forall h ports mounts a, P h (CCreate (service_spec svc ports mounts) a)) ->
  (forall (h : Trace) spec id, P (h ++ [CCreate spec (Ok id)]) (CStart id)) ->
  (forall (h : Trace) spec id, P (h ++ [CCreate spec (Ok id); CStart id]) (CRemove id)) ->
  does P (create svc start).
Proof.
  intros HV HN HI HR HC HS HU. unfold create, image_for.
  apply does_bind; [by does_step|intros [|]]; [|apply does_ret]. cbn [negb].
  destruct (PublishedPorts svc) as [ports|e]; [|apply does_ret].
  apply does_bindE; [by apply does_prepareMounts|intros mounts].
  apply does_bind; [by does_step|intros extra].
  apply does_bindE; [does_step; apply HN|intros _].
  apply does_bindE; [repeat does_step; apply HI|intros image].
  apply does_bindE; [does_step; apply HR|intros _].
  apply does_create_start; [intros h; apply HC|].
  intros h id s Hw. destruct start; cbn [negb]; [|apply extends_refl].
  cbn. unfold mbind, ST_bind, lift. cbn.
  eapply extends_call; [rewrite Hw; apply HS|].
  destruct (o_Start o (world s) id) as [u|e]; cbn; [apply extends_refl|].
  apply extends_one. rewrite Hw, <- app_assoc. apply HU.
Qed.

Lemma does_create_missing m l n svc : missing m l n svc -> does (drift_call m l) (create svc true).
Proof. intros Hm. apply does_create_calls; eauto. Qed.

Lemma does_retire m l n svc : stray m l n svc -> does (drift_call m l) (retire svc).
Proof. intros Hs. unfold retire. repeat does_step; eauto. Qed.

Lemma does_converge m l n svc c :
  stands_for l n c -> m !! n = Some svc -> IsJob svc = false ->
  does (drift_call m l) (convergePolicy svc (MkHeld c n)).
Proof.
  intros. unfold convergePolicy. repeat does_step; cbn; eauto using does_reportOnce.
Qed.

Lemma does_adoptRuns m l : does (drift_call m l) (adoptRuns (hold <$> l)).
Proof.
  unfold adoptRuns. apply does_bind; [by does_step|intros [|]]; [|apply does_ret].
  apply does_for_each.
  intros h (c & -> & Hc)%list_elem_of_fmap. unfold adopt_run, hold. cbv zeta. cbn [h_Container h_Service].
  destruct (String.eqb _ "") eqn:Er; [apply does_ret|]. bool_hyps.
  does_step; [does_step|]. does_step; [repeat does_step|]. does_step; [apply does_ret|].
  destruct (Docker.c_Running c) eqn:Ec; repeat does_step; eauto.
Qed.

(** present_of keeps the containers that stand for something. *)
Lemma present_of_spec l n h :
  present_of (hold <$> l) !! n = Some h -> exists c, stands_for l n c /\ h = MkHeld c n.
Proof.
  unfold present_of.
  assert (Hg : forall (k : list Docker.Container) (acc : gmap string held),
    (forall n h, acc !! n = Some h -> exists c, stands_for l n c /\ h = MkHeld c n) ->
    (forall c, c ∈ k -> c ∈ l) ->
    forall n h, foldl (fun m h => if String.eqb (Docker.label labelRun (Docker.c_Labels (h_Container h))) ""
                    then <[h_Service h := h]> m else m) acc (hold <$> k) !! n = Some h ->
      exists c, stands_for l n c /\ h = MkHeld c n).
  { induction k as [|c k IH]; intros acc Hacc Hsub n' h'; [apply Hacc|]. rewrite fmap_cons. cbn [foldl].
    apply IH; [|intros; apply Hsub; by right]. intros n2 h2. cbn.
    destruct (String.eqb _ "") eqn:E; [|apply Hacc]. bool_hyps. intros [[<- <-]|[_ Hl]]%lookup_insert_Some.
    - exists c. split; [|done]. split_and!; [apply Hsub; left|done|done].
    - by apply Hacc. }
  apply Hg; [|done]. intros n' h' Hn. by rewrite lookup_empty in Hn.
Qed.

Lemma present_of_none l n c : stands_for l n c -> present_of (hold <$> l) !! n <> None.
Proof.
  unfold present_of. intros (Hin & Hr & Hs). revert Hin. generalize (∅ : gmap string held) as acc.
  assert (Hkeep : forall (k : list Docker.Container) (acc : gmap string held), is_Some (acc !! n) ->
    foldl (fun m h => if String.eqb (Docker.label labelRun (Docker.c_Labels (h_Container h))) ""
                    then <[h_Service h := h]> m else m) acc (hold <$> k) !! n <> None).
  { induction k as [|d k IH]; intros acc Ha; [destruct Ha as [x Hx]; cbn; congruence|]. rewrite fmap_cons. cbn [foldl].
    apply IH. destruct (String.eqb _ ""); [|done]. rewrite lookup_insert_is_Some'. by right. }
  induction l as [|d l IH]; intros acc Hin; [by apply elem_of_nil in Hin|].
  apply elem_of_cons in Hin as [->|Hin].
  - rewrite fmap_cons. cbn [foldl]. apply Hkeep. cbn. rewrite Hr, Hs. cbn. rewrite lookup_insert_eq. eauto.
  - rewrite fmap_cons. cbn [foldl]. by apply IH.
Qed.

(** The part of the round that looks at one declaration. *)
Lemma does_observe_one m l n svc :
  m !! n = Some svc -> does (drift_call m l) (observe_one (present_of (hold <$> l)) (n, svc)).
Proof.
  intros Hm. unfold observe_one.
  destruct (IsJob svc) eqn:Ej; destruct (present_of (hold <$> l) !! n) as [h|] eqn:Ep.
  - destruct (present_of_spec _ _ _ Ep) as (c & Hc & _). apply (does_retire m l n). split_and!; eauto.
  - apply does_ret.
  - destruct (present_of_spec _ _ _ Ep) as (c & Hc & ->). by apply does_converge.
  - destruct (WantRunning svc) eqn:Ew; [|apply does_ret]. cbn [negb].
    apply does_bind.
    + apply (does_create_missing m l n). split_and!; try done. intros c Hc. by eapply present_of_none.
    + intros [u|e]; [by does_step|apply does_reportOnce].
Qed.

(** The round after the listing. *)
Lemma observe_listed s l :
  client s = true -> o_List o (world s) labelService = Ok l ->
  exists s1 : Sup Trace, world s1 = world s ++ [CList labelService] /\ declared s1 = declared s /\
    observe s = (follow (hold <$> l) ;; adoptRuns (hold <$> l) ;;
                 m ← declarations; for_each (range m) (observe_one (present_of (hold <$> l)))) s1.
Proof.
  intros Hc Hl. exists (set_world (world s ++ [CList labelService]) s). split_and!; [done|done|].
  unfold observe. rewrite ST_step. cbn [fst snd gets]. rewrite Hc. cbn [negb].
  by rewrite ST_step, (containers_answer s l).
Qed.

Lemma follow_keeps_declared l : keeps (@declared Trace) (follow l).
Proof.
  unfold follow, follow_one, startFollowing. repeat keeps_step; by apply reportOnce_keeps.
Qed.

Lemma adoptRuns_keeps_declared l : keeps (@declared Trace) (adoptRuns l).
Proof. unfold adoptRuns, adopt_run. repeat keeps_step. Qed.

(** What a drift round calls, whatever the container runtime answers. *)
Lemma drift_round_calls s l :
  client s = true -> o_List o (world s) labelService = Ok l ->
  extends (drift_call (declared s) l) (world s) (world (observe s).2).
Proof.
  intros Hc Hl.
  destruct (observe_listed s l Hc Hl) as (s1 & Hw1 & Hd1 & ->).
  rewrite <- Hd1. eapply extends_call; [apply drift_list|]. rewrite <- Hw1.
  rewrite !ST_step. cbn [fst snd declarations gets].
  eapply extends_trans; [apply does_follow|].
  eapply extends_trans; [apply does_adoptRuns|].
  pose proof (follow_keeps_declared (hold <$> l) s1) as Hf.
  set (s2 := (follow (hold <$> l) s1).2) in *.
  pose proof (adoptRuns_keeps_declared (hold <$> l) s2) as Ha.
  set (s3 := (adoptRuns (hold <$> l) s2).2) in *.
  apply (does_for_each (drift_call (declared s1) l)). intros [n svc] Hin.
  apply elem_of_range in Hin. apply does_observe_one. congruence.
Qed.

(** *** Nothing wanted is passed over in silence *)

(** A created and started container of the service, or a problem on record. *)
Definition answered_for (n : string) (svc : Service) (s : Sup Trace) : Prop :=
  (exists ports mounts id, CCreate (service_spec svc ports mounts) (Ok id) ∈ world s /\ CStart id ∈ world s)
  \/ is_Some (reported s !! n).

Definition any_call : CallPred := fun _ _ => True.

Lemma does_any_in {A} (m : ST (Sup Trace) A) s c : does any_call m -> c ∈ world s -> c ∈ world (m s).2.
Proof.
  intros Hm Hc. destruct (extends_app _ _ _ (Hm s)) as [new ->]. apply elem_of_app. by left.
Qed.

Lemma create_started svc s s' :
  create svc true s = (Ok tt, s') ->
  exists ports mounts id, CCreate (service_spec svc ports mounts) (Ok id) ∈ world s' /\ CStart id ∈ world s'.
Proof.
  unfold create. rewrite ST_step. cbn [fst snd gets].
  destruct (client s); cbn [negb]; [|done].
  destruct (PublishedPorts svc) as [ports|e]; [|done].
  intros (mounts & s1 & _ & Hs)%bindE_ok. rewrite ST_step in Hs. revert Hs.
  generalize (configMount svc s1).1 as extra. intros extra.
  intros (u & s2 & _ & (image & s3 & _ & (u3 & s4 & _ & Hs)%bindE_ok)%bindE_ok)%bindE_ok.
  apply bindE_ok in Hs as (id & s5 & Hcr & Hs). cbn [negb] in Hs.
  unfold lift in Hcr. cbn in Hcr. injection Hcr as Hid <-.
  unfold mbind, ST_bind, lift in Hs. cbn in Hs.
  destruct (o_Start o _ id); [|done]. injection Hs as <-. cbn.
  exists ports, (mounts ++ extra), id. rewrite Hid. split; apply elem_of_app; [left|right; left].
  apply elem_of_app. right. left.
Qed.

Lemma observe_one_answers m l n svc s :
  missing m l n svc -> answered_for n svc (observe_one (present_of (hold <$> l)) (n, svc) s).2.
Proof.
  intros (_ & Hj & Hw & Hno). unfold observe_one. rewrite Hj, Hw. cbn [negb].
  destruct (present_of (hold <$> l) !! n) eqn:Ep.
  { destruct (present_of_spec _ _ _ Ep) as (c & Hc & _). by destruct (Hno c). }
  rewrite ST_step. destruct (create svc true s) as [[[]|e] s1] eqn:E; cbn [fst snd].
  - left. by apply create_started in E.
  - right. unfold reportOnce, gets, modify, mbind, ST_bind.
    case_bool_decide; cbn; rewrite lookup_insert_eq; eauto.
Qed.

Definition on_record (n : string) (s : Sup Trace) : Prop := is_Some (reported s !! n).

Lemma reportOnce_record n n' t : maintains (on_record n) (reportOnce n' t).
Proof.
  intros s Hs. unfold on_record, reportOnce, gets, modify, mbind, ST_bind.
  case_bool_decide; cbn; rewrite lookup_insert_is_Some'; by right.
Qed.

Lemma clearReport_record n n' : n' <> n -> maintains (on_record n) (clearReport n').
Proof. intros Hne s Hs. unfold on_record. cbn. by rewrite lookup_delete_ne. Qed.

Lemma lift_record {A} n (m : ST Trace A) : maintains (on_record n) (lift m).
Proof. intros s Hs. unfold lift. by destruct (m (world s)). Qed.

Lemma observe_one_record n n' svc p : n' <> n -> maintains (on_record n) (observe_one p (n', svc)).
Proof.
  intros Hne. unfold observe_one, retire, convergePolicy, create, image_for, prepareMounts, prepare_mount.
  maintain; try apply reportOnce_record; try by apply clearReport_record.
  all: try apply lift_record; by intros s.
Qed.

Lemma observe_one_any p ns : does any_call (observe_one p ns).
Proof.
  destruct ns as [n svc].
  unfold observe_one, retire, convergePolicy, create, image_for.
  repeat does_step; try done; try apply does_reportOnce; by apply does_prepareMounts.
Qed.

End Drift.

Section Witness.
Import Samples.
#[local] Existing Instance no_log.

(** [web] is declared and nothing runs. *)
Definition bare : Oracle := calm [].
#[local] Instance rtbare : Runtime Trace := trace_runtime bare.
Definition bare_web : Sup Trace := quiet [web] noon.

Lemma reports_changes_only_witness :
  Logs.r_Text <$> timeline (for_each [Lit "a"; Lit "a"; Lit "b"; Lit "a"] (reportOnce "web") bare_web).2 =
  [Lit "a"; Lit "b"; Lit "a"].
Proof. rewrite (reports_changes_only "web" _ bare_web); [vm_compute; reflexivity|reflexivity]. Defined.

Lemma web_missing : missing (declared bare_web) [] "web" web.
Proof.
  split; [vm_compute; reflexivity|]. split; [reflexivity|]. split; [reflexivity|].
  intros c (Hc & _). by apply elem_of_nil in Hc.
Qed.

End Witness.
