(* ===== verification/RunProofs.v ===== *)
(** * RunProofs: how long a run may take, who waits for it, and the names of what hostd makes *)
From S2P Require Import Prelude GoText GoTime GoPath Service ServiceProofs Runtime Supervisor Schedule TraceRuntime ScheduleProofs SupervisorProofs.
From Stdlib Require Import Ascii SpecFloat.
Open Scope string_scope.
Open Scope list_scope.
Open Scope Z_scope.
Open Scope hostd_scope.

(** ** The limit of a run *)

(** The moment a run is stopped does not depend on when a daemon began to
    watch it: whenever the timer is armed, it fires at the start of the
    container plus the limit, or at once when that has passed, and never later
    than a whole limit from now. *)
Theorem kill_deadline started t limit :
  0 <= limit -> started <= t -> t - started <= max_int64 ->
  t + killAfter started t limit = Z.max t (started + limit) /\
  0 <= killAfter started t limit <= limit.
Proof.
  intros Hl Hs Hb. unfold killAfter, Sub, min_int64, max_int64 in *. cbv zeta.
  destruct (Z.ltb_spec (limit - Z.max (- 2 ^ 63) (Z.min (2 ^ 63 - 1) (t - started))) 0); lia.
Qed.

Lemma kill_deadline_witness :
  let t := (Samples.noon + 90 * Minute)%Z in
  t + killAfter Samples.noon t (60 * Minute) = t /\ 0 <= killAfter Samples.noon t (60 * Minute) <= 60 * Minute.
Proof.
  exact (kill_deadline Samples.noon (Samples.noon + 90 * Minute) (60 * Minute) ltac:(vm_compute; discriminate)
           ltac:(vm_compute; discriminate) ltac:(vm_compute; discriminate)).
Defined.

(** ** One waiter for one run *)
Definition awaiter_ids (ts : list Task) : list string :=
  omap (fun t => match t with Awaiter _ _ id _ => Some id | _ => None end) ts.

(** Every run with a waiter is marked, and has one waiter. *)
Definition AwaitInv {W} (s : Sup W) : Prop :=
  NoDup (awaiter_ids (tasks s)) /\ forall id, id ∈ awaiter_ids (tasks s) -> id ∈ awaiting s.

Section Adoption.
Context {W : Type} `{Runtime W} `{LogStore}.

Lemma awaiter_ids_app a b : awaiter_ids (a ++ b) = awaiter_ids a ++ awaiter_ids b.
Proof. unfold awaiter_ids. by rewrite omap_app. Qed.

Lemma AwaitInv_add (s : Sup W) n run id t :
  AwaitInv s -> id ∉ awaiting s ->
  AwaitInv (add_task (Awaiter n run id t) (set_awaiting ({[id]} ∪ awaiting s) s)).
Proof.
  intros [Hnd Hin] Hid. unfold AwaitInv. cbn. rewrite awaiter_ids_app. cbn. split.
  - apply NoDup_app. split_and!; [done| |apply NoDup_singleton].
    intros x Hx Hy. apply list_elem_of_singleton in Hy as ->. by apply Hid, Hin.
  - intros x [Hx|Hx]%elem_of_app; [apply Hin in Hx; set_solver|].
    apply list_elem_of_singleton in Hx as ->. set_solver.
Qed.

Lemma adopt_run_await (h : held) : maintains (@AwaitInv W) (adopt_run h).
Proof.
  intros s Hs. unfold adopt_run. destruct (String.eqb _ ""); [done|].
  rewrite ST_step. cbn [fst snd gets]. case_bool_decide as Ha.
  { rewrite andb_false_r. done. }
  rewrite andb_true_r. destruct (Docker.c_Running (h_Container h)).
  - rewrite ST_step. cbn [fst snd modify]. rewrite ST_step. unfold lift.
    destruct (rt_Inspect _ _) as [r w]. cbn [fst snd]. rewrite ST_step. cbn [fst snd gets modify].
    by apply (AwaitInv_add (set_world w s)).
  - cbn. unfold mbind, ST_bind, lift. cbn. destruct (rt_Inspect _ _) as [[c|e] w]; cbn;
      (destruct (rt_Remove _ _) as [r2 w2]); exact Hs.
Qed.

(** However many drift rounds look at the same machine, a run gets one
    waiter: adopting keeps every waited-for run marked and waited for once. *)
Theorem adopt_one_waiter (listings : list (list held)) (s : Sup W) :
  AwaitInv s -> AwaitInv (for_each listings adoptRuns s).2.
Proof.
  intros Hs. apply (for_each_inv AwaitInv); [|done]. intros l s' _ Hs'. unfold adoptRuns.
  rewrite ST_step. cbn [fst snd gets]. destruct (client s'); [|done].
  apply (maintains_for_each AwaitInv); [|done]. intros h _. apply adopt_run_await.
Qed.
End Adoption.

(** *** The moment between starting a run and marking it

    startRun marks the run as waited for after the container has started, and
    the drift round runs on another goroutine: a round that lists the machine in
    between adopts the run, and the run then has two waiters. *)
Section Race.
Import Samples.
#[local] Existing Instance no_log.
#[local] Instance rtrace : Runtime Trace := trace_runtime (calm []).

Definition between : Sup Trace := (createRun tick noon (quiet [tick] noon)).2.
Definition seen_run : held :=
  MkHeld (container_of "hostd-tick-1700000000000" "hostd-tick-1700000000000" "tick" "1700000000000" true) "tick".

(** A drift round that lists the machine between the start of a run and
    its mark gives the run a second waiter, so its end is recorded twice. *)
Theorem run_awaited_twice :
  exists id, (createRun tick noon (quiet [tick] noon)).1 = Ok id /\
  awaiter_ids (tasks (run_started tick noon id (adoptRuns [seen_run] between).2).2) = [id; id].
Proof. eexists. split; vm_compute; reflexivity. Qed.

Lemma adopt_one_waiter_witness :
  AwaitInv (for_each [[seen_run]; [seen_run]] adoptRuns (quiet [tick] noon)).2 /\
  awaiter_ids (tasks (for_each [[seen_run]; [seen_run]] adoptRuns (quiet [tick] noon)).2) =
    ["hostd-tick-1700000000000"].
Proof.
  split; [|vm_compute; reflexivity]. apply (adopt_one_waiter [[seen_run]; [seen_run]] (quiet [tick] noon)).
  split; [constructor|]. intros id Hin. by apply elem_of_nil in Hin.
Defined.
End Race.

(** ** The names hostd gives to what it makes on the runtime *)
(** ** Containers *)
Lemma string_app_inj_l p s t : p +:+ s = p +:+ t -> s = t.
Proof. induction p as [|c p IH]; [done|]. intros [= E]. by apply IH. Qed.

(** The byte that ends a service name inside a run's name is the last dash. *)
Lemma runName_parts service slot :
  UnixMilli slot >= 0 ->
  cut_last (runName service slot) "-" = Some (containerName service, itoa (UnixMilli slot)).
Proof.
  intros Hs. unfold runName.
  change ("-" +:+ itoa (UnixMilli slot)) with (String "-" (itoa (UnixMilli slot))).
  apply cut_last_app. apply itoa_no_byte; [done|lia].
Qed.

(** From 1970 on, the containers of two different services never have the
    same name, and neither do two runs unless they are of the same service and
    of the same millisecond. *)
Theorem container_names_unique :
  (forall a b, containerName a = containerName b -> a = b) /\
  (forall a b t u, UnixMilli t >= 0 -> UnixMilli u >= 0 -> runName a t = runName b u ->
     a = b /\ UnixMilli t = UnixMilli u).
Proof.
  assert (Hc : forall a b, containerName a = containerName b -> a = b)
    by (intros a b; apply string_app_inj_l).
  split; [exact Hc|]. intros a b t u Ht Hu E.
  pose proof (runName_parts a t Ht) as Pa. pose proof (runName_parts b u Hu) as Pb.
  rewrite E, Pb in Pa.
  assert (E1 : containerName a = containerName b) by congruence.
  assert (E2 : itoa (UnixMilli t) = itoa (UnixMilli u)) by congruence.
  split; [by apply Hc|by apply itoa_inj_all].
Qed.

(** ** Volumes

    The name of a volume joins a service and a source with a dash, and both may
    hold dashes. *)
Definition web_db : Service := with_Name Samples.web "web-db".
Definition with_Volumes (s : Service) (v : list string) : Service :=
  MkService (Name s) (Args s) (Dir s) (Env s) (State s) (Restart s) (StopTimeout s) (Image s)
    (Ports s) v (Domain s) (UpstreamPort s) (Memory s) (CPUs s) (Every s) (Overlap s)
    (MaxParallel s) (RunTimeout s) (ConfigHash s).

(** Two well-formed services of different names may be given one and the
    same volume of the runtime. *)
Theorem volumes_shared :
  let a := with_Volumes web_db ["data:/data"] in
  let b := with_Volumes Samples.web ["db-data:/data"] in
  normalize a = Ok a /\ normalize b = Ok b /\ Name a <> Name b /\
  VolumeName (Name a) "data" = VolumeName (Name b) "db-data".
Proof. split_and!; [vm_compute; reflexivity..|done|reflexivity]. Qed.

(** ** The ceiling of a job *)
Definition half_job : Service :=
  MkService "sweep" [] "" [] StateRunning RestartNever f64_zero "worker:1" [] [] [] f64_zero
    f64_zero f64_zero "5m" OverlapAllow (f64_div (f64_of_Z 1) (f64_of_Z 2)) "" "".

Section Ceiling.
Context (o : Oracle) `{LogStore} `{MapOrder Service}.
#[local] Instance rtn : Runtime Trace := trace_runtime o.

(** A job declared with max-parallel 0.5 is accepted, its ceiling is zero,
    and no run of it is ever started, whatever the runtime answers. *)
Theorem half_parallel_never_runs :
  normalize half_job = Ok half_job /\ Parallel half_job = 0 /\
  forall slot why (s : Sup Trace), created (world (startRun half_job slot why s).2) = created (world s).
Proof.
  split; [vm_compute; reflexivity|]. assert (Hp : Parallel half_job = 0) by (vm_compute; reflexivity).
  split; [done|]. intros slot why s.
  destruct (runsOf (Name half_job) s) as [[live|e] s1] eqn:E.
  - destruct (startRun_refusals o half_job slot why s live s1 E) as (reason & Hs).
    { unfold room. rewrite Hp. lia. }
    apply (f_equal (fun x => created (world x.2))) in Hs. refine (eq_trans Hs _).
    by destruct (runsOf_cases o _ _ _ _ E) as (_ & _ & Hc & _).
  - by eapply startRun_unlisted.
Qed.
End Ceiling.
