(* ===== verification/PlanProofs.v ===== *)
(** * PlanProofs: a plan is exact, ordered, and an apply does what it says *)
From S2P Require Import Prelude GoText GoTime GoPath Service Runtime Supervisor Schedule Plan TraceRuntime ScheduleProofs SupervisorProofs.
From Stdlib Require Import Ascii SpecFloat.
Open Scope string_scope.
Open Scope list_scope.
Open Scope Z_scope.
Open Scope hostd_scope.

(** ** The plan, change by change *)

(** The change a plan must hold for a service, if any. *)
Definition wanted_change (live : gmap string bool) (known wanted : gmap string Service) (n : string)
    : option Change :=
  match known !! n, wanted !! n with
  | Some old, None => Some (MkChange n ActionRemove (removedDetail old) (default false (live !! n)) false)
  | Some old, Some new =>
      if sameDefinition old new then None
      else Some (MkChange n ActionUpdate (definitionDiff old new) false (default false (live !! n)))
  | None, Some new => Some (MkChange n ActionAdd (addedDetail new) false false)
  | None, None => None
  end.

Lemma wanted_change_service live known wanted n c : wanted_change live known wanted n = Some c -> ch_Service c = n.
Proof. unfold wanted_change. intros Hc. split_matches_in Hc; by simplify_eq. Qed.

Section Exact.
Context (live : gmap string bool) (known wanted : gmap string Service).

Lemma in_known c :
  c ∈ concat (known_change live wanted <$> map_to_list known) <->
  is_Some (known !! ch_Service c) /\ wanted_change live known wanted (ch_Service c) = Some c.
Proof.
  rewrite elem_of_concat. split.
  - intros (l & ([n old] & -> & Hin)%list_elem_of_fmap & Hc). apply elem_of_map_to_list in Hin.
    unfold known_change in Hc. unfold wanted_change.
    destruct (wanted !! n) as [new|] eqn:Ew; [destruct (sameDefinition old new) eqn:Es|];
      [by apply elem_of_nil in Hc|apply list_elem_of_singleton in Hc as ->; cbn..];
      rewrite Hin, Ew, ?Es; eauto.
  - intros [[old Ho] Hw]. eexists. split; [apply list_elem_of_fmap; exists (ch_Service c, old);
      split; [done|by apply elem_of_map_to_list]|].
    unfold known_change. unfold wanted_change in Hw. rewrite Ho in Hw.
    destruct (wanted !! ch_Service c) as [new|]; [destruct (sameDefinition old new)|]; [done|..];
      injection Hw as Hw; rewrite Hw; left.
Qed.

Lemma in_added c :
  c ∈ concat (added_change known <$> map_to_list wanted) <->
  known !! ch_Service c = None /\ wanted_change live known wanted (ch_Service c) = Some c.
Proof.
  rewrite elem_of_concat. split.
  - intros (l & ([n new] & -> & Hin)%list_elem_of_fmap & Hc). apply elem_of_map_to_list in Hin.
    unfold added_change in Hc. destruct (known !! n) eqn:Ek; [by apply elem_of_nil in Hc|].
    apply list_elem_of_singleton in Hc as ->. cbn. unfold wanted_change. by rewrite Ek, Hin.
  - intros [Hk Hw]. unfold wanted_change in Hw. rewrite Hk in Hw.
    destruct (wanted !! ch_Service c) as [new|] eqn:Ew; [|done].
    eexists. split; [apply list_elem_of_fmap; exists (ch_Service c, new);
      split; [done|by apply elem_of_map_to_list]|].
    unfold added_change. rewrite Hk. injection Hw as Hw. rewrite Hw. left.
Qed.

Lemma in_plan c :
  c ∈ plan_of live known wanted <-> wanted_change live known wanted (ch_Service c) = Some c.
Proof.
  unfold plan_of. rewrite merge_sort_Permutation, elem_of_app, in_known, in_added.
  destruct (known !! ch_Service c) eqn:E; [|naive_solver eauto].
  split; [tauto|]. intros Hc. left. eauto.
Qed.

(** The services of a list of per-declaration changes are names of the map. *)
Lemma NoDup_concat_changes (f : string * Service -> list Change) (m : gmap string Service) :
  (forall ns, ch_Service <$> f ns = [] \/ ch_Service <$> f ns = [ns.1]) ->
  NoDup (ch_Service <$> concat (f <$> map_to_list m)).
Proof.
  intros Hf. pose proof (NoDup_fst_map_to_list m) as Hnd. induction (map_to_list m) as [|ns l IH].
  { constructor. }
  rewrite fmap_cons in *. apply NoDup_cons in Hnd as [Hn Hnd]. cbn [concat].
  rewrite fmap_app. destruct (Hf ns) as [->| ->]; [by apply IH|]. cbn. apply NoDup_cons. split; [|by apply IH].
  intros (c & Ec & (k & (ns' & -> & Hin)%list_elem_of_fmap & Hc)%elem_of_concat)%list_elem_of_fmap.
  apply Hn. destruct (Hf ns') as [E|E]; apply (list_elem_of_fmap_2 ch_Service) in Hc; rewrite E in Hc.
  - by apply elem_of_nil in Hc.
  - apply list_elem_of_singleton in Hc. rewrite Ec, Hc. by apply list_elem_of_fmap_2.
Qed.

Lemma NoDup_plan : NoDup (ch_Service <$> plan_of live known wanted).
Proof.
  unfold plan_of. rewrite merge_sort_Permutation, fmap_app. apply NoDup_app. split_and!.
  - apply NoDup_concat_changes. intros [n old]. unfold known_change.
    destruct (wanted !! n); [destruct (sameDefinition _ _)|]; auto.
  - intros n (c & -> & Hc)%list_elem_of_fmap (c' & E & Hc')%list_elem_of_fmap.
    apply in_known in Hc as [Hk _]. apply in_added in Hc' as [Hk' _].
    rewrite E, Hk' in Hk. by destruct Hk.
  - apply NoDup_concat_changes. intros [n new]. unfold added_change. destruct (known !! n); auto.
Qed.

#[local] Instance change_le_total : Total change_le.
Proof.
  intros a b. unfold change_le. rewrite (String.eqb_sym (ch_Service b)).
  destruct (String.eqb _ _); apply (total String.le).
Qed.
#[local] Instance change_le_trans : Transitive change_le.
Proof.
  intros a b c. unfold change_le.
  destruct (String.eqb_spec (ch_Service a) (ch_Service b)) as [E1|E1],
    (String.eqb_spec (ch_Service b) (ch_Service c)) as [E2|E2].
  - rewrite E1, E2, String.eqb_refl. apply transitivity.
  - rewrite E1. destruct (String.eqb_spec (ch_Service b) (ch_Service c)); [done|]. done.
  - rewrite <- E2. destruct (String.eqb_spec (ch_Service a) (ch_Service b)); [done|]. done.
  - intros H1 H2. destruct (String.eqb_spec (ch_Service a) (ch_Service c)) as [E3|E3].
    + rewrite <- E3 in H2. by destruct (E1 (anti_symm String.le _ _ H1 H2)).
    + by transitivity (ch_Service b).
Qed.

(** C7: A plan holds, for each service, exactly the change its declaration
    calls for: the removal of what is no longer declared (destructive when its
    container runs), the update of what is declared differently, the addition
    of what is new, and nothing for what is the same; each service has at most
    one change and the changes are in order of name. *)
Theorem plan_exact :
  (forall c, c ∈ plan_of live known wanted <-> wanted_change live known wanted (ch_Service c) = Some c) /\
  NoDup (ch_Service <$> plan_of live known wanted) /\
  StronglySorted change_le (plan_of live known wanted).
Proof.
  split_and!; [exact in_plan|exact NoDup_plan|].
  apply Sorted_StronglySorted; [apply _|]. apply Sorted_merge_sort. apply _.
Qed.

(** A plan is empty exactly when the same services are declared and every
    one of them has the same definition. *)
Theorem plan_empty_iff :
  plan_of live known wanted = [] <->
  forall n, match known !! n, wanted !! n with
            | Some old, Some new => sameDefinition old new = true
            | None, None => True
            | _, _ => False
            end.
Proof.
  assert (Hw : forall n, wanted_change live known wanted n = None <->
    match known !! n, wanted !! n with
    | Some old, Some new => sameDefinition old new = true | None, None => True | _, _ => False end).
  { intros n. unfold wanted_change. destruct (known !! n), (wanted !! n); try done.
    by destruct (sameDefinition _ _). }
  setoid_rewrite <- Hw. split.
  - intros E n. destruct (wanted_change live known wanted n) as [c|] eqn:Ec; [|done].
    pose proof (wanted_change_service _ _ _ _ _ Ec) as Hs. rewrite <- Hs in Ec.
    apply in_plan in Ec. rewrite E in Ec. by apply elem_of_nil in Ec.
  - intros Hn. apply elem_of_nil_inv. intros c Hc%in_plan. by rewrite Hn in Hc.
Qed.
End Exact.

(** ** Carrying a plan out *)

Lemma foldl_insert_lookup (l : list Service) (m : gmap string Service) n :
  foldl (fun m svc => <[Name svc := svc]> m) m l !! n =
  match by_name l !! n with Some svc => Some svc | None => m !! n end.
Proof.
  unfold by_name. revert m. induction l as [|svc l IH] using rev_ind; intros m; cbn.
  { by rewrite lookup_empty. }
  rewrite !foldl_app. cbn. destruct (decide (Name svc = n)) as [<-|Hne].
  - by rewrite !lookup_insert_eq.
  - rewrite !lookup_insert_ne by done. apply IH.
Qed.

Lemma by_name_spec l n svc : by_name l !! n = Some svc -> Name svc = n /\ svc ∈ l.
Proof.
  unfold by_name. induction l as [|x l IH] using rev_ind; cbn.
  { intros E. by rewrite lookup_empty in E. }
  rewrite foldl_app. cbn. intros [[<- <-]|[_ E]]%lookup_insert_Some.
  - split; [done|]. apply elem_of_app. right. left.
  - apply IH in E as [? ?]. split; [done|]. apply elem_of_app. by left.
Qed.

Section Carry.
Context (o : Oracle) `{LogStore} `{MapOrder Service}.
#[local] Existing Instance rt.
#[local] Instance rtp : Runtime Trace := trace_runtime o.

(** The calls an apply may make for a plan: it reads, and everything that
    changes the machine names a service the plan changes. *)
Inductive apply_call (wanted : gmap string Service) (changes : list Change) (h : Trace) : Call -> Prop :=
  | apply_list : apply_call wanted changes h (CList labelService)
  | apply_inspect ref : apply_call wanted changes h (CInspect ref)
  | apply_volume n labels : apply_call wanted changes h (CEnsureVolume n labels)
  | apply_network : apply_call wanted changes h (CEnsureNetwork Network)
  | apply_image n : apply_call wanted changes h (CImage n)
  | apply_stop_removed c h0 observed g : c ∈ changes -> ch_Action c = ActionRemove ->
      o_Inspect o h0 (containerName (ch_Service c)) = Ok observed ->
      apply_call wanted changes h (CStop (Docker.c_ID observed) g)
  | apply_stop_job c svc g : c ∈ changes -> wanted !! ch_Service c = Some svc -> IsJob svc = true ->
      apply_call wanted changes h (CStop (containerName (ch_Service c)) g)
  | apply_clear c : c ∈ changes -> apply_call wanted changes h (CRemove (containerName (ch_Service c)))
  | apply_create c svc ports mounts answer : c ∈ changes -> wanted !! ch_Service c = Some svc ->
      IsJob svc = false ->
      apply_call wanted changes h (CCreate (service_spec svc ports mounts) answer)
  | apply_start id spec h' : h = h' ++ [CCreate spec (Ok id)] -> apply_call wanted changes h (CStart id)
  | apply_undo id spec h' : h = h' ++ [CCreate spec (Ok id); CStart id] ->
      apply_call wanted changes h (CRemove id).
#[local] Hint Constructors apply_call : core.

(** What follows an inspection knows the answer is the runtime's. *)
Lemma does_answer {A} (P : CallPred) r (f : result Docker.Container -> ST (Sup Trace) A) :
  (forall h, P h (CInspect r)) -> (forall a, (exists h0, o_Inspect o h0 r = a) -> does P (f a)) ->
  does P (lift (rt_Inspect r) ≫= f).
Proof.
  intros HI Hf s. rewrite ST_step. eapply extends_call; [apply HI|].
  apply (Hf (o_Inspect o (world s) r) (ex_intro _ (world s) eq_refl) (set_world _ s)).
Qed.

Lemma does_Stop_calls (P : CallPred) n :
  (forall h, P h (CList labelService)) -> (forall h r, P h (CInspect r)) ->
  (forall h h0 observed g, o_Inspect o h0 (containerName n) = Ok observed -> P h (CStop (Docker.c_ID observed) g)) ->
  does P (Stop n).
Proof.
  intros HL HI HS. unfold Stop. does_step; [by does_step|].
  apply does_bind; [repeat does_step; unfold heldBy; repeat does_step; by apply does_containers|].
  intros known. does_step; [apply does_ret|]. cbv zeta.
  apply does_bind; [by does_step|intros [|]]; [|apply does_ret]. cbn [negb].
  apply does_answer; [by intros h; apply HI|]. intros [observed|e] [h0 E]; [|apply does_ret].
  repeat does_step. by eapply HS.
Qed.

Lemma does_apply_change wanted changes c :
  c ∈ changes -> (ch_Action c <> ActionRemove -> is_Some (wanted !! ch_Service c)) ->
  (forall n svc, wanted !! n = Some svc -> Name svc = n) ->
  does (apply_call wanted changes) (apply_change wanted c).
Proof.
  intros Hc Hwanted Hname. unfold apply_change.
  destruct (String.eqb (ch_Action c) ActionRemove) eqn:Ea; bool_hyps.
  { does_step; [apply does_Stop_calls; eauto|].
    repeat does_step; eauto; by apply does_pure. }
  destruct (Hwanted Ea) as [svc Hs]. pose proof (Hname _ _ Hs) as Hn. rewrite Hs.
  change (default empty_service (Some svc)) with svc.
  destruct (bool_decide _); [|apply does_ret]. does_step; [by does_step|].
  destruct (IsJob svc) eqn:Ej.
  { unfold retire. repeat does_step; rewrite ?Hn; eauto. }
  does_step; [|repeat does_step].
  apply does_create_calls; rewrite ?Hn; eauto.
Qed.

Lemma plan_wanted live known wanted c :
  c ∈ plan_of live known wanted -> ch_Action c <> ActionRemove -> is_Some (wanted !! ch_Service c).
Proof.
  intros Hc Ha. apply in_plan in Hc. unfold wanted_change in Hc.
  destruct (known !! ch_Service c), (wanted !! ch_Service c); eauto; [|done].
  injection Hc as Hc. destruct Ha. by rewrite <- Hc.
Qed.

Lemma Plan_result l s :
  exists live, (Plan l s).1 = plan_of live (declared s) (by_name l) /\ declared (Plan l s).2 = declared s /\
    timeline (Plan l s).2 = timeline s /\ extends (fun _ c => c = CList labelService) (world s) (world (Plan l s).2).
Proof.
  assert (Hd : does (fun _ c => c = CList labelService) (Plan l)).
  { unfold Plan. does_step; [by apply does_containers|]. repeat does_step. }
  specialize (Hd s). unfold Plan in *. rewrite !ST_step in *. cbn [fst snd declarations gets mret ST_ret] in *.
  assert (E : declared (containers s).2 = declared s /\ timeline (containers s).2 = timeline s).
  { unfold containers. rewrite ST_step. cbn [fst snd gets]. destruct (client s); [|done]. cbn [negb].
    unfold bindE, lift. cbn. by destruct (o_List o (world s) labelService). }
  destruct E as [-> Et]. eexists. split_and!; [reflexivity|done|done|done].
Qed.

(** C8: An apply changes nothing about a service its plan leaves out: of the
    calls that change the machine, every stop, removal and creation is of a
    container of a service with a change in the plan it answers with, whatever
    the container runtime answers. *)
Theorem apply_touches_changes l s :
  extends (apply_call (by_name l) (Apply l s).1) (world s) (world (Apply l s).2).
Proof.
  unfold Apply. rewrite ST_step. destruct (Plan_result l s) as (live & E & _ & _ & Hext).
  set (s1 := (Plan l s).2) in *. rewrite E. clear E.
  set (changes := plan_of live (declared s) (by_name l)).
  assert (E1 : forall (s0 : Sup Trace), ((for_each changes (apply_change (by_name l));; store_declared l;;
    event Logs.EventApplied "hostd"
      ("applied configuration: %d change(s)", [AInt (Z.of_nat (length changes))]);; nudge;; mret changes) s0).1 = changes)
    by (intros s0; by rewrite !ST_step).
  rewrite E1. eapply extends_trans.
  - eapply extends_mono; [|exact Hext]. intros h c ->. constructor.
  - match goal with |- extends ?P _ (world (?m ?s0).2) => assert (Hd : does P m); [|exact (Hd s0)] end.
    apply does_bind; [|intros _; repeat does_step; by apply does_pure].
    apply does_for_each. intros c Hc. apply does_apply_change; [done| |].
    + by eapply plan_wanted.
    + intros n svc Hs. by apply by_name_spec in Hs as [? _].
Qed.
(** *** What the machine believes afterwards *)

Lemma create_keeps_declared svc b : keeps (@declared Trace) (create svc b).
Proof. unfold create, image_for, prepareMounts, prepare_mount. repeat keeps_step. Qed.
Lemma retire_keeps_declared svc : keeps (@declared Trace) (retire svc).
Proof. unfold retire. repeat keeps_step. Qed.
Lemma Stop_keeps_declared n : keeps (@declared Trace) (Stop n).
Proof. unfold Stop, heldBy, containers. cbv zeta. repeat keeps_step. Qed.

(** The timeline only grows. *)
Definition recorded (r : Logs.Record_) (s : Sup Trace) : Prop := r ∈ timeline s.

Lemma recorded_add r r' s : recorded r s -> recorded r (add_record r' s).
Proof. intros Hr. apply elem_of_app. by left. Qed.

Lemma recorded_lift {A} r (m : ST Trace A) : maintains (recorded r) (lift m).
Proof. intros s Hs. unfold lift. by destruct (m (world s)). Qed.

Lemma apply_change_recorded r wanted c : maintains (recorded r) (apply_change wanted c).
Proof.
  unfold apply_change, Stop, heldBy, containers, retire, create, image_for, prepareMounts, prepare_mount.
  cbv zeta. maintain; try apply recorded_lift; try intros ? ?; try assumption; by apply recorded_add.
Qed.

(** The declared map after one change, at a name the wanted list leaves out. *)
Lemma apply_change_declared wanted c s n :
  wanted !! n = None -> (ch_Action c <> ActionRemove -> is_Some (wanted !! ch_Service c)) ->
  declared (apply_change wanted c s).2 !! n = declared s !! n \/ declared (apply_change wanted c s).2 !! n = None.
Proof.
  intros Hn Hw. unfold apply_change. destruct (String.eqb (ch_Action c) ActionRemove) eqn:Ea; bool_hyps.
  - rewrite ST_step. pose proof (Stop_keeps_declared (ch_Service c) s) as Hk.
    destruct (Stop (ch_Service c) s) as [[b|e] s1]; cbn [fst snd] in *; [|left; by cbn; rewrite Hk].
    rewrite ST_step. cbn [fst snd gets]. rewrite ST_step.
    match goal with |- context [drop_declared _ ?s2] => assert (Hd : declared s2 = declared s) end.
    { rewrite <- Hk. destruct (client s1); [|done]. rewrite ST_step. cbn. done. }
    revert Hd. match goal with |- context [drop_declared _ ?s2] => generalize s2 end.
    intros s2 Hd. cbn. rewrite Hd. destruct (decide (ch_Service c = n)) as [->|Hne].
    + right. apply lookup_delete_eq.
    + left. by apply lookup_delete_ne.
  - destruct (bool_decide _); [|by left]. destruct (Hw Ea) as [svc Hs].
    assert (Hne : ch_Service c <> n) by (intros E; congruence).
    left. rewrite Hs. change (default empty_service (Some svc)) with svc.
    rewrite ST_step. cbn [fst snd modify]. set (s1 := set_declared _ s).
    assert (H1 : declared s1 !! n = declared s !! n) by (by apply lookup_insert_ne).
    rewrite <- H1. destruct (IsJob svc).
    + by rewrite (retire_keeps_declared svc s1).
    + rewrite ST_step. rewrite <- (create_keeps_declared svc (WantRunning svc) s1).
      by destruct (create svc _ s1) as [[u|e] s2].
Qed.

(** A removal that could not be carried out. *)
Definition not_removed (n : string) (s : Sup Trace) : Prop :=
  exists t why, recorded (Logs.MkRecord 0 t n Logs.StreamEvent Logs.EventProblem ""
    ("could not stop it to remove it: %v", [AMsg why])) s.

Lemma apply_change_not_removed n wanted c : maintains (not_removed n) (apply_change wanted c).
Proof. intros s (t & why & Hr). exists t, why. by apply apply_change_recorded. Qed.

Lemma removal_outcome wanted c s :
  ch_Action c = ActionRemove ->
  declared (apply_change wanted c s).2 !! ch_Service c = None \/ not_removed (ch_Service c) (apply_change wanted c s).2.
Proof.
  intros Ha. unfold apply_change. rewrite Ha. cbn [String.eqb]. rewrite String.eqb_refl. rewrite ST_step.
  destruct (Stop (ch_Service c) s) as [[b|e] s1]; cbn [fst snd].
  - left. rewrite ST_step. cbn [fst snd gets]. rewrite ST_step. cbn. apply lookup_delete_eq.
  - right. exists (now s1), (error_msg e). apply elem_of_app. right. left.
Qed.

Lemma Apply_declared l s :
  exists live, let changes := plan_of live (declared s) (by_name l) in
  exists s1, declared s1 = declared s /\ timeline s1 = timeline s /\
  let s2 := (for_each changes (apply_change (by_name l)) s1).2 in
  (forall n, declared (Apply l s).2 !! n =
     match by_name l !! n with Some svc => Some svc | None => declared s2 !! n end) /\
  (forall r, recorded r s2 -> recorded r (Apply l s).2).
Proof.
  destruct (Plan_result l s) as (live & E & Hd & Ht & _). exists live. cbv zeta.
  exists (Plan l s).2. split_and!; [done|done|..]; unfold Apply; rewrite ST_step, E, !ST_step; cbn.
  - intros n. by rewrite foldl_insert_lookup.
  - intros r Hr. by apply elem_of_app; left.
Qed.

(** After an apply, every service the files declare is believed exactly as
    declared; a service they do not declare is forgotten, unless it could not
    be stopped, in which case it is still known and the problem is in the
    timeline. *)
Theorem apply_believes l s n :
  match by_name l !! n with
  | Some svc => declared (Apply l s).2 !! n = Some svc
  | None => declared (Apply l s).2 !! n = None \/
            (declared (Apply l s).2 !! n = declared s !! n /\ not_removed n (Apply l s).2)
  end.
Proof.
  destruct (Apply_declared l s) as (live & s1 & Hd1 & Ht1 & Hdecl & Hrec).
  rewrite Hdecl. destruct (by_name l !! n) as [svc|] eqn:En; [done|].
  set (changes := plan_of live (declared s) (by_name l)) in *.
  set (s2 := (for_each changes (apply_change (by_name l)) s1).2) in *.
  assert (Hinv : declared s2 !! n = declared s !! n \/ declared s2 !! n = None).
  { apply (for_each_inv (fun s' => declared s' !! n = declared s !! n \/ declared s' !! n = None));
      [|by left; rewrite Hd1].
    intros c s' Hc Hs'. destruct (apply_change_declared (by_name l) c s' n En) as [E|E]; [|by rewrite E..|by right].
    by eapply plan_wanted. }
  destruct (declared s !! n) as [old|] eqn:Eo; [|left; by destruct Hinv].
  set (c := MkChange n ActionRemove (removedDetail old) (default false (live !! n)) false).
  assert (Hc : c ∈ changes). { apply in_plan. unfold wanted_change. cbn. by rewrite Eo, En. }
  assert (Hout : declared s2 !! n = None \/ not_removed n s2).
  { apply (for_each_establishes ch_Service (fun s' => declared s' !! n = None \/ not_removed n s')
      changes (apply_change (by_name l)) c s1); [apply NoDup_plan|exact Hc| |].
    - intros s'. by apply (removal_outcome (by_name l) c s').
    - intros c' s' Hc' _ [Hs'|Hs'].
      + destruct (apply_change_declared (by_name l) c' s' n En) as [E|E];
          [by eapply plan_wanted|left; by rewrite E|by left].
      + right. by apply apply_change_not_removed. }
  destruct Hout as [?|(t & why & Hr)]; [by left|].
  destruct Hinv as [Hinv|Hinv]; [right|by left]. split; [by rewrite Hinv|].
  exists t, why. by apply Hrec.
Qed.
End Carry.

(** ** Where the plan misses a running service

    The listing holds the runs of jobs and the containers of backups beside the
    containers of services, under the same service label, and the map of what is
    live keeps the last one listed.  The drift round leaves containers with a
    run label out; the plan does not. *)
Section Blind.
Import Samples.
#[local] Existing Instance no_log.

Definition web_and_backup : list Docker.Container :=
  [container_of "hostd-web" "id1" "web" "" true; container_of "hostd-web-17" "id2" "web" "17" false].
#[local] Instance rtblind : Runtime Trace := trace_runtime (calm web_and_backup).

(** A service whose container is running, with the ended container of a
    backup listed after it, is removed by a plan that is not marked
    destructive: the drift round sees the service, the plan does not. *)
Theorem plan_misses_live_removal :
  HasDestructive (Plan [] (quiet [web] noon)).1 = false /\
  (ch_Action <$> (Plan [] (quiet [web] noon)).1) = [ActionRemove] /\
  h_Container <$> (present_of (hold <$> web_and_backup) !! "web") =
    Some (container_of "hostd-web" "id1" "web" "" true).
Proof. split_and!; vm_compute; reflexivity. Qed.
End Blind.

(** ** Status *)
Section StatusProofs.
Context (o : Oracle) `{LogStore} `{MapOrder Service}.
#[local] Existing Instance rt.
#[local] Instance rts : Runtime Trace := trace_runtime o.

Lemma map_ST_names {A} (f : A -> ST (Sup Trace) (result Status)) (name : A -> string) l s :
  (forall x s, x ∈ l -> exists st, (f x s).1 = Ok st /\ st_Name st = name x) ->
  exists sts, (map_ST l f s).1 = Ok sts /\ st_Name <$> sts = name <$> l.
Proof.
  revert s. induction l as [|x l IH]; intros s Hf; [by exists []|].
  cbn [map_ST]. unfold bindE at 1. destruct (Hf x s) as (st & E & Hn); [left|].
  destruct (f x s) as [r s1]. cbn in E. subst r. cbn.
  destruct (IH s1) as (sts & E & Hns); [intros y s' Hy; apply Hf; by right|].
  unfold bindE. destruct (map_ST l f s1) as [r s2]. cbn in E. subst r. cbn.
  exists (st :: sts). by rewrite fmap_cons, Hn, Hns.
Qed.

Lemma describe_name st svc c s : st_Name (describe st svc c s).1 = st_Name st.
Proof.
  unfold describe. rewrite ST_step. cbn [fst snd gets]. destruct (client s); [|done]. cbn [negb].
  rewrite ST_step. cbn. by destruct (o_Inspect o _ _).
Qed.

Lemma declared_status_name found problem n svc s :
  exists st, (declared_status found problem (n, svc) s).1 = Ok st /\ st_Name st = n.
Proof.
  unfold declared_status. rewrite ST_step.
  assert (E : st_Name ((match running_map found !! n with
    | Some container => describe (base_status n svc (default (Lit "") problem)) svc container
    | None => mret (base_status n svc (default (Lit "") problem)) end) s).1 = n).
  { destruct (running_map found !! n); [apply describe_name|done]. }
  eexists. split; [reflexivity|]. destruct (IsJob svc); [exact E|].
  destruct (running_map found !! n); [exact E|]. by destruct (_ && _).
Qed.

#[local] Instance status_le_total : Total status_le.
Proof. intros a b. apply (total String.le). Qed.
#[local] Instance status_le_trans : Transitive status_le.
Proof. intros a b c. apply (transitivity (R := String.le)). Qed.

Lemma NoDup_fst_filter {A} (P : string * A -> Prop) `{forall x, Decision (P x)} (m : gmap string A) :
  NoDup (filter P (map_to_list m)).*1.
Proof.
  pose proof (NoDup_fst_map_to_list m) as Hnd. eapply sublist_NoDup; [exact Hnd|].
  apply fmap_sublist, sublist_filter.
Qed.

(** What the listing showed a status. *)
Definition status_listing (s : Sup Trace) : list held :=
  match (containers s).1 with Ok found => found | Err _ => [] end.

(** The status of a machine names every declared service and every service
    a listed container belongs to, each exactly once and in order of name,
    whatever the container runtime answers. *)
Theorem status_complete s :
  let names := st_Name <$> (Status_ s).1 in
  NoDup names /\ StronglySorted status_le (Status_ s).1 /\
  forall n, n ∈ names <-> is_Some (declared s !! n) \/ is_Some (running_map (status_listing s) !! n).
Proof.
  unfold Status_, status_listing. rewrite !ST_step. cbn [fst snd declarations gets]. cbv zeta.
  destruct (containers s) as [r s1]. cbn [fst snd].
  assert (Hmain : forall found problem (s1 : Sup Trace),
    let l := ((a ← map_ST (map_to_list (declared s)) (declared_status found problem);
      b ← map_ST (filter (fun ns => declared s !! ns.1 = None) (map_to_list (running_map found))) orphan_status;
      mret (merge_sort status_le (oks a ++ oks b))) s1).1 in
    NoDup (st_Name <$> l) /\ StronglySorted status_le l /\
    forall n, n ∈ st_Name <$> l <-> is_Some (declared s !! n) \/ is_Some (running_map found !! n)).
  2:{ destruct r as [found|e]; apply Hmain. }
  clear. intros found problem s1. cbv zeta. rewrite !ST_step. cbn [fst snd mret ST_ret].
  destruct (map_ST_names (declared_status found problem) fst (map_to_list (declared s)) s1) as (a & Ea & Na).
  { intros [n svc] s' _. apply declared_status_name. }
  set (s2 := (map_ST (map_to_list (declared s)) (declared_status found problem) s1).2).
  destruct (map_ST_names orphan_status fst
    (filter (fun ns => declared s !! ns.1 = None) (map_to_list (running_map found))) s2) as (b & Eb & Nb).
  { intros [n h] s' _. unfold orphan_status. rewrite ST_step. eexists. split; [reflexivity|].
    by rewrite describe_name. }
  rewrite Ea, Eb. cbn [oks].
  split_and!.
  - rewrite merge_sort_Permutation, fmap_app, Na, Nb. apply NoDup_app.
    split_and!; [apply NoDup_fst_map_to_list| |apply NoDup_fst_filter].
    intros n ([n1 svc] & -> & H1)%list_elem_of_fmap ([n2 h] & E & H2)%list_elem_of_fmap.
    cbn in *. apply elem_of_map_to_list in H1. apply list_elem_of_filter in H2 as [H2 _]. cbn in *. congruence.
  - apply StronglySorted_merge_sort; apply _.
  - intros n. rewrite merge_sort_Permutation, fmap_app, Na, Nb, elem_of_app. split.
    + intros [([n1 svc] & -> & H1)%list_elem_of_fmap|([n1 h] & -> & H1)%list_elem_of_fmap].
      * apply elem_of_map_to_list in H1. left. eauto.
      * apply list_elem_of_filter in H1 as [_ H1]. apply elem_of_map_to_list in H1. right. eauto.
    + intros Hn. destruct (declared s !! n) as [svc|] eqn:Ed.
      * left. apply list_elem_of_fmap. exists (n, svc). split; [done|by apply elem_of_map_to_list].
      * destruct Hn as [[? ?]|[h Hh]]; [done|]. right. apply list_elem_of_fmap. exists (n, h).
        split; [done|]. apply list_elem_of_filter. split; [done|by apply elem_of_map_to_list].
Qed.
End StatusProofs.
