(* ===== verification/Images.v ===== *)
(** * Images: the marks of hostd, the prune policy and the versions of a service

    src/api/server.go (ManagedTag … imagesToPrune) and src/api/versions.go, and
    what a prune removes and keeps. *)
From S2P Require Import Prelude GoText GoTime GoPath Service Runtime.
From Stdlib Require Import Ascii SpecFloat.
Open Scope string_scope.
Open Scope list_scope.
Open Scope Z_scope.

Definition ManagedTagPrefix := "hostd-".

Definition ManagedTag (contentSHA256 : string) : string :=
  ManagedTagPrefix +:+ (if 12 <? len contentSHA256 then take_bytes 12 contentSHA256 else contentSHA256).

(** The repository half of an image reference. *)
Definition RepositoryOf (reference : string) : string :=
  match cut_last reference ":" with
  | None => reference
  | Some (before, after) => if contains_byte slash after then reference else before
  end.

(** The tag hostd stamped, and the repository it is stamped under. *)
Fixpoint managedTag (tags : list string) : option string :=
  match tags with
  | [] => None
  | tag :: rest =>
      match cut_last tag ":" with
      | Some (_, after) => if HasPrefix after ManagedTagPrefix then Some tag else managedTag rest
      | None => managedTag rest
      end
  end.

Definition markedRepository (tags : list string) : option string :=
  tag ← managedTag tags;
  '(before, _) ← cut_last tag ":";
  Some before.

Definition UsedByContainer := "container".
Definition UsedByDeclared := "declared".

(** What holds an image: by digest first, then by the first tag that is held. *)
Fixpoint held_tag (tags : list string) (holders : gmap string string) : string :=
  match tags with
  | [] => ""
  | tag :: rest => match holders !! tag with Some reason => reason | None => held_tag rest holders end
  end.

Definition heldBy (image : Docker.ImageSummary) (holders : gmap string string) : string :=
  match holders !! Docker.im_Digest image with
  | Some reason => reason
  | None => held_tag (Docker.im_Tags image) holders
  end.

Definition is_held (image : Docker.ImageSummary) (holders : gmap string string) : bool :=
  negb (String.eqb (heldBy image holders) "").

Definition DefaultImageKeep : Z := 3.

Record ImageChange := MkImageChange {
  ic_Digest : string;
  ic_Repository : string;
  ic_Tags : list string;
  ic_Bytes : float64;
  ic_Removed : bool;
  ic_Problem : Msg;
}.

(** Newest first, the digest breaking ties. *)
Definition newer (a b : Docker.ImageSummary) : Prop :=
  Docker.im_Created b < Docker.im_Created a \/
  Docker.im_Created a = Docker.im_Created b /\ String.le (Docker.im_Digest a) (Docker.im_Digest b).
#[export] Instance newer_dec a b : Decision (newer a b).
Proof. unfold newer. apply _. Defined.

(** The repositories something on the machine still names. *)
Definition declared_repositories (holders : gmap string string) : gset string :=
  list_to_set ((fun nb => RepositoryOf nb.1) <$>
    filter (fun nb => nb.2 = UsedByDeclared) (map_to_list holders)).

Definition held_repositories (held : list Docker.ImageSummary) (holders : gmap string string) : gset string :=
  list_to_set (omap (fun i => if is_held i holders then markedRepository (Docker.im_Tags i) else None) held).

Definition namedRepositories (held : list Docker.ImageSummary) (holders : gmap string string) : gset string :=
  declared_repositories holders ∪ held_repositories held holders.

(** lines[repo]: the marked images, by the repository of their mark. *)
Definition line_of (held : list Docker.ImageSummary) (repo : string) : list Docker.ImageSummary :=
  filter (fun i => markedRepository (Docker.im_Tags i) = Some repo) held.

Definition repositories (held : list Docker.ImageSummary) : gset string :=
  list_to_set (omap (fun i => markedRepository (Docker.im_Tags i)) held).

Definition change_of (repo : string) (image : Docker.ImageSummary) : ImageChange :=
  MkImageChange (Docker.im_Digest image) repo (Docker.im_Tags image)
    (f64_of_Z (Docker.im_Bytes image)) false (Lit "").

(** One line of versions, from position [at_] on. *)
Fixpoint prune_line (holders : gmap string string) (repo : string) (floor at_ : Z) (versions : list Docker.ImageSummary)
    : list ImageChange * Z :=
  match versions with
  | [] => ([], 0)
  | image :: rest =>
      let '(remove, kept) := prune_line holders repo floor (at_ + 1) rest in
      if (at_ <? floor) || is_held image holders then (remove, kept + 1)
      else (change_of repo image :: remove, kept)
  end.

Definition floor_of (named : gset string) (keep : Z) (repo : string) : Z :=
  if bool_decide (repo ∈ named) then keep else 0.

Fixpoint prune_lines (held : list Docker.ImageSummary) (holders : gmap string string) (keep : Z) (repos : list string)
    : list ImageChange * Z :=
  match repos with
  | [] => ([], 0)
  | repo :: rest =>
      let '(r1, k1) := prune_line holders repo (floor_of (namedRepositories held holders) keep repo) 0
                         (merge_sort newer (line_of held repo)) in
      let '(r2, k2) := prune_lines held holders keep rest in
      (r1 ++ r2, k1 + k2)
  end.

Definition imagesToPrune (held : list Docker.ImageSummary) (holders : gmap string string) (keep : Z)
    : list ImageChange * Z :=
  prune_lines held holders keep (sorted_keys (repositories held)).

(** ** Versions of a service *)
Definition digestAlgorithm := "sha256:".
Definition shortDigestLength : Z := 12.

Definition hex_byte (c : ascii) : bool := is_digit c || ((97 <=? code c) && (code c <=? 102)).
Fixpoint all_bytes (p : ascii -> bool) (s : string) : bool :=
  match s with "" => true | String c s' => p c && all_bytes p s' end.

Definition isDigest (reference : string) : bool :=
  HasPrefix reference digestAlgorithm ||
  (negb (len reference <? shortDigestLength) && all_bytes hex_byte reference).

Definition bareDigest (reference : string) : string := TrimPrefix reference digestAlgorithm.

Definition namesImage (declared : string) (image : Docker.ImageSummary) : bool :=
  if String.eqb declared "" then false
  else if bool_decide (declared ∈ Docker.im_Tags image) then true
  else if negb (isDigest declared) then false
  else HasPrefix (bareDigest (Docker.im_Digest image)) (bareDigest declared).

Definition refFor (image : Docker.ImageSummary) : string :=
  match managedTag (Docker.im_Tags image) with Some tag => tag | None => Docker.im_Digest image end.

Fixpoint repositoryFor (declared : string) (held : list Docker.ImageSummary) : string :=
  match held with
  | [] => if isDigest declared then "" else RepositoryOf declared
  | image :: rest =>
      if negb (namesImage declared image) then repositoryFor declared rest else
      match markedRepository (Docker.im_Tags image) with
      | Some repo => repo
      | None => match Docker.im_Tags image with t :: _ => RepositoryOf t | [] => "" end
      end
  end.

Definition inRepository (image : Docker.ImageSummary) (repository : string) : bool :=
  negb (String.eqb repository "") &&
  existsb (fun tag => String.eqb (RepositoryOf tag) repository) (Docker.im_Tags image).

Record ServiceVersion := MkServiceVersion {
  sv_Digest : string;
  sv_Ref : string;
  sv_Tags : list string;
  sv_Bytes : float64;
  sv_Created : Z;
  sv_Running : bool;
  sv_Declared : bool;
}.

Record ServiceVersions := MkServiceVersions {
  svs_Service : string;
  svs_Image : string;
  svs_Repository : string;
  svs_Versions : list ServiceVersion;
}.

Definition version_of (svc : Service) (repository running : string) (image : Docker.ImageSummary) : option ServiceVersion :=
  let isRunning := negb (String.eqb running "") && String.eqb (Docker.im_Digest image) running in
  let isDeclared := namesImage (Image svc) image in
  if negb (inRepository image repository) && negb isRunning && negb isDeclared then None
  else Some (MkServiceVersion (Docker.im_Digest image) (refFor image) (Docker.im_Tags image)
               (f64_of_Z (Docker.im_Bytes image)) (UnixMilli (Docker.im_Created image)) isRunning isDeclared).

Definition version_le (a b : ServiceVersion) : Prop :=
  sv_Created b < sv_Created a \/
  sv_Created a = sv_Created b /\ String.le (sv_Digest a) (sv_Digest b).
#[export] Instance version_le_dec a b : Decision (version_le a b).
Proof. unfold version_le. apply _. Defined.

Definition versionsOf (svc : Service) (held : list Docker.ImageSummary) (running : string) : ServiceVersions :=
  let repository := repositoryFor (Image svc) held in
  MkServiceVersions (Name svc) (Image svc) repository
    (merge_sort version_le (omap (version_of svc repository running) held)).

(** ** What a prune takes and what it leaves *)
(** ** One line of versions *)
Section Line.
Context (held : list Docker.ImageSummary) (holders : gmap string string) (keep : Z).

Definition free (i : Docker.ImageSummary) : Prop := heldBy i holders = "".
#[local] Instance free_dec i : Decision (free i).
Proof. unfold free. apply _. Defined.

Lemma is_held_free i : is_held i holders = false <-> free i.
Proof. unfold is_held, free. destruct (String.eqb_spec (heldBy i holders) ""); cbn; split; congruence. Qed.

Lemma prune_line_spec repo floor at_ versions :
  (prune_line holders repo floor at_ versions).1 =
    change_of repo <$> filter free (drop (Z.to_nat (floor - at_)) versions) /\
  (prune_line holders repo floor at_ versions).2 =
    Z.of_nat (length versions) - Z.of_nat (length (prune_line holders repo floor at_ versions).1).
Proof.
  revert at_. induction versions as [|image rest IH]; intros at_; [by rewrite drop_nil|].
  cbn [prune_line]. specialize (IH (at_ + 1)).
  destruct (prune_line holders repo floor (at_ + 1) rest) as [remove kept]. cbn in IH. destruct IH as [IH1 IH2].
  destruct (Z.ltb_spec at_ floor) as [Hlt|Hge]; cbn [orb].
  - replace (Z.to_nat (floor - at_)) with (S (Z.to_nat (floor - (at_ + 1)))) by lia.
    cbn [drop fst snd length]. split; [exact IH1|]. lia.
  - replace (Z.to_nat (floor - at_)) with 0%nat by lia.
    replace (Z.to_nat (floor - (at_ + 1))) with 0%nat in IH1 by lia. rewrite !drop_0 in *.
    rewrite filter_cons. destruct (is_held image holders) eqn:Eh; cbn [fst snd length].
    + rewrite decide_False by (rewrite <- is_held_free; congruence). split; [exact IH1|]. lia.
    + rewrite decide_True by (by apply is_held_free). cbn. rewrite <- IH1. split; [done|]. cbn. lia.
Qed.

(** The versions of a repository, newest first. *)
Definition versions_of_repo (repo : string) : list Docker.ImageSummary := merge_sort newer (line_of held repo).
Definition floor_at (repo : string) : nat :=
  Z.to_nat (floor_of (namedRepositories held holders) keep repo).

Lemma newer_total : Total newer.
Proof.
  intros a b. unfold newer.
  destruct (Z.lt_trichotomy (Docker.im_Created a) (Docker.im_Created b)) as [?|[E|?]]; [right; auto| |left; auto].
  destruct (total String.le (Docker.im_Digest a) (Docker.im_Digest b)); [left|right]; auto.
Qed.
#[local] Existing Instance newer_total.

#[local] Instance newer_trans : Transitive newer.
Proof.
  intros a b c. unfold newer. intros [?|[? ?]] [?|[? ?]]; [left; lia..|].
  right. split; [congruence|]. by transitivity (Docker.im_Digest b).
Qed.

Lemma versions_in repo i :
  i ∈ versions_of_repo repo <-> i ∈ held /\ markedRepository (Docker.im_Tags i) = Some repo.
Proof.
  unfold versions_of_repo, line_of. rewrite merge_sort_Permutation, list_elem_of_filter. tauto.
Qed.

Lemma versions_sorted repo : StronglySorted newer (versions_of_repo repo).
Proof. apply StronglySorted_merge_sort; apply _. Qed.

Lemma prune_lines_spec repos :
  (prune_lines held holders keep repos).1 =
    concat ((fun repo => change_of repo <$> filter free (drop (floor_at repo) (versions_of_repo repo))) <$> repos) /\
  (prune_lines held holders keep repos).2 + Z.of_nat (length (prune_lines held holders keep repos).1) =
    Z.of_nat (length (concat (versions_of_repo <$> repos))).
Proof.
  induction repos as [|repo rest [IH1 IH2]]; [done|]. cbn [prune_lines].
  destruct (prune_line_spec repo (floor_of (namedRepositories held holders) keep repo) 0
    (merge_sort newer (line_of held repo))) as [L1 L2].
  destruct (prune_line _ _ _ _ _) as [r1 k1]. destruct (prune_lines held holders keep rest) as [r2 k2].
  cbn in *. rewrite Z.sub_0_r in L1. split.
  - rewrite L1, IH1. done.
  - rewrite !length_app, !Nat2Z.inj_add. unfold versions_of_repo at 1. lia.
Qed.

Lemma sorted_keys_in repo : repo ∈ sorted_keys (repositories held) <->
  exists i, i ∈ held /\ markedRepository (Docker.im_Tags i) = Some repo.
Proof.
  unfold sorted_keys, repositories. rewrite merge_sort_Permutation, elem_of_elements, elem_of_list_to_set.
  rewrite list_elem_of_omap. naive_solver.
Qed.

Lemma in_prune c :
  c ∈ (imagesToPrune held holders keep).1 <->
  exists repo image, c = change_of repo image /\ free image /\
    image ∈ drop (floor_at repo) (versions_of_repo repo).
Proof.
  unfold imagesToPrune. rewrite (proj1 (prune_lines_spec _)), elem_of_concat. split.
  - intros (l & (repo & -> & Hr)%list_elem_of_fmap & (image & -> & Hi)%list_elem_of_fmap).
    apply list_elem_of_filter in Hi as [Hf Hi]. eauto.
  - intros (repo & image & -> & Hf & Hi). eexists. split.
    + apply list_elem_of_fmap. exists repo. split; [done|]. apply sorted_keys_in. exists image.
      apply versions_in. eapply elem_of_submseteq; [exact Hi|]. apply sublist_submseteq, sublist_drop.
    + apply list_elem_of_fmap. exists image. split; [done|]. by apply list_elem_of_filter.
Qed.

(** C10: A prune removes exactly the images hostd marked, that no container and
    no declaration is recorded as holding, and that come after the newest ones
    kept of their repository — none are kept for a repository nothing on the
    machine names; the marked images are either kept or removed. *)
Theorem prune_exact :
  (forall c, c ∈ (imagesToPrune held holders keep).1 <->
     exists repo image, c = change_of repo image /\ heldBy image holders = "" /\
       image ∈ drop (floor_at repo) (versions_of_repo repo)) /\
  (forall repo, StronglySorted newer (versions_of_repo repo) /\
     forall i, i ∈ versions_of_repo repo <-> i ∈ held /\ markedRepository (Docker.im_Tags i) = Some repo) /\
  (imagesToPrune held holders keep).2 + Z.of_nat (length (imagesToPrune held holders keep).1) =
    Z.of_nat (length (concat (versions_of_repo <$> sorted_keys (repositories held)))).
Proof.
  split; [exact in_prune|]. split; [|exact (proj2 (prune_lines_spec _))].
  intros repo. split; [apply versions_sorted|intros i; apply versions_in].
Qed.

(** Of a repository something on the machine still names, a prune leaves at
    least as many versions as it was told to keep, all of them newer than
    anything it removes of that repository. *)
Theorem prune_keeps_newest c :
  NoDup (Docker.im_Digest <$> held) -> c ∈ (imagesToPrune held holders keep).1 ->
  ic_Repository c ∈ namedRepositories held holders ->
  exists image stay, image ∈ held /\ c = change_of (ic_Repository c) image /\
    length stay = Z.to_nat keep /\ NoDup stay /\
    forall i, i ∈ stay -> i ∈ held /\ markedRepository (Docker.im_Tags i) = Some (ic_Repository c) /\
      newer i image /\
      forall c', c' ∈ (imagesToPrune held holders keep).1 -> ic_Digest c' <> Docker.im_Digest i.
Proof.
  intros Hnd (repo & image & -> & _ & Hi)%in_prune Hrepo. cbn in Hrepo |- *. exists image.
  assert (Hfl : floor_at repo = Z.to_nat keep)
    by (unfold floor_at, floor_of; by rewrite bool_decide_eq_true_2).
  rewrite Hfl in Hi. exists (take (Z.to_nat keep) (versions_of_repo repo)).
  split; [eapply versions_in, elem_of_submseteq; [exact Hi|apply sublist_submseteq, sublist_drop]|].
  split; [done|].
  assert (HndV : NoDup (versions_of_repo repo)).
  { unfold versions_of_repo. rewrite merge_sort_Permutation. apply NoDup_filter.
    by eapply NoDup_fmap_1. }
  rewrite <- (take_drop (Z.to_nat keep) (versions_of_repo repo)) in HndV.
  apply NoDup_app in HndV as (Ht & Hdis & _).
  split; [|split; [done|]].
  - apply length_take_le. apply list_elem_of_lookup in Hi as [k Hk].
    rewrite lookup_drop in Hk. apply lookup_lt_Some in Hk. lia.
  - intros i Hin. assert (Hiv : i ∈ versions_of_repo repo)
      by (eapply elem_of_submseteq; [exact Hin|]; apply sublist_submseteq, sublist_take).
    apply versions_in in Hiv as [Hih Him]. split; [done|]. split; [done|]. split.
    + pose proof (versions_sorted repo) as Hs.
      rewrite <- (take_drop (Z.to_nat keep) (versions_of_repo repo)) in Hs.
      by eapply StronglySorted_app_1_elem_of.
    + intros c (repo' & j & -> & _ & Hj)%in_prune E. cbn in E.
      assert (Hjv : j ∈ versions_of_repo repo')
        by (eapply elem_of_submseteq; [exact Hj|]; apply sublist_submseteq, sublist_drop).
      apply versions_in in Hjv as [Hjh Hjm].
      assert (j = i) as ->.
      { apply list_elem_of_lookup in Hjh as [a Ha], Hih as [b Hb].
        assert (a = b) as ->; [|congruence].
        eapply NoDup_lookup; [exact Hnd| |]; rewrite list_lookup_fmap, ?Ha, ?Hb; [done|cbn; congruence]. }
      assert (repo' = repo) as -> by congruence. rewrite Hfl in Hj. by apply (Hdis i).
Qed.
End Line.

(** ** Where the prune and the versions disagree *)

(** An image hostd stamped, and a service that names it by its short digest. *)
Definition stamped : Docker.ImageSummary :=
  Docker.MkImageSummary "sha256:0123456789abcdef" ["app:hostd-aa"] 1000 (of_unix_sec 1700000000).
Definition by_digest : Service :=
  MkService "app" [] "" [] StateRunning RestartAlways f64_zero "0123456789ab" [] [] [] f64_zero
    f64_zero f64_zero "" "" f64_zero "" "".

(** A declaration may name an image by a short digest, and the versions of
    the service then show the image as the declared one; the prune looks the
    digest up whole, so it takes that same image for held by nothing and
    removes it. *)
Theorem prune_takes_declared :
  normalize by_digest = Ok by_digest /\
  (sv_Declared <$> svs_Versions (versionsOf by_digest [stamped] "")) = [true] /\
  (ic_Digest <$> (imagesToPrune [stamped] {[Image by_digest := UsedByDeclared]} DefaultImageKeep).1) =
    [Docker.im_Digest stamped].
Proof. split_and!; vm_compute; reflexivity. Qed.

(** Three versions of an image under the keep of one. *)
Definition three : list Docker.ImageSummary :=
  [Docker.MkImageSummary "sha256:a" ["app:hostd-a"] 1 (of_unix_sec 1);
   Docker.MkImageSummary "sha256:b" ["app:hostd-b"; "app:latest"] 1 (of_unix_sec 3);
   Docker.MkImageSummary "sha256:c" ["app:hostd-c"] 1 (of_unix_sec 2)].

Definition oldest_kept_out : Docker.ImageSummary :=
  Docker.MkImageSummary "sha256:c" ["app:hostd-c"] 1 (of_unix_sec 2).

Lemma prune_keeps_newest_witness :
  (ic_Digest <$> (imagesToPrune three {["app:latest" := UsedByDeclared]} 1).1) = ["sha256:c"; "sha256:a"] /\
  exists (image : Docker.ImageSummary) (stay : list Docker.ImageSummary),
    image ∈ three /\ change_of "app" oldest_kept_out = change_of "app" image /\ length stay = 1%nat.
Proof.
  split; [vm_compute; reflexivity|].
  refine (match prune_keeps_newest three {["app:latest" := UsedByDeclared]} 1
    (change_of "app" oldest_kept_out) _ _ _ with
    | ex_intro _ image (ex_intro _ stay (conj a (conj b (conj c _)))) =>
        ex_intro _ image (ex_intro _ stay (conj a (conj b c))) end).
  - apply (bool_decide_unpack _). vm_compute. exact I.
  - apply in_prune. exists "app", oldest_kept_out. split_and!; [done|vm_compute; reflexivity|vm_compute; left].
  - apply (bool_decide_unpack _). vm_compute. exact I.
Defined.
