(* ===== verification/Protocol.v ===== *)
(** * Protocol: lines, chunks, and what is left in the pipe

    src/api/protocol.go.  What a connection still holds is the string of bytes
    not read yet; the end of the string is the end of the connection. *)
From S2P Require Import Prelude GoText GoTime Filo.
From Stdlib Require Import Ascii.
Open Scope string_scope.
Open Scope list_scope.
Open Scope Z_scope.

Definition maxRequestBytes : Z := 2 ^ 20.
Definition chunkSize : Z := 2 ^ 20.
Definition maxUploadBytes : Z := 8 * 2 ^ 30.

(** io.EOF and io.ErrUnexpectedEOF *)
Definition EOF : error := EMsg ("EOF", []).

(** ** Lines *)

(** The buffer of bufio.NewReader. *)
Definition bufferSize : Z := 4096.

Definition drop_cr (line : string) : string := TrimSuffix line (String carriage "").

(** r.ReadLine(): the chunk, whether the line goes on, and what is left.  A full
    buffer that ends with a carriage return gives it back. *)
Definition ReadLine (input : string) : result (string * bool) * string :=
  let '(before, after, found) := Cut input newline in
  if found && (len before <? bufferSize) then (Ok (drop_cr before, false), after)
  else if bufferSize <=? len input then
    let n := Z.to_nat bufferSize in
    let n := if HasSuffix (take_bytes n input) (String carriage "") then Nat.pred n else n in
    (Ok (take_bytes n input, true), drop_bytes n input)
  else if String.eqb input "" then (Err EOF, "")
  else (Ok (input, false), "").

(** Every chunk takes a byte at least, so the length of the input is fuel
    enough. *)
Fixpoint read_limited_go (fuel : nat) (input b : string) : result string * string :=
  match fuel with
  | O => (Err EOF, input)
  | S fuel' =>
      match ReadLine input with
      | (Err e, rest) => (Err e, rest)
      | (Ok (chunk, isPrefix), rest) =>
          if maxRequestBytes <? len b + len chunk
          then (Err (EMsg ("message exceeds %d bytes", [AInt maxRequestBytes])), rest)
          else if isPrefix : bool then read_limited_go fuel' rest (b +:+ chunk)
          else (Ok (b +:+ chunk), rest)
      end
  end.

Definition readLimitedLine (input : string) : result string * string :=
  read_limited_go (S (String.length input)) input "".

(** ** Chunks *)

(** One frame: the length on its own line, and the bytes. *)
Definition frame (p : string) : string := itoa (len p) +:+ String newline p.

(** WriteChunks: [reads] are the results of r.Read before the end, and [failed]
    says that the last one was an error rather than the end.  The writer does
    not fail. *)
Fixpoint WriteChunks (reads : list string) (failed : bool) : string :=
  match reads with
  | [] => if failed then "" else String "0" (String newline "")
  | p :: rest => if 0 <? len p then frame p +:+ WriteChunks rest failed else WriteChunks rest failed
  end.

(** What the chunks are copied into: what it holds, and how much more it takes
    before it fails, if it ever does. *)
Record Sink := MkSink { got : string; sink_room : option Z }.

Definition sink_write (p : string) (w : Sink) : bool * Sink :=
  match sink_room w with
  | None => (true, MkSink (got w +:+ p) None)
  | Some r =>
      if len p <=? r then (true, MkSink (got w +:+ p) (Some (r - len p)))
      else (false, MkSink (got w +:+ take_bytes (Z.to_nat r) p) (Some 0))
  end.

Section Chunks.
(** How many bytes one Read of the connection returns at most: between one and
    the 32 KiB of io.Copy. *)
Context (block : Z).

(** io.CopyN(w, r, size) *)
Fixpoint CopyN_go (fuel : nat) (size : Z) (input : string) (w : Sink) : result unit * string * Sink :=
  match fuel with
  | O => (Err EOF, input, w)
  | S fuel' =>
      if size <=? 0 then (Ok tt, input, w)
      else if String.eqb input "" then (Err EOF, input, w)
      else
        let n := Z.to_nat (Z.min block size) in
        let p := take_bytes n input in
        let rest := drop_bytes n input in
        let '(ok, w') := sink_write p w in
        if negb ok then (Err (EMsg ("short write", [])), rest, w')
        else CopyN_go fuel' (size - len p) rest w'
  end.
Definition CopyN (size : Z) (input : string) (w : Sink) : result unit * string * Sink :=
  CopyN_go (S (String.length input)) size input w.

(** ReadChunks, with the total so far. *)
Fixpoint read_chunks_go (fuel : nat) (total : Z) (input : string) (w : Sink)
    : Z * option error * string * Sink :=
  match fuel with
  | O => (total, Some EOF, input, w)
  | S fuel' =>
      match readLimitedLine input with
      | (Err e, rest) => (total, Some e, rest, w)
      | (Ok line, rest) =>
          match Atoi (TrimSpace line) with
          | None => (total, Some (EMsg ("expected the length of a chunk, got %q", [AStr line])), rest, w)
          | Some size =>
              if size =? 0 then (total, None, rest, w)
              else if (size <? 0) || (chunkSize <? size)
              then (total, Some (EMsg ("a chunk of %d bytes is not one this protocol sends", [AInt size])), rest, w)
              else
                let total := total + size in
                if maxUploadBytes <? total
                then (total, Some (EMsg ("the upload passed %d bytes", [AInt maxUploadBytes])), rest, w)
                else match CopyN size rest w with
                     | (Err e, rest, w) => (total, Some e, rest, w)
                     | (Ok _, rest, w) => read_chunks_go fuel' total rest w
                     end
          end
      end
  end.
Definition ReadChunks (input : string) (w : Sink) : Z * option error * string * Sink :=
  read_chunks_go (S (String.length input)) 0 input w.
End Chunks.

(** ** Messages *)
Section Messages.
Context `{FiloType A}.

(** WriteMessage: the bytes written, or nothing and the error. *)
Definition WriteMessage (v : A) : result string :=
  body ← Marshal v;
  let body := TrimRight body (String newline "") in
  if ContainsAny body (String newline (String carriage ""))
  then Err (EMsg ("api: encoded message contains a line break, which would split it in two", []))
  else Ok (body +:+ String newline "").

Definition ReadMessage (v : A) (input : string) : result A * string :=
  match readLimitedLine input with
  | (Err e, rest) => (Err e, rest)
  | (Ok line, rest) => (Decode "message" line v, rest)
  end.
End Messages.
