(* ===== verification/ProtocolProofs.v ===== *)
(** * ProtocolProofs: framing, ceilings and what is left in the pipe *)
From S2P Require Import Prelude GoText GoTime Service ServiceProofs Filo Protocol.
From Stdlib Require Import Ascii.
Open Scope string_scope.
Open Scope list_scope.
Open Scope Z_scope.

(** ** Lines *)
Section Lines.
Definition line_end (rest : string) : string := String newline rest.

(** A line that the reader gives back as it was written. *)
Definition Plain (l : string) : Prop :=
  contains_byte newline l = false /\ HasSuffix l (String carriage "") = false.

Lemma Plain_drop n l : Plain l -> Plain (drop_bytes n l).
Proof.
  intros [Hn Hc]. split; [by apply contains_byte_drop|]. apply HasSuffix_false. intros a E.
  rewrite HasSuffix_false in Hc. destruct (Hc (take_bytes n l +:+ a)).
  by rewrite string_app_assoc, <- E, take_drop_bytes.
Qed.

Lemma ReadLine_short l rest : Plain l -> len l < bufferSize -> ReadLine (l +:+ line_end rest) = (Ok (l, false), rest).
Proof.
  intros [Hn Hc] Hlen. unfold ReadLine, line_end. rewrite Cut_app by done.
  replace (len l <? bufferSize) with true by lia. cbn [andb].
  unfold drop_cr, TrimSuffix. by rewrite Hc.
Qed.

(** A chunk of a longer line: [n] bytes of it. *)
Lemma ReadLine_long l rest :
  Plain l -> bufferSize <= len l ->
  exists n, (0 < n <= String.length l)%nat /\
    ReadLine (l +:+ line_end rest) = (Ok (take_bytes n l, true), drop_bytes n l +:+ line_end rest).
Proof.
  intros [Hn Hc] Hlen. unfold ReadLine, line_end. rewrite Cut_app by done.
  replace (len l <? bufferSize) with false by lia. cbn [andb].
  rewrite len_app, (proj2 (Z.leb_le bufferSize (len l + len (String newline rest)))) by (unfold len in *; lia).
  assert (Hb : (Z.to_nat bufferSize <= String.length l)%nat) by (unfold len in Hlen; lia).
  rewrite (take_bytes_app (Z.to_nat bufferSize)) by done. unfold bufferSize in *.
  destruct (HasSuffix (take_bytes (Z.to_nat 4096) l) (String carriage "")).
  - exists (Nat.pred (Z.to_nat 4096)). split; [lia|].
    by rewrite take_bytes_app, drop_bytes_app by lia.
  - exists (Z.to_nat 4096). split; [lia|]. by rewrite take_bytes_app, drop_bytes_app by lia.
Qed.

Lemma read_limited_line fuel l b rest :
  (String.length l < fuel)%nat -> Plain l -> len b + len l <= maxRequestBytes ->
  read_limited_go fuel (l +:+ line_end rest) b = (Ok (b +:+ l), rest).
Proof.
  revert l b. induction fuel as [|fuel IH]; intros l b Hf Hp Hlen; [lia|]. cbn [read_limited_go].
  destruct (Z.lt_ge_cases (len l) bufferSize) as [Hs|Hs].
  - rewrite ReadLine_short by done. by replace (maxRequestBytes <? len b + len l) with false by lia.
  - destruct (ReadLine_long l rest Hp Hs) as (n & Hn & ->).
    assert (Hsplit : len l = len (take_bytes n l) + len (drop_bytes n l))
      by (by rewrite <- len_app, take_drop_bytes).
    assert (0 <= len (drop_bytes n l)) by (unfold len; lia).
    replace (maxRequestBytes <? len b + len (take_bytes n l)) with false by lia.
    rewrite IH.
    + by rewrite string_app_assoc, take_drop_bytes.
    + rewrite length_drop_bytes. lia.
    + by apply Plain_drop.
    + rewrite len_app. lia.
Qed.

Lemma readLimitedLine_line l rest :
  Plain l -> len l <= maxRequestBytes -> readLimitedLine (l +:+ line_end rest) = (Ok l, rest).
Proof.
  intros Hp Hlen. unfold readLimitedLine. rewrite read_limited_line; try done.
  rewrite app_string_length. cbn. lia.
Qed.

(** The line never passes the ceiling, and at least one byte is consumed. *)
Lemma ReadLine_rest input chunk more rest :
  ReadLine input = (Ok (chunk, more), rest) -> (String.length rest < String.length input)%nat.
Proof.
  unfold ReadLine. destruct (Cut input newline) as [[before after] found] eqn:E.
  destruct (found && (len before <? bufferSize)) eqn:E1.
  - intros [= <- <- <-]. bool_hyps. subst found.
    assert (Hi : input = before +:+ String newline after).
    { clear -E. revert before E. induction input as [|c s IH]; intros before; [done|]. cbn [Cut].
      destruct (Ascii.eqb_spec c newline) as [->|]; [by intros [= <- ->]|].
      destruct (Cut s newline) as [[b a] f]. intros [= <- -> ->].
      change (String c b +:+ ?t) with (String c (b +:+ t)). f_equal. by apply IH. }
    rewrite Hi, app_string_length. cbn. lia.
  - destruct (bufferSize <=? len input) eqn:E2.
    + intros [= _ _ <-]. rewrite length_drop_bytes. bool_hyps. unfold len, bufferSize in *.
      destruct (HasSuffix _ _); lia.
    + destruct (String.eqb_spec input ""); [done|]. intros [= _ _ <-]. destruct input; [done|]. cbn. lia.
Qed.

(** Whatever a client sends, a line that is read is never longer than the
    ceiling of a request, and reading it consumes at least one byte. *)
Theorem line_ceiling input line rest :
  readLimitedLine input = (Ok line, rest) ->
  len line <= maxRequestBytes /\ (String.length rest < String.length input)%nat.
Proof.
  unfold readLimitedLine.
  assert (Hg : forall fuel input b, read_limited_go fuel input b = (Ok line, rest) ->
    len line <= maxRequestBytes /\ (String.length rest < String.length input)%nat).
  2:{ apply Hg. }
  clear. induction fuel as [|fuel IH]; intros input b; [done|]. cbn [read_limited_go].
  destruct (ReadLine input) as [[[chunk more]|e] rest'] eqn:E; [|done].
  apply ReadLine_rest in E. destruct (maxRequestBytes <? len b + len chunk) eqn:El; [done|].
  destruct more; [intros H; apply IH in H; lia|]. intros [= <- <-]. rewrite len_app. lia.
Qed.
End Lines.

(** ** Lengths as they are written *)
Section Lengths.
Lemma itoa_go_length fuel z acc :
  (String.length (itoa_go fuel z acc) <= fuel + String.length acc)%nat.
Proof.
  revert z acc. induction fuel as [|fuel IH]; intros z acc; [done|]. cbn [itoa_go]. cbv zeta.
  destruct (z / 10 =? 0); [cbn; lia|]. specialize (IH (z / 10) (String (digit (z mod 10)) acc)). cbn in IH. lia.
Qed.

Lemma itoa_length z : 0 <= z <= chunkSize -> len (itoa z) <= 21.
Proof.
  intros Hz. unfold itoa. replace (z <? 0) with false by lia. unfold utoa, len.
  pose proof (itoa_go_length (S (Z.to_nat (Z.log2 z))) z "") as Hl. cbn [String.length] in Hl.
  assert (Z.log2 z <= 20); [|lia]. transitivity (Z.log2 chunkSize); [apply Z.log2_le_mono; lia|done].
Qed.

Lemma all_digits_bytes s i c : all_digits s = true -> String.get i s = Some c -> is_digit c = true.
Proof.
  revert i. induction s as [|x s IH]; intros [|i]; try done; cbn; intros H%andb_true_iff E; destruct H as [H1 H2].
  - congruence.
  - by apply (IH i).
Qed.

Lemma digits_valid s : all_digits s = true -> s <> "" -> len s <= 64 -> ValidName s = true.
Proof.
  intros Hd Hne Hl. apply valid_name_rule. split.
  - destruct s; [done|]. unfold len in *. cbn in *. lia.
  - intros i c Hc. left. unfold name_byte. rewrite (all_digits_bytes s i c Hd Hc). by rewrite ?orb_true_r.
Qed.

Lemma digits_plain s : all_digits s = true -> Plain s.
Proof.
  intros Hd. split; [by apply digits_no_byte|]. apply HasSuffix_false. intros a ->.
  assert (Hc : contains_byte carriage (a +:+ String carriage "") = false) by (by apply digits_no_byte).
  rewrite contains_byte_app in Hc. bool_hyps.
  match goal with H : contains_byte carriage (String carriage "") = false |- _ => vm_compute in H end. done.
Qed.

(** The length line of a frame is read back as the length. *)
Lemma length_line z :
  0 <= z <= chunkSize ->
  Plain (itoa z) /\ len (itoa z) <= maxRequestBytes /\ Atoi (TrimSpace (itoa z)) = Some z.
Proof.
  intros Hz. pose proof (itoa_length z Hz) as Hl.
  assert (Hd : all_digits (itoa z) = true) by (apply all_digits_itoa; lia).
  split; [by apply digits_plain|]. split; [unfold maxRequestBytes; lia|].
  assert (Hne : itoa z <> "").
  { intros E. assert (A : Atoi (itoa z) = Some z) by (apply Atoi_itoa; unfold chunkSize, max_int64 in *; lia).
    rewrite E in A. done. }
  rewrite TrimSpace_valid by (apply digits_valid; [done|done|lia]).
  apply Atoi_itoa. unfold chunkSize, max_int64 in *. lia.
Qed.
End Lengths.

(** ** Chunks *)
Section ChunkProofs.
Context (block : Z).
Hypothesis block_pos : 0 < block.

Fixpoint concat_bytes (l : list string) : string :=
  match l with [] => "" | p :: l' => p +:+ concat_bytes l' end.

Definition unlimited (acc : string) : Sink := MkSink acc None.

Lemma CopyN_ok fuel p rest acc :
  (String.length p < fuel)%nat ->
  CopyN_go block fuel (len p) (p +:+ rest) (unlimited acc) = (Ok tt, rest, unlimited (acc +:+ p)).
Proof.
  revert p acc. induction fuel as [|fuel IH]; intros p acc Hf; [lia|]. cbn [CopyN_go].
  destruct (len p <=? 0) eqn:E.
  { bool_hyps. destruct p; [by rewrite string_app_nil|]. unfold len in E. cbn in E. lia. }
  bool_hyps. assert (Hp : p <> "") by (intros ->; unfold len in E; cbn in E; lia).
  destruct (String.eqb_spec (p +:+ rest) "") as [E0|_]; [by destruct p|].
  set (n := Z.to_nat (Z.min block (len p))).
  assert (Hn : (0 < n <= String.length p)%nat) by (unfold n, len in *; lia).
  rewrite take_bytes_app, drop_bytes_app by lia. unfold sink_write, unlimited. cbn [sink_room got negb].
  assert (Hlen : len p - len (take_bytes n p) = len (drop_bytes n p))
    by (pose proof (len_app (take_bytes n p) (drop_bytes n p)) as L; rewrite take_drop_bytes in L; lia).
  rewrite Hlen. unfold unlimited in IH. rewrite IH by (rewrite length_drop_bytes; lia).
  by rewrite string_app_assoc, take_drop_bytes.
Qed.

(** One whole frame. *)
Lemma read_frame fuel total p rest acc :
  0 < len p <= chunkSize -> total + len p <= maxUploadBytes ->
  read_chunks_go block (S fuel) total (frame p +:+ rest) (unlimited acc) =
  read_chunks_go block fuel (total + len p) rest (unlimited (acc +:+ p)).
Proof.
  intros Hp Ht. cbn [read_chunks_go]. unfold frame.
  rewrite string_app_assoc. change (String newline p +:+ rest) with (line_end (p +:+ rest)).
  destruct (length_line (len p)) as (Hpl & Hl & Ha); [lia|].
  rewrite readLimitedLine_line, Ha by done.
  replace (len p =? 0) with false by lia. replace (len p <? 0) with false by lia.
  replace (chunkSize <? len p) with false by lia. cbn [orb].
  replace (maxUploadBytes <? total + len p) with false by lia.
  unfold CopyN. rewrite CopyN_ok; [done|]. rewrite app_string_length. lia.
Qed.

Lemma read_end fuel total rest w :
  read_chunks_go block (S fuel) total (String "0" (String newline rest)) w = (total, None, rest, w).
Proof.
  cbn [read_chunks_go]. change (String "0" (String newline rest)) with (itoa 0 +:+ line_end rest).
  destruct (length_line 0) as (Hpl & Hl & Ha); [done|]. by rewrite readLimitedLine_line, Ha by done.
Qed.

Lemma read_chunks_written reads fuel total rest acc :
  (String.length (WriteChunks reads false) <= fuel)%nat -> Forall (fun p => len p <= chunkSize) reads ->
  total + len (concat_bytes reads) <= maxUploadBytes ->
  read_chunks_go block fuel total (WriteChunks reads false +:+ rest) (unlimited acc) =
  (total + len (concat_bytes reads), None, rest, unlimited (acc +:+ concat_bytes reads)).
Proof.
  revert fuel total acc. induction reads as [|p reads IH]; intros fuel total acc Hf Hc Ht.
  - destruct fuel as [|fuel]; [cbn in Hf; lia|]. cbn [WriteChunks concat_bytes].
    change (String "0" (String newline "") +:+ rest) with (String "0" (String newline rest)).
    rewrite read_end. cbn. by rewrite string_app_nil, Z.add_0_r.
  - apply Forall_cons in Hc as [Hp Hc]. cbn [WriteChunks concat_bytes] in *. rewrite len_app in *.
    assert (0 <= len (concat_bytes reads)) by (unfold len; lia).
    destruct (0 <? len p) eqn:E; bool_hyps.
    + rewrite app_string_length in Hf. unfold frame in Hf at 1. rewrite app_string_length in Hf.
      cbn [String.length] in Hf.
      destruct fuel as [|fuel]; [lia|]. rewrite string_app_assoc, read_frame by lia.
      rewrite IH; [|lia|done|lia]. rewrite string_app_assoc. do 3 f_equal. lia.
    + assert (p = "") as -> by (destruct p; [done|unfold len in E; cbn in E; lia]).
      change (len "") with 0 in *. rewrite IH; [done|done|done|lia].
Qed.

(** What is written in chunks is read back: any bytes, handed over in any
    pieces a reader may return, arrive whole and in order, their number is
    reported, and whatever follows on the connection is left for the next
    reader. *)
Theorem chunks_roundtrip reads rest acc :
  Forall (fun p => len p <= chunkSize) reads -> len (concat_bytes reads) <= maxUploadBytes ->
  ReadChunks block (WriteChunks reads false +:+ rest) (unlimited acc) =
  (len (concat_bytes reads), None, rest, unlimited (acc +:+ concat_bytes reads)).
Proof.
  intros Hc Ht. unfold ReadChunks. rewrite read_chunks_written; [done| |done|lia].
  rewrite app_string_length. lia.
Qed.

(** *** The ceiling of an upload *)

Lemma sink_write_len p w ok w' : sink_write p w = (ok, w') ->
  len (got w) <= len (got w') <= len (got w) + len p.
Proof.
  unfold sink_write. intros E. assert (0 <= len p) by (unfold len; lia).
  destruct (sink_room w) as [r|]; [destruct (len p <=? r)|]; injection E as <- <-; cbn; rewrite len_app; try lia.
  unfold len. rewrite length_take_bytes. lia.
Qed.

Lemma CopyN_len fuel size input w e rest w' :
  CopyN_go block fuel size input w = (e, rest, w') ->
  len (got w) <= len (got w') <= len (got w) + Z.max 0 size.
Proof.
  revert size input w. induction fuel as [|fuel IH]; intros size input w; cbn [CopyN_go].
  { intros [= <- <- <-]. lia. }
  destruct (Z.leb_spec size 0); [intros [= <- <- <-]; lia|].
  destruct (String.eqb input ""); [intros [= <- <- <-]; lia|].
  set (p := take_bytes (Z.to_nat (Z.min block size)) input).
  assert (Hp : len p <= size) by (unfold p, len; rewrite length_take_bytes; lia).
  destruct (sink_write p w) as [ok w1] eqn:E. apply sink_write_len in E.
  destruct ok; cbn [negb]; [|intros [= <- <- <-]; lia].
  intros Hr. apply IH in Hr. lia.
Qed.

(** Whatever a client sends, and however the machine stores it, an upload
    never stores more bytes than the ceiling of an upload. *)
Theorem upload_ceiling input w total e rest w' :
  ReadChunks block input w = (total, e, rest, w') -> len (got w') <= len (got w) + maxUploadBytes.
Proof.
  unfold ReadChunks.
  assert (Hg : forall fuel t input w, t <= maxUploadBytes ->
    read_chunks_go block fuel t input w = (total, e, rest, w') ->
    len (got w') <= len (got w) + (maxUploadBytes - t)).
  2:{ intros H. apply Hg in H; lia || unfold maxUploadBytes; lia. }
  clear -block_pos. induction fuel as [|fuel IH]; intros t input w Ht; cbn [read_chunks_go].
  { intros [= <- <- <- <-]. lia. }
  destruct (readLimitedLine input) as [[line|e1] r1]; [|intros [= <- <- <- <-]; lia].
  destruct (Atoi (TrimSpace line)) as [size|]; [|intros [= <- <- <- <-]; lia].
  destruct (size =? 0); [intros [= <- <- <- <-]; lia|].
  destruct (_ || _) eqn:Eb; [intros [= <- <- <- <-]; lia|]. bool_hyps.
  destruct (Z.ltb_spec maxUploadBytes (t + size)); [intros [= <- <- <- <-]; lia|].
  destruct (CopyN block size r1 w) as [[[u|e2] r2] w2] eqn:E; apply CopyN_len in E.
  - intros H2. apply IH in H2; lia.
  - intros [= <- <- <- <-]. lia.
Qed.
(** *** A disk that fills up in the middle of an upload *)

Lemma CopyN_fails fuel a rest acc r size :
  len a = block -> block <= size -> 0 <= r < block ->
  exists e w, CopyN_go block (S fuel) size (a +:+ rest) (MkSink acc (Some r)) = (Err e, rest, w).
Proof.
  intros Ha Hs Hr. cbn [CopyN_go]. replace (size <=? 0) with false by lia.
  destruct (String.eqb_spec (a +:+ rest) "") as [E|_].
  { destruct a; [unfold len in Ha; cbn in Ha; lia|done]. }
  replace (Z.to_nat (Z.min block size)) with (String.length a) by (unfold len in Ha; lia).
  rewrite take_bytes_all, drop_bytes_all. unfold sink_write. cbn [sink_room].
  replace (len a <=? r) with false by lia. cbn [negb]. eauto.
Qed.

(** An upload whose file cannot be written to the end is answered with an
    error and leaves the rest of the file in the pipe: the next line the
    connection reads as a request is a line of the file itself. *)
Theorem upload_desync a line rest_of_file after r :
  len a = block -> Plain line -> len line <= maxRequestBytes -> 0 <= r < block ->
  len (a +:+ line +:+ line_end rest_of_file) <= chunkSize ->
  exists total e rest w,
    ReadChunks block (frame (a +:+ line +:+ line_end rest_of_file) +:+ after) (MkSink "" (Some r)) =
      (total, Some e, rest, w) /\
    readLimitedLine rest = (Ok line, rest_of_file +:+ after).
Proof.
  intros Ha Hp Hl Hr Hc. set (file := a +:+ line +:+ line_end rest_of_file) in *.
  unfold ReadChunks. cbn [read_chunks_go]. unfold frame. rewrite string_app_assoc.
  change (String newline file +:+ after) with (line_end (file +:+ after)).
  assert (Hlen : len file = block + len (line +:+ line_end rest_of_file)) by (unfold file; rewrite len_app; lia).
  assert (0 <= len (line +:+ line_end rest_of_file)) by (unfold len; lia).
  destruct (length_line (len file)) as (Hpl & Hll & Hat); [lia|].
  rewrite readLimitedLine_line, Hat by done.
  replace (len file =? 0) with false by lia. replace (len file <? 0) with false by lia.
  replace (chunkSize <? len file) with false by lia. cbn [orb].
  replace (maxUploadBytes <? 0 + len file) with false by (unfold chunkSize, maxUploadBytes in *; lia).
  assert (Ef : file +:+ after = a +:+ ((line +:+ line_end rest_of_file) +:+ after))
    by (unfold file; by rewrite string_app_assoc).
  unfold CopyN. rewrite Ef.
  destruct (CopyN_fails (String.length (a +:+ ((line +:+ line_end rest_of_file) +:+ after))) a
    ((line +:+ line_end rest_of_file) +:+ after) "" r (len file)) as (e & w & ->); [done|lia|done|].
  eexists _, _, _, _. split; [reflexivity|].
  rewrite string_app_assoc. change (line_end rest_of_file +:+ after) with (line_end (rest_of_file +:+ after)).
  by apply readLimitedLine_line.
Qed.
End ChunkProofs.

(** ** Witnesses *)
Lemma line_ceiling_witness :
  readLimitedLine ("ping" +:+ line_end "") = (Ok "ping", "") /\ len "ping" <= maxRequestBytes.
Proof.
  split; [vm_compute; reflexivity|].
  refine (proj1 (line_ceiling ("ping" +:+ line_end "") "ping" "" _)). vm_compute. reflexivity.
Defined.

Lemma chunks_roundtrip_witness :
  ReadChunks 3 (WriteChunks ["hello"; ""; " world"] false +:+ "next") (unlimited "") =
  (11, None, "next", unlimited "hello world").
Proof.
  refine (chunks_roundtrip 3 _ ["hello"; ""; " world"] "next" "" _ _).
  - reflexivity.
  - repeat constructor; discriminate.
  - vm_compute. discriminate.
Defined.

Lemma upload_ceiling_witness :
  let out := ReadChunks 3 (WriteChunks ["hello"] false) (unlimited "") in
  len (got out.2) <= maxUploadBytes.
Proof.
  refine (upload_ceiling 3 _ (WriteChunks ["hello"] false) (unlimited "") 5 None "" (unlimited "hello") _);
    [reflexivity|vm_compute; reflexivity].
Defined.

(** A file of ten bytes and a line that reads as a request, on a full disk. *)
Definition evil : string := "(service.remove)".
Lemma upload_desync_witness :
  exists total e rest w,
    ReadChunks 4 (frame ("data" +:+ evil +:+ line_end "more") +:+ "0") (MkSink "" (Some 2)) = (total, Some e, rest, w) /\
    readLimitedLine rest = (Ok evil, "more0").
Proof.
  refine (upload_desync 4 eq_refl "data" evil "more" "0" 2 eq_refl (conj eq_refl eq_refl) _ _ _).
  - vm_compute. discriminate.
  - split; [vm_compute; discriminate|reflexivity].
  - vm_compute. discriminate.
Defined.

(** ** Messages *)
Section MessageProofs.
Context `{FiloType A}.

Lemma no_break_plain s : ContainsAny s (String newline (String carriage "")) = false -> Plain s.
Proof.
  intros Hs.
  assert (Hb : contains_byte newline s = false /\ contains_byte carriage s = false).
  { induction s as [|c s IH]; [done|]. cbn [ContainsAny] in Hs. bool_hyps.
    match goal with H : contains_byte c _ = false |- _ =>
      rewrite !contains_byte_cons in H; bool_hyps end.
    destruct IH as [H1' H2']; [done|]. rewrite !contains_byte_cons, H1', H2'.
    rewrite (Ascii.eqb_sym newline), (Ascii.eqb_sym carriage).
    split; rewrite orb_false_r; assumption. }
  destruct Hb as [Hn Hc]. split; [done|]. apply HasSuffix_false. intros a ->.
  rewrite contains_byte_app in Hc. bool_hyps.
  match goal with H : contains_byte carriage (String carriage "") = false |- _ => vm_compute in H end. done.
Qed.

(** A message that is written is one line, and reading takes exactly that
    line: what filo makes of it is what was sent, and whatever follows on the
    connection is left untouched. *)
Theorem message_roundtrip (v d : A) out rest :
  WriteMessage v = Ok out -> len out <= maxRequestBytes ->
  Decode "message" (TrimRight (default "" (match Marshal v with Ok s => Some s | Err _ => None end))
                      (String newline "")) d = Ok v ->
  ReadMessage d (out +:+ rest) = (Ok v, rest).
Proof.
  unfold WriteMessage. destruct (Marshal v) as [body|e] eqn:E; [|done]. cbn [mbind result_bind default from_option id].
  destruct (ContainsAny _ _) eqn:Eb; [done|]. intros [= <-] Hlen Hd.
  unfold ReadMessage. rewrite string_app_assoc. change (String newline "" +:+ rest) with (line_end rest).
  rewrite len_app in Hlen.
  rewrite readLimitedLine_line; [by rewrite Hd|by apply no_break_plain|].
  assert (0 <= len (String newline "")) by (unfold len; lia). lia.
Qed.
End MessageProofs.

(** An engine for the witness: values are texts, written as they are. *)
Module TextCodec.
#[export] Instance engine : FiloEngine := {| Value := string; RunScript := fun s => Ok s |}.
#[export] Instance text : @FiloType engine string := {|
  UnmarshalFromValue := fun v _ => Ok v;
  filo_Marshal := fun s => Ok s;
|}.
End TextCodec.

Section TextWitness.
#[local] Existing Instances TextCodec.engine TextCodec.text.
Lemma message_roundtrip_witness :
  ReadMessage "" ("(op status)" +:+ String newline "" +:+ "next") = (Ok "(op status)", "next").
Proof.
  refine (message_roundtrip "(op status)" "" ("(op status)" +:+ String newline "") "next" _ _ _);
    [vm_compute; reflexivity|vm_compute; discriminate|vm_compute; reflexivity].
Defined.
End TextWitness.
