(* ===== verification/Tree.v ===== *)
(** * Tree: reading declarations from directories

    src/service/tree.go, and Parse, ParseFile and LoadDir of
    src/service/service.go.  A directory is a map of names to what they hold;
    an operation on it fails where the tree itself makes it fail. *)
From S2P Require Import Prelude GoText GoTime GoPath Service Filo.
From Stdlib Require Import Ascii SpecFloat.
Open Scope string_scope.
Open Scope list_scope.
Open Scope Z_scope.

(** What is inside a service's directory: files, and directories that are
    empty or not. *)
Inductive leaf :=
  | LFile (content : string)
  | LDir (empty : bool).

Inductive node :=
  | NFile (content : string)
  | NDir (entries : gmap string leaf).

#[export] Instance leaf_eq_dec : EqDecision leaf.
Proof. solve_decision. Defined.
#[export] Instance node_eq_dec : EqDecision node.
Proof. solve_decision. Defined.

(** A directory that may not exist. *)
Definition Dir : Type := option (gmap string node).

(** os.ReadDir: the entries by name. *)
Definition entry_le {A} (a b : string * A) : Prop := String.le a.1 b.1.
#[export] Instance entry_le_dec {A} (a b : string * A) : Decision (entry_le a b).
Proof. unfold entry_le. apply _. Defined.
Definition ReadDir {A} (m : gmap string A) : list (string * A) := merge_sort entry_le (map_to_list m).

Definition is_dir (n : node) : bool := match n with NDir _ => true | NFile _ => false end.

(** crypto/sha256 and encoding/hex *)
Class Sha256 := { sha256_hex : string -> string }.

Definition InitFile := "init.filo".
Definition InventoryFile := "inventory.filo".
Definition MaxArtifactBytes : Z := 256 * 2 ^ 10.

Record Artifact := MkArtifact { Artifact_Name : string; Content : string }.

Record Declaration := MkDeclaration {
  d_Service : Service;
  Source : string;
  Artifacts : list Artifact;
}.

(** fmt.Fprintf(sum, "%s\n%d\n", name, len(content)); sum.Write(content) *)
Definition artifact_bytes (name content : string) : string :=
  name +:+ String newline (itoa (len content) +:+ String newline content).

Fixpoint hash_input (files : list (string * string)) : string :=
  match files with
  | [] => ""
  | (name, content) :: rest => artifact_bytes name content +:+ hash_input rest
  end.

Definition files_of (entries : gmap string leaf) : list (string * string) :=
  omap (fun nl => match nl.2 with LFile c => Some (nl.1, c) | LDir _ => None end) (ReadDir entries).

Definition not_directory : error := EMsg ("not a directory", []).

Section Read.
Context `{FiloEngine} `{!FiloType Service} `{Sha256}.

Definition hashArtifacts (n : option node) : result string :=
  match n with
  | None => Ok ""
  | Some (NFile _) => Err not_directory
  | Some (NDir entries) =>
      match files_of entries with
      | [] => Ok ""
      | files => Ok (sha256_hex (hash_input files))
      end
  end.

Definition Parse (name src : string) : result Service :=
  s ← Decode name src empty_service;
  match normalize s with
  | Ok s => Ok s
  | Err e => Err (EWrap ("%s", [AStr name]) e)
  end.

(** ParseFile, on the directory that holds the file. *)
Definition ParseFile (base : string) (dir : Dir) : result Service :=
  match d ← dir; d !! base with
  | None => Err ErrNotExist
  | Some (NDir _) => Err (EMsg ("is a directory", []))
  | Some (NFile data) =>
      s ← Parse base data;
      let want := TrimSuffix base Extension in
      if negb (String.eqb (Name s) want)
      then Err (EWrap ("%s: declares name %q but the file is named %q; rename the file to %s%s",
                  [AStr base; AStr (Name s); AStr want; AStr (Name s); AStr Extension]) ErrInvalid)
      else Ok s
  end.

Definition service_le (a b : Service) : Prop := String.le (Name a) (Name b).
#[export] Instance service_le_dec a b : Decision (service_le a b).
Proof. unfold service_le. apply _. Defined.

(** One entry of the services directory: nothing, a service or a problem. *)
Definition load_entry (dir : Dir) (e : string * node) : option (result Service) :=
  if is_dir e.2 || negb (HasSuffix e.1 Extension) then None
  else Some (s ← ParseFile e.1 dir;
             hash ← hashArtifacts (d ← dir; d !! (Name s +:+ ArtifactSuffix));
             Ok (with_ConfigHash s hash)).

Definition okays {A} (l : list (result A)) : list A :=
  omap (fun r => match r with Ok a => Some a | Err _ => None end) l.
Definition errs {A} (l : list (result A)) : list error :=
  omap (fun r => match r with Ok _ => None | Err e => Some e end) l.

(** fmt.Errorf("%w:\n  %s", ErrInvalid, strings.Join(problems, "\n  ")) *)
Definition problems_error (problems : list error) : option error :=
  match problems with
  | [] => None
  | _ => Some (EWrap ("%s", (fun e => AMsg (error_msg e)) <$> problems) ErrInvalid)
  end.

Definition LoadDir (dir : Dir) : list Service * option error :=
  match dir with
  | None => ([], None)
  | Some d =>
      let results := omap (load_entry dir) (ReadDir d) in
      (merge_sort service_le (okays results), problems_error (errs results))
  end.

(** ** The operator's tree *)
Definition hidden (name : string) : bool := HasPrefix name ".".

(** The files beside a declaration, with the ceiling on their total. *)
Fixpoint read_artifacts (total : Z) (entries : list (string * leaf)) : result (list Artifact) :=
  match entries with
  | [] => Ok []
  | (name, LDir _) :: rest => read_artifacts total rest
  | (name, LFile content) :: rest =>
      if String.eqb name InitFile || hidden name then read_artifacts total rest
      else
        let total := total + len content in
        if MaxArtifactBytes <? total
        then Err (EMsg ("the files beside the declaration pass %d bytes; artifacts are configuration, and anything larger belongs in an image or a volume",
                        [AInt MaxArtifactBytes]))
        else out ← read_artifacts total rest; Ok (MkArtifact name content :: out)
  end.

Definition readArtifacts (entries : gmap string leaf) : result (list Artifact) :=
  read_artifacts 0 (ReadDir entries).

Definition loadServiceFile (name : string) (tree : Dir) : result Declaration :=
  svc ← ParseFile name tree;
  match d ← tree; d !! name with
  | Some (NFile source) => Ok (MkDeclaration svc source [])
  | _ => Err ErrNotExist
  end.

Definition loadServiceDir (name : string) (entries : gmap string leaf) : result Declaration :=
  match entries !! InitFile with
  | None => Err (EMsg ("%s/ has no %s, so nothing declares what it is", [AStr name; AStr InitFile]))
  | Some (LDir _) => Err (EMsg ("is a directory", []))
  | Some (LFile source) =>
      svc ← Parse (PathJoin [name; InitFile]) source;
      if negb (String.eqb (Name svc) name)
      then Err (EMsg ("%s/%s declares the name %q; the directory is the name, so call it %s or rename the directory",
                      [AStr name; AStr InitFile; AStr (Name svc); AStr (Name svc)]))
      else match readArtifacts entries with
           | Ok artifacts => Ok (MkDeclaration svc source artifacts)
           | Err e => Err (EWrap ("%s", [AStr name]) e)
           end
  end.

Definition tree_entry (tree : Dir) (e : string * node) : option (result Declaration) :=
  if String.eqb e.1 InventoryFile || hidden e.1 then None
  else match e.2 with
       | NDir entries => Some (loadServiceDir e.1 entries)
       | NFile _ => if HasSuffix e.1 Extension then Some (loadServiceFile e.1 tree) else None
       end.

Definition declaration_le (a b : Declaration) : Prop := String.le (Name (d_Service a)) (Name (d_Service b)).
#[export] Instance declaration_le_dec a b : Decision (declaration_le a b).
Proof. unfold declaration_le. apply _. Defined.

Definition LoadTree (tree : Dir) : list Declaration * option error :=
  match tree with
  | None => ([], None)
  | Some d =>
      let results := omap (tree_entry tree) (ReadDir d) in
      (merge_sort declaration_le (okays results), problems_error (errs results))
  end.
End Read.
