(* ===== verification/Base64.v ===== *)
(** * Base64: encoding/base64's StdEncoding

    EncodeToString and DecodeString, as src/api/declaration.go uses them to
    carry the bytes of an artifact inside a message. *)
From S2P Require Import Prelude GoText.
From Stdlib Require Import Ascii.
Open Scope string_scope.
Open Scope list_scope.
Open Scope Z_scope.

Definition alphabet : string := "ABCDEFGHIJKLMNOPQRSTUVWXYZabcdefghijklmnopqrstuvwxyz0123456789+/".

Definition sextet (z : Z) : ascii := default "="%char (String.get (Z.to_nat z) alphabet).
Definition padding : ascii := "="%char.

Fixpoint index_from (c : ascii) (s : string) (i : Z) : option Z :=
  match s with
  | "" => None
  | String x s' => if Ascii.eqb x c then Some i else index_from c s' (i + 1)
  end.
Definition sextet_value (c : ascii) : option Z := index_from c alphabet 0.

Definition byte_of (z : Z) : ascii := ascii_of_nat (Z.to_nat z).

(** Three bytes to four characters. *)
Fixpoint EncodeToString (s : string) : string :=
  match s with
  | String a (String b (String c rest)) =>
      let v := code a * 65536 + code b * 256 + code c in
      String (sextet (v / 262144)) (String (sextet (v / 4096 mod 64))
        (String (sextet (v / 64 mod 64)) (String (sextet (v mod 64)) (EncodeToString rest))))
  | String a (String b "") =>
      let v := code a * 65536 + code b * 256 in
      String (sextet (v / 262144)) (String (sextet (v / 4096 mod 64))
        (String (sextet (v / 64 mod 64)) (String padding "")))
  | String a "" =>
      let v := code a * 65536 in
      String (sextet (v / 262144)) (String (sextet (v / 4096 mod 64)) (String padding (String padding "")))
  | "" => ""
  end.

(** Line breaks are ignored wherever they are. *)
Fixpoint without_breaks (s : string) : string :=
  match s with
  | "" => ""
  | String c s' => if Ascii.eqb c newline || Ascii.eqb c carriage then without_breaks s' else String c (without_breaks s')
  end.

Definition quantum3 (v : Z) (rest : string) : string :=
  String (byte_of (v / 65536)) (String (byte_of (v / 256 mod 256)) (String (byte_of (v mod 256)) rest)).

(** Four characters to three bytes; padding ends the text. *)
Fixpoint decode_go (s : string) : option string :=
  match s with
  | "" => Some ""
  | String a (String b (String c (String d rest))) =>
      x ← sextet_value a;
      y ← sextet_value b;
      if Ascii.eqb c padding then
        if Ascii.eqb d padding && String.eqb rest ""
        then Some (String (byte_of ((x * 262144 + y * 4096) / 65536)) "")
        else None
      else
        z ← sextet_value c;
        if Ascii.eqb d padding then
          if String.eqb rest ""
          then let v := x * 262144 + y * 4096 + z * 64 in
               Some (String (byte_of (v / 65536)) (String (byte_of (v / 256 mod 256)) ""))
          else None
        else
          w ← sextet_value d;
          out ← decode_go rest;
          Some (quantum3 (x * 262144 + y * 4096 + z * 64 + w) out)
  | _ => None
  end.

Definition DecodeString (s : string) : option string := decode_go (without_breaks s).

Example encode_hello : EncodeToString "hello" = "aGVsbG8=".
Proof. vm_compute. reflexivity. Qed.
Example decode_hello : DecodeString "aGVsbG8=" = Some "hello".
Proof. vm_compute. reflexivity. Qed.

Section Base64Proofs.
(** Every sextet has a character of its own, which is neither padding nor a
    line break. *)
Definition sextet_fine (z : Z) : bool :=
  bool_decide (sextet_value (sextet z) = Some z) && negb (Ascii.eqb (sextet z) padding) &&
  negb (Ascii.eqb (sextet z) newline || Ascii.eqb (sextet z) carriage).

Lemma sextets z : 0 <= z < 64 ->
  sextet_value (sextet z) = Some z /\ Ascii.eqb (sextet z) padding = false /\
  Ascii.eqb (sextet z) newline || Ascii.eqb (sextet z) carriage = false.
Proof.
  intros Hz.
  assert (Hall : forallb sextet_fine (Z.of_nat <$> seq 0 64) = true) by (vm_compute; reflexivity).
  rewrite forallb_forall in Hall. specialize (Hall z). unfold sextet_fine in Hall.
  assert (Hin : In z (Z.of_nat <$> seq 0 64)).
  { apply In_elem_of, list_elem_of_fmap. exists (Z.to_nat z). split; [lia|]. apply elem_of_seq. lia. }
  apply Hall in Hin. bool_hyps. split_and!; [done|done|]. by apply orb_false_iff.
Qed.

Lemma code_bound c : 0 <= code c < 256.
Proof. unfold code. pose proof (nat_ascii_bounded c). lia. Qed.

Lemma byte_of_code c z : z = code c -> byte_of z = c.
Proof. intros ->. unfold byte_of, code. by rewrite Nat2Z.id, ascii_nat_embedding. Qed.

Lemma without_breaks_sextet z s :
  0 <= z < 64 -> without_breaks (String (sextet z) s) = String (sextet z) (without_breaks s).
Proof. intros Hz. cbn [without_breaks]. by destruct (sextets z Hz) as (_ & _ & ->). Qed.

(** A list of bytes in three-byte steps. *)
Lemma string_ind3 (P : string -> Prop) :
  P "" -> (forall a, P (String a "")) -> (forall a b, P (String a (String b ""))) ->
  (forall a b c s, P s -> P (String a (String b (String c s)))) -> forall s, P s.
Proof.
  intros H0 H1' H2' H3. fix IH 1. intros [|a [|b [|c s]]]; [done|apply H1'|apply H2'|]. apply H3, IH.
Qed.

(** The arithmetic of one quantum. *)
Lemma quantum_parts v : 0 <= v < 16777216 ->
  0 <= v / 262144 < 64 /\ 0 <= v / 4096 mod 64 < 64 /\ 0 <= v / 64 mod 64 < 64 /\ 0 <= v mod 64 < 64 /\
  v / 262144 * 262144 + v / 4096 mod 64 * 4096 + v / 64 mod 64 * 64 + v mod 64 = v.
Proof.
  intros Hv. split_and!; try (apply Z.mod_pos_bound; lia); try (apply Z.div_pos; lia);
    try (apply Z.div_lt_upper_bound; lia).
  pose proof (Z.div_mod v 64). pose proof (Z.div_mod (v / 64) 64). pose proof (Z.div_mod (v / 4096) 64).
  replace (v / 4096) with (v / 64 / 64) in * by (rewrite Z.div_div; lia || f_equal; lia).
  replace (v / 262144) with (v / 64 / 64 / 64) in * by (rewrite !Z.div_div; lia || f_equal; lia). lia.
Qed.

Lemma bytes_parts a b c : 0 <= a < 256 -> 0 <= b < 256 -> 0 <= c < 256 ->
  let v := a * 65536 + b * 256 + c in
  0 <= v < 16777216 /\ v / 65536 = a /\ v / 256 mod 256 = b /\ v mod 256 = c.
Proof.
  intros Ha Hb Hc. cbv zeta.
  assert (E1 : (a * 65536 + b * 256 + c) / 256 = a * 256 + b) by (symmetry; apply (Z.div_unique _ _ _ c); lia).
  split_and!; [lia|lia|symmetry; apply (Z.div_unique _ _ _ (b * 256 + c)); lia| |
    symmetry; apply (Z.mod_unique _ _ (a * 256 + b)); lia].
  rewrite E1. symmetry. apply (Z.mod_unique _ _ a); lia.
Qed.

(** Decoding what was encoded gives the bytes back, whatever they are. *)
Lemma decode_encode s : DecodeString (EncodeToString s) = Some s.
Proof.
  unfold DecodeString. induction s as [|a|a b|a b c s IH] using string_ind3; [done|..].
  - pose proof (code_bound a). pose proof (bytes_parts (code a) 0 0) as B. destruct B as (Hv & B1 & _); [lia..|].
    rewrite !Z.mul_0_l, !Z.add_0_r in *. destruct (quantum_parts (code a * 65536) Hv) as (P1 & P2 & P3 & P4 & P5).
    cbn [EncodeToString]. rewrite !without_breaks_sextet by done.
    change (without_breaks (String padding (String padding ""))) with (String padding (String padding "")).
    cbn [decode_go]. rewrite (proj1 (sextets _ P1)), (proj1 (sextets _ P2)). cbn [mbind option_bind].
    change (Ascii.eqb padding padding) with true. cbn [andb]. rewrite String.eqb_refl.
    do 2 f_equal. apply byte_of_code.
    assert (Z3 : code a * 65536 / 64 mod 64 = 0).
    { replace (code a * 65536) with (code a * 16 * 64 * 64) by lia. rewrite Z.div_mul by lia. apply Z.mod_mul. lia. }
    assert (Z4 : code a * 65536 mod 64 = 0).
    { replace (code a * 65536) with (code a * 1024 * 64) by lia. apply Z.mod_mul. lia. }
    replace (_ + _) with (code a * 65536) by lia. exact B1.
  - pose proof (code_bound a). pose proof (code_bound b).
    pose proof (bytes_parts (code a) (code b) 0) as B. destruct B as (Hv & B1 & B2 & _); [lia..|].
    rewrite !Z.add_0_r in *.
    destruct (quantum_parts (code a * 65536 + code b * 256) Hv) as (P1 & P2 & P3 & P4 & P5).
    assert (Z4 : (code a * 65536 + code b * 256) mod 64 = 0).
    { replace (_ + _) with ((code a * 1024 + code b * 4) * 64) by lia. apply Z.mod_mul. lia. }
    cbn [EncodeToString]. rewrite !without_breaks_sextet by done.
    change (without_breaks (String padding "")) with (String padding "").
    cbn [decode_go]. rewrite (proj1 (sextets _ P1)), (proj1 (sextets _ P2)), (proj1 (sextets _ P3)).
    rewrite (proj1 (proj2 (sextets _ P3))). cbn [mbind option_bind].
    change (Ascii.eqb padding padding) with true. cbn [andb]. rewrite String.eqb_refl. cbv zeta.
    rewrite Z4, Z.add_0_r in P5. rewrite P5. by rewrite (byte_of_code a), (byte_of_code b).
  - pose proof (code_bound a). pose proof (code_bound b). pose proof (code_bound c).
    destruct (bytes_parts (code a) (code b) (code c)) as (Hv & B1 & B2 & B3); [lia..|].
    destruct (quantum_parts _ Hv) as (P1 & P2 & P3 & P4 & P5).
    cbn [EncodeToString]. rewrite !without_breaks_sextet by done. cbn [decode_go].
    rewrite (proj1 (sextets _ P1)), (proj1 (sextets _ P2)), (proj1 (sextets _ P3)), (proj1 (sextets _ P4)).
    rewrite (proj1 (proj2 (sextets _ P3))), (proj1 (proj2 (sextets _ P4))). cbn [mbind option_bind].
    rewrite IH. cbn [mbind option_bind]. rewrite P5. unfold quantum3.
    by rewrite (byte_of_code a), (byte_of_code b), (byte_of_code c).
Qed.
End Base64Proofs.
