(* ===== verification/DeclarationFiles.v ===== *)
(** * DeclarationFiles: a declaration that arrives, and where it is written

    src/api/declaration.go: Send, writeDeclaration, plainFileName and
    writeAtomic, over the services directory of Tree.v.  The rename of
    writeAtomic is its only effect that another reader can see. *)
From S2P Require Import Prelude GoText GoTime GoPath Base64 Service Filo Tree.
From Stdlib Require Import Ascii SpecFloat.
Open Scope string_scope.
Open Scope list_scope.
Open Scope Z_scope.
Open Scope hostd_scope.

(** What crosses the wire: api.Declaration and api.Artifact. *)
Record WireArtifact := MkWireArtifact { wa_Name : string; wa_Content : string }.
Record WireDeclaration := MkWireDeclaration {
  wd_Name : string;
  wd_Source : string;
  wd_Artifacts : list WireArtifact;
}.

Definition Send (d : Declaration) : WireDeclaration :=
  MkWireDeclaration (Name (d_Service d)) (Source d)
    ((fun a => MkWireArtifact (Artifact_Name a) (EncodeToString (Content a))) <$> Artifacts d).

Definition plainFileName (name : string) : bool :=
  if bool_decide (name ∈ [""; "."; ".."]) then false else String.eqb name (Base name).

Definition is_a_directory : error := EMsg ("is a directory", []).
Definition not_empty : error := EMsg ("directory not empty", []).

Definition entries_of (d : Dir) : gmap string node := default ∅ d.

(** os.MkdirAll of the services directory *)
Definition mkdir_services : ST Dir (result unit) := fun d => (Ok tt, Some (entries_of d)).

(** writeAtomic into the services directory: a rename does not replace a
    directory. *)
Definition write_file (name content : string) : ST Dir (result unit) := fun d =>
  match entries_of d !! name with
  | Some (NDir _) => (Err is_a_directory, d)
  | _ => (Ok tt, Some (<[name := NFile content]> (entries_of d)))
  end.

(** os.RemoveAll of one entry *)
Definition remove_all (name : string) : ST Dir (result unit) := fun d =>
  (Ok tt, (fun m => delete name m) <$> d).

(** os.MkdirAll of a service's directory *)
Definition mkdir (name : string) : ST Dir (result unit) := fun d =>
  match entries_of d !! name with
  | Some (NFile _) => (Err not_directory, d)
  | Some (NDir _) => (Ok tt, d)
  | None => (Ok tt, Some (<[name := NDir ∅]> (entries_of d)))
  end.

(** The directory of a service's artifacts, and a change to it. *)
Definition artifacts_in (dir : string) (d : Dir) : gmap string leaf :=
  match entries_of d !! dir with Some (NDir m) => m | _ => ∅ end.
Definition set_artifacts (dir : string) (m : gmap string leaf) (d : Dir) : Dir :=
  Some (<[dir := NDir m]> (entries_of d)).

(** writeAtomic inside a service's directory *)
Definition write_artifact (dir name content : string) : ST Dir (result unit) := fun d =>
  match artifacts_in dir d !! name with
  | Some (LDir _) => (Err is_a_directory, d)
  | _ => (Ok tt, set_artifacts dir (<[name := LFile content]> (artifacts_in dir d)) d)
  end.

(** One artifact: refused by its name or its encoding, or written. *)
Definition put_artifact (dir : string) (a : WireArtifact) : ST Dir (result unit) :=
  if negb (plainFileName (wa_Name a))
  then mret (Err (EMsg ("%q is not a file name", [AStr (wa_Name a)])))
  else match DecodeString (wa_Content a) with
       | None => mret (Err (EMsg ("%s: illegal base64 data", [AStr (wa_Name a)])))
       | Some content => write_artifact dir (wa_Name a) content
       end.

(** os.Remove of a stale entry: a directory that holds something stays. *)
Definition drop_stale (dir : string) (kept : list string) (e : string * leaf) : ST Dir (result unit) :=
  if bool_decide (e.1 ∈ kept) then mret (Ok tt) else fun d =>
  match e.2 with
  | LDir false => (Err not_empty, d)
  | _ => (Ok tt, set_artifacts dir (delete e.1 (artifacts_in dir d)) d)
  end.

Definition writeDeclaration (incoming : WireDeclaration) : ST Dir (result unit) :=
  _ ←! mkdir_services;
  _ ←! write_file (wd_Name incoming +:+ Extension) (wd_Source incoming);
  let artifacts := wd_Name incoming +:+ ArtifactSuffix in
  match wd_Artifacts incoming with
  | [] => remove_all artifacts
  | arrived =>
      _ ←! mkdir artifacts;
      _ ←! for_eachE arrived (put_artifact artifacts);
      let kept := wa_Name <$> arrived in
      entries ← gets (artifacts_in artifacts);
      for_eachE (ReadDir entries) (drop_stale artifacts kept)
  end.
