(* ===== verification/DeclarationProofs.v ===== *)
(** * DeclarationProofs: what the machine holds is what was sent *)
From S2P Require Import Prelude GoText GoTime GoPath Base64 Service Filo Tree DeclarationFiles.
From Stdlib Require Import Ascii SpecFloat.
Open Scope string_scope.
Open Scope list_scope.
Open Scope Z_scope.
Open Scope hostd_scope.

Section Writing.
Context (dir : string).

(** One state of the service's directory: present, with these files, the rest
    of the services directory being [base]. *)
Definition holds (base : Dir) (m : gmap string leaf) (d : Dir) : Prop :=
  entries_of d !! dir = Some (NDir m) /\ forall k, k <> dir -> entries_of d !! k = entries_of base !! k.

Lemma holds_artifacts base m d : holds base m d -> artifacts_in dir d = m.
Proof. intros [E _]. unfold artifacts_in. by rewrite E. Qed.

Lemma holds_set base m m' d : holds base m d -> holds base m' (set_artifacts dir m' d).
Proof.
  intros [_ Ho]. split; cbn; [apply lookup_insert_eq|]. intros k Hk. rewrite lookup_insert_ne by done. by apply Ho.
Qed.

Definition put_one (m : gmap string leaf) (a : WireArtifact) : gmap string leaf :=
  <[wa_Name a := LFile (default "" (DecodeString (wa_Content a)))]> m.

Lemma put_artifact_ok base m a d d' :
  holds base m d -> put_artifact dir a d = (Ok tt, d') -> holds base (put_one m a) d'.
Proof.
  intros Hd. unfold put_artifact. destruct (plainFileName (wa_Name a)); [|done]. cbn [negb].
  destruct (DecodeString (wa_Content a)) as [content|] eqn:Ec; [|done]. unfold write_artifact.
  rewrite (holds_artifacts _ _ _ Hd).
  assert (Hput : put_one m a = <[wa_Name a := LFile content]> m) by (unfold put_one; by rewrite Ec).
  rewrite Hput. destruct (m !! wa_Name a) as [[old|empty]|]; [|done|]; intros [= <-]; by eapply holds_set.
Qed.

Lemma for_eachE_cons {S A} (x : A) l (body : A -> ST S (result unit)) s r s' :
  for_eachE (x :: l) body s = (Ok r, s') -> exists s1, body x s = (Ok tt, s1) /\ for_eachE l body s1 = (Ok tt, s').
Proof. cbn [for_eachE]. intros ([] & s1 & Hb & Hl)%bindE_ok. destruct r. eauto. Qed.

Lemma put_all_ok base arrived m d d' :
  holds base m d -> for_eachE arrived (put_artifact dir) d = (Ok tt, d') -> holds base (foldl put_one m arrived) d'.
Proof.
  revert m d. induction arrived as [|a arrived IH]; intros m d Hd; [intros [= <-]; exact Hd|].
  intros (d1 & Ha & Hl)%for_eachE_cons. cbn [foldl]. eapply IH; [|exact Hl]. by eapply put_artifact_ok.
Qed.

Definition drop_one (kept : list string) (m : gmap string leaf) (e : string * leaf) : gmap string leaf :=
  if bool_decide (e.1 ∈ kept) then m else delete e.1 m.

Lemma drop_all_ok base kept es m d d' :
  holds base m d -> for_eachE es (drop_stale dir kept) d = (Ok tt, d') -> holds base (foldl (drop_one kept) m es) d'.
Proof.
  revert m d. induction es as [|e es IH]; intros m d Hd; [intros [= <-]; exact Hd|].
  intros (d1 & He & Hl)%for_eachE_cons. cbn [foldl]. eapply IH; [|exact Hl]. unfold drop_stale, drop_one in *.
  destruct (bool_decide (e.1 ∈ kept)); [by injection He as <-|].
  rewrite (holds_artifacts _ _ _ Hd) in He.
  destruct e.2 as [c|[]]; [| |done]; injection He as <-; by eapply holds_set.
Qed.

(** Dropping every entry that was not sent leaves what was sent. *)
Lemma dropped_lookup kept es (m : gmap string leaf) n :
  foldl (drop_one kept) m es !! n = if bool_decide (n ∈ es.*1 /\ n ∉ kept) then None else m !! n.
Proof.
  revert m. induction es as [|[k l] es IH]; intros m; [by rewrite bool_decide_eq_false_2 by (by intros [?%elem_of_nil _])|].
  cbn [foldl]. rewrite IH. clear IH. unfold drop_one. cbn [fst]. rewrite fmap_cons. cbn [fst].
  assert (Hm : n <> k \/ k ∈ kept -> (if bool_decide (k ∈ kept) then m else delete k m) !! n = m !! n).
  { intros Hn. case_bool_decide as Hk; [done|]. apply lookup_delete_ne. naive_solver. }
  destruct (decide (n ∈ kept)) as [Hn|Hn]; [|destruct (decide (n ∈ es.*1)) as [He|He]].
  - rewrite !(bool_decide_eq_false_2 (_ /\ n ∉ kept)) by tauto. apply Hm.
    destruct (decide (n = k)) as [->|]; auto.
  - by rewrite !bool_decide_eq_true_2 by first [done|split; [by right|done]].
  - rewrite (bool_decide_eq_false_2 (n ∈ es.*1 /\ n ∉ kept)) by tauto.
    destruct (decide (n = k)) as [->|Hne].
    + rewrite (bool_decide_eq_true_2 (k ∈ k :: es.*1 /\ _)) by (split; [left|done]).
      rewrite bool_decide_eq_false_2 by done. apply lookup_delete_eq.
    + rewrite (bool_decide_eq_false_2 (n ∈ k :: es.*1 /\ _)) by (intros [[?|?]%elem_of_cons _]; [congruence|done]). apply Hm. by left.
Qed.

Lemma put_all_lookup arrived (m : gmap string leaf) n :
  foldl put_one m arrived !! n =
  if bool_decide (n ∈ wa_Name <$> arrived) then foldl put_one ∅ arrived !! n else m !! n.
Proof.
  induction arrived as [|a arrived IH] using rev_ind; [done|].
  rewrite !foldl_app, fmap_app. cbn. unfold put_one at 1 3.
  destruct (decide (wa_Name a = n)) as [<-|Hne].
  - rewrite !lookup_insert_eq, bool_decide_eq_true_2; [done|]. apply elem_of_app. right. left.
  - rewrite !lookup_insert_ne by done. rewrite IH.
    rewrite (bool_decide_ext (n ∈ (wa_Name <$> arrived) ++ [wa_Name a]) (n ∈ wa_Name <$> arrived)); [done|].
    rewrite elem_of_app, list_elem_of_singleton. naive_solver.
Qed.
End Writing.

(** ** A put that succeeded *)
Lemma entry_names_differ name : name +:+ Extension <> name +:+ ArtifactSuffix.
Proof. induction name as [|c name IH]; [done|]. intros [= E]. by apply IH. Qed.

Lemma ReadDir_keys {A} (m : gmap string A) n : n ∈ (ReadDir m).*1 <-> is_Some (m !! n).
Proof.
  unfold ReadDir. rewrite merge_sort_Permutation. split.
  - intros ([k v] & -> & H)%list_elem_of_fmap. apply elem_of_map_to_list in H. eauto.
  - intros [v Hv]. apply list_elem_of_fmap. exists (n, v). split; [done|]. by apply elem_of_map_to_list.
Qed.

(** What the artifacts of a message are, by name; the last of a name counts. *)
Definition arrived_files (arrived : list WireArtifact) : gmap string leaf := foldl put_one ∅ arrived.

Lemma cleaned_files arrived (m : gmap string leaf) :
  foldl (drop_one (wa_Name <$> arrived)) (foldl put_one m arrived) (ReadDir (foldl put_one m arrived)) =
  arrived_files arrived.
Proof.
  apply map_eq. intros n. rewrite dropped_lookup, (put_all_lookup arrived m n).
  destruct (decide (n ∈ wa_Name <$> arrived)) as [Hn|Hn].
  - rewrite (bool_decide_eq_false_2 (_ /\ _)) by tauto.
    by rewrite (bool_decide_eq_true_2 (n ∈ wa_Name <$> arrived)) by done.
  - rewrite (bool_decide_eq_false_2 (n ∈ wa_Name <$> arrived)) by done.
    assert (Hnone : arrived_files arrived !! n = None).
    { unfold arrived_files. rewrite put_all_lookup, bool_decide_eq_false_2 by done. apply lookup_empty. }
    rewrite Hnone. destruct (m !! n) eqn:Em; [|by case_bool_decide].
    rewrite bool_decide_eq_true_2; [done|]. split; [|done]. apply ReadDir_keys.
    rewrite put_all_lookup, bool_decide_eq_false_2 by done. eauto.
Qed.

(** C13: A declaration that was put is what the machine holds: the source under
    the service's name, the files that were sent and no other beside it — none
    at all when none were sent — and every other service as it was. *)
Theorem put_mirrors_tree decl d d' :
  let name := Name (d_Service decl) in
  writeDeclaration (Send decl) d = (Ok tt, d') ->
  entries_of d' !! (name +:+ Extension) = Some (NFile (Source decl)) /\
  (Artifacts decl = [] -> entries_of d' !! (name +:+ ArtifactSuffix) = None) /\
  (Artifacts decl <> [] -> entries_of d' !! (name +:+ ArtifactSuffix) =
     Some (NDir (foldl (fun m a => <[Artifact_Name a := LFile (Content a)]> m) ∅ (Artifacts decl)))) /\
  (forall k, k <> name +:+ Extension -> k <> name +:+ ArtifactSuffix ->
     entries_of d' !! k = entries_of d !! k).
Proof.
  cbv zeta. set (name := Name (d_Service decl)). intros Hw. unfold writeDeclaration in Hw.
  pose proof (entry_names_differ name) as Hdiff.
  apply bindE_ok in Hw as ([] & d1 & Hmk & Hw). injection Hmk as <-.
  apply bindE_ok in Hw as ([] & d2 & Hfile & Hw).
  assert (E2 : entries_of d2 = <[name +:+ Extension := NFile (Source decl)]> (entries_of d)).
  { unfold write_file in Hfile. cbn in Hfile. destruct (entries_of d !! _) as [[c|m]|]; by simplify_eq. }
  clear Hfile.
  assert (Hfiles : arrived_files (wd_Artifacts (Send decl)) =
    foldl (fun m a => <[Artifact_Name a := LFile (Content a)]> m) ∅ (Artifacts decl)).
  { unfold arrived_files, Send. cbn [wd_Artifacts]. generalize (∅ : gmap string leaf).
    induction (Artifacts decl) as [|a l IH]; intros m; [done|]. rewrite fmap_cons. cbn [foldl]. rewrite <- IH.
    f_equal. unfold put_one. cbn [wa_Name wa_Content]. by rewrite decode_encode. }
  destruct (Artifacts decl) as [|a l] eqn:Ea.
  - cbn in Hw. rewrite Ea in Hw. cbn in Hw.
    assert (E3 : entries_of d' = delete (name +:+ ArtifactSuffix) (entries_of d2))
      by (injection Hw as <-; destruct d2; cbn; [done|by rewrite delete_empty]).
    rewrite E3, E2. split_and!.
    + rewrite lookup_delete_ne by done. apply lookup_insert_eq.
    + intros _. apply lookup_delete_eq.
    + done.
    + intros k Hk1 Hk2. by rewrite lookup_delete_ne, lookup_insert_ne.
  - assert (Harr : exists x y, wd_Artifacts (Send decl) = x :: y) by (cbn; rewrite Ea; cbn; eauto).
    destruct Harr as (x & y & Harr). rewrite Harr in *. cbv zeta in Hw.
    apply bindE_ok in Hw as ([] & d3 & Hmkd & Hw).
    set (dir := name +:+ ArtifactSuffix) in *.
    assert (H3 : exists m, holds dir d2 m d3).
    { unfold mkdir in Hmkd. change (wd_Name (Send decl) +:+ ArtifactSuffix) with dir in Hmkd.
      destruct (entries_of d2 !! dir) as [[c|m]|] eqn:Em; [done| |]; injection Hmkd as <-.
      - by exists m.
      - exists ∅. split; cbn; [apply lookup_insert_eq|]. intros k Hk. by rewrite lookup_insert_ne. }
    destruct H3 as [m H3]. apply bindE_ok in Hw as ([] & d4 & Hput & Hw).
    apply (put_all_ok dir d2 _ m) in Hput; [|done].
    rewrite ST_step in Hw. cbn [fst snd gets] in Hw.
    change (wd_Name (Send decl) +:+ ArtifactSuffix) with dir in Hw.
    rewrite (holds_artifacts dir _ _ _ Hput) in Hw. apply (drop_all_ok dir d2 _ _ _ _ _ Hput) in Hw.
    rewrite cleaned_files, Hfiles in Hw. destruct Hw as [Hdir Ho]. split_and!.
    + rewrite Ho by done. rewrite E2. apply lookup_insert_eq.
    + done.
    + intros _. exact Hdir.
    + intros k Hk1 Hk2. rewrite Ho by done. rewrite E2. by apply lookup_insert_ne.
Qed.

(** ** Concrete trees *)
Definition web_source : string := "(service)".
Definition web_decl : Declaration :=
  MkDeclaration (with_Name empty_service "web") web_source [MkArtifact "Caddyfile" "localhost"].
Definition before : Dir := Some (<["web.d" := NDir {["stale" := LFile "old"]}]>
  {["db.filo" := NFile "(db)"; "web.filo" := NFile "(old)"]}).

Lemma put_mirrors_tree_witness :
  let d' := (writeDeclaration (Send web_decl) before).2 in
  entries_of d' !! "web.filo" = Some (NFile web_source) /\
  entries_of d' !! "web.d" = Some (NDir {["Caddyfile" := LFile "localhost"]}) /\
  entries_of d' !! "db.filo" = Some (NFile "(db)").
Proof.
  cbv zeta.
  destruct (put_mirrors_tree web_decl before (writeDeclaration (Send web_decl) before).2
    ltac:(vm_compute; reflexivity)) as (H1 & _ & H3 & H4).
  split; [exact H1|]. split; [exact (H3 ltac:(discriminate))|].
  exact (H4 "db.filo" ltac:(vm_compute; discriminate) ltac:(vm_compute; discriminate)).
Defined.

(** A put refused for the name of its second file has already replaced the
    declaration and written the first file: the refusal does not come before
    anything is written. *)
Theorem refused_put_has_written :
  let incoming := MkWireDeclaration "web" web_source [MkWireArtifact "a" ""; MkWireArtifact "../b" ""] in
  exists e d', writeDeclaration incoming before = (Err e, d') /\
    entries_of d' !! "web.filo" = Some (NFile web_source) /\
    artifacts_in "web.d" d' !! "a" = Some (LFile "").
Proof. eexists _, _. split; [vm_compute; reflexivity|]. split; vm_compute; reflexivity. Qed.
