(* ===== verification/TreeProofs.v ===== *)
(** * TreeProofs: what loading a directory answers, and what the hash covers *)
From S2P Require Import Prelude GoText GoTime GoPath Service ServiceProofs Filo Tree Protocol ProtocolProofs DeclarationProofs.
From Stdlib Require Import Ascii SpecFloat.
Open Scope string_scope.
Open Scope list_scope.
Open Scope Z_scope.

(** ** The text that is hashed *)
Section HashInput.
Lemma concat_cancel_len (a b s t : string) : String.length a = String.length b -> a +:+ s = b +:+ t -> a = b /\ s = t.
Proof.
  revert b. induction a as [|c a IH]; intros [|d b] Hl; try done.
  intros [= -> E]. cbn in Hl. destruct (IH b) as [-> ->]; [lia|done|done].
Qed.

Lemma artifact_bytes_inj n1 c1 n2 c2 s t :
  contains_byte newline n1 = false -> contains_byte newline n2 = false ->
  artifact_bytes n1 c1 +:+ s = artifact_bytes n2 c2 +:+ t -> n1 = n2 /\ c1 = c2 /\ s = t.
Proof.
  intros H1 H2 E. unfold artifact_bytes in E. rewrite !string_app_assoc in E.
  change (String newline ?x +:+ ?y) with (String newline (x +:+ y)) in E.
  pose proof (Cut_app newline n1 ((itoa (len c1) +:+ String newline c1) +:+ s) H1) as C1.
  pose proof (Cut_app newline n2 ((itoa (len c2) +:+ String newline c2) +:+ t) H2) as C2.
  rewrite E, C2 in C1. injection C1 as -> E'. split; [done|].
  rewrite !string_app_assoc in E'.
  change (String newline ?x +:+ ?y) with (String newline (x +:+ y)) in E'.
  assert (Hd : forall c, contains_byte newline (itoa (len c)) = false)
    by (intros c; apply itoa_no_byte; [done|unfold len; lia]).
  pose proof (Cut_app newline (itoa (len c1)) (c1 +:+ s) (Hd c1)) as D1.
  pose proof (Cut_app newline (itoa (len c2)) (c2 +:+ t) (Hd c2)) as D2.
  rewrite <- E', D2 in D1.
  assert (El : itoa (len c2) = itoa (len c1)) by congruence.
  assert (Ec : c2 +:+ t = c1 +:+ s) by congruence.
  apply itoa_inj_all in El. destruct (concat_cancel_len c2 c1 t s) as [-> ->]; [unfold len in El; lia|done|done].
Qed.

Lemma hash_input_inj l k :
  Forall (fun f => contains_byte newline f.1 = false) l ->
  Forall (fun f => contains_byte newline f.1 = false) k ->
  hash_input l = hash_input k -> l = k.
Proof.
  intros Hl. revert k. induction Hl as [|[n c] l Hn Hl IH]; intros k Hk E.
  - destruct Hk as [|[n' c'] k Hn' Hk]; [done|]. cbn in E. unfold artifact_bytes in E.
    by destruct n'.
  - destruct Hk as [|[n' c'] k Hn' Hk].
    + cbn in E. unfold artifact_bytes in E. by destruct n.
    + cbn [hash_input] in E. cbn in Hn, Hn'.
      apply artifact_bytes_inj in E as (-> & -> & E); [|done..]. f_equal. by apply IH.
Qed.
End HashInput.

(** What is hashed of the files beside a declaration tells the names and
    the contents apart: two directories whose file names hold no line break and
    whose hashed texts are equal hold the same files, so a plan that sees no
    change in the hash misses none short of a collision of SHA-256. *)
Theorem hash_covers_artifacts (e1 e2 : gmap string leaf) :
  Forall (fun f => contains_byte newline f.1 = false) (files_of e1) ->
  Forall (fun f => contains_byte newline f.1 = false) (files_of e2) ->
  hash_input (files_of e1) = hash_input (files_of e2) ->
  forall name content, e1 !! name = Some (LFile content) <-> e2 !! name = Some (LFile content).
Proof.
  intros H1 H2 E. apply hash_input_inj in E; [|done..].
  assert (Hin : forall (e : gmap string leaf) name content,
    (name, content) ∈ files_of e <-> e !! name = Some (LFile content)).
  { intros e name content. unfold files_of. rewrite list_elem_of_omap. split.
    - intros ([k [c|b]] & Hk & [= -> ->]). unfold ReadDir in Hk. rewrite merge_sort_Permutation in Hk.
      by apply elem_of_map_to_list.
    - intros Hl. exists (name, LFile content). split; [|done]. unfold ReadDir.
      rewrite merge_sort_Permutation. by apply elem_of_map_to_list. }
  intros name content. by rewrite <- !Hin, E.
Qed.

(** ** Loading the services directory *)
Section Load.
Context `{FiloEngine} `{!FiloType Service} `{Sha256}.

Lemma with_ConfigHash_wf s h : WellFormed s -> WellFormed (with_ConfigHash s h).
Proof. intros []. by constructor. Qed.

Lemma suffix_app name x : HasSuffix (name +:+ x) x = true /\ TrimSuffix (name +:+ x) x = name.
Proof.
  pose proof (HasSuffix_app name x) as Hs. split; [done|]. unfold TrimSuffix. rewrite Hs, app_string_length.
  replace (String.length name + String.length x - String.length x)%nat with (String.length name) by lia.
  apply take_bytes_all.
Qed.

Lemma suffix_split base x : HasSuffix base x = true -> base = TrimSuffix base x +:+ x.
Proof.
  intros Hs. unfold TrimSuffix. rewrite Hs. unfold HasSuffix in Hs. bool_hyps.
  pose proof (take_drop_bytes (String.length base - String.length x) base) as T.
  match goal with E : drop_bytes _ _ = x |- _ => rewrite E in T end. done.
Qed.

Lemma ParseFile_ok base dir s :
  ParseFile base dir = Ok s -> Name s = TrimSuffix base Extension /\ WellFormed s /\
  exists data, (d ← dir; d !! base) = Some (NFile data).
Proof.
  unfold ParseFile. destruct (d ← dir; d !! base) as [[data|m]|] eqn:Ed; [|done..].
  intros E. destruct (Parse base data) as [s0|] eqn:Ep; [|done]. cbn in E.
  destruct (String.eqb_spec (Name s0) (TrimSuffix base Extension)); [|done]. cbn in E. injection E as <-.
  split; [done|]. split; [|eauto]. unfold Parse in Ep. destruct (Decode _ _ _) as [s1|]; [|done]. cbn in Ep.
  destruct (normalize s1) as [s2|] eqn:En; [|done]. injection Ep as <-. by eapply normalize_wf.
Qed.

(** A service that is loaded, by its name. *)
Definition loads (dir : Dir) (s : Service) : Prop :=
  exists s0 hash, ParseFile (Name s +:+ Extension) dir = Ok s0 /\
    hashArtifacts (d ← dir; d !! (Name s +:+ ArtifactSuffix)) = Ok hash /\ s = with_ConfigHash s0 hash.

Lemma load_entry_ok dir e s :
  load_entry dir e = Some (Ok s) -> e.1 = Name s +:+ Extension /\ loads dir s.
Proof.
  unfold load_entry. destruct (is_dir e.2 || negb (HasSuffix e.1 Extension)) eqn:Eb; [done|].
  bool_hyps. intros [= E]. destruct (ParseFile e.1 dir) as [s0|] eqn:Ep; [|done]. cbn in E.
  destruct (hashArtifacts _) as [h|] eqn:Eh; [|done]. cbn in E. injection E as <-.
  destruct (ParseFile_ok _ _ _ Ep) as (Hn & _ & _).
  assert (Hb : e.1 = Name s0 +:+ Extension) by (rewrite Hn; by apply suffix_split).
  split; [exact Hb|]. exists s0, h. cbn [Name with_ConfigHash]. rewrite <- Hb. done.
Qed.

Lemma loads_entry d s :
  loads (Some d) s -> exists n, (Name s +:+ Extension, n) ∈ ReadDir d /\
    load_entry (Some d) (Name s +:+ Extension, n) = Some (Ok s).
Proof.
  intros (s0 & hash & Hp & Hh & Hs). destruct (ParseFile_ok _ _ _ Hp) as (Hn & _ & data & Hd).
  cbn in Hd. exists (NFile data). split.
  { unfold ReadDir. rewrite merge_sort_Permutation. by apply elem_of_map_to_list. }
  unfold load_entry. cbn [is_dir fst snd]. rewrite (proj1 (suffix_app _ _)). cbn [orb negb].
  rewrite Hp. assert (En : Name s0 = Name s) by (rewrite Hn; apply suffix_app).
  simpl in Hh |- *. rewrite En, Hh. simpl. by rewrite Hs.
Qed.

Lemma in_okays {A} (l : list (result A)) a : a ∈ okays l <-> Ok a ∈ l.
Proof.
  unfold okays. rewrite list_elem_of_omap. split; [|by exists (Ok a)].
  intros ([b|e] & Hb & E); [|done]. by injection E as ->.
Qed.

Lemma in_load d s : s ∈ (LoadDir (Some d)).1 <-> loads (Some d) s.
Proof.
  unfold LoadDir. cbn [fst]. rewrite merge_sort_Permutation, in_okays, list_elem_of_omap. split.
  - intros (e & _ & He). by apply load_entry_ok in He as [_ ?].
  - intros Hl. apply loads_entry in Hl as (n & Hin & He). eauto.
Qed.

#[local] Instance service_le_total : Total service_le.
Proof. intros a b. apply (total String.le). Qed.
#[local] Instance service_le_trans : Transitive service_le.
Proof. intros a b c. apply (transitivity (R := String.le)). Qed.

Lemma okays_names dir es :
  NoDup es.*1 -> NoDup (Name <$> okays (omap (load_entry dir) es)).
Proof.
  induction es as [|e es IH]; [constructor|]. rewrite fmap_cons. intros [He Hnd]%NoDup_cons. cbn [omap list_omap].
  destruct (load_entry dir e) as [[s|x]|] eqn:El; [|by apply IH..]. cbn [okays omap list_omap fmap list_fmap].
  apply NoDup_cons. split; [|by apply IH]. intros (s' & E & Hs')%list_elem_of_fmap. apply He.
  change (omap _ ?l) with (okays l) in Hs'. apply in_okays, list_elem_of_omap in Hs' as (e' & He' & El').
  apply load_entry_ok in El as [-> _]. apply load_entry_ok in El' as [E' _]. rewrite E, <- E'.
  by apply list_elem_of_fmap_2.
Qed.

(** Loading the services directory answers, in order of name and each name
    once, exactly the services whose file reads, is accepted and is named after
    them, each well formed and with the hash of the files beside it; a problem
    is reported exactly when some declaration could not be loaded, and does not
    hide the others. *)
Theorem load_dir_exact d :
  (forall s, s ∈ (LoadDir (Some d)).1 <-> loads (Some d) s) /\
  (forall s, s ∈ (LoadDir (Some d)).1 -> WellFormed s) /\
  NoDup (Name <$> (LoadDir (Some d)).1) /\ StronglySorted service_le (LoadDir (Some d)).1 /\
  ((LoadDir (Some d)).2 = None <->
   forall base n, d !! base = Some n -> is_dir n = false -> HasSuffix base Extension = true ->
     exists s, load_entry (Some d) (base, n) = Some (Ok s)).
Proof.
  split_and!.
  - apply in_load.
  - intros s (s0 & h & Hp & _ & ->)%in_load. apply with_ConfigHash_wf. by apply ParseFile_ok in Hp as (_ & ? & _).
  - unfold LoadDir. cbn [fst]. rewrite merge_sort_Permutation. apply okays_names.
    unfold ReadDir. rewrite merge_sort_Permutation. apply NoDup_fst_map_to_list.
  - apply StronglySorted_merge_sort; apply _.
  - unfold LoadDir. cbn [snd]. unfold problems_error.
    assert (Herr : errs (omap (load_entry (Some d)) (ReadDir d)) = [] <->
      forall e x, e ∈ ReadDir d -> load_entry (Some d) e <> Some (Err x)).
    { unfold errs. split.
      - intros E e x He Hl. assert (Hx : x ∈ ([] : list error)); [|by apply elem_of_nil in Hx].
        rewrite <- E. apply list_elem_of_omap. exists (Err x). split; [|done]. apply list_elem_of_omap. eauto.
      - intros Hno. apply elem_of_nil_inv. intros x (r & Hr & E)%list_elem_of_omap.
        apply list_elem_of_omap in Hr as (e & He & Hl). destruct r as [a|y]; [done|].
        by apply (Hno e y). }
    assert (Hdec : forall base n, d !! base = Some n <-> (base, n) ∈ ReadDir d).
    { intros base n. unfold ReadDir. by rewrite merge_sort_Permutation, elem_of_map_to_list. }
    split.
    + intros Hp base n Hn Hdir Hs. destruct (errs _) eqn:E; [|done].
      pose proof (proj1 Herr eq_refl (base, n)) as Hno.
      destruct (load_entry (Some d) (base, n)) as [[s|x]|] eqn:El; [eauto| |].
      * by destruct (Hno x); [apply Hdec|].
      * unfold load_entry in El. cbn in El. rewrite Hdir, Hs in El. done.
    + intros Hall. destruct (errs _) eqn:E; [done|]. exfalso.
      enough (Hno : e :: l = []) by done.
      apply Herr. intros [base n] x He Hl. apply Hdec in He.
      unfold load_entry in Hl. cbn [fst snd] in Hl.
      destruct (is_dir n) eqn:Hdir; [done|]. destruct (HasSuffix base Extension) eqn:Hs; [|done].
      destruct (Hall base n He Hdir Hs) as [s Hs']. unfold load_entry in Hs'. cbn [fst snd] in Hs'.
      rewrite Hdir, Hs in Hs'. congruence.
Qed.
End Load.

Definition files_a : gmap string leaf := {["Caddyfile" := LFile "localhost"; "cache" := LDir true]}.
Definition files_b : gmap string leaf := {["Caddyfile" := LFile "localhost"]}.

Lemma hash_covers_artifacts_witness : files_b !! "Caddyfile" = Some (LFile "localhost").
Proof.
  refine (proj1 (hash_covers_artifacts files_a files_b _ _ _ "Caddyfile" "localhost") _);
    [vm_compute; repeat constructor|vm_compute; repeat constructor|vm_compute; reflexivity|vm_compute; reflexivity].
Defined.
