(* ===== verification/LogDatabase.v ===== *)
(** * LogDatabase: the log store

    src/logs/store.go and src/logs/record.go.  The table is a finite map from
    the primary key to a row; the statements the source gives to SQLite are
    written out as what SQL says they do.  Full-text matching is SQLite's own
    and a parameter.  Append is three steps — the sequence number, the delivery
    to the watchers, the queue — because callers interleave between them. *)
From S2P Require Import Prelude GoText GoTime Runtime.
From Stdlib Require Import Ascii.
Open Scope string_scope.
Open Scope list_scope.
Open Scope Z_scope.
Import Logs.

Definition DefaultRetention : Z := 14 * Day.
Definition DefaultMaxRows : Z := 2000000.
Definition batchSize : Z := 256.
Definition queueDepth : Z := 8192.

Record Options := MkOptions { Retention : Z; MaxRows : Z }.
Definition withDefaults (o : Options) : Options :=
  MkOptions (if Retention o <=? 0 then DefaultRetention else Retention o)
            (if MaxRows o <=? 0 then DefaultMaxRows else MaxRows o).

(** How a message reads, and SQLite's MATCH of a query against a text. *)
Class TextSearch := {
  render : Msg -> string;
  fts_match : string -> string -> bool;
}.

Record Query := MkQuery {
  q_Service : string;
  q_Stream : string;
  q_Kind : string;
  q_Run : string;
  q_Match : string;
  q_Limit : Z;
  q_Since : Z;
}.

(** An empty field asks for nothing. *)
Definition asks (field value : string) : bool := String.eqb field "" || String.eqb value field.

Section Filters.
Context `{TextSearch}.

Definition Matches (q : Query) (r : Record_) : bool :=
  asks (q_Service q) (r_Service r) && asks (q_Stream q) (r_Stream r) &&
  asks (q_Kind q) (r_Kind r) && asks (q_Run q) (r_Run r) &&
  negb ((0 <? q_Since q) && (r_Seq r <=? q_Since q)) &&
  (String.eqb (q_Match q) "" || Contains (ToLower (render (r_Text r))) (ToLower (q_Match q))).

(** strings.ReplaceAll(match, quote, quote quote) between quotes, and a star *)
Definition quote : ascii := chr 34.
Fixpoint double_quotes (s : string) : string :=
  match s with
  | "" => ""
  | String c s' => if Ascii.eqb c quote then String quote (String quote (double_quotes s')) else String c (double_quotes s')
  end.
Definition ftsQuery (match_ : string) : string :=
  String quote (double_quotes match_ +:+ String quote "*").

(** The WHERE clause of Search. *)
Definition search_where (q : Query) (r : Record_) : bool :=
  asks (q_Service q) (r_Service r) && asks (q_Stream q) (r_Stream r) &&
  asks (q_Kind q) (r_Kind r) && asks (q_Run q) (r_Run r) &&
  negb ((0 <? q_Since q) && (r_Seq r <=? q_Since q)) &&
  (String.eqb (q_Match q) "" || fts_match (ftsQuery (q_Match q)) (render (r_Text r))).
End Filters.

(** ** The store *)
Record Watcher := MkWatcher { capacity : Z; delivered : list Record_ }.

Record DB := MkDB {
  rows : gmap Z Record_;
  seq : Z;
  queue : list Record_;
  batch : list Record_;
  dropped : Z;
  reported_ : Z;
  watchers : gmap Z Watcher;
  nextID : Z;
  delivering : list Record_;
  queuing : list Record_;
}.

Definition no_record : Record_ := MkRecord 0 zero_time "" "" "" "" (Lit "").

Definition with_seq (r : Record_) (n : Z) (t : Time) : Record_ :=
  MkRecord n t (r_Service r) (r_Stream r) (r_Kind r) (r_Run r) (r_Text r).

(** Append, first step: the time and the sequence number. *)
Definition append_number (now : Time) (r : Record_) (s : DB) : Record_ * DB :=
  let r := with_seq r (seq s + 1) (if IsZero (r_Time r) then now else r_Time r) in
  (r, MkDB (rows s) (seq s + 1) (queue s) (batch s) (dropped s) (reported_ s) (watchers s) (nextID s)
        (r :: delivering s) (queuing s)).

(** A send that never blocks: a full follower loses the line. *)
Definition deliver (r : Record_) (w : Watcher) : Watcher :=
  if Z.of_nat (length (delivered w)) <? capacity w then MkWatcher (capacity w) (delivered w ++ [r]) else w.

(** Second step: the delivery, under the lock. *)
Definition append_deliver (r : Record_) (rest : list Record_) (s : DB) : DB :=
  MkDB (rows s) (seq s) (queue s) (batch s) (dropped s) (reported_ s) (deliver r <$> watchers s) (nextID s)
    rest (r :: queuing s).

(** Third step: the queue, or the count of the lost. *)
Definition append_queue (r : Record_) (rest : list Record_) (s : DB) : DB :=
  if Z.of_nat (length (queue s)) <? queueDepth
  then MkDB (rows s) (seq s) (queue s ++ [r]) (batch s) (dropped s) (reported_ s) (watchers s) (nextID s)
         (delivering s) rest
  else MkDB (rows s) (seq s) (queue s) (batch s) (dropped s + 1) (reported_ s) (watchers s) (nextID s)
         (delivering s) rest.

(** Append, run without interruption. *)
Definition Append (now : Time) (r : Record_) (s : DB) : Record_ * DB :=
  let '(r, s1) := append_number now r s in
  (r, append_queue r (queuing s) (append_deliver r (delivering s) s1)).

(** What a row keeps of a record: the time in milliseconds. *)
Definition stored (r : Record_) : Record_ := with_seq r (r_Seq r) (of_unix_milli (UnixMilli (r_Time r))).

(** INSERT of a batch in one transaction: a key that is taken fails it whole. *)
Fixpoint insert_rows (l : list Record_) (m : gmap Z Record_) : option (gmap Z Record_) :=
  match l with
  | [] => Some m
  | r :: l' => match m !! r_Seq r with
               | Some _ => None
               | None => insert_rows l' (<[r_Seq r := stored r]> m)
               end
  end.

(** flush: the batch is written or counted as lost; [fails] is the disk's. *)
Definition flush (fails : bool) (s : DB) : DB :=
  let lost := MkDB (rows s) (seq s) (queue s) [] (dropped s + Z.of_nat (length (batch s))) (reported_ s)
                (watchers s) (nextID s) (delivering s) (queuing s) in
  if fails then lost
  else match insert_rows (batch s) (rows s) with
       | None => lost
       | Some m => MkDB m (seq s) (queue s) [] (dropped s) (reported_ s) (watchers s) (nextID s)
                     (delivering s) (queuing s)
       end.

(** The writer takes one line, and flushes a full batch. *)
Definition take_line (fails : bool) (s : DB) : DB :=
  match queue s with
  | [] => s
  | r :: q =>
      let s := MkDB (rows s) (seq s) q (batch s ++ [r]) (dropped s) (reported_ s) (watchers s) (nextID s)
                 (delivering s) (queuing s) in
      if batchSize <=? Z.of_nat (length (batch s)) then flush fails s else s
  end.

(** The writer drains the queue and flushes: what Flush waits for. *)
Definition Flush (fails : bool) (s : DB) : DB :=
  flush fails (MkDB (rows s) (seq s) [] (batch s ++ queue s) (dropped s) (reported_ s) (watchers s) (nextID s)
                 (delivering s) (queuing s)).

(** ** Reading *)
Definition seq_le (a b : Record_) : Prop := r_Seq a <= r_Seq b.
#[export] Instance seq_le_dec a b : Decision (seq_le a b).
Proof. unfold seq_le. apply _. Defined.

(** The rows in the order of their key. *)
Definition by_seq (m : gmap Z Record_) : list Record_ := merge_sort seq_le (map_to_list m).*2.

Record Faults := MkFaults { write_fails : bool; read_fails : bool }.

Section Reading.
Context `{TextSearch}.

Definition search_limit (q : Query) : nat := if q_Limit q <=? 0 then 200%nat else Z.to_nat (q_Limit q).

(** SELECT ... ORDER BY seq DESC LIMIT ?, and the reversal. *)
Definition Search_rows (q : Query) (m : gmap Z Record_) : list Record_ :=
  reverse (take (search_limit q) (reverse (filter (fun r => Is_true (search_where q r)) (by_seq m)))).

(** What the disk under the store does: the flush fails, the query fails. *)
Definition Search (disk : Faults) (q : Query) (s : DB) : result (list Record_) * DB :=
  let s := Flush (write_fails disk) s in
  (if read_fails disk then Err (EMsg ("search logs: %w", [])) else Ok (Search_rows q (rows s)), s).

(** SELECT COALESCE(MAX(time_ms), 0) ... WHERE service = ? AND stream IN (?, ?) *)
Definition output_of (service : string) (r : Record_) : bool :=
  String.eqb (r_Service r) service && (String.eqb (r_Stream r) StreamOut || String.eqb (r_Stream r) StreamErr).
Definition newest_output (service : string) (l : list Record_) : Z :=
  match filter (fun r => Is_true (output_of service r)) l with
  | [] => 0
  | r :: l' => foldl (fun m r => Z.max m (UnixMilli (r_Time r))) (UnixMilli (r_Time r)) l'
  end.

Definition resume_at (newest : Z) : Time :=
  if newest =? 0 then zero_time else Add (of_unix_milli newest) Millisecond.

Definition LastAt_rows (service : string) (m : gmap Z Record_) : Time :=
  resume_at (newest_output service (by_seq m)).
Definition LastAt (disk : Faults) (service : string) (s : DB) : result Time * DB :=
  let s := Flush (write_fails disk) s in
  (if read_fails disk then Err (EMsg ("last line: %w", [])) else Ok (LastAt_rows service (rows s)), s).
End Reading.

(** The interface the supervisor reads, over the timeline it wrote. *)
#[export] Instance database_store : LogStore := {|
  Runtime.LastAt l service := Ok (resume_at (newest_output service (stored <$> l)))
|}.

(** ** Watching, retention and reporting *)
Definition Watch (bufferSize : Z) (s : DB) : Z * DB :=
  let cap := if bufferSize <? 1 then 1 else bufferSize in
  (nextID s, MkDB (rows s) (seq s) (queue s) (batch s) (dropped s) (reported_ s)
               (<[nextID s := MkWatcher cap []]> (watchers s)) (nextID s + 1) (delivering s) (queuing s)).

Definition Unwatch (id : Z) (s : DB) : DB :=
  MkDB (rows s) (seq s) (queue s) (batch s) (dropped s) (reported_ s) (delete id (watchers s)) (nextID s)
    (delivering s) (queuing s).

(** DELETE FROM entries WHERE time_ms < cutoff *)
Definition drop_old (cutoff : Z) (m : gmap Z Record_) : gmap Z Record_ :=
  filter (fun kr => cutoff <= UnixMilli (r_Time kr.2)) m.

(** DELETE FROM entries WHERE seq <= (SELECT seq ... ORDER BY seq DESC LIMIT 1
    OFFSET max): a subquery without a row is NULL and deletes nothing. *)
Definition drop_excess (max : Z) (m : gmap Z Record_) : gmap Z Record_ :=
  match reverse (by_seq m) !! Z.to_nat max with
  | None => m
  | Some r => filter (fun kr => r_Seq r < kr.1) m
  end.

(** [fails_old] and [fails_excess]: the statement fails and the sweep returns. *)
Definition swept_rows (opts : Options) (now : Time) (fails_old fails_excess : bool) (m : gmap Z Record_) : gmap Z Record_ :=
  let cutoff := UnixMilli (Add now (- Retention opts)) in
  if fails_old then m
  else if fails_excess then drop_old cutoff m
  else drop_excess (MaxRows opts) (drop_old cutoff m).
Definition sweep (opts : Options) (now : Time) (fails_old fails_excess : bool) (s : DB) : DB :=
  MkDB (swept_rows opts now fails_old fails_excess (rows s)) (seq s) (queue s) (batch s) (dropped s)
    (reported_ s) (watchers s) (nextID s) (delivering s) (queuing s).

Definition lost_record (lost : Z) : Record_ :=
  MkRecord 0 zero_time "hostd" StreamEvent EventLogDropped ""
    ("lost %d log lines since the last report: the writer could not keep up or could not write", [AInt lost]).

Definition reportDropped (now : Time) (s : DB) : DB :=
  if dropped s =? reported_ s then s
  else (Append now (lost_record (dropped s - reported_ s))
         (MkDB (rows s) (seq s) (queue s) (batch s) (dropped s) (dropped s) (watchers s) (nextID s)
            (delivering s) (queuing s))).2.

(** SELECT COALESCE(MAX(seq), 0) FROM entries *)
Definition highest (m : gmap Z Record_) : Z := foldl Z.max 0 (map_to_list m).*1.
Definition Open (m : gmap Z Record_) : DB := MkDB m (highest m) [] [] 0 0 ∅ 0 [] [].

(** Close: the writer drains the queue, writes, and returns; what is queued after
    that stays where it is. *)
Definition Close (fails : bool) (s : DB) : DB := Flush fails s.

(** len(s.queue) and the count of the lost. *)
Record Stats := MkStats { Queued : Z; Dropped : Z }.
Definition log_stats (s : DB) : Stats := MkStats (Z.of_nat (length (queue s))) (dropped s).

(** ** A table an older hostd made *)
(** The names of its columns, in order, and each row as what it holds under
    them. *)
Record Table := MkTable { tb_Columns : list string; tb_Rows : list (gmap string string) }.
(** A column the schema has and an older one had not, and its default. *)
Definition columns : list (string * string) := [("run", "")].

Section Migration.
(** Whether reading the names of the columns fails, and adding one. *)
Context (reads : option error) (alters : string -> option error).

(** ALTER TABLE entries ADD COLUMN: every row has the default there. *)
Definition add_column (c : string * string) : ST Table (result unit) := fun t =>
  match alters c.1 with
  | Some e => (Err e, t)
  | None => (Ok tt, MkTable (tb_Columns t ++ [c.1]) ((fun row => <[c.1 := c.2]> row) <$> tb_Rows t))
  end.
Definition addColumns : ST Table (result unit) :=
  match reads with
  | Some e => mret (Err e)
  | None =>
      present ← gets tb_Columns;
      for_eachE columns (fun c => if bool_decide (c.1 ∈ present) then mret (Ok tt) else add_column c)
  end.
End Migration.

(** ** The store under its callers

    Appenders are anywhere between their three steps; the writer goroutine
    takes, flushes, sweeps and reports.  [n] counts the rows sweeps removed. *)
Inductive log_step (opts : Options) : DB * Z -> DB * Z -> Prop :=
  | step_number now r s n : log_step opts (s, n) ((append_number now r s).2, n)
  | step_deliver r l1 l2 s n : delivering s = l1 ++ r :: l2 ->
      log_step opts (s, n) (append_deliver r (l1 ++ l2) s, n)
  | step_queue r l1 l2 s n : queuing s = l1 ++ r :: l2 ->
      log_step opts (s, n) (append_queue r (l1 ++ l2) s, n)
  | step_take fails s n : log_step opts (s, n) (take_line fails s, n)
  | step_flush fails s n : log_step opts (s, n) (flush fails s, n)
  | step_drain fails s n : log_step opts (s, n) (Flush fails s, n)
  | step_sweep now f1 f2 s n : log_step opts (s, n)
      (sweep opts now f1 f2 s, n + Z.of_nat (size (rows s)) - Z.of_nat (size (rows (sweep opts now f1 f2 s))))
  | step_report now s n : log_step opts (s, n) (reportDropped now s, n)
  | step_watch b s n : log_step opts (s, n) ((Watch b s).2, n)
  | step_unwatch id s n : log_step opts (s, n) (Unwatch id s, n).
