(* ===== verification/LogProofs.v ===== *)
(** * LogProofs: no line is lost in silence, and a search finds what is there *)
From S2P Require Import Prelude GoText GoTime Runtime LogDatabase.
From Stdlib Require Import Ascii.
Open Scope string_scope.
Open Scope list_scope.
Open Scope Z_scope.
Import Logs.

(** ** Every number is accounted for *)

(** The lines on their way to the table. *)
Definition pool (s : DB) : list Record_ := delivering s ++ queuing s ++ queue s ++ batch s.

Definition keyed (m : gmap Z Record_) : Prop := forall k r, m !! k = Some r -> r_Seq r = k.

Record Sound (base : Z) (s : DB) (n : Z) : Prop := {
  snd_unique : NoDup (r_Seq <$> pool s);
  snd_fresh : forall r, r ∈ pool s -> r_Seq r <= seq s /\ rows s !! r_Seq r = None;
  snd_keyed : keyed (rows s);
  snd_below : forall k r, rows s !! k = Some r -> k <= seq s;
  snd_count : seq s = base + Z.of_nat (length (pool s)) + dropped s + Z.of_nat (size (rows s)) + n;
  snd_nonneg : 0 <= dropped s /\ 0 <= n;
}.

(** Moving a line from one place of the pool to another. *)
Lemma Sound_move base s s' n :
  pool s' ≡ₚ pool s -> rows s' = rows s -> seq s' = seq s -> dropped s' = dropped s ->
  Sound base s n -> Sound base s' n.
Proof.
  intros Hp Hr Hs Hd []. constructor; rewrite ?Hr, ?Hs, ?Hd, ?Hp; try done.
  intros r. rewrite Hp. apply snd_fresh0.
Qed.

(** Losing lines of the pool that are counted. *)
Lemma Sound_lose base s s' n lost :
  pool s ≡ₚ lost ++ pool s' -> rows s' = rows s -> seq s' = seq s ->
  dropped s' = dropped s + Z.of_nat (length lost) -> Sound base s n -> Sound base s' n.
Proof.
  intros Hp Hr Hs Hd []. constructor; rewrite ?Hr, ?Hs; try done.
  - rewrite Hp, fmap_app in snd_unique0. by apply NoDup_app in snd_unique0 as (_ & _ & ?).
  - intros r Hin. apply snd_fresh0. rewrite Hp. apply elem_of_app. by right.
  - rewrite Hp, length_app in snd_count0. lia.
  - rewrite Hd. lia.
Qed.

Lemma insert_rows_spec l (m : gmap Z Record_) :
  NoDup (r_Seq <$> l) -> (forall r, r ∈ l -> m !! r_Seq r = None) -> keyed m ->
  exists m', insert_rows l m = Some m' /\ size m' = (size m + length l)%nat /\ keyed m' /\
    (forall k, k ∉ r_Seq <$> l -> m' !! k = m !! k) /\
    forall r, r ∈ l -> m' !! r_Seq r = Some (stored r).
Proof.
  revert m. induction l as [|r l IH]; intros m Hnd Hf Hk.
  { exists m. cbn. split_and!; [done|lia|done|done|]. intros r Hr. by apply elem_of_nil in Hr. }
  rewrite fmap_cons in *. apply NoDup_cons in Hnd as [Hr Hnd]. cbn [insert_rows].
  rewrite (Hf r) by left.
  destruct (IH (<[r_Seq r := stored r]> m)) as (m' & E & Hsz & Hk' & Ho & Hin).
  - done.
  - intros x Hx. rewrite lookup_insert_ne; [apply Hf; by right|]. intros E. apply Hr. rewrite E.
    by apply list_elem_of_fmap_2.
  - intros k x [[<- <-]|[_ Hx]]%lookup_insert_Some; [done|by apply Hk].
  - exists m'. rewrite E. split_and!; [done| |done| |].
    + rewrite Hsz, map_size_insert_None by (apply Hf; left). cbn. lia.
    + intros k Hkn. apply not_elem_of_cons in Hkn as [Hne Hkl]. rewrite Ho by done. by apply lookup_insert_ne.
    + intros x [->|Hx]%elem_of_cons; [|by apply Hin]. rewrite Ho by done. apply lookup_insert_eq.
Qed.

Lemma flush_sound base fails s n : Sound base s n -> Sound base (flush fails s) n.
Proof.
  intros Hs. unfold flush.
  assert (Hp : pool s ≡ₚ batch s ++ (delivering s ++ queuing s ++ queue s ++ [])).
  { unfold pool. rewrite app_nil_r.
    transitivity ((delivering s ++ queuing s ++ queue s) ++ batch s); [by rewrite <- !app_assoc|].
    apply Permutation_app_comm. }
  destruct fails; [by eapply Sound_lose|].
  destruct Hs as [Hu Hf Hk Hb Hc Hn0]. rewrite Hp, fmap_app in Hu. apply NoDup_app in Hu as (Hub & Hdis & Hur).
  destruct (insert_rows_spec (batch s) (rows s)) as (m & E & Hsz & Hk' & Ho & Hin); [done| |done|].
  { intros r Hr. apply Hf. rewrite Hp. apply elem_of_app. by left. }
  rewrite E. constructor; cbn.
  - exact Hur.
  - intros r Hr. destruct (Hf r) as [Hle Hnone]; [rewrite Hp; apply elem_of_app; by right|].
    split; [done|]. rewrite Ho; [done|]. intros Hb2. apply (Hdis _ Hb2). by apply list_elem_of_fmap_2.
  - exact Hk'.
  - intros k r Hm. destruct (decide (k ∈ r_Seq <$> batch s)) as [(x & -> & Hx)%list_elem_of_fmap|Hn].
    + apply Hf. rewrite Hp. apply elem_of_app. by left.
    + rewrite Ho in Hm by done. by eapply Hb.
  - rewrite Hp, length_app in Hc. rewrite Hsz. unfold pool. cbn in *. lia.
  - exact Hn0.
Qed.

Lemma number_sound base now r s n : Sound base s n -> Sound base (append_number now r s).2 n.
Proof.
  intros [Hu Hf Hk Hb Hc Hn0]. constructor; cbn.
  - apply NoDup_cons. split; [|exact Hu]. intros (x & E & Hx)%list_elem_of_fmap.
    destruct (Hf x Hx) as [Hle _]. lia.
  - intros x [->|Hx]%elem_of_cons.
    + cbn. split; [lia|]. destruct (rows s !! (seq s + 1)) eqn:E; [|done]. apply Hb in E. lia.
    + destruct (Hf x Hx). split; [lia|done].
  - exact Hk.
  - intros k x Hx. apply Hb in Hx. lia.
  - unfold pool in *. cbn. lia.
  - exact Hn0.
Qed.

Lemma deliver_sound base r l1 l2 s n :
  delivering s = l1 ++ r :: l2 -> Sound base s n -> Sound base (append_deliver r (l1 ++ l2) s) n.
Proof.
  intros E. apply Sound_move; [|done..]. unfold pool. cbn. rewrite E. rewrite <- !app_assoc. cbn.
  by rewrite !Permutation_middle.
Qed.

Lemma queue_sound base r l1 l2 s n :
  queuing s = l1 ++ r :: l2 -> Sound base s n -> Sound base (append_queue r (l1 ++ l2) s) n.
Proof.
  intros E. unfold append_queue. destruct (_ <? _).
  - apply Sound_move; [|done..]. unfold pool. cbn. rewrite E. rewrite <- !app_assoc. cbn.
    by rewrite !Permutation_middle.
  - apply (Sound_lose base _ _ _ [r]); try done. unfold pool. cbn. rewrite E. rewrite <- !app_assoc. cbn.
    by rewrite !Permutation_middle.
Qed.

Lemma Append_sound base now r s n : Sound base s n -> Sound base (Append now r s).2 n.
Proof.
  intros Hs. apply (number_sound base now r) in Hs. unfold Append.
  destruct (append_number now r s) as [r1 s1] eqn:E. injection E as <- <-. cbn [snd] in *.
  set (r1 := with_seq _ _ _) in *. eapply (queue_sound base r1 [] (queuing s)); [done|].
  by eapply (deliver_sound base r1 [] (delivering s)) in Hs.
Qed.

(** ** The rows in order *)
Definition seq_lt (a b : Record_) : Prop := r_Seq a < r_Seq b.

Lemma last_n_reverse {A} n (l : list A) : reverse (take n (reverse l)) = last_n n l.
Proof. rewrite take_reverse, reverse_involutive. done. Qed.

Lemma rows_of_keyed (m : gmap Z Record_) r : keyed m -> r ∈ (map_to_list m).*2 <-> m !! r_Seq r = Some r.
Proof.
  intros Hk. rewrite list_elem_of_fmap. split.
  - intros ([k x] & -> & Hx). apply elem_of_map_to_list in Hx. cbn. by rewrite (Hk _ _ Hx).
  - intros E. exists (r_Seq r, r). split; [done|]. by apply elem_of_map_to_list.
Qed.

Lemma by_seq_elem m r : keyed m -> r ∈ by_seq m <-> m !! r_Seq r = Some r.
Proof. intros Hk. unfold by_seq. rewrite merge_sort_Permutation. by apply rows_of_keyed. Qed.

Lemma length_by_seq m : length (by_seq m) = size m.
Proof. unfold by_seq. rewrite (Permutation_length (merge_sort_Permutation _ _)), length_fmap. apply length_map_to_list. Qed.

Lemma seqs_of_keyed (m : gmap Z Record_) : keyed m -> r_Seq <$> (map_to_list m).*2 = (map_to_list m).*1.
Proof.
  intros Hk. rewrite <- list_fmap_compose. apply list_fmap_ext. intros i [k r] Hi.
  apply list_elem_of_lookup_2, elem_of_map_to_list in Hi. cbn. by apply Hk.
Qed.

#[export] Instance seq_le_trans : Transitive seq_le.
Proof. intros a b c. unfold seq_le. lia. Qed.
#[export] Instance seq_le_total : Total seq_le.
Proof. intros a b. unfold seq_le. lia. Qed.

Lemma strictly_sorted l : StronglySorted seq_le l -> NoDup (r_Seq <$> l) -> StronglySorted seq_lt l.
Proof.
  induction 1 as [|a l Hs IH Ha]; [constructor|]. rewrite fmap_cons. intros [Hn Hnd]%NoDup_cons.
  constructor; [by apply IH|]. apply Forall_forall. intros b Hb. rewrite Forall_forall in Ha.
  specialize (Ha b Hb). unfold seq_le, seq_lt in *.
  assert (r_Seq a <> r_Seq b) by (intros E; apply Hn; rewrite E; by apply list_elem_of_fmap_2). lia.
Qed.

Lemma by_seq_sorted m : keyed m -> StronglySorted seq_lt (by_seq m).
Proof.
  intros Hk. apply strictly_sorted.
  - apply StronglySorted_merge_sort; apply _.
  - unfold by_seq. rewrite merge_sort_Permutation, seqs_of_keyed by done. apply NoDup_fst_map_to_list.
Qed.

Lemma sorted_filter (P : Record_ -> Prop) `{!forall x, Decision (P x)} l :
  StronglySorted seq_lt l -> StronglySorted seq_lt (filter P l).
Proof.
  induction 1 as [|a l Hs IH Ha]; [constructor|]. rewrite filter_cons. case_decide; [|done].
  constructor; [done|]. rewrite Forall_forall in *. intros b [_ Hb]%list_elem_of_filter. by apply Ha.
Qed.

Lemma length_last_full {A} n (l : list A) x : x ∈ l -> x ∉ last_n n l -> length (last_n n l) = n.
Proof.
  intros Hx Hn. rewrite length_last_n. destruct (Nat.le_gt_cases n (length l)) as [|Hlt]; [lia|].
  destruct Hn. by rewrite last_n_all by lia.
Qed.

(** The newest [n] of a sorted list: ordered, and everything else is older. *)
Lemma newest_of_sorted n l : StronglySorted seq_lt l ->
  StronglySorted seq_lt (last_n n l) /\
  (forall r, r ∈ last_n n l -> r ∈ l) /\
  (forall r r', r ∈ l -> r ∉ last_n n l -> r' ∈ last_n n l -> seq_lt r r').
Proof.
  intros Hs. destruct (last_n_suffix n l) as [j E]. pose proof Hs as Hs'. rewrite E in Hs'. split_and!.
  - eapply StronglySorted_app_1_r. exact Hs'.
  - intros r Hr. rewrite E. apply elem_of_app. by right.
  - intros r r' Hr Hn Hr'. rewrite E in Hr. apply elem_of_app in Hr as [Hr|Hr]; [|done].
    by eapply StronglySorted_app_1_elem_of.
Qed.

(** ** The invariant over the life of a store *)
Lemma drop_excess_subseteq max m : drop_excess max m ⊆ m.
Proof. unfold drop_excess. destruct (_ !! _); [apply map_filter_subseteq|done]. Qed.

Lemma swept_subseteq opts now f1 f2 m : swept_rows opts now f1 f2 m ⊆ m.
Proof.
  unfold swept_rows. destruct f1, f2; try done; try apply map_filter_subseteq.
  etransitivity; [apply drop_excess_subseteq|apply map_filter_subseteq].
Qed.

Lemma keyed_subseteq m m' : m' ⊆ m -> keyed m -> keyed m'.
Proof. intros Hsub Hk k r Hr. apply Hk. by eapply lookup_weaken. Qed.

Lemma sweep_sound base opts now f1 f2 s n : Sound base s n ->
  Sound base (sweep opts now f1 f2 s) (n + Z.of_nat (size (rows s)) - Z.of_nat (size (rows (sweep opts now f1 f2 s)))).
Proof.
  intros [Hu Hf Hk Hb Hc Hn0]. pose proof (swept_subseteq opts now f1 f2 (rows s)) as Hsub.
  constructor; cbn [rows sweep seq dropped].
  - exact Hu.
  - intros r Hr. destruct (Hf r Hr). split; [done|]. by eapply lookup_weaken_None.
  - by eapply keyed_subseteq.
  - intros k r Hr. eapply Hb, lookup_weaken; done.
  - change (pool (sweep opts now f1 f2 s)) with (pool s). lia.
  - apply map_subseteq_size in Hsub. lia.
Qed.

Lemma take_sound base fails s n : Sound base s n -> Sound base (take_line fails s) n.
Proof.
  intros Hs. unfold take_line. destruct (queue s) as [|r q] eqn:Eq; [done|].
  match goal with |- Sound _ (if _ then flush _ ?t else _) _ => assert (Ht : Sound base t n) end.
  { revert Hs. apply Sound_move; [|done..]. unfold pool. cbn. rewrite Eq. cbn. by rewrite !Permutation_middle, <- Permutation_cons_append. }
  case_match; [by apply flush_sound|done].
Qed.

Lemma drain_sound base fails s n : Sound base s n -> Sound base (Flush fails s) n.
Proof.
  intros Hs. unfold Flush. apply flush_sound. revert Hs. apply Sound_move; [|done..].
  unfold pool. cbn. by rewrite (Permutation_app_comm (batch s)).
Qed.

Lemma report_sound base now s n : Sound base s n -> Sound base (reportDropped now s) n.
Proof.
  intros Hs. unfold reportDropped. case_match; [done|]. apply Append_sound. revert Hs. by apply Sound_move.
Qed.

Lemma log_step_sound opts base sn sn' : log_step opts sn sn' -> Sound base sn.1 sn.2 -> Sound base sn'.1 sn'.2.
Proof.
  destruct 1; cbn [fst snd]; intros Hs; [by apply number_sound|by eapply deliver_sound|by eapply queue_sound| | | | | | |];
    eauto using take_sound, flush_sound, drain_sound, sweep_sound, report_sound; revert Hs; by apply Sound_move.
Qed.

Lemma foldl_max_le l b : b <= foldl Z.max b l /\ forall x, x ∈ l -> x <= foldl Z.max b l.
Proof.
  revert b. induction l as [|y l IH]; intros b; cbn.
  { split; [lia|]. intros x Hx. by apply elem_of_nil in Hx. }
  destruct (IH (Z.max b y)) as [H1 H2]. split; [lia|]. intros x [->|Hx]%elem_of_cons; [lia|by apply H2].
Qed.

Lemma open_sound m : keyed m -> Sound (highest m - Z.of_nat (size m)) (Open m) 0.
Proof.
  intros Hk. constructor; cbn.
  - constructor.
  - intros r Hr. by apply elem_of_nil in Hr.
  - done.
  - intros k r Hr. unfold highest. apply foldl_max_le. apply list_elem_of_fmap. exists (k, r). split; [done|].
    by apply elem_of_map_to_list.
  - lia.
  - done.
Qed.

Lemma reachable_sound opts m s n : keyed m -> rtc (log_step opts) (Open m, 0) (s, n) ->
  Sound (highest m - Z.of_nat (size m)) s n.
Proof.
  intros Hk Hsteps.
  pose proof (open_sound m Hk) as H0.
  change (Sound (highest m - Z.of_nat (size m)) (s, n).1 (s, n).2).
  revert Hsteps. apply (rtc_invariant _ (fun sn => Sound _ sn.1 sn.2)); [|exact H0].
  intros a b Ha Hstep. by eapply log_step_sound.
Qed.

(** ** Claims *)

(** What a flush that succeeds leaves in the table. *)
Lemma drained_rows base s n : Sound base s n ->
  dropped (Flush false s) = dropped s /\
  (forall r, r ∈ batch s ++ queue s -> rows (Flush false s) !! r_Seq r = Some (stored r)) /\
  (forall k r, rows s !! k = Some r -> rows (Flush false s) !! k = Some r) /\
  (forall k r, rows (Flush false s) !! k = Some r ->
     rows s !! k = Some r \/ exists x, x ∈ batch s ++ queue s /\ r = stored x).
Proof.
  intros [Hu Hf Hk Hb Hc Hn0]. set (l := batch s ++ queue s).
  assert (Hp : pool s ≡ₚ l ++ (delivering s ++ queuing s)).
  { unfold pool, l. rewrite (Permutation_app_comm (batch s)), app_assoc. apply Permutation_app_comm. }
  assert (Hl : forall r, r ∈ l -> r ∈ pool s) by (intros r Hr; rewrite Hp; apply elem_of_app; by left).
  rewrite Hp, fmap_app in Hu. apply NoDup_app in Hu as (Hub & _ & _).
  destruct (insert_rows_spec l (rows s)) as (m & E & Hsz & Hk' & Ho & Hin); [done| |done|].
  { intros r Hr. by apply Hf, Hl. }
  assert (Em : rows (Flush false s) = m) by (unfold Flush, flush; cbn [batch rows]; fold l; by rewrite E).
  rewrite Em. split_and!.
  - unfold Flush, flush. cbn [batch rows]. fold l. by rewrite E.
  - exact Hin.
  - intros k r Hr. rewrite Ho; [done|]. intros (x & -> & Hx)%list_elem_of_fmap.
    destruct (Hf x (Hl x Hx)) as [_ Hnone]. by rewrite Hnone in Hr.
  - intros k r Hr. destruct (decide (k ∈ r_Seq <$> l)) as [(x & -> & Hx)%list_elem_of_fmap|Hn].
    + right. exists x. split; [done|]. rewrite Hin in Hr by done. by injection Hr.
    + left. by rewrite Ho in Hr.
Qed.

(** C14: No line is lost in silence.  Whatever the order in which appenders,
    writer, sweeper and watchers take their steps, and whichever writes fail:
    the numbers handed out since the store was opened are exactly the lines
    still on their way, those in the table, those a sweep removed, and those
    the lost-lines counter names; no two lines on their way share a number, no
    such number is in the table, and draining the queue puts every queued line
    into the table without adding to the lost. *)
Theorem log_accounting opts m s n :
  keyed m -> rtc (log_step opts) (Open m, 0) (s, n) ->
  seq s - highest m + Z.of_nat (size m) =
    Z.of_nat (length (pool s)) + dropped s + Z.of_nat (size (rows s)) + n /\
  0 <= dropped s /\ 0 <= n /\
  NoDup (r_Seq <$> pool s) /\
  (forall r, r ∈ pool s -> r_Seq r <= seq s /\ rows s !! r_Seq r = None) /\
  (forall k r, rows s !! k = Some r -> r_Seq r = k /\ k <= seq s) /\
  dropped (Flush false s) = dropped s /\
  (forall r, r ∈ batch s ++ queue s -> rows (Flush false s) !! r_Seq r = Some (stored r)) /\
  (forall k r, rows s !! k = Some r -> rows (Flush false s) !! k = Some r).
Proof.
  intros Hk Hr. pose proof (reachable_sound _ _ _ _ Hk Hr) as Hs.
  destruct (drained_rows _ _ _ Hs) as (H1 & H2 & H3 & _). destruct Hs as [Hu Hf Hk' Hb Hc [Hd Hn]].
  split_and!; try done; [lia|]. intros k r E. split; [by apply Hk'|by eapply Hb].
Qed.

Lemma Flush_keyed base s n : Sound base s n -> keyed (rows (Flush false s)).
Proof. intros Hs. by apply (drain_sound _ false) in Hs as [? ? ? ? ? ?]. Qed.

(** C15: A search finds what is there.  On a store reached in any way, the
    result is in strictly ascending order, is no longer than the limit, holds
    only lines of the table that match every field of the query, and a line
    that matches and is not in it is older than all of it, with the limit
    exhausted; and every line queued before the search is in the table
    searched, so a reader finds what it was just told about. *)
Theorem search_exact `{TextSearch} opts m s n q l s' :
  keyed m -> rtc (log_step opts) (Open m, 0) (s, n) -> Search (MkFaults false false) q s = (Ok l, s') ->
  StronglySorted seq_lt l /\ (length l <= search_limit q)%nat /\
  (forall r, r ∈ l -> rows s' !! r_Seq r = Some r /\ search_where q r = true) /\
  (forall r, rows s' !! r_Seq r = Some r -> search_where q r = true -> r ∉ l ->
     length l = search_limit q /\ forall x, x ∈ l -> seq_lt r x) /\
  (forall r, r ∈ batch s ++ queue s -> rows s' !! r_Seq r = Some (stored r)).
Proof.
  intros Hk Hr E. pose proof (reachable_sound _ _ _ _ Hk Hr) as Hs.
  destruct (drained_rows _ _ _ Hs) as (_ & H2 & _ & _). apply Flush_keyed in Hs.
  unfold Search in E. injection E as <- <-. set (m' := rows (Flush false s)) in *.
  unfold Search_rows. rewrite last_n_reverse. set (all := filter (fun r => Is_true (search_where q r)) (by_seq m')).
  assert (Hall : forall r, r ∈ all <-> search_where q r = true /\ m' !! r_Seq r = Some r).
  { intros r. unfold all. rewrite list_elem_of_filter, by_seq_elem by done. by rewrite Is_true_true. }
  destruct (newest_of_sorted (search_limit q) all) as (Ha & Hb & Hc).
  { by apply sorted_filter, by_seq_sorted. }
  split_and!; [done|rewrite length_last_n; lia| | |done].
  - intros r Hin. apply Hb, Hall in Hin as [? ?]. done.
  - intros r Hin Hw Hn. assert (r ∈ all) as Hra by by apply Hall. split.
    + by eapply length_last_full.
    + intros x Hx. by apply Hc.
Qed.

Lemma at_from_end {A} (l : list A) i x : reverse l !! i = Some x ->
  exists j, l = j ++ x :: last_n i l.
Proof.
  intros E. apply reverse_lookup_Some in E as [E Hi]. exists (take (length l - S i) l).
  unfold last_n. rewrite <- (take_drop_middle l (length l - S i) x) at 1 by done. do 3 f_equal. lia.
Qed.

(** What the row ceiling keeps. *)
Lemma drop_excess_lookup max m k r : keyed m ->
  drop_excess max m !! k = Some r <-> r_Seq r = k /\ r ∈ last_n (Z.to_nat max) (by_seq m).
Proof.
  intros Hk. unfold drop_excess. destruct (reverse (by_seq m) !! Z.to_nat max) as [x|] eqn:E.
  - apply at_from_end in E as [j E]. pose proof (by_seq_sorted m Hk) as Hs. rewrite E in Hs.
    rewrite map_lookup_filter_Some. cbn. split.
    + intros [Hm Hlt]. pose proof (Hk _ _ Hm) as Hkr. split; [done|]. subst k.
      apply by_seq_elem in Hm; [|done]. rewrite E in Hm. apply elem_of_app in Hm as [Hm|Hm].
      * assert (seq_lt r x) by (eapply StronglySorted_app_1_elem_of; [exact Hs|done|left]). unfold seq_lt in *. lia.
      * apply elem_of_cons in Hm as [->|Hm]; [lia|done].
    + intros [<- Hin]. split.
      * apply by_seq_elem; [done|]. rewrite E. apply elem_of_app. right. by right.
      * apply StronglySorted_app_1_r in Hs. inversion Hs as [|? ? ? Hall]; subst.
        rewrite Forall_forall in Hall. by apply Hall.
  - apply lookup_ge_None in E. rewrite length_reverse in E. rewrite last_n_all by done. rewrite by_seq_elem by done.
    split; [intros Hm; pose proof (Hk _ _ Hm) as <-; done|by intros [<- ?]].
Qed.

Lemma drop_excess_size max m : keyed m -> size (drop_excess max m) = Nat.min (Z.to_nat max) (size m).
Proof.
  intros Hk. rewrite <- length_by_seq, <- (length_by_seq m), <- length_last_n.
  assert (Hk' : keyed (drop_excess max m)) by (eapply keyed_subseteq; [apply drop_excess_subseteq|done]).
  apply Permutation_length, NoDup_Permutation.
  - eapply (NoDup_fmap_1 r_Seq). unfold by_seq. rewrite merge_sort_Permutation, seqs_of_keyed by done. apply NoDup_fst_map_to_list.
  - destruct (last_n_suffix (Z.to_nat max) (by_seq m)) as [j E].
    assert (NoDup (by_seq m)) as Hnd.
    { eapply (NoDup_fmap_1 r_Seq). unfold by_seq. rewrite merge_sort_Permutation, seqs_of_keyed by done. apply NoDup_fst_map_to_list. }
    rewrite E in Hnd. by apply NoDup_app in Hnd as (_ & _ & ?).
  - intros r. rewrite by_seq_elem by done. rewrite drop_excess_lookup by done. by intuition.
Qed.

(** C16: A sweep bounds the table and takes only what it must.  After one whose
    statements succeed there are at most the configured rows, none older than
    the retention; what stays is unchanged; and a row it removed was older than
    the retention, or the table is at the ceiling with only newer rows. *)
Theorem sweep_bounds o now m m' :
  keyed m -> swept_rows (withDefaults o) now false false m = m' ->
  let cutoff := UnixMilli (Add now (- Retention (withDefaults o))) in
  Z.of_nat (size m') <= MaxRows (withDefaults o) /\
  (forall k r, m' !! k = Some r -> m !! k = Some r /\ cutoff <= UnixMilli (r_Time r)) /\
  (forall k r, m !! k = Some r -> m' !! k = None ->
     UnixMilli (r_Time r) < cutoff \/
     Z.of_nat (size m') = MaxRows (withDefaults o) /\ forall k' r', m' !! k' = Some r' -> k < k').
Proof.
  intros Hk <- cutoff. unfold swept_rows. fold cutoff. set (mx := MaxRows (withDefaults o)).
  assert (Hmx : 0 < mx) by (unfold mx, withDefaults, DefaultMaxRows; cbn; case_match; lia).
  set (m1 := drop_old cutoff m).
  assert (Hk1 : keyed m1) by (eapply keyed_subseteq; [apply map_filter_subseteq|done]).
  rewrite drop_excess_size by done. split_and!.
  - lia.
  - intros k r Hr. eapply lookup_weaken in Hr; [|apply drop_excess_subseteq].
    apply map_lookup_filter_Some in Hr as [? ?]. done.
  - intros k r Hm Hn. destruct (decide (UnixMilli (r_Time r) < cutoff)) as [|Hge]; [by left|right].
    assert (Hm1 : m1 !! k = Some r) by (apply map_lookup_filter_Some; cbn; split; [done|lia]).
    pose proof (Hk1 _ _ Hm1) as <-.
    assert (Hin : r ∈ by_seq m1) by by apply by_seq_elem.
    assert (Hnin : r ∉ last_n (Z.to_nat mx) (by_seq m1)).
    { intros Hl. assert (drop_excess mx m1 !! r_Seq r = Some r) by by apply drop_excess_lookup. congruence. }
    split.
    + rewrite <- length_by_seq, <- length_last_n. erewrite length_last_full by done. lia.
    + intros k' r' Hr'. apply drop_excess_lookup in Hr' as [<- Hr']; [|done].
      destruct (newest_of_sorted (Z.to_nat mx) (by_seq m1)) as (_ & _ & Hc); [by apply by_seq_sorted|]. by apply Hc.
Qed.

(** ** Witnesses *)
Definition line (t : Time) (run text : string) : Record_ := MkRecord 0 t "web" StreamOut "" run (Lit text).
Definition at_noon : Time := of_unix_milli 1767268800000.
Definition one_line : DB := (Append at_noon (line at_noon "" "hello") (Open ∅)).2.

Lemma keyed_empty : keyed ∅.
Proof. intros k r E. by rewrite lookup_empty in E. Qed.

Lemma one_line_reached opts : rtc (log_step opts) (Open ∅, 0) (one_line, 0).
Proof.
  eapply rtc_l; [apply (step_number opts at_noon (line at_noon "" "hello"))|].
  eapply rtc_l; [by eapply (step_deliver opts _ [])|].
  apply rtc_once. by eapply (step_queue opts _ [] []).
Qed.

Lemma log_accounting_witness :
  seq one_line = 1 /\ pool one_line <> [] /\
  forall r, r ∈ batch one_line ++ queue one_line -> rows (Flush false one_line) !! r_Seq r = Some (stored r).
Proof.
  split_and!; [vm_compute; reflexivity|vm_compute; discriminate|].
  apply (log_accounting (MkOptions 0 0) ∅ one_line 0 keyed_empty (one_line_reached _)).
Defined.

Definition plain_search : TextSearch := {| render m := m.1; fts_match q t := Contains t q |}.
Definition web_query : Query := MkQuery "web" "" "" "" "" 0 0.

Lemma search_exact_witness :
  exists l s', @Search plain_search (MkFaults false false) web_query one_line = (Ok l, s') /\ length l = 1%nat /\
    forall r, r ∈ batch one_line ++ queue one_line -> rows s' !! r_Seq r = Some (stored r).
Proof.
  eexists _, _. split; [reflexivity|]. split; [vm_compute; reflexivity|].
  refine (proj2 (proj2 (proj2 (proj2 (@search_exact plain_search (MkOptions 0 0) ∅ one_line 0 web_query _ _
    keyed_empty (one_line_reached _) _))))). reflexivity.
Defined.

(** Two rows under a ceiling of one: the older goes. *)
Definition two_rows : gmap Z Record_ :=
  <[2 := with_seq (line at_noon "" "b") 2 at_noon]> {[1 := with_seq (line at_noon "" "a") 1 at_noon]}.

Lemma sweep_bounds_witness :
  keyed two_rows /\ swept_rows (withDefaults (MkOptions 0 1)) at_noon false false two_rows !! 1 = None /\
  Z.of_nat (size (swept_rows (withDefaults (MkOptions 0 1)) at_noon false false two_rows)) <= 1.
Proof.
  assert (Hk : keyed two_rows).
  { intros k r. unfold two_rows. intros [[<- <-]|[_ [<- <-]%lookup_singleton_Some]]%lookup_insert_Some; done. }
  split_and!; [exact Hk|vm_compute; reflexivity|].
  exact (proj1 (sweep_bounds (MkOptions 0 1) at_noon two_rows _ Hk eq_refl)).
Defined.

(** ** Findings *)

(** A reader resumes one millisecond after the newest stored line of its
    service: a line the service wrote half a millisecond later is before that. *)
Theorem resume_skips_the_millisecond :
  let table := {[1 := with_seq (line at_noon "" "first") 1 at_noon]} in
  let later := Add at_noon (Millisecond / 2) in
  at_noon < later /\ later < LastAt_rows "web" table.
Proof. vm_compute. done. Qed.

(** The resume point is one per service: once run b has written a second after
    noon, a reader of run a resumes after that, past what a wrote at noon. *)
Theorem resume_is_per_service :
  let table := {[1 := with_seq (line (Add at_noon Second) "b" "from b") 1 (Add at_noon Second)]} in
  at_noon < LastAt_rows "web" table.
Proof. vm_compute. done. Qed.

(** The numbers start again from one where every line was swept before a
    restart: who asks for what came after the last number it saw is told of
    nothing until the daemon has written as many lines again. *)
Theorem sequence_starts_again :
  let old := Open {[7 := with_seq (line at_noon "" "old") 7 at_noon]} in
  let swept := sweep (withDefaults (MkOptions 0 0)) (Add at_noon (15 * Day)) false false old in
  seq old = 7 /\ seq (Open (rows swept)) = 0.
Proof. by vm_compute. Qed.

(** ** The history survives a new column *)
Definition holds_all (t : Table) : Prop := forall c, c ∈ columns -> c.1 ∈ tb_Columns t.

(** A table made by an older hostd keeps its history.  Whatever statement fails,
    no column and no row of the table goes and no cell of a column it had is
    another; where none fails every column of the schema is there, and doing it
    again does nothing. *)
Theorem old_history_is_kept reads alters t : let '(r, t') := addColumns reads alters t in
  (forall c, c ∈ tb_Columns t -> c ∈ tb_Columns t') /\ length (tb_Rows t') = length (tb_Rows t) /\
  (forall i row row' c, tb_Rows t !! i = Some row -> tb_Rows t' !! i = Some row' -> c ∈ tb_Columns t -> row' !! c = row !! c) /\
  (r = Ok tt -> holds_all t' /\ addColumns reads alters t' = (Ok tt, t')).
Proof.
  unfold addColumns. destruct reads as [e|]; [split_and!; [done|done|congruence|done]|]. rewrite ST_step. cbn [gets fst snd columns for_eachE].
  unfold bindE. case_bool_decide as Hin; cbn -[bool_decide].
  - split_and!; [done|done|congruence|]. intros _. split; [intros c [->|[]%not_elem_of_nil]%elem_of_cons; done|]. rewrite ST_step. cbn -[bool_decide]. by rewrite bool_decide_true.
  - unfold add_column. cbn [fst snd]. destruct (alters "run") as [e|]; cbn -[bool_decide]; [split_and!; [done|done|congruence|done]|].
    split_and!.
    + intros c Hc. apply elem_of_app. by left.
    + by rewrite length_fmap.
    + intros i row row' c Hr. rewrite list_lookup_fmap, Hr. cbn. intros [= <-] Hc. rewrite lookup_insert_ne; [done|]. intros <-. done.
    + intros _. assert (Hrun : "run" ∈ tb_Columns t ++ ["run"]) by (apply elem_of_app; right; by left).
      split; [intros c [->|[]%not_elem_of_nil]%elem_of_cons; done|]. rewrite ST_step. cbn -[bool_decide]. by rewrite bool_decide_true.
Qed.
