(* ===== verification/MetricStore.v ===== *)
(** * MetricStore: the series a machine keeps of what it consumes

    src/metrics/store.go.  The table is a finite map from its primary key to a
    value; the statements given to SQLite are written out as what SQL says they
    do.  What SQL leaves open — the average of floats, the order of rows of one
    instant — is a parameter.  The theorems at the end: what a query
    answers, and where a sweep does less than it says. *)
From S2P Require Import Prelude GoText GoTime.
From Stdlib Require Import Ascii SpecFloat.
Open Scope string_scope.
Open Scope list_scope.
Open Scope Z_scope.
Open Scope hostd_scope.

Definition SampleInterval : Z := 10 * Second.
Definition DefaultRetention : Z := 14 * Day.
Definition DefaultMaxRows : Z := 2000000.
Definition RawStep : Z := SampleInterval / Millisecond.
Definition MinuteStep : Z := Minute / Millisecond.
Definition rawRetention : Z := 6 * Hour.
Definition sweepInterval : Z := Minute.
Definition defaultPoints : Z := 720.
Definition maxPoints : Z := 20000.

Record Options := MkOptions { Retention : Z; MaxRows : Z }.
Definition withDefaults (o : Options) : Options :=
  MkOptions (if Retention o <=? 0 then DefaultRetention else Retention o)
            (if MaxRows o <=? 0 then DefaultMaxRows else MaxRows o).

Record Sample := MkSample {
  s_Time : Time;
  s_Scope : string;
  s_Name : string;
  s_Metric : string;
  s_Value : float64;
}.

(** step_ms, then metric, scope, name, then time_ms: the primary key. *)
Definition SeriesKey : Type := string * string * string.
Definition Key : Type := Z * SeriesKey * Z.
Definition step_ms (k : Key) : Z := k.1.1.
Definition series_of (k : Key) : SeriesKey := k.1.2.
Definition time_ms (k : Key) : Z := k.2.
Definition Row : Type := Key * float64.

Record Store := MkStore { opts : Options; samples : gmap Key float64; lastSweep : Time }.

(** AVG, and ORDER BY time_ms DESC, which leaves ties open. *)
Class Sql := {
  AVG : list float64 -> float64;
  newest_first : list Row -> list Row;
  newest_first_perm : forall l, newest_first l ≡ₚ l;
  newest_first_sorted : forall l, StronglySorted (fun a b => time_ms b.1 <= time_ms a.1) (newest_first l);
}.

Definition insert_sample (m : gmap Key float64) (s : Sample) : gmap Key float64 :=
  <[(RawStep, (s_Metric s, s_Scope s, s_Name s), UnixMilli (s_Time s)) := s_Value s]> m.

Definition latest_of (first : Time) (l : list Sample) : Time :=
  foldl (fun latest s => if GoTime.After (s_Time s) latest then s_Time s else latest) first l.

Section Store.
Context `{Sql}.

(** ** The statements of Sweep *)
(** GROUP BY metric, scope, name, time_ms / minute: the key of the minute a
    row folds into.  SQLite's division truncates; times are not negative. *)
Definition minute_key (k : Key) : Key := (MinuteStep, series_of k, Z.quot (time_ms k) MinuteStep * MinuteStep).

Definition foldable (foldBefore : Z) (k : Key) : Prop := step_ms k = RawStep /\ time_ms k < foldBefore.
#[export] Instance foldable_dec b k : Decision (foldable b k).
Proof. unfold foldable. apply _. Defined.

(** The values of one group, in the order of the primary key's index. *)
Definition group (foldBefore : Z) (m : gmap Key float64) (k : Key) : list float64 :=
  (filter (fun r => foldable foldBefore r.1 /\ minute_key r.1 = k) (map_to_list m)).*2.

Definition fold_rows (foldBefore : Z) (m : gmap Key float64) : gmap Key float64 :=
  foldr (fun r t => <[minute_key r.1 := AVG (group foldBefore m (minute_key r.1))]> t) m
    (filter (fun r => foldable foldBefore r.1) (map_to_list m)).

Definition drop_folded (foldBefore : Z) (m : gmap Key float64) : gmap Key float64 :=
  filter (fun r => ~ foldable foldBefore r.1) m.

Definition expire (expireBefore : Z) (m : gmap Key float64) : gmap Key float64 :=
  filter (fun r => expireBefore <= time_ms r.1) m.

(** A subquery without a row is NULL, and nothing is less than NULL. *)
Definition limit_rows (max : Z) (m : gmap Key float64) : gmap Key float64 :=
  match newest_first (map_to_list m) !! Z.to_nat max with
  | None => m
  | Some r => filter (fun r' => time_ms r.1 <= time_ms r'.1) m
  end.

(** A statement, which fails where [fault] names it; [n] is its number. *)
Definition statement (fault : option nat) (n : nat) (text : string) (f : gmap Key float64 -> gmap Key float64)
    : ST (gmap Key float64) (result unit) := fun m =>
  if bool_decide (fault = Some n) then (Err (EMsg (text, [])), m) else (Ok tt, f m).

Definition Sweep (fault : option nat) (o : Options) (now : Time) : ST (gmap Key float64) (result unit) :=
  let foldBefore := UnixMilli (Add now (- rawRetention)) in
  _ ←! statement fault 1 "roll up metrics: %w" (fold_rows foldBefore);
  _ ←! statement fault 2 "drop rolled-up metrics: %w" (drop_folded foldBefore);
  let expireBefore := UnixMilli (Add now (- Retention o)) in
  _ ←! statement fault 3 "apply metric retention: %w" (expire expireBefore);
  _ ←! statement fault 4 "apply the metric row limit: %w" (limit_rows (MaxRows o));
  statement fault 5 "reclaim metric space: %w" id.

Definition maintain_ (fault : option nat) (now : Time) : ST Store (result unit) := fun s =>
  if Sub now (lastSweep s) <? sweepInterval then (Ok tt, s)
  else let '(r, m) := Sweep fault (opts s) now (samples s) in (r, MkStore (opts s) m now).

(** Append: [fails] is a failure of the transaction, which then wrote nothing. *)
Definition Append (fails : bool) (fault : option nat) (l : list Sample) : ST Store (result unit) := fun s =>
  match l with
  | [] => (Ok tt, s)
  | first :: _ =>
      if fails then (Err (EMsg ("could not write the samples", [])), s)
      else maintain_ fault (latest_of (s_Time first) l)
             (MkStore (opts s) (foldl insert_sample (samples s) l) (lastSweep s))
  end.

(** ** Reading *)
Record Query_ := MkQuery {
  q_Scope : string;
  q_Name : string;
  q_Metric : string;
  q_From : Time;
  q_To : Time;
  q_StepMS : Z;
  q_Limit : Z;
}.

Record Point := MkPoint { TimeMS : float64; Value : float64 }.
Record Series := MkSeries { sr_Key : SeriesKey; StepMS : float64; Points : list Point }.
Definition sr_Metric (s : Series) : string := (sr_Key s).1.1.
Definition sr_Scope (s : Series) : string := (sr_Key s).1.2.
Definition sr_Name (s : Series) : string := (sr_Key s).2.

Definition asks (field value : string) : bool := String.eqb field "" || String.eqb value field.

(** Scope, name and metric: what both answers filter on. *)
Definition names_asked (q : Query_) (k : SeriesKey) : bool :=
  asks (q_Scope q) k.1.2 && asks (q_Name q) k.2 && asks (q_Metric q) k.1.1.

Definition stepPredicate (now : Time) (q : Query_) (k : Key) : bool :=
  if 0 <? q_StepMS q then step_ms k =? q_StepMS q
  else let folded := UnixMilli (Add now (- rawRetention)) in
       ((step_ms k =? RawStep) && (folded <=? time_ms k)) || ((step_ms k =? MinuteStep) && (time_ms k <? folded)).

Definition step_of (q : Query_) : Z := if 0 <? q_StepMS q then q_StepMS q else RawStep.

Definition where_ (now : Time) (q : Query_) (k : Key) : bool :=
  stepPredicate now q k && names_asked q (series_of k) &&
  (IsZero (q_From q) || (UnixMilli (q_From q) <=? time_ms k)) &&
  (IsZero (q_To q) || (time_ms k <=? UnixMilli (q_To q))).

Definition limit_of (q : Query_) : Z :=
  let limit := if q_Limit q <=? 0 then defaultPoints else q_Limit q in
  if maxPoints <? limit then maxPoints else limit.

Definition rows_asked (now : Time) (q : Query_) (m : gmap Key float64) : list Row :=
  take (Z.to_nat (limit_of q)) (newest_first (filter (fun r => Is_true (where_ now q r.1)) (map_to_list m))).

Definition point_of (r : Row) : Point := MkPoint (f64_of_Z (time_ms r.1)) r.2.

(** One row: a point of a series already answered, or a new series. *)
Fixpoint add_row (step : float64) (out : list Series) (r : Row) : list Series :=
  match out with
  | [] => [MkSeries (series_of r.1) step [point_of r]]
  | s :: rest => if bool_decide (sr_Key s = series_of r.1)
                 then MkSeries (sr_Key s) (StepMS s) (Points s ++ [point_of r]) :: rest
                 else s :: add_row step rest r
  end.

(** scope, then name, then metric *)
Definition series_le (a b : Series) : Prop :=
  if String.eqb (sr_Scope a) (sr_Scope b) then
    if String.eqb (sr_Name a) (sr_Name b) then String.le (sr_Metric a) (sr_Metric b)
    else String.le (sr_Name a) (sr_Name b)
  else String.le (sr_Scope a) (sr_Scope b).
#[export] Instance series_le_dec a b : Decision (series_le a b).
Proof. unfold series_le. repeat destruct (String.eqb _ _); apply _. Defined.

Definition reversed (s : Series) : Series := MkSeries (sr_Key s) (StepMS s) (reverse (Points s)).

Definition Query (now : Time) (q : Query_) (m : gmap Key float64) : list Series :=
  merge_sort series_le
    (reversed <$> foldl (add_row (f64_of_Z (step_of q))) [] (rows_asked now q m)).

(** ROW_NUMBER() OVER (PARTITION BY scope, name, metric ORDER BY time_ms DESC) = 1 *)
Definition latest_rows (now : Time) (q : Query_) (within : Z) (m : gmap Key float64) : list Row :=
  let considered := filter (fun r => Is_true ((step_ms r.1 =? RawStep) && names_asked q (series_of r.1) &&
                              (UnixMilli (Add now (- within)) <=? time_ms r.1))) (map_to_list m) in
  filter (fun r => Forall (fun r' => series_of r'.1 = series_of r.1 -> time_ms r'.1 <= time_ms r.1) considered)
    considered.

Definition Latest (now : Time) (q : Query_) (within : Z) (m : gmap Key float64) : list Series :=
  merge_sort series_le
    ((fun r => MkSeries (series_of r.1) (f64_of_Z RawStep) [point_of r]) <$> latest_rows now q within m).

End Store.

(** ** What a chart is answered with *)
(** ** Rows grouped into series *)
Definition of_series (k : SeriesKey) (r : Row) : Prop := series_of r.1 = k.
#[export] Instance of_series_dec k r : Decision (of_series k r).
Proof. unfold of_series. apply _. Defined.

(** [out] holds each series of [rows] once, with its points in their order. *)
Record Grouped (rows : list Row) (out : list Series) : Prop := {
  g_once : NoDup (sr_Key <$> out);
  g_points : forall s, s ∈ out -> Points s = point_of <$> filter (of_series (sr_Key s)) rows;
  g_all : forall r, r ∈ rows -> exists s, s ∈ out /\ sr_Key s = series_of r.1;
  g_some : forall s, s ∈ out -> exists r, r ∈ rows /\ series_of r.1 = sr_Key s;
}.

Lemma add_row_cases step out r :
  (exists l1 s l2, out = l1 ++ s :: l2 /\ sr_Key s = series_of r.1 /\
     add_row step out r = l1 ++ MkSeries (sr_Key s) (StepMS s) (Points s ++ [point_of r]) :: l2) \/
  (forall s, s ∈ out -> sr_Key s <> series_of r.1) /\
    add_row step out r = out ++ [MkSeries (series_of r.1) step [point_of r]].
Proof.
  induction out as [|s out IH]; cbn.
  { right. split; [|done]. intros s Hs. by apply elem_of_nil in Hs. }
  case_bool_decide as E; [left; by exists [], s, out|].
  destruct IH as [(l1 & s1 & l2 & -> & Hk & ->)|[Hno ->]]; [left; by exists (s :: l1), s1, l2|right].
  split; [|done]. intros x [->|Hx]%elem_of_cons; [done|by apply Hno].
Qed.

Lemma filter_snoc {X} (P : X -> Prop) `{!forall x, Decision (P x)} (l : list X) x :
  filter P (l ++ [x]) = filter P l ++ (if decide (P x) then [x] else []).
Proof. rewrite filter_app, filter_cons, filter_nil. by case_decide. Qed.

Lemma grouped_snoc step rows out r : Grouped rows out -> Grouped (rows ++ [r]) (add_row step out r).
Proof.
  intros [Ho Hp Ha Hs]. destruct (add_row_cases step out r) as [(l1 & s & l2 & -> & Hk & ->)|[Hno ->]].
  - set (s' := MkSeries _ _ _).
    assert (Hkeys : sr_Key <$> (l1 ++ s' :: l2) = sr_Key <$> (l1 ++ s :: l2)) by by rewrite !fmap_app, !fmap_cons.
    assert (Hother : forall x, x ∈ l1 \/ x ∈ l2 -> sr_Key x <> sr_Key s).
    { intros x Hx E. rewrite fmap_app, fmap_cons in Ho. apply NoDup_app in Ho as (_ & Hd & Hn).
      apply NoDup_cons in Hn as [Hn _]. destruct Hx as [Hx|Hx].
      - apply (Hd (sr_Key s)); [rewrite <- E; by apply list_elem_of_fmap_2|left].
      - apply Hn. rewrite <- E. by apply list_elem_of_fmap_2. }
    assert (Hin : forall x, x ∈ l1 ++ s' :: l2 -> x = s' \/ (x ∈ l1 \/ x ∈ l2) /\ x ∈ l1 ++ s :: l2).
    { intros x. rewrite !elem_of_app, !elem_of_cons. tauto. }
    split.
    + by rewrite Hkeys.
    + intros x Hx. rewrite filter_snoc, fmap_app. apply Hin in Hx as [->|[Hx Hx']]; cbn [sr_Key s' Points].
      * rewrite decide_True by (unfold of_series; congruence). rewrite (Hp s) by (apply elem_of_app; right; left). done.
      * rewrite decide_False by (unfold of_series; rewrite <- Hk; intros E; by apply (Hother x Hx)).
        rewrite app_nil_r. by apply Hp.
    + intros x Hx. assert (Hmem : exists y, y ∈ l1 ++ s :: l2 /\ sr_Key y = series_of x.1).
      { apply elem_of_app in Hx as [Hx|Hx]; [by apply Ha|]. apply list_elem_of_singleton in Hx as ->.
        exists s. split; [apply elem_of_app; right; left|done]. }
      destruct Hmem as (y & Hy & Ey). assert (E : sr_Key y ∈ sr_Key <$> (l1 ++ s' :: l2)).
      { rewrite Hkeys. by apply list_elem_of_fmap_2. }
      apply list_elem_of_fmap in E as (z & Ez & Hz). exists z. split; [done|congruence].
    + intros x Hx. apply Hin in Hx as [->|[_ Hx]].
      * exists r. split; [apply elem_of_app; right; left|]. cbn. congruence.
      * destruct (Hs x Hx) as (y & Hy & E). exists y. split; [apply elem_of_app; by left|done].
  - assert (Hkr : series_of r.1 ∉ sr_Key <$> out).
    { intros (x & E & Hx)%list_elem_of_fmap. by apply (Hno x). }
    assert (Hnone : forall x, x ∈ rows -> series_of x.1 <> series_of r.1).
    { intros x Hx E. destruct (Ha x Hx) as (y & Hy & Ey). apply (Hno y Hy). congruence. }
    split.
    + rewrite fmap_app. apply NoDup_app. split; [done|]. split; [|apply NoDup_singleton].
      intros k Hk' Hk%list_elem_of_singleton. cbn in Hk. congruence.
    + intros x Hx. rewrite filter_snoc, fmap_app. apply elem_of_app in Hx as [Hx|Hx].
      * rewrite decide_False by (unfold of_series; intros E; by apply (Hno x)). rewrite app_nil_r. by apply Hp.
      * apply list_elem_of_singleton in Hx as ->. cbn [sr_Key Points]. rewrite decide_True by done.
        replace (filter (of_series (series_of r.1)) rows) with ([] : list Row); [done|]. symmetry.
        apply elem_of_nil_inv. intros x [E Hx]%list_elem_of_filter. by apply (Hnone x).
    + intros x [Hx|Hx]%elem_of_app.
      * destruct (Ha x Hx) as (y & Hy & E). exists y. split; [apply elem_of_app; by left|done].
      * apply list_elem_of_singleton in Hx as ->. eexists. split; [apply elem_of_app; right; left|done].
    + intros x [Hx|Hx]%elem_of_app.
      * destruct (Hs x Hx) as (y & Hy & E). exists y. split; [apply elem_of_app; by left|done].
      * apply list_elem_of_singleton in Hx as ->. exists r. split; [apply elem_of_app; right; left|done].
Qed.

Lemma grouped_rows step rows : Grouped rows (foldl (add_row step) [] rows).
Proof.
  induction rows as [|r rows IH] using rev_ind.
  - split; [constructor|..]; intros x Hx; by apply elem_of_nil in Hx.
  - rewrite foldl_app. by apply grouped_snoc.
Qed.

(** ** The order of the answer *)
#[export] Instance series_le_total : Total series_le.
Proof.
  intros a b. unfold series_le. rewrite (String.eqb_sym (sr_Scope b)), (String.eqb_sym (sr_Name b)).
  repeat case_match; apply (total String.le).
Qed.
#[export] Instance series_le_trans : Transitive series_le.
Proof.
  intros a b c. unfold series_le.
  assert (Ht : forall x y z, String.le x y -> String.le y z -> String.le x z) by (intros ? ? ?; apply transitivity).
  assert (Has : forall x y, String.le x y -> String.le y x -> x = y) by (intros ? ?; apply (anti_symm String.le)).
  intros Hab Hbc. repeat case_match; bool_hyps; try congruence; try (by eapply Ht; eauto; congruence).
  all: exfalso.
  all: match goal with
       | Hn : ?x <> ?y, Hl : String.le ?x ?y, Hl' : String.le ?y ?z, E : ?x = ?z |- _ =>
           apply Hn, Has; [exact Hl|by rewrite E]
       end.
Qed.

Definition later (a b : Row) : Prop := time_ms b.1 <= time_ms a.1.

(** The first rows of a list sorted by age. *)
Lemma newest_take n (l : list Row) : NoDup l -> StronglySorted later l ->
  NoDup (take n l) /\ StronglySorted later (take n l) /\
  forall r, r ∈ l -> r ∉ take n l -> length (take n l) = n /\ forall x, x ∈ take n l -> later x r.
Proof.
  intros Hn Hs. pose proof (take_drop n l) as E. rewrite <- E in Hn, Hs at 1. split_and!.
  - by apply NoDup_app in Hn as (? & _ & _).
  - by eapply StronglySorted_app_1_l.
  - intros r Hr Hnot. assert (Hd : r ∈ drop n l).
    { rewrite <- E in Hr. apply elem_of_app in Hr as [?|?]; done. }
    split.
    + rewrite length_take. destruct (Nat.le_gt_cases n (length l)); [lia|].
      rewrite drop_ge in Hd by lia. by apply elem_of_nil in Hd.
    + intros x Hx. by eapply StronglySorted_app_1_elem_of.
Qed.

Lemma limit_bounds q : 0 <= limit_of q <= maxPoints.
Proof. unfold limit_of, defaultPoints, maxPoints. repeat case_match; bool_hyps; lia. Qed.

Section Answer.
Context `{Sql}.

Lemma chosen_rows now q m :
  (length (rows_asked now q m) <= Z.to_nat (limit_of q))%nat /\ NoDup (rows_asked now q m) /\
  StronglySorted later (rows_asked now q m) /\
  (forall r, r ∈ rows_asked now q m -> m !! r.1 = Some r.2 /\ where_ now q r.1 = true) /\
  (forall r, m !! r.1 = Some r.2 -> where_ now q r.1 = true -> r ∉ rows_asked now q m ->
     length (rows_asked now q m) = Z.to_nat (limit_of q) /\ forall x, x ∈ rows_asked now q m -> later x r).
Proof.
  unfold rows_asked. set (wanted := filter _ _).
  assert (Hw : forall r, r ∈ newest_first wanted <-> m !! r.1 = Some r.2 /\ where_ now q r.1 = true).
  { intros [k v]. rewrite newest_first_perm. unfold wanted.
    rewrite list_elem_of_filter, elem_of_map_to_list, Is_true_true. cbn. tauto. }
  destruct (newest_take (Z.to_nat (limit_of q)) (newest_first wanted)) as (Hn & Hs & Ho).
  { rewrite newest_first_perm. apply NoDup_filter, NoDup_map_to_list. }
  { apply newest_first_sorted. }
  split_and!; [rewrite length_take; lia|done|done| |].
  - intros r Hr. apply Hw. rewrite <- (take_drop (Z.to_nat (limit_of q))). apply elem_of_app. by left.
  - intros r Hm Hwh Hnot. apply Ho; [by apply Hw|done].
Qed.

Lemma Query_groups now q m :
  NoDup (sr_Key <$> Query now q m) /\ StronglySorted series_le (Query now q m) /\
  (forall s, s ∈ Query now q m -> Points s = point_of <$> reverse (filter (of_series (sr_Key s)) (rows_asked now q m))) /\
  (forall key, key ∈ sr_Key <$> Query now q m <-> exists r, r ∈ rows_asked now q m /\ series_of r.1 = key).
Proof.
  unfold Query. set (rows := rows_asked now q m). set (step := f64_of_Z (step_of q)).
  destruct (grouped_rows step rows) as [Ho Hp Ha Hs]. set (out := foldl _ _ _) in *.
  assert (Hkeys : sr_Key <$> merge_sort series_le (reversed <$> out) ≡ₚ sr_Key <$> out).
  { rewrite merge_sort_Permutation, <- list_fmap_compose. done. }
  split_and!.
  - by rewrite Hkeys.
  - apply StronglySorted_merge_sort; apply _.
  - intros s Hin. rewrite merge_sort_Permutation in Hin. apply list_elem_of_fmap in Hin as (x & -> & Hx).
    cbn [reversed Points sr_Key]. rewrite (Hp x Hx). by rewrite fmap_reverse.
  - intros key. rewrite Hkeys, list_elem_of_fmap. split.
    + intros (s & -> & Hin). destruct (Hs s Hin) as (r & Hr & E). eauto.
    + intros (r & Hr & <-). destruct (Ha r Hr) as (s & Hin & E). eauto.
Qed.
End Answer.

(** A window of metrics is answered from the newest rows, each series once.
    There is a choice of at most the limit — never more than the ceiling — of
    distinct rows of the table that match the query, newest first, such that a
    matching row left out is not newer than any chosen one and the limit is
    exhausted; the answer has one entry for each series of the chosen rows, in
    the order of scope, name and metric, whose points are that series' chosen
    rows, oldest first. *)
Theorem metrics_query_exact `{Sql} now q m : exists chosen : list Row,
  Z.of_nat (length chosen) <= limit_of q /\ limit_of q <= maxPoints /\ NoDup chosen /\
  StronglySorted later chosen /\
  (forall k v, (k, v) ∈ chosen -> m !! k = Some v /\ where_ now q k = true) /\
  (forall k v, m !! k = Some v -> where_ now q k = true -> (k, v) ∉ chosen ->
     Z.of_nat (length chosen) = limit_of q /\ forall r, r ∈ chosen -> time_ms k <= time_ms r.1) /\
  NoDup (sr_Key <$> Query now q m) /\ StronglySorted series_le (Query now q m) /\
  (forall s, s ∈ Query now q m -> Points s = point_of <$> reverse (filter (of_series (sr_Key s)) chosen)) /\
  (forall key, key ∈ sr_Key <$> Query now q m <-> exists r, r ∈ chosen /\ series_of r.1 = key).
Proof.
  exists (rows_asked now q m). assert (Hl : 0 <= limit_of q <= maxPoints) by apply limit_bounds.
  destruct (chosen_rows now q m) as (Hlen & Hnd & Hs & Hin & Hout).
  destruct (Query_groups now q m) as (Hk & Hsort & Hp & Hall).
  split_and!; try done; [lia|lia|intros k v Hr; by apply (Hin (k, v))|].
  intros k v Hm Hw Hn. destruct (Hout (k, v)) as [Hfull Hold]; [done..|]. split; [lia|done].
Qed.

(** ** Findings *)

(** SQL as SQLite computes it on these rows: the mean, and one order of ties. *)
Definition mean (l : list float64) : float64 :=
  f64_div (foldl f64_add f64_zero l) (f64_of_Z (Z.of_nat (length l))).
#[export] Instance later_dec a b : Decision (later a b).
Proof. unfold later. apply _. Defined.
#[export] Instance later_total : Total later.
Proof. intros a b. unfold later. lia. Qed.
#[export] Instance later_trans : Transitive later.
Proof. intros a b c. unfold later. lia. Qed.
Definition plain_sql : Sql.
Proof.
  refine {| AVG := mean; newest_first := merge_sort later |}.
  - intros l. apply merge_sort_Permutation.
  - intros l. apply (StronglySorted_merge_sort later).
Defined.

Definition cpu : SeriesKey := ("cpu-percent", "host", "").
Definition minute_start : Z := 1767268800000.
Definition raw (second value : Z) : Row := ((RawStep, cpu, minute_start + second * 1000), f64_of_Z value).

(** Half a minute idle and half a minute busy. *)
Definition one_minute : gmap Key float64 :=
  list_to_map [raw 0 0; raw 10 0; raw 20 0; raw 30 90; raw 40 90; raw 50 90].
Definition six_hours_after (second : Z) : Time := Add (of_unix_milli (minute_start + second * 1000)) rawRetention.
Definition folded_minute (m : gmap Key float64) : option float64 := m !! (MinuteStep, cpu, minute_start).

(** The bound of a fold is not the start of a minute, so two sweeps fold one
    minute, and the second replaces the average of the first by the average of
    what was left: half of every minute leaves the history. *)
Theorem sweep_overwrites_the_minute :
  let o := withDefaults (MkOptions 0 0) in
  let once := (@Sweep plain_sql None o (six_hours_after 60) one_minute).2 in
  let first := (@Sweep plain_sql None o (six_hours_after 30) one_minute).2 in
  let twice := (@Sweep plain_sql None o (six_hours_after 90) first).2 in
  folded_minute once = Some (f64_of_Z 45) /\ folded_minute first = Some f64_zero /\
  folded_minute twice = Some (f64_of_Z 90).
Proof. vm_compute. done. Qed.

(** The row ceiling takes only rows older than the one past the ceiling, so a
    table of one instant keeps every row whatever the ceiling. *)
Theorem row_ceiling_keeps_ties :
  let o := withDefaults (MkOptions 0 1) in
  let at_once : gmap Key float64 :=
    list_to_map [((RawStep, ("a", "host", ""), minute_start), f64_zero); ((RawStep, ("b", "host", ""), minute_start), f64_zero);
                 ((RawStep, ("c", "host", ""), minute_start), f64_zero)] in
  MaxRows o = 1 /\ size (@Sweep plain_sql None o (of_unix_milli (minute_start + 1)) at_once).2 = 3%nat.
Proof. vm_compute. done. Qed.

Lemma metrics_query_exact_witness :
  exists chosen : list Row, Z.of_nat (length chosen) <= 720 /\ NoDup chosen.
Proof.
  destruct (@metrics_query_exact plain_sql (six_hours_after 0) (MkQuery "" "" "" zero_time zero_time 0 0) one_minute)
    as (chosen & Hlen & _ & Hnd & _).
  exists chosen. split; [exact Hlen|exact Hnd].
Defined.
