(* ===== verification/Counters.v ===== *)
(** * Counters: what the kernel says, read from its text

    src/metrics/proc.go, and the order in which src/metrics/read_linux.go reads
    the files of /proc.  strconv.ParseFloat is written with its rounding: the
    exact value of the decimal, rounded once to the nearest float64. *)
From S2P Require Import Prelude GoText GoTime.
From Stdlib Require Import Ascii SpecFloat.
Open Scope string_scope.
Open Scope list_scope.
Open Scope Z_scope.

(** ** strconv.ParseFloat *)

(** The nearest float64 to [m * 2^k / d]: the quotient with two bits to spare
    and a last bit that says whether anything is left. *)
Definition round_quotient (neg : bool) (m d : Z) : float64 :=
  let shift := Z.max 0 (66 + Z.log2 d - Z.log2 m) in
  let n := Z.shiftl m shift in
  let q := 2 * (n / d) + (if n mod d =? 0 then 0 else 1) in
  let f := binary_normalize prec64 emax64 q (- shift - 1) false in
  if neg then SFopp f else f.

(** m * 10^e, rounded *)
Definition decimal_value (neg : bool) (m e : Z) : float64 :=
  if 0 <=? e then (if neg then SFopp else id) (f64_of_Z (m * 10 ^ e))
  else if m =? 0 then S754_zero neg
  else round_quotient neg m (10 ^ (- e)).

(** The exponent after its letter: digits past ten thousand change nothing. *)
Fixpoint exponent_value (s : string) (e : Z) : option Z :=
  match s with
  | "" => Some e
  | String c s' =>
      if is_digit c then exponent_value s' (if e <? 10000 then e * 10 + (code c - 48) else e) else None
  end.
Definition parse_exponent (s : string) : option Z :=
  match s with
  | "" => None
  | String c s' =>
      let '(sign, digits) := if Ascii.eqb c "+" then (1, s') else if Ascii.eqb c "-" then (-1, s') else (1, s) in
      match digits with
      | "" => None
      | _ => Z.mul sign <$> exponent_value digits 0
      end
  end.

(** The decimal form: digits with perhaps a point, and perhaps an exponent. *)
Definition parse_decimal (neg : bool) (s : string) : option float64 :=
  let '(whole, r) := span_digits s in
  let '(part, r) := match r with
                    | String c r' => if Ascii.eqb c "." then span_digits r' else ("", r)
                    | "" => ("", "")
                    end in
  if String.eqb (whole +:+ part) "" then None
  else
    e ← match r with
        | "" => Some 0
        | String c r' => if Ascii.eqb c "e" || Ascii.eqb c "E" then parse_exponent r' else None
        end;
    m ← digits_value (whole +:+ part) 0;
    Some (decimal_value neg m (e - len part)).

(** "inf", "infinity" and "nan" in any case; a NaN has no sign. *)
Definition parse_special (neg signed : bool) (s : string) : option float64 :=
  let l := ToLower s in
  if String.eqb l "inf" || String.eqb l "infinity" then Some (S754_infinity neg)
  else if String.eqb l "nan" && negb signed then Some S754_nan
  else None.

(** strconv.ParseFloat(s, 64), without the hexadecimal form: [None] is an
    error, of syntax or of a value no float64 is near. *)
Definition ParseFloat (s : string) : option float64 :=
  let '(neg, signed, body) :=
    match s with
    | String c s' => if Ascii.eqb c "-" then (true, true, s')
                     else if Ascii.eqb c "+" then (false, true, s') else (false, false, s)
    | "" => (false, false, "")
    end in
  match parse_special neg signed body with
  | Some f => Some f
  | None =>
      match parse_decimal neg body with
      | Some (S754_infinity _) => None
      | r => r
      end
  end.

Example ParseFloat_int : ParseFloat "123456789" = Some (f64_of_Z 123456789).
Proof. vm_compute. reflexivity. Qed.
Example ParseFloat_half : ParseFloat "0.5" = Some (f64_div (f64_of_Z 1) (f64_of_Z 2)) /\ ParseFloat "2.5e1" = Some (f64_of_Z 25).
Proof. vm_compute. auto. Qed.
Example ParseFloat_tenth : ParseFloat "0.1" = Some (f64_div (f64_of_Z 1) (f64_of_Z 10)).
Proof. vm_compute. reflexivity. Qed.
Example ParseFloat_bad : ParseFloat "" = None /\ ParseFloat "1x" = None /\ ParseFloat "." = None /\ ParseFloat "1e400" = None.
Proof. vm_compute. auto. Qed.

(** ** The files of /proc *)
Definition clockTicks : float64 := f64_of_Z 100.

Record hostCounters := MkHostCounters {
  CPUTotal : float64;
  CPUIdle : float64;
  MemoryUsed : float64;
  MemoryTotal : float64;
  DiskUsed : float64;
  DiskTotal : float64;
  NetRX : float64;
  NetTX : float64;
  Load1 : float64;
}.
Record procCounters := MkProcCounters { CPUTicks : float64; RSSBytes : float64 }.

Definition unreadable (field : string) (i : Z) : error := EMsg (field, [AInt i]).

(** The sum of the fields of the cpu line, and of idle and iowait: the fourth
    and the fifth of them. *)
Fixpoint cpu_fields (i : Z) (fields : list string) (total idle : float64) : result (float64 * float64) :=
  match fields with
  | [] => Ok (total, idle)
  | f :: fields' =>
      match ParseFloat f with
      | None => Err (unreadable "cpu field %d: %w" (i + 1))
      | Some v => cpu_fields (i + 1) fields' (f64_add total v)
                    (if (i =? 3) || (i =? 4) then f64_add idle v else idle)
      end
  end.
Definition parseCPU (stat : string) : result (float64 * float64) :=
  let '(line, _, _) := Cut stat newline in
  match Fields line with
  | f :: fields =>
      if (length fields <? 4)%nat || negb (String.eqb f "cpu")
      then Err (EMsg ("/proc/stat does not open with a cpu line: %.40q", [AStr stat]))
      else cpu_fields 0 fields f64_zero f64_zero
  | [] => Err (EMsg ("/proc/stat does not open with a cpu line: %.40q", [AStr stat]))
  end.

(** One line of /proc/meminfo over what was seen before: MemTotal and
    MemAvailable, in bytes. *)
Definition meminfo_line (seen : option float64 * option float64) (line : string)
    : result (option float64 * option float64) :=
  let '(key, rest, found) := Cut line ":" in
  if negb found || negb (String.eqb key "MemTotal" || String.eqb key "MemAvailable") then Ok seen
  else match Fields rest with
       | [] => Ok seen
       | f :: _ =>
           match ParseFloat f with
           | None => Err (EMsg ("%s: %w", [AStr key]))
           | Some v =>
               let v := f64_mul v (f64_of_Z 1024) in
               Ok (if String.eqb key "MemTotal" then (Some v, seen.2) else (seen.1, Some v))
           end
       end.
Fixpoint fold_lines {A} (step : A -> string -> result A) (lines : list string) (a : A) : result A :=
  match lines with
  | [] => Ok a
  | l :: lines' => a' ← step a l; fold_lines step lines' a'
  end.
Definition parseMeminfo (meminfo : string) : result (float64 * float64) :=
  seen ← fold_lines meminfo_line (Split meminfo newline) (None, None);
  match seen with
  | (Some total, Some available) => Ok (f64_sub total available, total)
  | _ => Err (EMsg ("/proc/meminfo carries no MemTotal or MemAvailable", []))
  end.

(** One interface of /proc/net/dev over what was added up before; [None] until
    one was found. *)
Definition txBytesIndex : nat := 8.
Definition netdev_line (seen : float64 * float64 * bool) (line : string) : result (float64 * float64 * bool) :=
  let '(name, rest, hasName) := Cut line ":" in
  let name := TrimSpace name in
  if negb hasName || String.eqb name "" || String.eqb name "lo" then Ok seen
  else
    let fields := Fields rest in
    if (length fields <=? txBytesIndex)%nat then Ok seen
    else match fields !! 0%nat ≫= ParseFloat, fields !! txBytesIndex ≫= ParseFloat with
         | Some r, Some t => let '(rx, tx, _) := seen in Ok (f64_add rx r, f64_add tx t, true)
         | _, _ => Err (EMsg ("interface %s: unreadable byte counters", [AStr name]))
         end.
Definition parseNetDev (netdev : string) : result (float64 * float64) :=
  '(rx, tx, found) ← fold_lines netdev_line (Split netdev newline) (f64_zero, f64_zero, false);
  if found : bool then Ok (rx, tx)
  else Err (EMsg ("/proc/net/dev lists no interface other than lo", [])).

Definition parseLoad (loadavg : string) : result float64 :=
  match Fields loadavg with
  | [] => Err (EMsg ("/proc/loadavg is empty", []))
  | f :: _ => match ParseFloat f with Some v => Ok v | None => Err (EMsg ("strconv.ParseFloat: parsing %q", [AStr f])) end
  end.

(** The fields after the last closing parenthesis: the first of them is field
    3 of the file. *)
Definition utimeIndex : nat := 11.
Definition stimeIndex : nat := 12.
Definition rssIndex : nat := 21.
Definition parseProcStat (pagesize : Z) (stat : string) : result procCounters :=
  match cut_last stat ")" with
  | None => Err (EMsg ("no comm field in %.40q", [AStr stat]))
  | Some (_, after) =>
      let fields := Fields after in
      if (length fields <=? rssIndex)%nat
      then Err (EMsg ("only %d fields after the comm field", [AInt (Z.of_nat (length fields))]))
      else match fields !! utimeIndex ≫= ParseFloat, fields !! stimeIndex ≫= ParseFloat, fields !! rssIndex ≫= ParseFloat with
           | Some u, Some s, Some r => Ok (MkProcCounters (f64_add u s) (f64_mul r (f64_of_Z pagesize)))
           | _, _, _ => Err (EMsg ("unreadable cpu or memory fields", []))
           end
  end.

(** ** Reading a machine

    What os.ReadFile answers for a path, and syscall.Statfs for the disk: block
    size, blocks, blocks available. *)
Record Kernel := MkKernel {
  file : string -> result string;
  statfs : string -> result (Z * Z * Z);
  pagesize : Z;
}.

Definition diskPath := "/var".
Definition disk (k : Kernel) (path : string) : result (float64 * float64) :=
  '(bsize, blocks, bavail) ← statfs k path;
  let size := f64_of_Z bsize in
  let total := f64_mul (f64_of_Z blocks) size in
  Ok (f64_sub total (f64_mul (f64_of_Z bavail) size), total).

Definition system_host (k : Kernel) : result hostCounters :=
  '(total, idle) ← (file k "/proc/stat" ≫= parseCPU);
  '(used, memory) ← (file k "/proc/meminfo" ≫= parseMeminfo);
  '(rx, tx) ← (file k "/proc/net/dev" ≫= parseNetDev);
  load ← (file k "/proc/loadavg" ≫= parseLoad);
  '(du, dt) ← disk k diskPath;
  Ok (MkHostCounters total idle used memory du dt rx tx load).

Definition system_process (k : Kernel) (pid : Z) : result procCounters :=
  file k ("/proc/" +:+ itoa pid +:+ "/stat") ≫= parseProcStat (pagesize k).
