(* ===== verification/Sampler.v ===== *)
(** * Sampler: counters turned into rates

    src/metrics/metrics.go.  The counters come from the interface [source],
    here the answers of one tick: the host's, and those of each process. *)
From S2P Require Import Prelude GoText GoTime MetricStore Counters.
From Stdlib Require Import Ascii SpecFloat.
Open Scope string_scope.
Open Scope list_scope.
Open Scope Z_scope.
Open Scope hostd_scope.

Definition ScopeHost := "host".
Definition ScopeService := "service".
Definition MetricCPUPercent := "cpu-percent".
Definition MetricMemoryBytes := "memory-bytes".
Definition MetricMemoryTotal := "memory-total-bytes".
Definition MetricDiskBytes := "disk-bytes".
Definition MetricDiskTotal := "disk-total-bytes".
Definition MetricNetRX := "net-rx-bytes-per-second".
Definition MetricNetTX := "net-tx-bytes-per-second".
Definition MetricLoad1 := "load-1".

Definition repeatProblem : Z := 10 * Minute.

Record Process := MkProcess { p_Name : string; p_PID : Z }.
Record source := MkSource { src_host : result hostCounters; src_process : Z -> result procCounters }.

Record Sampler := MkSampler {
  lastAt : Time;
  lastHost : hostCounters;
  haveHost : bool;
  lastProc : gmap string procCounters;
  lastProblem : list Msg;
  lastProblemAt : Time;
}.

Definition no_counters : hostCounters :=
  MkHostCounters f64_zero f64_zero f64_zero f64_zero f64_zero f64_zero f64_zero f64_zero f64_zero.
Definition NewSampler : Sampler := MkSampler zero_time no_counters false ∅ [] zero_time.

(** errors.Join keeps the errors it is given: a list of them, and its text one
    message for each. *)
Definition texts (errs : list error) : list Msg := error_msg <$> errs.

(** What is reported, if anything. *)
Definition notify (errs : list error) (now : Time) : ST Sampler (option (list error)) := fun s =>
  if bool_decide (texts errs = lastProblem s) && (Sub now (lastProblemAt s) <? repeatProblem)
  then (None, s)
  else (Some errs, MkSampler (lastAt s) (lastHost s) (haveHost s) (lastProc s) (texts errs) now).

Definition sample (now : Time) (scope name metric : string) (value : float64) : Sample :=
  MkSample now scope name metric value.

Definition cpuPercent (ticks elapsed : float64) : float64 :=
  if f64_ltb ticks f64_zero || f64_leb elapsed f64_zero then f64_zero
  else f64_mul (f64_div (f64_div ticks clockTicks) elapsed) (f64_of_Z 100).

Definition hostRates (now : Time) (last current : hostCounters) (elapsed : float64) : list Sample :=
  let total := f64_sub (CPUTotal current) (CPUTotal last) in
  let idle := f64_sub (CPUIdle current) (CPUIdle last) in
  let rx := f64_sub (NetRX current) (NetRX last) in
  let tx := f64_sub (NetTX current) (NetTX last) in
  (if f64_ltb f64_zero total
   then [sample now ScopeHost "" MetricCPUPercent
           (f64_mul (f64_sub (f64_of_Z 1) (f64_div idle total)) (f64_of_Z 100))]
   else []) ++
  (if f64_leb f64_zero rx && f64_leb f64_zero tx
   then [sample now ScopeHost "" MetricNetRX (f64_div rx elapsed);
         sample now ScopeHost "" MetricNetTX (f64_div tx elapsed)]
   else []).

Definition host_levels (now : Time) (c : hostCounters) : list Sample :=
  [sample now ScopeHost "" MetricMemoryBytes (MemoryUsed c);
   sample now ScopeHost "" MetricMemoryTotal (MemoryTotal c);
   sample now ScopeHost "" MetricDiskBytes (DiskUsed c);
   sample now ScopeHost "" MetricDiskTotal (DiskTotal c);
   sample now ScopeHost "" MetricLoad1 (Load1 c)].

(** One process of the loop: its samples, its problem, and the counters kept. *)
Definition collect_process (now : Time) (elapsed : float64) (src : source)
    (acc : list Sample * list error * gmap string procCounters) (p : Process)
    : list Sample * list error * gmap string procCounters :=
  let '(samples, problems, kept) := acc in
  match src_process src (p_PID p) with
  | Err e => (samples, problems ++ [EWrap ("read counters of %s (pid %d): %w", [AStr (p_Name p); AInt (p_PID p)]) e], kept)
  | Ok counters =>
      let rate := match kept !! p_Name p with
                  | Some previous =>
                      if f64_ltb f64_zero elapsed
                      then [sample now ScopeService (p_Name p) MetricCPUPercent
                              (cpuPercent (f64_sub (CPUTicks counters) (CPUTicks previous)) elapsed)]
                      else []
                  | None => []
                  end in
      (samples ++ [sample now ScopeService (p_Name p) MetricMemoryBytes (RSSBytes counters)] ++ rate,
       problems, <[p_Name p := counters]> kept)
  end.

Definition forget (procs : list Process) (kept : gmap string procCounters) : gmap string procCounters :=
  filter (fun kv => kv.1 ∈ (p_Name <$> procs)) kept.

(** collect: the samples of one tick and what could not be read. *)
Definition collect (now : Time) (src : source) (procs : list Process) : ST Sampler (list Sample * list error) := fun s =>
  let elapsed := Seconds (Sub now (lastAt s)) in
  let current := src_host src in
  if (match current with Err e => errors_is e ErrUnsupported | Ok _ => false end)
  then (([], match current with Err e => [e] | Ok _ => [] end), s)
  else
    let '(samples, problems, last, have) :=
      match current with
      | Err e => ([], [EWrap ("read host counters: %w", []) e], lastHost s, haveHost s)
      | Ok c =>
          (host_levels now c ++
             (if haveHost s && f64_ltb f64_zero elapsed then hostRates now (lastHost s) c elapsed else []),
           [], c, true)
      end in
    let '(samples, problems, kept) :=
      foldl (collect_process now elapsed src) (samples, problems, lastProc s) procs in
    ((samples, problems),
     MkSampler now last have (forget procs kept) (lastProblem s) (lastProblemAt s)).

(** Tick: collect, and store what there is.  [fails] and [fault] are what the
    store does, as in MetricStore.Append. *)
Definition Tick `{Sql} (now : Time) (src : source) (procs : list Process) (fails : bool) (fault : option nat)
    : ST (Sampler * Store) (list error) := fun '(s, store) =>
  let '((samples, problems), s') := collect now src procs s in
  match samples with
  | [] => (problems, (s', store))
  | _ => let '(r, store') := Append fails fault samples store in
         (problems ++ match r with Err e => [e] | Ok _ => [] end, (s', store'))
  end.

(** One turn of Run: whether it goes on, and what it reports. *)
Definition run_tick `{Sql} (now : Time) (src : source) (procs : list Process) (fails : bool) (fault : option nat)
    : ST (Sampler * Store) (bool * option (list error)) := fun st =>
  let '(errs, (s, store)) := Tick now src procs fails fault st in
  match errs with
  | [] => ((true, None), (s, store))
  | _ => let '(said, s') := notify errs now s in
         ((negb (existsb (fun e => errors_is e ErrUnsupported) errs), said), (s', store))
  end.

(** ** A rate comes from two readings and is never made up *)
(** ** Signs of floats *)
Definition not_negative (x : float64) : Prop := f64_ltb x f64_zero = false.

Lemma round_not_negative m e l : not_negative (binary_round_aux prec64 emax64 false m e l).
Proof.
  unfold not_negative, binary_round_aux. destruct (shr_fexp _ _ m e l) as [r e1].
  destruct (shr_fexp _ _ _ e1 loc_Exact) as [r2 e2]. destruct (shr_m r2) as [|p|p]; [done| |done].
  by destruct (e2 <=? emax64 - prec64).
Qed.

Lemma not_negative_div x y : not_negative x -> f64_ltb f64_zero y = true -> not_negative (f64_div x y).
Proof.
  unfold not_negative, f64_div, SFdiv. intros Hx Hy.
  destruct x as [[]|[]| |[] mx ex], y as [[]|[]| |[] my ey]; try done; cbn [xorb].
  destruct (SFdiv_core_binary _ _ _ _ _ _) as [[m e] l]. apply round_not_negative.
Qed.

Lemma not_negative_mul x y : not_negative x -> not_negative y -> not_negative (f64_mul x y).
Proof.
  unfold not_negative, f64_mul, SFmul. intros Hx Hy.
  destruct x as [[]|[]| |[] mx ex], y as [[]|[]| |[] my ey]; try done; cbn [xorb]. apply round_not_negative.
Qed.

Lemma at_least_zero x : f64_leb f64_zero x = true -> not_negative x.
Proof. unfold not_negative. by destruct x as [[]|[]| |[]]. Qed.

Lemma cpuPercent_not_negative ticks elapsed : not_negative (cpuPercent ticks elapsed).
Proof.
  unfold cpuPercent. destruct (f64_ltb ticks f64_zero) eqn:Ht; [done|].
  destruct (f64_leb elapsed f64_zero) eqn:He; [done|]. cbn [orb].
  apply not_negative_mul; [|done].
  assert (Hc : not_negative (f64_div ticks clockTicks)) by (by apply not_negative_div).
  destruct (f64_ltb f64_zero elapsed) eqn:Hl; [by apply not_negative_div|].
  assert (elapsed = S754_nan) as -> by (by destruct elapsed as [[]|[]| |[]]).
  unfold not_negative. by destruct (f64_div ticks clockTicks) as [[]|[]| |[]].
Qed.

(** ** One tick *)
Definition is_rate (x : Sample) : Prop :=
  (s_Scope x = ScopeService /\ s_Metric x = MetricCPUPercent) \/ s_Metric x = MetricNetRX \/ s_Metric x = MetricNetTX.

(** What a sample of a rate stands on: the state before the tick had a reading
    of the same thing and time has passed. *)
Definition stands (s : Sampler) (now : Time) (procs : list Process) (x : Sample) : Prop :=
  f64_ltb f64_zero (Seconds (Sub now (lastAt s))) = true /\
  (s_Scope x = ScopeHost -> haveHost s = true) /\
  (s_Scope x = ScopeService -> is_Some (lastProc s !! s_Name x)).

Definition sound (s : Sampler) (now : Time) (procs : list Process) (x : Sample) : Prop :=
  is_rate x -> stands s now procs x /\ not_negative (s_Value x).

Lemma levels_sound s now procs c : Forall (sound s now procs) (host_levels now c).
Proof. unfold host_levels. repeat apply Forall_cons_2; [intros [[? ?]|[?|?]]; done..|apply Forall_nil_2]. Qed.

Lemma hostRates_sound s now procs c :
  haveHost s = true -> f64_ltb f64_zero (Seconds (Sub now (lastAt s))) = true ->
  Forall (sound s now procs) (hostRates now (lastHost s) c (Seconds (Sub now (lastAt s)))).
Proof.
  intros Hh He. unfold hostRates. apply Forall_app. split.
  - destruct (f64_ltb _ (f64_sub _ _)); [|apply Forall_nil_2]. apply Forall_singleton. intros [[? ?]|[?|?]]; done.
  - destruct (f64_leb _ (f64_sub (NetRX c) _)) eqn:Hrx, (f64_leb _ (f64_sub (NetTX c) _)) eqn:Htx; try apply Forall_nil_2.
    repeat apply Forall_cons_2; try apply Forall_nil_2; intros _;
      (split; [split_and!; done|cbn; apply not_negative_div; [by apply at_least_zero|done]]).
Qed.

(** The processes of a tick, one after another: a name still to come has the
    counters of the last tick. *)
Definition ProcInv s now procs (rest : list Process) (acc : list Sample * list error * gmap string procCounters) : Prop :=
  Forall (sound s now procs) acc.1.1 /\
  (forall p, p ∈ rest -> acc.2 !! p_Name p = lastProc s !! p_Name p) /\
  (forall n, is_Some (acc.2 !! n) -> is_Some (lastProc s !! n) \/ n ∈ (p_Name <$> procs)).

Lemma process_sound s now procs src p rest acc :
  NoDup (p_Name <$> (p :: rest)) -> p ∈ procs ->
  ProcInv s now procs (p :: rest) acc ->
  ProcInv s now procs rest (collect_process now (Seconds (Sub now (lastAt s))) src acc p).
Proof.
  destruct acc as [[samples problems] kept]. intros Hnd Hp (H1 & H2 & H3). cbn [fst snd] in *.
  apply NoDup_cons in Hnd as [Hn Hnd]. unfold collect_process.
  destruct (src_process src (p_PID p)) as [c|e].
  2: { split_and!; cbn [fst snd]; [done|intros q Hq; apply H2; by right|done]. }
  split_and!; cbn [fst snd].
  - apply Forall_app. split; [done|]. constructor; [intros [[? ?]|[?|?]]; done|].
    rewrite (H2 p) by left. destruct (lastProc s !! p_Name p) as [c'|] eqn:Ec; [|apply Forall_nil_2].
    destruct (f64_ltb _ _) eqn:He; [|apply Forall_nil_2]. apply Forall_singleton. intros _.
    split; [|apply cpuPercent_not_negative]. split_and!; cbn; [done|done|by rewrite Ec].
  - intros q Hq. rewrite lookup_insert_ne; [apply H2; by right|].
    intros E. apply Hn. rewrite E. by apply list_elem_of_fmap_2.
  - intros n [c' Hc']. destruct (decide (n = p_Name p)) as [->|Hne].
    + right. by apply list_elem_of_fmap_2.
    + rewrite lookup_insert_ne in Hc' by done. apply H3. eauto.
Qed.

Lemma processes_sound s now procs src rest acc :
  NoDup (p_Name <$> rest) -> (forall p, p ∈ rest -> p ∈ procs) ->
  ProcInv s now procs rest acc ->
  ProcInv s now procs [] (foldl (collect_process now (Seconds (Sub now (lastAt s))) src) acc rest).
Proof.
  revert acc. induction rest as [|p rest IH]; intros acc Hnd Hin Hacc; [done|]. cbn [foldl].
  apply IH; [by apply NoDup_cons in Hnd as [_ ?]|intros q Hq; apply Hin; by right|].
  apply process_sound; [done|apply Hin; left|done].
Qed.

Lemma collect_sound now src procs s :
  NoDup (p_Name <$> procs) ->
  Forall (sound s now procs) (collect now src procs s).1.1 /\
  ((collect now src procs s).2 <> s -> forall n, is_Some (lastProc (collect now src procs s).2 !! n) -> n ∈ (p_Name <$> procs)).
Proof.
  intros Hnd. unfold collect.
  destruct (match src_host src with Err e => errors_is e ErrUnsupported | Ok _ => false end) eqn:Hu; [by split|].
  assert (Hstart : forall samples problems,
    Forall (sound s now procs) samples -> ProcInv s now procs procs (samples, problems, lastProc s)).
  { intros samples problems Hs. split_and!; cbn; [done|done|by left]. }
  destruct (src_host src) as [c|e].
  - pose proof (processes_sound s now procs src procs
      (host_levels now c ++ (if haveHost s && f64_ltb f64_zero (Seconds (Sub now (lastAt s)))
                             then hostRates now (lastHost s) c (Seconds (Sub now (lastAt s))) else []), [], lastProc s)
      Hnd (fun p Hp => Hp)) as H.
    destruct (foldl _ _ procs) as [[samples problems] kept]. destruct H as (H1 & _ & _).
    { apply Hstart, Forall_app. split; [apply levels_sound|].
      destruct (haveHost s) eqn:Hh; [|apply Forall_nil_2]. destruct (f64_ltb _ _) eqn:He; [|apply Forall_nil_2]. by apply hostRates_sound. }
    cbn [fst snd lastProc] in *. split; [done|]. intros _ n [v Hv]. unfold forget in Hv.
    by apply map_lookup_filter_Some in Hv as [_ ?].
  - pose proof (processes_sound s now procs src procs ([], [EWrap ("read host counters: %w", []) e], lastProc s) Hnd
      (fun p Hp => Hp)) as H.
    destruct (foldl _ _ procs) as [[samples problems] kept]. destruct H as (H1 & _ & _); [by apply Hstart|].
    cbn [fst snd lastProc] in *. split; [done|]. intros _ n [v Hv]. unfold forget in Hv.
    by apply map_lookup_filter_Some in Hv as [_ ?].
Qed.

(** ** A history of ticks *)
Record tick := MkTick { at_ : Time; from : source; listed : list Process }.
Definition names (t : tick) : list string := p_Name <$> listed t.
Definition unsupported (t : tick) : bool :=
  match src_host (from t) with Err e => errors_is e ErrUnsupported | Ok _ => false end.

(** The sampler after the ticks, the first of the list first. *)
Definition after_tick (s : Sampler) (t : tick) : Sampler := (collect (at_ t) (from t) (listed t) s).2.
Definition readings (ticks : list tick) : Sampler := foldl after_tick NewSampler ticks.

(** [c] was read of a process with this name, and every tick since listed the
    name. *)
Inductive read_of (n : string) (c : procCounters) : list tick -> Prop :=
  | read_now h t p : p ∈ listed t -> p_Name p = n -> src_process (from t) (p_PID p) = Ok c -> read_of n c (h ++ [t])
  | read_kept h t : read_of n c h -> unsupported t = true \/ n ∈ names t -> read_of n c (h ++ [t]).

Lemma fold_reads now elapsed src procs acc n c :
  (foldl (collect_process now elapsed src) acc procs).2 !! n = Some c ->
  (exists p, p ∈ procs /\ p_Name p = n /\ src_process src (p_PID p) = Ok c) \/ acc.2 !! n = Some c.
Proof.
  revert acc. induction procs as [|p procs IH]; intros [[samples problems] kept] H; [by right|].
  cbn [foldl] in H. apply IH in H as [(q & ? & ? & ?)|H]; [left; exists q; split_and!; [by right|done..]|].
  unfold collect_process in H. destruct (src_process src (p_PID p)) as [c'|e] eqn:Ec; [|by right].
  cbn [snd] in H. apply lookup_insert_Some in H as [[? [= <-]]|[_ ?]]; [|by right].
  left. exists p. split_and!; [by left|done|done].
Qed.

Lemma tick_reads t s n c :
  lastProc (after_tick s t) !! n = Some c ->
  (exists p, p ∈ listed t /\ p_Name p = n /\ src_process (from t) (p_PID p) = Ok c) \/
  (lastProc s !! n = Some c /\ (unsupported t = true \/ n ∈ names t)).
Proof.
  unfold after_tick, collect, unsupported, names.
  destruct (match src_host (from t) with Err e => errors_is e ErrUnsupported | Ok _ => false end) eqn:Hu; [by auto|].
  assert (Hfold : forall acc, acc.2 = lastProc s ->
    forget (listed t) (foldl (collect_process (at_ t) (Seconds (Sub (at_ t) (lastAt s))) (from t)) acc (listed t)).2 !! n = Some c ->
    (exists p, p ∈ listed t /\ p_Name p = n /\ src_process (from t) (p_PID p) = Ok c) \/
    (lastProc s !! n = Some c /\ (false = true \/ n ∈ p_Name <$> listed t))).
  { intros acc Hacc H. unfold forget in H. apply map_lookup_filter_Some in H as [H Hin].
    apply fold_reads in H as [H|H]; [by left|]. rewrite Hacc in H. right. by split; [|right]. }
  destruct (src_host (from t)) as [h|e];
    (match goal with |- context [foldl ?f ?a ?l] => specialize (Hfold a eq_refl); destruct (foldl f a l) as [[? ?] kept] end);
    cbn [snd lastProc] in *; exact Hfold.
Qed.

Lemma tick_host t s :
  haveHost (after_tick s t) = true -> haveHost s = true \/ exists c, src_host (from t) = Ok c.
Proof.
  unfold after_tick, collect. destruct (src_host (from t)) as [c|e]; [by eauto|].
  destruct (errors_is e ErrUnsupported); [by left|]. destruct (foldl _ _ _) as [[? ?] ?]. by left.
Qed.

Lemma readings_sound ticks :
  (haveHost (readings ticks) = true -> exists t c, t ∈ ticks /\ src_host (from t) = Ok c) /\
  (forall n c, lastProc (readings ticks) !! n = Some c -> read_of n c ticks).
Proof.
  induction ticks as [|t ticks [IHh IHp]] using rev_ind; [by split|].
  unfold readings. rewrite foldl_app. cbn [foldl]. fold (readings ticks). split.
  - intros [H|[c Hc]]%tick_host.
    + destruct (IHh H) as (u & c & ? & ?). exists u, c. split; [|done]. apply elem_of_app. by left.
    + exists t, c. split; [|done]. apply elem_of_app. right. by left.
  - intros n c [(p & ? & ? & ?)|[H Hin]]%tick_reads; [by eapply read_now|]. apply read_kept; auto.
Qed.

(** A rate is never made up.  After any history of ticks, a sample that is
    a rate (a service's CPU percent, the host's network bytes per second) is not
    negative and time has passed since the last tick; the host's needs an
    earlier tick that read the host, a service's one that read a process of that
    name, with no tick in between that did not list it. *)
Theorem rates_stand_on_readings ticks t x :
  NoDup (names t) -> x ∈ (collect (at_ t) (from t) (listed t) (readings ticks)).1.1 -> is_rate x ->
  f64_ltb (s_Value x) f64_zero = false /\
  f64_ltb f64_zero (Seconds (Sub (at_ t) (lastAt (readings ticks)))) = true /\
  (s_Scope x = ScopeHost -> exists u c, u ∈ ticks /\ src_host (from u) = Ok c) /\
  (s_Scope x = ScopeService -> exists c, read_of (s_Name x) c ticks).
Proof.
  intros Hnd Hx Hr. destruct (readings_sound ticks) as [Hh Hp].
  destruct (collect_sound (at_ t) (from t) (listed t) (readings ticks) Hnd) as [Hs _].
  rewrite Forall_forall in Hs. destruct (Hs x Hx Hr) as [(He & H1 & H2) Hv].
  split_and!; [done|done|auto|]. intros [c Hc]%H2. eauto.
Qed.

Definition tick_sample (at_s : Z) (rx ticks : Z) : tick :=
  MkTick (at_s * Second)
    (MkSource (Ok (MkHostCounters (f64_of_Z 1) f64_zero f64_zero f64_zero f64_zero f64_zero (f64_of_Z rx) f64_zero f64_zero))
              (fun _ => Ok (MkProcCounters (f64_of_Z ticks) f64_zero)))
    [MkProcess "web" 7].

Definition rate_sample : Sample :=
  MkSample (20 * Second) ScopeService "web" MetricCPUPercent (f64_of_Z 50).

Lemma rates_stand_on_readings_witness :
  read_of "web" (MkProcCounters (f64_of_Z 100) f64_zero) [tick_sample 10 0 100] /\
  exists c, read_of (s_Name rate_sample) c [tick_sample 10 0 100].
Proof.
  split.
  - apply (read_now _ _ [] (tick_sample 10 0 100) (MkProcess "web" 7)); [by left|done|done].
  - apply (rates_stand_on_readings [tick_sample 10 0 100] (tick_sample 20 4096 600) rate_sample).
    + apply (bool_decide_unpack _). vm_compute. exact I.
    + assert (E : (collect (at_ (tick_sample 20 4096 600)) (from (tick_sample 20 4096 600))
        (listed (tick_sample 20 4096 600)) (readings [tick_sample 10 0 100])).1.1 !! 8%nat = Some rate_sample)
        by (vm_compute; reflexivity).
      exact (list_elem_of_lookup_2 _ _ _ E).
    + left. by split.
    + reflexivity.
Defined.

(** A host that could not be read for one tick: the next rate divides the bytes
    of two intervals by the length of one. *)
Definition unread_tick (at_s : Z) : tick :=
  MkTick (at_s * Second) (MkSource (Err (EMsg ("read", []))) (fun _ => Err (EMsg ("read", [])))) [MkProcess "web" 7].

Lemma failed_read_doubles :
  let rates ticks := filter (fun x => s_Metric x = MetricNetRX \/ s_Metric x = MetricCPUPercent)
    (collect (30 * Second) (from (tick_sample 30 2000 1000)) [MkProcess "web" 7] (readings ticks)).1.1 in
  s_Value <$> rates [tick_sample 10 0 0; tick_sample 20 1000 500] = [f64_of_Z 100; f64_of_Z 50] /\
  s_Value <$> rates [tick_sample 10 0 0; unread_tick 20] = [f64_of_Z 200; f64_of_Z 100].
Proof. vm_compute. auto. Qed.

(** Another process under the same name: its counters less the old one's. *)
Lemma restart_is_subtracted :
  let restarted := MkTick (20 * Second) (from (tick_sample 20 0 600)) [MkProcess "web" 9] in
  exists x, x ∈ (collect (at_ restarted) (from restarted) (listed restarted) (readings [tick_sample 10 0 100])).1.1 /\
    x = rate_sample.
Proof. cbn zeta. exists rate_sample. split; [|done]. apply (list_elem_of_lookup_2 _ 8). vm_compute. reflexivity. Qed.

(** ** The text of /proc/<pid>/stat *)
Fixpoint clean_bytes (s : string) : bool :=
  match s with
  | "" => true
  | String c s' => negb (ascii_space c) && negb (Ascii.eqb c ")") && clean_bytes s'
  end.
Definition clean_field (f : string) : Prop := f <> "" /\ clean_bytes f = true.

Lemma fields_go_word f rest cur :
  clean_bytes f = true -> fields_go (f +:+ rest) cur = fields_go rest (rev_string_app f cur).
Proof.
  revert cur. induction f as [|c f IH]; intros cur Hf; [done|].
  cbn in Hf. apply andb_true_iff in Hf as [[Hc _]%andb_true_iff Hf].
  rewrite append_cons. cbn. apply negb_true_iff in Hc. rewrite Hc. by apply IH.
Qed.

Lemma rev_string_word f : rev_string (rev_string_app f "") = f.
Proof. exact (rev_string_involutive f). Qed.

Lemma word_not_empty f : f <> "" -> String.eqb (rev_string_app f "") "" = false.
Proof. intros Hf. apply String.eqb_neq. intros E. apply Hf. by rewrite <- (rev_string_word f), E. Qed.

Lemma Fields_words fs :
  Forall clean_field fs -> Fields (Join fs " ") = fs.
Proof.
  unfold Fields. induction fs as [|f [|g fs] IH]; intros Hfs; [done|..]; inversion Hfs as [|? ? [Hne Hf] Hrest]; subst.
  - cbn [Join]. rewrite <- (string_app_nil f) at 1. rewrite fields_go_word by done.
    cbn. by rewrite word_not_empty, rev_string_word.
  - change (Join (f :: g :: fs) " ") with (f +:+ (" " +:+ Join (g :: fs) " ")).
    rewrite fields_go_word by done. change (" " +:+ ?s) with (String " " s). cbn [fields_go].
    cbn. rewrite word_not_empty, rev_string_word by done. cbn. f_equal. by apply IH.
Qed.

Lemma field_no_paren f : clean_bytes f = true -> contains_byte ")" f = false.
Proof.
  induction f as [|c f IH]; intros Hf; [done|]. rewrite contains_byte_cons.
  cbn in Hf. apply andb_true_iff in Hf as [[_ Hc]%andb_true_iff Hf]. apply negb_true_iff in Hc.
  by rewrite Ascii.eqb_sym, Hc, IH.
Qed.

Lemma clean_no_paren fs : Forall clean_field fs -> contains_byte ")" (Join fs " ") = false.
Proof.
  induction fs as [|f [|g fs] IH]; intros Hfs; [done|..]; inversion Hfs as [|? ? [_ Hf] Hrest]; subst.
  - cbn [Join]. by apply field_no_paren.
  - change (Join (f :: g :: fs) " ") with (f +:+ (" " +:+ Join (g :: fs) " ")).
    rewrite !contains_byte_app, IH, field_no_paren by done. done.
Qed.

(** /proc/<pid>/stat is read by position after the last closing
    parenthesis: whatever the program calls itself (spaces and parentheses
    included), fields 14, 15 and 24 of the line are the ticks in user and system
    code and the resident pages. *)
Theorem proc_stat_read page pid comm fs u k r fu fk fr :
  Forall clean_field fs -> fs !! 11%nat = Some u -> fs !! 12%nat = Some k -> fs !! 21%nat = Some r ->
  ParseFloat u = Some fu -> ParseFloat k = Some fk -> ParseFloat r = Some fr ->
  parseProcStat page (pid +:+ " (" +:+ comm +:+ ") " +:+ Join fs " ") =
    Ok (MkProcCounters (f64_add fu fk) (f64_mul fr (f64_of_Z page))).
Proof.
  intros Hfs Hu Hk Hr Pu Pk Pr. unfold parseProcStat.
  replace (pid +:+ " (" +:+ comm +:+ ") " +:+ Join fs " ")
    with ((pid +:+ " (" +:+ comm) +:+ String ")" (" " +:+ Join fs " ")) by by rewrite !string_app_assoc.
  rewrite cut_last_app.
  2: { change (" " +:+ ?s) with (String " " s). rewrite contains_byte_cons. by rewrite clean_no_paren. }
  change (Fields (" " +:+ ?s)) with (Fields s). rewrite Fields_words by done.
  assert (Hlen : (length fs <=? rssIndex)%nat = false) by (apply lookup_lt_Some in Hr; by apply Nat.leb_gt).
  rewrite Hlen. unfold utimeIndex, stimeIndex, rssIndex. rewrite Hu, Hk, Hr. cbn [mbind option_bind]. by rewrite Pu, Pk, Pr.
Qed.

Definition stat_fields : list string :=
  ["S"; "1"; "7"; "7"; "0"; "-1"; "4194560"; "9"; "0"; "0"; "0"; "250"; "50"; "0"; "0"; "20"; "0"; "1"; "0"; "8813";
   "1646592"; "300"].

Lemma stat_fields_clean : Forall clean_field stat_fields.
Proof. repeat apply Forall_cons_2; try apply Forall_nil_2; done. Qed.

Lemma proc_stat_read_witness :
  parseProcStat 4096 ("7" +:+ " (" +:+ "web) (x" +:+ ") " +:+ Join stat_fields " ") =
    Ok (MkProcCounters (f64_add (f64_of_Z 250) (f64_of_Z 50)) (f64_mul (f64_of_Z 300) (f64_of_Z 4096))).
Proof.
  apply (proc_stat_read 4096 "7" "web) (x" stat_fields "250" "50" "300"); [apply stat_fields_clean|..];
    vm_compute; reflexivity.
Defined.
