(* ===== verification/Volumes.v ===== *)
(** * Volumes: a service's data, and os.Root over it

    What src/api/files.go uses of os.Root and io/fs: a tree of files under the
    mountpoint of a volume, keyed by the cleaned path inside it.  Symbolic
    links are not part of the model: os.Root's own promise about them is the
    standard library's. *)
From S2P Require Import Prelude GoText GoTime GoPath.
From Stdlib Require Import Ascii.
Open Scope string_scope.
Open Scope list_scope.
Open Scope Z_scope.
Open Scope hostd_scope.

Inductive fnode :=
  | FFile (content : string) (modified : Time)
  | FDir.
Abbreviation Volume := (gmap string fnode).

#[export] Instance fnode_eq_dec : EqDecision fnode.
Proof. solve_decision. Defined.

Definition escapes : error := EMsg ("path escapes from parent", []).
Definition is_directory : error := EMsg ("is a directory", []).
Definition not_a_directory : error := EMsg ("not a directory", []).
Definition no_space : error := EMsg ("no space left on device", []).

(** A cleaned path that stays inside: not absolute, not above. *)
Definition inside_path (p : string) : bool :=
  negb (IsAbs p || String.eqb p ".." || HasPrefix p "../").

(** The directories above a cleaned path, outermost first. *)
Fixpoint above (parts : list string) (prefix : string) : list string :=
  match parts with
  | [] | [_] => []
  | p :: rest => let here := if String.eqb prefix "" then p else prefix +:+ String slash p in
                 here :: above rest here
  end.
Definition parents (p : string) : list string := above (Split p slash) "".

Section Root.
Implicit Types v : Volume.

(** Following the path: every directory above must be one. *)
Fixpoint walk v (dirs : list string) : result unit :=
  match dirs with
  | [] => Ok tt
  | d :: rest => match v !! d with
                 | None => Err ErrNotExist
                 | Some (FFile _ _) => Err not_a_directory
                 | Some FDir => walk v rest
                 end
  end.

(** What a path names: the root itself, an entry or nothing. *)
Definition resolve (p : string) v : result (option fnode) :=
  if negb (inside_path p) then Err escapes
  else if String.eqb p "." then Ok (Some FDir)
  else _ ← walk v (parents p); Ok (v !! p).

(** root.Lstat and root.Open followed by Stat *)
Definition Lstat (p : string) v : result fnode :=
  n ← resolve p v; match n with None => Err ErrNotExist | Some n => Ok n end.

(** root.Remove of a file: a directory goes only when empty, which no caller
    asks for. *)
Definition Remove_file (p : string) v : result Volume :=
  n ← Lstat p v;
  match n with FDir => Err is_directory | FFile _ _ => Ok (delete p v) end.

(** root.Create: an empty file, a file already there emptied. *)
Definition Create_file (now : Time) (p : string) v : result Volume :=
  n ← resolve p v;
  match n with Some FDir => Err is_directory | _ => Ok (<[p := FFile "" now]> v) end.

Definition Write_file (now : Time) (p content : string) v : Volume := <[p := FFile content now]> v.

(** root.Rename(from, to) of a file *)
Definition Rename (from to : string) v : result Volume :=
  n ← Lstat from v;
  target ← resolve to v;
  match target with
  | Some FDir => Err is_directory
  | _ => Ok (<[to := n]> (delete from v))
  end.

(** fs.ReadDir(root.FS(), p), in the order of the names *)
Definition child_of (p k : string) : option string :=
  let rest := if String.eqb p "." then Some k
              else if HasPrefix k (p +:+ "/") then Some (TrimPrefix k (p +:+ "/")) else None in
  match rest with
  | Some name => if contains_byte slash name then None else Some name
  | None => None
  end.
Definition ReadDir_ (p : string) v : result (list (string * fnode)) :=
  n ← Lstat p v;
  match n with
  | FFile _ _ => Err not_a_directory
  | FDir => Ok (omap (fun kn => name ← child_of p kn.1; Some (name, kn.2)) (map_to_list v))
  end.
End Root.
