(* ===== verification/Host.v ===== *)
(** * Host: what a request reads and changes, and what it is answered with

    The data of src/api/protocol.go and the Server struct of src/api/server.go
    with the components behind it: the supervisor, the store of generation and
    audit (an interface, as in the code), the services directory, the log and
    metric stores, and the volumes on disk. *)
From S2P Require Import Prelude GoText GoTime GoPath Service Filo Tree AuditLog Runtime Supervisor Schedule Plan Images MetricStore LogDatabase Volumes.
From Stdlib Require Import Ascii SpecFloat.
Open Scope string_scope.
Open Scope list_scope.
Open Scope Z_scope.
Open Scope hostd_scope.

Definition CodeOK := "ok".
Definition CodeInvalid := "invalid-request".
Definition CodeUnknownOp := "unknown-operation".
Definition CodeNotFound := "not-found".
Definition CodeFailed := "operation-failed".
Definition CodeUnavailable := "unavailable".
Definition CodeConflict := "generation-conflict".
Definition CodeDestructive := "destructive-refused".
Definition CodeRefused := "refused".

Record Request := MkRequest {
  Op : string;
  rq_Name : string;
  rq_Service : string;
  rq_Stream : string;
  rq_Match : string;
  rq_Kind : string;
  rq_Run : string;
  rq_Limit : Z;
  rq_Since : Z;
  Keep : Z;
  rq_Arch : string;
  rq_Scope : string;
  rq_Metric : string;
  FromMS : float64;
  ToMS : float64;
  rq_StepMS : float64;
  ExpectGeneration : Z;
  AllowDestructive : bool;
  rq_OnBehalfOf : string;
  rq_Body : string;
}.

(** ** What an answer carries *)
Record ImageEntry := MkImageEntry {
  ie_Digest : string;
  ie_Tags : list string;
  ie_Bytes : float64;
  ie_Created : float64;
  UsedBy : string;
  Managed : bool;
}.
Record ImagePrune := MkImagePrune { ip_Keep : Z; Kept : Z; ip_Remove : list ImageChange; Applied : bool }.
Record Image_ := MkImage { i_Name : string; i_Ref : string; i_Digest : string; i_Bytes : float64; i_Content : string }.
Record Removal := MkRemoval { rm_Service : string; rm_Container : string; rm_Image : Msg }.
Record Description := MkDescription {
  ds_Version : string; ds_Protocol : Z; ds_Schema : Z; Operations : list string; ds_Arch : string; ds_Runtime : string;
  ds_CPUs : Z; ds_MemoryBytes : float64; ds_TimeMS : float64; ds_Zone : string; ds_ZoneOffsetMS : float64;
}.
Record LogLine := MkLogLine { ll_Seq : Z; ll_Time : float64; ll_Service : string; ll_Stream : string; ll_Kind : string; ll_Run : string; ll_Text : Msg }.
Record FileEntry := MkFileEntry { fe_Name : string; fe_Dir : bool; fe_Bytes : float64; fe_MS : float64 }.
Record FileTransfer := MkFileTransfer { ft_Path : string; ft_Bytes : float64 }.
Record JobRun := MkJobRun { jr_Service : string; jr_Run : string }.
Record Backup_ := MkBackup { bk_Run : string; bk_File : string; bk_Bytes : float64 }.

(** The values handlers hand to body(); the empty body of a refusal. *)
Inductive Payload :=
  | BNone
  | BStatus (l : list Status)
  | BChanges (l : list Change)
  | BAudit (l : list Entry)
  | BLines (l : list LogLine)
  | BCount (n : Z)
  | BSeries (l : list Series)
  | BImages (l : list ImageEntry)
  | BPrune (p : ImagePrune)
  | BImage (i : Image_)
  | BVersions (v : ServiceVersions)
  | BDescription (d : Description)
  | BRemoval (r : Removal)
  | BName (s : string)
  | BRun (r : JobRun)
  | BBackup (b : Backup_)
  | BFiles (l : list FileEntry)
  | BTransfer (t : FileTransfer).

Record Response := MkResponse { Code : string; Message : Msg; rs_Generation : Z; Body : Payload }.

Definition answer (code : string) (m : Msg) : Response := MkResponse code m 0 BNone.
Definition with_generation (g : Z) (r : Response) : Response := MkResponse (Code r) (Message r) g (Body r).
Definition with_body (b : Payload) (r : Response) : Response := MkResponse (Code r) (Message r) (rs_Generation r) b.
Definition Failed (r : Response) : bool := negb (String.eqb (Code r) CodeOK).

(** Whether the marshaller can render a value. *)
Class Render := { render_error : Payload -> option error }.

Definition body `{Render} (v : Payload) : Response :=
  match render_error v with
  | Some e => answer CodeFailed ("could not render the result: %s", [AMsg (error_msg e)])
  | None => MkResponse CodeOK (Lit "") 0 v
  end.
Definition mustMarshal `{Render} (v : Payload) : Payload :=
  match render_error v with Some _ => BNone | None => v end.

(** ** The store of generation and audit, as the server sees it *)
Class Auditor (A : Type) := {
  au_Generation : A -> Z;
  au_Check : Z -> A -> result unit;
  au_Record : float64 -> Entry -> bool -> A -> Z * A;
  au_Recent : Z -> A -> list Entry;
}.

(** What the server relies on. *)
Class AuditorLaws A `{Auditor A} := {
  check_exact : forall e a, au_Check e a = Ok tt <-> e = 0 \/ e = au_Generation a;
  record_answers : forall ms e c a, (au_Record ms e c a).1 = au_Generation (au_Record ms e c a).2;
  record_keeps : forall ms e c a, Result e <> ResultOK \/ c = false ->
    au_Generation (au_Record ms e c a).2 = au_Generation a;
  record_moves : forall ms e a, Result e = ResultOK ->
    au_Generation (au_Record ms e true a).2 = uint64_succ (au_Generation a);
  record_last : forall ms e c a, exists e', last (au_Recent 0 (au_Record ms e c a).2) = Some e' /\
    Operation e' = Operation e /\ Target e' = Target e /\ Result e' = Result e /\ Detail e' = Detail e /\
    After e' = au_Generation (au_Record ms e c a).2;
}.

(** ** The server *)
Record Host (W A : Type) := MkHost {
  sup : Sup W;
  store : A;
  dir : Dir;
  db : LogDatabase.DB;
  appended : nat;
  metrics : MetricStore.Store;
  has_runtime : bool;
  disks : gmap string Volume;
}.
Arguments MkHost {W A}. Arguments sup {W A}. Arguments store {W A}. Arguments dir {W A}. Arguments db {W A}.
Arguments appended {W A}. Arguments metrics {W A}. Arguments has_runtime {W A}. Arguments disks {W A}.

(** The services that have files beside their declaration, as os.Stat finds
    them, and those whose files include the backup script. *)
Definition beside (d : Dir) (holds_ : gmap string leaf -> bool) : gset string :=
  list_to_set (omap (fun e =>
    match e.2 with
    | NDir files => if HasSuffix e.1 ArtifactSuffix && holds_ files then Some (TrimSuffix e.1 ArtifactSuffix) else None
    | NFile _ => None
    end) (map_to_list (default ∅ d))).

Definition has_script (files : gmap string leaf) : bool :=
  match files !! BackupScript with Some (LFile _) => true | _ => false end.

Section Steps.
Context {W A : Type} `{Auditor A}.
Implicit Types h : Host W A.

Definition on_sup {B} (m : ST (Sup W) B) : ST (Host W A) B := fun h =>
  let '(b, s) := m (sup h) in
  (b, MkHost s (store h) (dir h) (db h) (appended h) (metrics h) (has_runtime h) (disks h)).

(** A call to the runtime client the server was handed. *)
Definition on_world {B} (m : ST W B) : ST (Host W A) B := on_sup (lift m).

Definition set_files (d : Dir) (s : Sup W) : Sup W :=
  MkSup (world s) (client s) (services s) (declared s) (following s) (reported s) (fired s) (awaiting s)
    (timeline s) (tasks s) (nudged s) (left s) (now s) (beside d (fun _ => true)) (beside d has_script).

(** The services directory, which the supervisor reads too. *)
Definition on_dir {B} (m : ST Dir B) : ST (Host W A) B := fun h =>
  let '(b, d) := m (dir h) in
  (b, MkHost (set_files d (sup h)) (store h) d (db h) (appended h) (metrics h) (has_runtime h) (disks h)).

Definition on_disk {B} (mountpoint : string) (v : Volume) (b : B) : ST (Host W A) B := fun h =>
  (b, MkHost (sup h) (store h) (dir h) (db h) (appended h) (metrics h) (has_runtime h) (<[mountpoint := v]> (disks h))).

Definition clock_ms h : float64 := f64_of_Z (UnixMilli (now (sup h))).

(** s.store.Record *)
Definition record (e : Entry) (changed : bool) : ST (Host W A) Z := fun h =>
  let '(g, a) := au_Record (clock_ms h) e changed (store h) in
  (g, MkHost (sup h) a (dir h) (db h) (appended h) (metrics h) (has_runtime h) (disks h)).

(** s.log.Append *)
Definition say (service stream kind : string) (text : Msg) : ST (Host W A) unit :=
  on_sup (log_append service stream kind "" text).

Definition entry_of (operation target : string) (req : Request) (actor : string) : Entry :=
  MkEntry 0 f64_zero actor (rq_OnBehalfOf req) operation target 0 0 "" (Lit "").
Definition with_result (e : Entry) (result : string) (detail : Msg) : Entry :=
  MkEntry (AuditLog.Seq e) (AuditLog.TimeMS e) (Actor e) (OnBehalfOf e) (Operation e) (Target e) (Before e) (AuditLog.After e) result detail.

Definition stamp (r : Response) : ST (Host W A) Response := fun h =>
  (if rs_Generation r =? 0 then with_generation (au_Generation (store h)) r else r, h).

Definition stamped (m : ST (Host W A) Response) : ST (Host W A) Response := r ← m; stamp r.

(** Audits an operation that was not carried out. *)
Definition refuse (e : Entry) (code : string) (cause : error) : ST (Host W A) Response :=
  g ← record (with_result e ResultRefused (error_msg cause)) false;
  mret (MkResponse code (error_msg cause) g BNone).

(** Audits one that was tried and failed. *)
Definition failed (e : Entry) (code : string) (m : Msg) : ST (Host W A) Response :=
  g ← record (with_result e ResultFailed m) false;
  mret (MkResponse code m g BNone).

(** Every line appended so far is in the store when the store is asked. *)
Definition settle : ST (Host W A) LogDatabase.DB := fun h =>
  let new := drop (appended h) (timeline (sup h)) in
  let d := foldl (fun d r => (LogDatabase.Append (now (sup h)) r d).2) (db h) new in
  (d, MkHost (sup h) (store h) (dir h) d (length (timeline (sup h))) (metrics h) (has_runtime h) (disks h)).
Definition set_db (d : LogDatabase.DB) : ST (Host W A) unit := modify (fun h =>
  MkHost (sup h) (store h) (dir h) d (appended h) (metrics h) (has_runtime h) (disks h)).
End Steps.

Lemma last_recorded ms e c a : last (Recent 0 (record_mem ms e c a).2) = Some (record_mem ms e c a).1.1.
Proof.
  unfold Recent. change (0 <=? 0) with true. cbn [orb]. rewrite Nat.sub_diag, drop_0.
  unfold record_mem. cbn [snd fst recent]. case_match; [|apply last_snoc].
  rewrite <- last_n_snoc. unfold last_n. rewrite drop_app_le; [apply last_snoc|].
  rewrite length_app. cbn [length]. unfold maxAuditMemory. lia.
Qed.

(** The implementation: the store in memory and the files of its directory. *)
Section Implementation.
Context `{FiloEngine} `{!FiloType Entry} `{!FiloType snapshot} (append_fails save_fails : bool).
#[export] Instance audit_store : Auditor (AuditLog.Store * Disk) := {|
  au_Generation a := Generation a.1;
  au_Check e a := Check e a.1;
  au_Record ms e c a := Record_entry ms append_fails save_fails e c a;
  au_Recent limit a := Recent limit a.1;
|}.

#[export] Instance audit_store_laws : AuditorLaws (AuditLog.Store * Disk).
Proof.
  split.
  - intros e [a d]. cbn. unfold Check, Generation. destruct (Z.eqb_spec e 0) as [->|He]; [tauto|].
    destruct (Z.eqb_spec e (generation a)) as [->|Hg]; cbn; [tauto|]. split; [done|]. intros [?|?]; done.
  - intros ms e c [a d]. reflexivity.
  - intros ms e c [a d] Hk. cbn [au_Generation au_Record audit_store fst snd]. unfold Record_entry, record_mem, Generation. cbn [fst snd generation]. destruct (String.eqb_spec (Result e) ResultOK); [|done].
    destruct c; [|done]. naive_solver.
  - intros ms e [a d] Hr. cbn [au_Generation au_Record audit_store fst snd]. unfold Record_entry, record_mem, Generation. cbn [fst snd generation]. by rewrite Hr.
  - intros ms e c [a d]. exists (record_mem ms e c a).1.1.
    assert (E : ((Record_entry ms append_fails save_fails e c (a, d)).2).1 = (record_mem ms e c a).2).
    { unfold Record_entry. cbn [fst snd]. by destruct (record_mem ms e c a) as [[] ?]. }
    cbn [au_Recent au_Record au_Generation audit_store]. rewrite E. split; [apply last_recorded|done].
Qed.
End Implementation.
