(* ===== verification/ServiceHandlers.v ===== *)
(** * ServiceHandlers: the operations on services, jobs and declarations

    src/api/server.go (mutate, redeploy, refuse, planOnly, apply), src/api/job.go
    and the handlers of src/api/declaration.go, over Host.v. *)
From S2P Require Import Prelude GoText GoTime GoPath Service Filo Tree DeclarationFiles AuditLog Runtime Supervisor Schedule Plan Images Volumes Host.
From Stdlib Require Import Ascii SpecFloat.
Open Scope string_scope.
Open Scope list_scope.
Open Scope Z_scope.
Open Scope hostd_scope.

Definition OpServicePut := "service.put".
Definition OpServiceRemove := "service.remove".
Definition OpApply := "apply".

(** errors.AsType[supervisor.ErrUnknownService] and the like *)
Definition unknown (e : error) : bool := as_b is_unknown_service e.

(** os.IsNotExist does not look inside a wrapped error. *)
Definition os_IsNotExist (e : error) : bool := bool_decide (e = ErrNotExist).

(** os.Remove of a file of the services directory; a directory goes when it is
    empty. *)
Definition remove_file (name : string) : ST Dir (result unit) := fun d =>
  match entries_of d !! name with
  | None => (Err ErrNotExist, d)
  | Some (NDir m) => if bool_decide (m = ∅) then (Ok tt, delete name <$> d) else (Err not_empty, d)
  | Some (NFile _) => (Ok tt, delete name <$> d)
  end.

Section Handlers.
Context {W A : Type} `{Runtime W} `{LogStore} `{MapOrder Service} `{Auditor A} `{Render}.
Context `{FiloEngine} `{!FiloType Service} `{!FiloType WireDeclaration} `{Sha256}.

Abbreviation Handler := (ST (Host W A)).

Definition store_check (expected : Z) : Handler (result unit) := gets (fun h => au_Check expected (store h)).

Definition statusList (name : string) : Handler (list Status) :=
  r ← on_sup (StatusOf name);
  mret (match r with Ok st => [st] | Err _ => [] end).

(** mutate: the generation check, the work, then the audit entry. *)
Definition mutate (req : Request) (actor name : string) (fn : string -> Handler (result bool)) : Handler Response :=
  if String.eqb name "" then stamped (mret (answer CodeInvalid (Lit "this operation needs a service name"))) else
  let entry := entry_of (Op req) name req actor in
  c ← store_check (ExpectGeneration req);
  match c with
  | Err e => refuse entry CodeConflict e
  | Ok _ =>
      r ← fn name;
      match r with
      | Err e => if unknown e then refuse entry CodeNotFound e else failed entry CodeFailed (error_msg e)
      | Ok changed =>
          g ← record (with_result entry ResultOK (if changed : bool then Lit "" else Lit "nothing to change")) changed;
          l ← statusList name;
          mret (with_generation g (body (BStatus l)))
      end
  end.

(** redeploy: the declaration as the disk holds it. *)
Definition redeploy (name : string) : Handler (result bool) :=
  d ← gets dir;
  match ParseFile (name +:+ Extension) d with
  | Err e => mret (Err (if os_IsNotExist e then ErrUnknownService name else e))
  | Ok svc => on_sup (Deploy svc)
  end.

Definition load : Handler (list Service * option error) := gets (fun h => LoadDir (dir h)).

Definition planOnly : Handler Response :=
  l ← load;
  changes ← on_sup (Plan l.1);
  mret (match l.2 with
        | Some e => with_body (mustMarshal (BChanges changes)) (answer CodeFailed (error_msg e))
        | None => body (BChanges changes)
        end).

Definition apply (req : Request) (actor : string) : Handler Response :=
  where_ ← gets (fun h => services (sup h));
  let entry := entry_of OpApply where_ req actor in
  c ← store_check (ExpectGeneration req);
  match c with
  | Err e => refuse entry CodeConflict e
  | Ok _ =>
      l ← load;
      changes ← on_sup (Plan l.1);
      if HasDestructive changes && negb (AllowDestructive req) then
        let names := ch_Service <$> Destructive changes in
        r ← refuse entry CodeDestructive
              (EMsg ("this would stop %s, which no file declares any more; review it with hostctl plan, then run hostctl apply -allow-destructive to go ahead",
                 [AStr (Join names ", ")]));
        mret (with_body (mustMarshal (BChanges changes)) r)
      else
        applied ← on_sup (Apply l.1);
        match l.2 with
        | Some e =>
            g ← record (with_result entry ResultOK (error_msg e)) (bool_decide (applied <> []));
            mret (MkResponse CodeFailed (error_msg e) g (mustMarshal (BChanges applied)))
        | None =>
            g ← record (with_result entry ResultOK ("%d change(s)", [AInt (Z.of_nat (length applied))]))
                  (bool_decide (applied <> []));
            mret (with_generation g (body (BChanges applied)))
        end
  end.

(** ** Jobs *)
Definition runFailed (entry : Entry) (e : error) : Handler Response :=
  if unknown e then refuse entry CodeNotFound e
  else if as_b is_not_a_job e then refuse entry CodeInvalid e
  else if as_b is_run_refused e then refuse entry CodeRefused e
  else failed entry CodeFailed (error_msg e).

Definition runJob (req : Request) (actor : string) : Handler Response :=
  if String.eqb (rq_Name req) "" then mret (answer CodeInvalid (Lit "which job should run?")) else
  let entry := entry_of (Op req) (rq_Name req) req actor in
  c ← store_check (ExpectGeneration req);
  match c with
  | Err e => refuse entry CodeConflict e
  | Ok _ =>
      r ← on_sup (RunNow (rq_Name req));
      match r with
      | Err e => runFailed entry e
      | Ok run =>
          g ← record (with_result entry ResultOK ("run %s", [AStr run])) false;
          mret (with_generation g (body (BRun (MkJobRun (rq_Name req) run))))
      end
  end.

(** ** Declarations *)
Definition empty_declaration : WireDeclaration := MkWireDeclaration "" "" [].

Definition putService (req : Request) (actor : string) : Handler Response :=
  match Decode "declaration" (rq_Body req) empty_declaration with
  | Err e => mret (answer CodeInvalid (error_msg e))
  | Ok incoming =>
      match Parse (wd_Name incoming +:+ Extension) (wd_Source incoming) with
      | Err e => mret (answer CodeInvalid (error_msg e))
      | Ok parsed =>
          if negb (String.eqb (Name parsed) (wd_Name incoming))
          then mret (answer CodeInvalid ("the file declares %q and the service is called %q",
                       [AStr (Name parsed); AStr (wd_Name incoming)]))
          else if negb (ValidName (wd_Name incoming))
          then mret (answer CodeInvalid ("%q is not a service name", [AStr (wd_Name incoming)]))
          else
            let entry := entry_of OpServicePut (wd_Name incoming) req actor in
            r ← on_dir (writeDeclaration incoming);
            match r with
            | Err e => failed entry CodeFailed (error_msg e)
            | Ok _ =>
                g ← record (with_result entry ResultOK
                      ("%d artifact(s)", [AInt (Z.of_nat (length (wd_Artifacts incoming)))])) false;
                mret (with_generation g (body (BName (wd_Name incoming))))
            end
      end
  end.

(** Whether the machine holds this name as an image hostd stamped. *)
Fixpoint ourImage (held : list Docker.ImageSummary) (image : string) : bool :=
  match held with
  | [] => false
  | candidate :: rest =>
      if bool_decide (image ∈ Docker.im_Tags candidate)
      then match managedTag (Docker.im_Tags candidate) with Some _ => true | None => false end
      else ourImage rest image
  end.

Definition releaseImage (image : string) : Handler Msg :=
  if String.eqb image "" then mret (Lit "none declared") else
  rt ← gets has_runtime;
  if negb rt then mret (Lit "kept: no container runtime on this machine") else
  l ← load;
  match filter (fun other => Image other = image) l.1 with
  | other :: _ => mret ("kept: %s still declares it", [AStr (Name other)])
  | [] =>
      held ← on_world rt_Images;
      match held with
      | Err e => mret ("kept: cannot tell whether hostd put it here: %v", [AMsg (error_msg e)])
      | Ok held =>
          if negb (ourImage held image)
          then mret (Lit "kept: hostd did not put it here, so it is not hostd's to remove")
          else
            r ← on_world (rt_RemoveImage image);
            mret (match r with
                  | Err e => ("kept: %v", [AMsg (error_msg e)])
                  | Ok _ => ("removed %s", [AStr image])
                  end)
      end
  end.

(** The rest of a removal, once the declaration's file is gone. *)
Definition removed (name image : string) (entry : Entry) (changed : bool) : Handler Response :=
  f ← on_dir (remove_all (name +:+ ArtifactSuffix));
  match f with
  | Err e => mret (answer CodeFailed (error_msg e))
  | Ok _ =>
      released ← releaseImage image;
      let container := if changed : bool then "stopped and removed" else "there was none" in
      g ← record (with_result entry ResultOK ("container %s; image %s", [AStr container; AMsg released])) true;
      mret (with_generation g (body (BRemoval (MkRemoval name container released))))
  end.

Definition removeService (req : Request) (actor : string) : Handler Response :=
  let name := rq_Name req in
  if negb (ValidName name) then mret (answer CodeInvalid ("%q is not a service name", [AStr name])) else
  d ← gets dir;
  let image := match ParseFile (name +:+ Extension) d with Ok s => Image s | Err _ => "" end in
  let entry := entry_of OpServiceRemove name req actor in
  r ← on_sup (Remove name);
  match r with
  | Err e => failed entry (if unknown e then CodeNotFound else CodeFailed) (error_msg e)
  | Ok changed =>
      f ← on_dir (remove_file (name +:+ Extension));
      match f with
      | Err e => if os_IsNotExist e then removed name image entry changed
                 else mret (answer CodeFailed (error_msg e))
      | Ok _ => removed name image entry changed
      end
  end.
End Handlers.
