(* ===== verification/ImageHandlers.v ===== *)
(** * ImageHandlers: what a machine holds, receives, fetches and removes

    The image operations of src/api/server.go and serviceVersions of
    src/api/versions.go, over Host.v and the policies of Images.v. *)
From S2P Require Import Prelude GoText GoTime GoPath Service Filo Tree AuditLog Runtime Supervisor Schedule Plan Images Protocol Volumes Host ServiceHandlers.
From Stdlib Require Import Ascii SpecFloat.
Open Scope string_scope.
Open Scope list_scope.
Open Scope Z_scope.
Open Scope hostd_scope.

Section Handlers.
Context {W A : Type} `{Runtime W} `{LogStore} `{MapOrder Service} `{Auditor A} `{Render}.
Context `{FiloEngine} `{!FiloType Service} `{Sha256}.

Abbreviation Handler := (ST (Host W A)).

(** imageHolders: what the declarations name, then what the containers use. *)
Definition declared_holders (l : list Service) : gmap string string :=
  foldl (fun m def => if String.eqb (Image def) "" then m else <[Image def := UsedByDeclared]> m) ∅ l.
Definition container_holders (m : gmap string string) (l : list Docker.Container) : gmap string string :=
  foldl (fun m c => if String.eqb (Docker.c_Digest c) "" then m else <[Docker.c_Digest c := UsedByContainer]> m) m l.

Definition imageHolders : Handler (result (gmap string string)) :=
  l ← load;
  match l.2 with
  | Some e => mret (Err e)
  | None =>
      running ←! on_world (rt_List "");
      mret (Ok (container_holders (declared_holders l.1) running))
  end.

Definition image_entry (holders : gmap string string) (image : Docker.ImageSummary) : ImageEntry :=
  MkImageEntry (Docker.im_Digest image) (Docker.im_Tags image) (f64_of_Z (Docker.im_Bytes image))
    (f64_of_Z (UnixMilli (Docker.im_Created image))) (Images.heldBy image holders)
    (bool_decide (is_Some (markedRepository (Docker.im_Tags image)))).

(** Newest first; the digest breaks ties. *)
Definition entry_le (a b : ImageEntry) : Prop :=
  if negb (f64_eqb (ie_Created a) (ie_Created b)) then f64_leb (ie_Created b) (ie_Created a) = true
  else String.le (ie_Digest a) (ie_Digest b).
#[export] Instance entry_le_dec a b : Decision (entry_le a b).
Proof. unfold entry_le. destruct (negb _); apply _. Defined.

Definition listImages : Handler Response :=
  rt ← gets has_runtime;
  if negb rt then mret (answer CodeUnavailable (Lit "this machine has no container runtime to list images from")) else
  held ← on_world rt_Images;
  match held with
  | Err e => mret (answer CodeFailed (error_msg e))
  | Ok held =>
      holders ← imageHolders;
      mret (match holders with
            | Err e => answer CodeFailed
                ("cannot tell which images are in use, so none can be called free: %v", [AMsg (error_msg e)])
            | Ok holders => body (BImages (merge_sort entry_le (image_entry holders <$> held)))
            end)
  end.

(** One candidate of a prune: removed by its digest, or its problem kept. *)
Definition prune_one (c : ImageChange) : Handler (result ImageChange) :=
  r ← on_world (rt_RemoveImage (ic_Digest c));
  match r with
  | Err e => mret (Ok (MkImageChange (ic_Digest c) (ic_Repository c) (ic_Tags c) (ic_Bytes c) false (error_msg e)))
  | Ok _ =>
      say "hostd" Logs.StreamEvent Logs.EventImage
        ("removed image %s of %s, %.0f bytes", [AStr (ic_Digest c); AStr (ic_Repository c); AFloat (ic_Bytes c)]) ;;
      mret (Ok (MkImageChange (ic_Digest c) (ic_Repository c) (ic_Tags c) (ic_Bytes c) true (ic_Problem c)))
  end.

Definition problems_of (l : list ImageChange) : Z :=
  Z.of_nat (length (filter (fun c => ic_Removed c = false) l)).

Definition pruneImages (req : Request) (actor : string) : Handler Response :=
  rt ← gets has_runtime;
  if negb rt then mret (answer CodeUnavailable (Lit "this machine has no container runtime to remove images from")) else
  let keep := if Keep req <=? 0 then DefaultImageKeep else Keep req in
  held ← on_world rt_Images;
  match held with
  | Err e => mret (answer CodeFailed (error_msg e))
  | Ok held =>
      holders ← imageHolders;
      match holders with
      | Err e => mret (answer CodeFailed
          ("cannot tell which images are in use, so none can be removed: %v", [AMsg (error_msg e)]))
      | Ok holders =>
          let '(remove, kept) := imagesToPrune held holders keep in
          if negb (AllowDestructive req) then mret (body (BPrune (MkImagePrune keep kept remove false))) else
          let entry := entry_of (Op req) ("keep " +:+ itoa keep) req actor in
          r ← map_ST remove prune_one;
          let done_ := match r with Ok l => l | Err _ => [] end in
          let failed_ := problems_of done_ in
          let n := Z.of_nat (length remove) in
          g ← record (with_result entry (if 0 <? failed_ then ResultFailed else ResultOK)
                ("removed %d of %d, kept %d", [AInt (n - failed_); AInt n; AInt kept])) false;
          let out := body (BPrune (MkImagePrune keep kept done_ true)) in
          mret (if 0 <? failed_
                then MkResponse CodeFailed ("%d image(s) could not be removed", [AInt failed_]) (rs_Generation out) (Body out)
                else out)
      end
  end.

Definition pullImage (req : Request) (actor : string) : Handler Response :=
  rt ← gets has_runtime;
  if negb rt then mret (answer CodeUnavailable (Lit "this machine has no container runtime to pull into")) else
  if String.eqb (rq_Name req) "" then mret (answer CodeInvalid (Lit "a pull needs the image to fetch")) else
  let entry := entry_of (Op req) (rq_Name req) req actor in
  let said := if String.eqb (rq_Service req) "" then "hostd" else rq_Service req in
  p ← on_world (rt_Pull (rq_Name req));
  for_each p.1 (fun progress => say said Logs.StreamEvent Logs.EventImage (Lit progress)) ;;
  match p.2 with
  | Err e => failed entry CodeFailed (error_msg e)
  | Ok _ =>
      found ← on_world (rt_Image (rq_Name req));
      match found with
      | Err e => mret (answer CodeFailed
          ("the pull reported success and yet %s is not here: %v", [AStr (rq_Name req); AMsg (error_msg e)]))
      | Ok found =>
          g ← record (with_result entry ResultOK (Lit (Docker.ii_Digest found))) false;
          mret (with_generation g (body (BImage (MkImage "" "" (Docker.ii_Digest found) f64_zero ""))))
      end
  end.

(** ** An image that arrives on the connection *)
Section Upload.
Context (block : Z).

Definition refuse_upload (code : string) (m : Msg) (input : string) : Handler (Response * string) :=
  let '(_, _, rest, _) := ReadChunks block input (MkSink "" None) in mret (answer code m, rest).

Definition image_received (req : Request) (digest mark sum : string) (total : Z) : Msg :=
  ("received image %s as %s tagged %s, %d bytes, content sha256:%s",
   [AStr (rq_Name req); AStr digest; AStr mark; AInt total; AStr sum]).

(** loadImage: the answer, and what is left in the connection.  The pipe holds
    the bytes until the runtime takes them; [room] is what it takes before it
    stops reading. *)
Definition loadImage (room : option Z) (req : Request) (input : string) : Handler (Response * string) :=
  rt ← gets has_runtime;
  if negb rt then
    refuse_upload CodeFailed (Lit "this machine has no container runtime to load an image into") input
  else
  here ← on_world rt_Server;
  let arch := match here with Ok i => Docker.si_Arch i | Err _ => "" end in
  if is_ok here && negb (String.eqb (rq_Arch req) "") && negb (String.eqb (rq_Arch req) arch)
  then refuse_upload CodeInvalid
         ("%s was built for %s and this machine is %s; build it for %s (docker build --platform linux/%s)",
          [AStr (rq_Name req); AStr (rq_Arch req); AStr arch; AStr arch; AStr arch]) input
  else
  let '(total, err, rest, w) := ReadChunks block input (MkSink "" room) in
  loaded ← on_world (rt_Load (got w) err);
  match err, loaded with
  | Some e, _ => mret (answer CodeFailed ("the image did not arrive whole: %v", [AMsg (error_msg e)]), rest)
  | None, Err e => mret (answer CodeFailed (error_msg e), rest)
  | None, Ok _ =>
      found ← on_world (rt_Image (rq_Name req));
      match found with
      | Err e => mret (answer CodeFailed
          ("%s was loaded but cannot be found: %v", [AStr (rq_Name req); AMsg (error_msg e)]), rest)
      | Ok found =>
          let digest := Docker.ii_Digest found in
          let sum := sha256_hex (got w) in
          let mark := ManagedTag sum in
          t ← on_world (rt_Tag digest (RepositoryOf (rq_Name req)) mark);
          match t with
          | Err e => mret (answer CodeFailed
              ("%s was loaded but could not be marked as ours: %v", [AStr (rq_Name req); AMsg (error_msg e)]), rest)
          | Ok _ =>
              say "hostd" Logs.StreamEvent Logs.EventImage (image_received req digest mark sum total) ;;
              mret (body (BImage (MkImage (rq_Name req) (RepositoryOf (rq_Name req) +:+ ":" +:+ mark) digest
                            (f64_of_Z total) sum)), rest)
          end
      end
  end.
End Upload.

(** ** The versions a service can go back to *)
Definition serviceVersions (req : Request) : Handler Response :=
  if String.eqb (rq_Name req) "" then mret (answer CodeInvalid (Lit "which service's versions?")) else
  rt ← gets has_runtime;
  if negb rt then mret (answer CodeUnavailable
    (Lit "this machine has no container runtime, so it holds no version to go back to")) else
  l ← load;
  match l.2 with
  | Some e => mret (answer CodeFailed (error_msg e))
  | None =>
      match filter (fun def => Name def = rq_Name req) l.1 with
      | [] => mret (answer CodeNotFound ("no service named %q is declared here", [AStr (rq_Name req)]))
      | declared :: _ =>
          held ← on_world rt_Images;
          match held with
          | Err e => mret (answer CodeFailed (error_msg e))
          | Ok held =>
              status ← on_sup (StatusOf (rq_Name req));
              let running := match status with Ok st => st_Digest st | Err _ => "" end in
              mret (body (BVersions (versionsOf declared held running)))
          end
      end
  end.
End Handlers.
