(* ===== verification/FileHandlers.v ===== *)
(** * FileHandlers: the data of a service, one file at a time

    src/api/files.go, over the volumes of Volumes.v.  [faults] is what the
    disk does during an upload: a bound on what it takes, and whether the sync,
    the close or the rename fail. *)
From S2P Require Import Prelude GoText GoTime GoPath Service Filo Tree AuditLog Runtime Supervisor Schedule Plan Images Protocol Volumes Host ServiceHandlers.
From Stdlib Require Import Ascii SpecFloat.
Open Scope string_scope.
Open Scope list_scope.
Open Scope Z_scope.
Open Scope hostd_scope.

Definition OpFileDelete := "file.delete".
Definition OpFileGet := "file.get".
Definition OpFilePut := "file.put".

Definition namedVolumes (declared : Service) : result (list string) :=
  match Mounts declared with
  | Err e => Err e
  | Ok mounts => Ok (omap (fun m => if mount_Named m then Some (mount_Source m) else None) (mounts : list Mount))
  end.

(** strings.Cut(strings.Trim(path, "/"), "/") *)
Definition wire_path (p : string) : string * string :=
  let '(volume, inside, _) := Cut (Trim p "/") slash in (volume, inside).

(** The reads of a file: a buffer each, the last one shorter. *)
Fixpoint reads_of (fuel : nat) (content : string) : list string :=
  match fuel with
  | O => []
  | S fuel' => if String.eqb content "" then []
               else take_bytes (Z.to_nat chunkSize) content :: reads_of fuel' (drop_bytes (Z.to_nat chunkSize) content)
  end.

Record Faults := MkFaults { f_room : option Z; f_sync : bool; f_close : bool; f_rename : bool }.

Section Handlers.
Context {W A : Type} `{Runtime W} `{LogStore} `{MapOrder Service} `{Auditor A} `{Render}.
Context `{FiloEngine} `{!FiloType Service} `{Sha256}.

Abbreviation Handler := (ST (Host W A)).

Definition no_declaration (svc : string) (e : error) : error :=
  EWrap ("no declaration for %q on this machine", [AStr svc]) e.

Definition declared_volumes (svc : string) : Handler (result (list string)) := fun h =>
  (match ParseFile (svc +:+ Extension) (dir h) with
   | Err e => Err (no_declaration svc e)
   | Ok declared => namedVolumes declared
   end, h).

(** fileRoot: the mountpoint of a declared volume and the path inside it. *)
Definition fileRoot (svc wirePath : string) : Handler (result (string * Volume * string)) :=
  rt ← gets has_runtime;
  if negb rt then mret (Err (EMsg ("this machine has no container runtime, so no service has volumes here", []))) else
  names ←! declared_volumes svc;
  let '(volume, inside) := wire_path wirePath in
  if negb (bool_decide (volume ∈ names)) then
    mret (Err (match names with
               | [] => EMsg ("%s declares no named volume, so it has no files here", [AStr svc])
               | _ => EMsg ("%s has no volume %q; it has %s", [AStr svc; AStr volume; AStr (Join names ", ")])
               end))
  else
    mountpoint ←! on_world (rt_VolumeMountpoint (VolumeName svc volume));
    d ← gets (fun h => disks h !! mountpoint);
    mret (match d with
          | None => Err ErrNotExist
          | Some v => Ok (mountpoint, v, Clean (if String.eqb inside "" then "." else inside))
          end).

Definition not_a_name (svc : string) : Msg := ("%q is not a service name", [AStr svc]).

Definition file_entry (e : string * fnode) : FileEntry :=
  match e.2 with
  | FDir => MkFileEntry e.1 true f64_zero f64_zero
  | FFile content modified => MkFileEntry e.1 false (f64_of_Z (len content)) (f64_of_Z (UnixMilli modified))
  end.

(** Directories first, then by name. *)
Definition file_le (a b : FileEntry) : Prop :=
  if Bool.eqb (fe_Dir a) (fe_Dir b) then String.le (fe_Name a) (fe_Name b) else fe_Dir a = true.
#[export] Instance file_le_dec a b : Decision (file_le a b).
Proof. unfold file_le. destruct (Bool.eqb _ _); apply _. Defined.

Definition listVolumes (svc : string) : Handler Response :=
  names ← declared_volumes svc;
  mret (match names with
        | Err e => answer CodeFailed (error_msg e)
        | Ok names => body (BFiles ((fun n => MkFileEntry n true f64_zero f64_zero) <$> names))
        end).

Definition listFiles (req : Request) : Handler Response :=
  if negb (ValidName (rq_Service req)) then mret (answer CodeInvalid (not_a_name (rq_Service req))) else
  if String.eqb (Trim (rq_Name req) "/") "" then listVolumes (rq_Service req) else
  r ← fileRoot (rq_Service req) (rq_Name req);
  mret (match r with
        | Err e => answer CodeFailed (error_msg e)
        | Ok (_, v, inside) =>
            match ReadDir_ inside v with
            | Err e => answer CodeFailed (error_msg e)
            | Ok entries => body (BFiles (merge_sort file_le (file_entry <$> entries)))
            end
        end).

Definition file_target (req : Request) : string := rq_Service req +:+ ":" +:+ rq_Name req.

Definition deleteFile (req : Request) (actor : string) : Handler Response :=
  let entry := entry_of OpFileDelete (file_target req) req actor in
  if negb (ValidName (rq_Service req)) then failed entry CodeInvalid (not_a_name (rq_Service req)) else
  r ← fileRoot (rq_Service req) (rq_Name req);
  match r with
  | Err e => failed entry CodeFailed (error_msg e)
  | Ok (mountpoint, v, inside) =>
      if String.eqb inside "." then failed entry CodeInvalid (Lit "name the file to delete, not the volume") else
      match Lstat inside v with
      | Err e => failed entry CodeFailed (error_msg e)
      | Ok FDir => failed entry CodeInvalid
          ("%s is a directory, and this deletes one file by name", [AStr (rq_Name req)])
      | Ok (FFile content _) =>
          match Remove_file inside v with
          | Err e => failed entry CodeFailed (error_msg e)
          | Ok v' =>
              on_disk mountpoint v' tt ;;
              g ← record (with_result entry ResultOK ("%d bytes", [AInt (len content)])) false;
              mret (with_generation g (body (BTransfer (MkFileTransfer (rq_Name req) (f64_of_Z (len content))))))
          end
      end
  end.

(** getFile: the answer and the bytes that follow it. *)
Definition getFile (req : Request) (actor : string) : Handler (Response * string) :=
  let entry := entry_of OpFileGet (file_target req) req actor in
  let refused code m := (r ← failed entry code m; r ← stamp r; mret (r, "")) in
  if negb (ValidName (rq_Service req)) then refused CodeInvalid (not_a_name (rq_Service req)) else
  r ← fileRoot (rq_Service req) (rq_Name req);
  match r with
  | Err e => refused CodeFailed (error_msg e)
  | Ok (_, v, inside) =>
      match Lstat inside v with
      | Err e => refused CodeFailed (error_msg e)
      | Ok FDir => refused CodeInvalid ("%s is a directory; name a file in it", [AStr (rq_Name req)])
      | Ok (FFile content _) =>
          _ ← record (with_result entry ResultOK ("%d bytes", [AInt (len content)])) false;
          r ← stamp (body (BTransfer (MkFileTransfer (rq_Name req) (f64_of_Z (len content)))));
          mret (r, WriteChunks (reads_of (String.length content) content) false)
      end
  end.

Definition temporary (inside : string) : string := inside +:+ ".hostd-upload".

Section Upload.
Context (block : Z) (faults : Faults).

(** What an upload leaves in the volume and in the pipe: the bytes go into the
    file beside, which takes the final name or goes. *)
Definition upload (now : Time) (inside : string) (v : Volume) (input : string)
    : option error * Z * Volume * string :=
  let '(received, err, rest, w) := ReadChunks block input (MkSink "" (f_room faults)) in
  let v1 := Write_file now (temporary inside) (got w) v in
  let gone := delete (temporary inside) v1 in
  let failure := EMsg ("input/output error", []) in
  match err with
  | Some e => (Some e, received, gone, rest)
  | None =>
      if f_sync faults || f_close faults || f_rename faults then (Some failure, received, gone, rest)
      else match Rename (temporary inside) inside v1 with
           | Err e => (Some e, received, gone, rest)
           | Ok v2 => (None, received, v2, rest)
           end
  end.

Definition putFile (req : Request) (actor : string) (input : string) : Handler (Response * string) :=
  let entry := entry_of OpFilePut (file_target req) req actor in
  let refused code m := (
    let '(_, _, rest, _) := ReadChunks block input (MkSink "" None) in
    r ← failed entry code m; mret (r, rest)) in
  if negb (ValidName (rq_Service req)) then refused CodeInvalid (not_a_name (rq_Service req)) else
  r ← fileRoot (rq_Service req) (rq_Name req);
  match r with
  | Err e => refused CodeFailed (error_msg e)
  | Ok (mountpoint, v, inside) =>
      if String.eqb inside "." || HasSuffix (rq_Name req) "/"
      then refused CodeInvalid (Lit "name the file to write, not a directory") else
      t ← gets (fun h => now (sup h));
      match Create_file t (temporary inside) v with
      | Err e => refused CodeFailed (error_msg e)
      | Ok v1 =>
          let '(err, received, v2, rest) := upload t inside v1 input in
          on_disk mountpoint v2 tt ;;
          match err with
          | Some e => r ← failed entry CodeFailed (error_msg e); mret (r, rest)
          | None =>
              g ← record (with_result entry ResultOK ("%d bytes", [AInt received])) false;
              mret (with_generation g (body (BTransfer (MkFileTransfer (rq_Name req) (f64_of_Z received)))), rest)
          end
      end
  end.
End Upload.
End Handlers.
