(* ===== verification/Server.v ===== *)
(** * Server: one request, one connection

    src/api/server.go (appendLogs, dispatch, searchLogs, readMetrics, describe,
    follow, handle), src/api/backup.go and src/api/payload.go.  A connection is
    the bytes the client sends; what it is answered with is a list of messages
    and raw bytes.  Deadlines and a write that fails, which end a connection,
    are not modelled. *)
From S2P Require Import Prelude GoText GoTime GoPath Service Filo Tree DeclarationFiles AuditLog Runtime Supervisor Schedule Plan Images Protocol MetricStore LogDatabase Volumes Host ServiceHandlers ImageHandlers FileHandlers.
From Stdlib Require Import Ascii SpecFloat.
Open Scope string_scope.
Open Scope list_scope.
Open Scope Z_scope.
Open Scope hostd_scope.

Definition OpDescribe := "describe".
Definition OpStatus := "status".
Definition OpServiceList := "service.list".
Definition OpServiceStart := "service.start".
Definition OpServiceStop := "service.stop".
Definition OpServiceRestrt := "service.restart".
Definition OpServiceRedeploy := "service.redeploy".
Definition OpPlan := "plan".
Definition OpAudit := "audit".
Definition OpLogSearch := "log.search".
Definition OpLogFollow := "log.follow".
Definition OpLogAppend := "log.append".
Definition OpMetrics := "metrics".
Definition OpImagePush := "image.push".
Definition OpImagePull := "image.pull".
Definition OpImageList := "image.list".
Definition OpImagePrune := "image.prune".
Definition OpServiceVersions := "service.versions".
Definition OpJobRun := "job.run".
Definition OpServiceBackup := "service.backup".
Definition OpFileList := "file.list".

Definition latestWindow : Z := Minute.
Definition followBuffer : Z := 256.

(** What the build and the machine say of themselves. *)
Class Platform := { Version : string; NumCPU : Z; Zone : string * Z }.
Definition Protocol_ : Z := 1.
Definition Schema : Z := 1.

Definition toLine (r : Logs.Record_) : LogLine :=
  MkLogLine (Logs.r_Seq r) (f64_of_Z (UnixMilli (Logs.r_Time r))) (Logs.r_Service r) (Logs.r_Stream r)
    (Logs.r_Kind r) (Logs.r_Run r) (Logs.r_Text r).

(** ** Following *)
Section Follow.
Context `{TextSearch}.

(** The query follow makes of its request. *)
Definition follow_query (req : Request) : LogDatabase.Query :=
  LogDatabase.MkQuery (rq_Service req) (rq_Stream req) "" "" (rq_Match req) (rq_Limit req) (rq_Since req).

Fixpoint follow_live (query : LogDatabase.Query) (last : Z) (live : list Logs.Record_) : list Logs.Record_ :=
  match live with
  | [] => []
  | r :: rest =>
      if Logs.r_Seq r <=? last then follow_live query last rest
      else if Matches query r then r :: follow_live query (Logs.r_Seq r) rest
      else follow_live query (Logs.r_Seq r) rest
  end.

Definition last_seq (backlog : list Logs.Record_) : Z := foldl (fun _ r => Logs.r_Seq r) 0 backlog.

Definition follow_sent (query : LogDatabase.Query) (backlog live : list Logs.Record_) : list Logs.Record_ :=
  backlog ++ follow_live query (last_seq backlog) live.
End Follow.

(** What goes out on a connection. *)
Inductive sent :=
  | SResponse (r : Response)
  | SLine (l : LogLine)
  | SBytes (s : string).

Section Server.
Context {W A : Type} `{Runtime W} `{LogStore} `{MapOrder Service} `{Auditor A} `{Render}.
Context `{FiloEngine} `{!FiloType Service} `{!FiloType WireDeclaration} `{!FiloType Request} `{Sha256}.
Context `{TextSearch} `{Sql} `{Platform}.

Abbreviation Handler := (ST (Host W A)).

(** strings.Lines, each without its line break; empty lines are dropped. *)
Definition body_lines (b : string) : list string :=
  filter (fun l => l <> "") ((fun l => TrimRight l (String carriage (String newline ""))) <$> Lines b).

Definition appendLogs (req : Request) : Handler Response :=
  if negb (ValidName (rq_Service req)) then mret (answer CodeInvalid (not_a_name (rq_Service req))) else
  let stream := if String.eqb (rq_Stream req) "" then Logs.StreamOut else rq_Stream req in
  if negb (String.eqb stream Logs.StreamOut) && negb (String.eqb stream Logs.StreamErr)
  then mret (answer CodeInvalid ("stream %q is not %q or %q; events are hostd's own",
               [AStr stream; AStr Logs.StreamOut; AStr Logs.StreamErr]))
  else
    let lines := body_lines (rq_Body req) in
    for_each lines (fun line => say (rq_Service req) stream "" (Lit line)) ;;
    mret (body (BCount (Z.of_nat (length lines)))).

(** [disk] is the disk under the log and metric stores. *)
Definition searchLogs (disk : LogDatabase.Faults) (req : Request) : Handler Response :=
  d ← settle;
  let '(records, d') := LogDatabase.Search disk
    (LogDatabase.MkQuery (rq_Service req) (rq_Stream req) (rq_Kind req) (rq_Run req) (rq_Match req) (rq_Limit req) (rq_Since req)) d in
  set_db d' ;;
  mret (match records with
        | Err e => answer CodeFailed (error_msg e)
        | Ok records => body (BLines (toLine <$> records))
        end).

Definition readMetrics (disk : LogDatabase.Faults) (req : Request) : Handler Response := fun h =>
  let m := MetricStore.samples (metrics h) in
  let query from to := MetricStore.MkQuery (rq_Scope req) (rq_Service req) (rq_Metric req) from to
                         (f64_to_int64 (rq_StepMS req)) (rq_Limit req) in
  let series :=
    if f64_leb (FromMS req) f64_zero
    then Latest (now (sup h)) (query zero_time zero_time) latestWindow m
    else MetricStore.Query (now (sup h))
           (query (of_unix_milli (f64_to_int64 (FromMS req)))
                  (if f64_ltb f64_zero (ToMS req) then of_unix_milli (f64_to_int64 (ToMS req)) else zero_time)) m in
  (if read_fails disk then answer CodeFailed ("read metrics: %w", []) else body (BSeries series), h).

Definition runtimeInfo : Handler Docker.ServerInfo :=
  rt ← gets has_runtime;
  if negb rt then mret (Docker.MkServerInfo "" "") else
  r ← on_world rt_Server;
  mret (match r with Ok i => i | Err _ => Docker.MkServerInfo "" "" end).

Definition hostMemory (disk : LogDatabase.Faults) (h : Host W A) : float64 :=
  if read_fails disk then f64_zero else
  match concat (Points <$> Latest (now (sup h))
          (MetricStore.MkQuery "host" "" "memory-total-bytes" zero_time zero_time 0 0) latestWindow
          (MetricStore.samples (metrics h))) with
  | p :: _ => Value p
  | [] => f64_zero
  end.

Definition operations : list string :=
  [OpDescribe; OpStatus; OpServiceList; OpServiceStart; OpServiceStop; OpServiceRestrt; OpServiceRedeploy;
   OpServiceRemove; OpPlan; OpApply; OpAudit; OpLogSearch; OpLogFollow; OpLogAppend; OpMetrics; OpImagePush;
   OpImagePull; OpImageList; OpImagePrune; OpServicePut; OpServiceVersions; OpJobRun; OpServiceBackup;
   OpFileList; OpFileGet; OpFilePut; OpFileDelete].

Definition describe (disk : LogDatabase.Faults) : Handler Response :=
  info ← runtimeInfo;
  h ← get;
  mret (body (BDescription (MkDescription Version Protocol_ Schema operations (Docker.si_Arch info)
    (Docker.si_Version info) NumCPU (hostMemory disk h) (clock_ms h) Zone.1
    (f64_mul (f64_of_Z Zone.2) (f64_of_Z 1000))))).

Definition recent_entries (req : Request) : Handler Response :=
  l ← gets (fun h => au_Recent (rq_Limit req) (store h)); mret (body (BAudit l)).

Definition status_all : Handler Response := l ← on_sup Status_; mret (body (BStatus l)).

Definition dispatch (disk : LogDatabase.Faults) (req : Request) (actor : string) : Handler Response :=
  let op := Op req in
  let name := rq_Name req in
  if String.eqb op OpDescribe then stamped (describe disk)
  else if String.eqb op OpStatus || String.eqb op OpServiceList then stamped status_all
  else if String.eqb op OpPlan then stamped planOnly
  else if String.eqb op OpAudit then stamped (recent_entries req)
  else if String.eqb op OpLogSearch then stamped (searchLogs disk req)
  else if String.eqb op OpLogAppend then stamped (appendLogs req)
  else if String.eqb op OpFileList then stamped (listFiles req)
  else if String.eqb op OpFileDelete then stamped (deleteFile req actor)
  else if String.eqb op OpMetrics then stamped (readMetrics disk req)
  else if String.eqb op OpImageList then stamped listImages
  else if String.eqb op OpServiceVersions then stamped (serviceVersions req)
  else if String.eqb op OpJobRun then stamped (runJob req actor)
  else if String.eqb op OpImagePrune then stamped (pruneImages req actor)
  else if String.eqb op OpImagePull then stamped (pullImage req actor)
  else if String.eqb op OpServiceStart then mutate req actor name (fun n => on_sup (Start n))
  else if String.eqb op OpServiceStop then mutate req actor name (fun n => on_sup (Stop n))
  else if String.eqb op OpServiceRestrt then mutate req actor name (fun n => on_sup (Restart_ n))
  else if String.eqb op OpServiceRedeploy then mutate req actor name redeploy
  else if String.eqb op OpServiceRemove then stamped (removeService req actor)
  else if String.eqb op OpApply then apply req actor
  else if String.eqb op OpServicePut then stamped (putService req actor)
  else mret (answer CodeUnknownOp
         ("this hostd does not implement %q; ask it what it supports with hostctl describe", [AStr op])).

(** ** A backup, which owns the connection *)
Fixpoint first_file (entries : list Docker.TarEntry) : option Docker.TarEntry :=
  match entries with
  | [] => None
  | e :: rest => if Docker.te_Regular e then Some e else first_file rest
  end.

Definition backup_failed (entry : Entry) (code : string) (m : Msg) : Handler (list sent) :=
  _ ← record (with_result entry ResultFailed m) false;
  r ← stamp (answer code m);
  mret [SResponse r].

(** The file of a finished run, out of the container's archive. *)
Definition send_backup (entry : Entry) (run : BackupRun) : Handler (list sent) :=
  archive ← on_world (rt_Archive (br_Container run) (br_Path run));
  match archive with
  | Err e => backup_failed entry CodeFailed
      ("the script exited 0 and yet %s is not in the container: %v", [AStr (br_Path run); AMsg (error_msg e)])
  | Ok (entries, ended) =>
      match first_file entries with
      | None => backup_failed entry CodeFailed ("the archive holds no file: %v", [AMsg (error_msg ended)])
      | Some file =>
          _ ← record (with_result entry ResultOK ("run %s, %d bytes", [AStr (br_Run run); AInt (Docker.te_Size file)])) false;
          r ← stamp (body (BBackup (MkBackup (br_Run run) (Docker.te_Name file) (f64_of_Z (Docker.te_Size file)))));
          let content := take_bytes (Z.to_nat (Docker.te_Size file)) (Docker.te_Content file) in
          mret [SResponse r; SBytes (WriteChunks (reads_of (String.length content) content) false)]
      end
  end.

Definition backupService (req : Request) (actor : string) : Handler (list sent) :=
  let entry := entry_of OpServiceBackup (rq_Name req) req actor in
  b ← on_sup (Backup (rq_Name req));
  let '(run, err) := b in
  match err with
  | Some e => backup_failed entry (if unknown e || as_b is_no_backup e then CodeNotFound else CodeFailed) (error_msg e)
  | None =>
      out ← (if negb (br_Exit run =? 0)
             then backup_failed entry CodeFailed
                    ("backup run %s of %s exited %d; its output is in the log: hostctl log -service %s -run %s",
                     [AStr (br_Run run); AStr (rq_Name req); AInt (br_Exit run); AStr (rq_Name req); AStr (br_Run run)])
             else send_backup entry run);
      _ ← on_world (rt_Remove (br_Container run));
      mret out
  end.

(** ** A connection *)
Definition empty_request : Request :=
  MkRequest "" "" "" "" "" "" "" 0 0 0 "" "" "" f64_zero f64_zero f64_zero 0 false "" "".

(** follow: the backlog, then what the watcher is delivered while the client
    stays. *)
Definition follow (disk : LogDatabase.Faults) (req : Request) (live : list Logs.Record_) : Handler (list sent) :=
  d ← settle;
  let '(id, d) := Watch followBuffer d in
  let '(backlog, d) := LogDatabase.Search disk (follow_query req) d in
  set_db (Unwatch id d) ;;
  mret (match backlog with
        | Err e => [SResponse (answer CodeFailed (error_msg e))]
        | Ok backlog => SLine ∘ toLine <$> follow_sent (follow_query req) backlog live
        end).

(** What surrounds a connection: the disk of the log store, what an upload
    meets, the lines delivered while somebody follows. *)
Record Around := MkAround { a_disk : LogDatabase.Faults; a_block : Z; a_room : option Z; a_faults : Faults; a_live : list Logs.Record_ }.

(** handle: every request consumes a byte, so the length of the input is fuel
    enough. *)
Fixpoint handle_go (fuel : nat) (env : Around) (actor input : string) : Handler (list sent) :=
  match fuel with
  | O => mret []
  | S fuel' =>
      match ReadMessage empty_request input with
      | (Err e, _) =>
          mret (if errors_is e EOF then [] else [SResponse (answer CodeInvalid (error_msg e))])
      | (Ok req, rest) =>
          if String.eqb (Op req) OpLogFollow then follow (a_disk env) req (a_live env)
          else if String.eqb (Op req) OpServiceBackup then
            out ← backupService req actor; more ← handle_go fuel' env actor rest; mret (out ++ more)
          else if String.eqb (Op req) OpFileGet then
            r ← getFile req actor;
            more ← handle_go fuel' env actor rest;
            mret (SResponse r.1 :: (if String.eqb r.2 "" then more else SBytes r.2 :: more))
          else if String.eqb (Op req) OpFilePut then
            r ← putFile (a_block env) (a_faults env) req actor rest;
            stamped_r ← stamp r.1;
            more ← handle_go fuel' env actor r.2;
            mret (SResponse stamped_r :: more)
          else if String.eqb (Op req) OpImagePush then
            r ← loadImage (a_block env) (a_room env) req rest;
            stamped_r ← stamp r.1;
            more ← handle_go fuel' env actor r.2;
            mret (SResponse stamped_r :: more)
          else
            r ← dispatch (a_disk env) req actor;
            more ← handle_go fuel' env actor rest;
            mret (SResponse r :: more)
      end
  end.
Definition handle (env : Around) (actor input : string) : Handler (list sent) :=
  handle_go (S (String.length input)) env actor input.
End Server.
