(* ===== verification/Deadlines.v ===== *)
(** * Deadlines: how long a connection waits

    src/api/server.go: handle and the deadlines it, loadImage, putFile, getFile
    and backupService set on their connection.  What is said is Server.v's; here
    a turn is how long things took, and the two deadlines of the connection,
    which stand until they are set again. *)
From S2P Require Import Prelude GoTime.
Open Scope list_scope.
Open Scope Z_scope.

Definition requestTimeout : Z := 30 * Second.
Definition idleTimeout : Z := 10 * Minute.

(** The moment, and until when the connection may be read and written: [None] is
    without end. *)
Record Clock := MkClock { ck_now : Z; ck_read : option Z; ck_write : option Z }.
Definition accepted (now : Z) : Clock := MkClock now None None.
Definition passed (t : option Z) (now : Z) : bool := match t with Some t => t <=? now | None => false end.
Definition after (d : Z) (c : Clock) : Clock := MkClock (ck_now c + d) (ck_read c) (ck_write c).
Definition SetReadDeadline (t : option Z) (c : Clock) : Clock := MkClock (ck_now c) t (ck_write c).
Definition SetWriteDeadline (t : option Z) (c : Clock) : Clock := MkClock (ck_now c) (ck_read c) t.
Definition soon (d : Z) (c : Clock) : option Z := Some (ck_now c + d).

(** A read that has its bytes after [d]: whether they came in time.  One that did
    not ends at the deadline. *)
Definition reads (d : Z) (c : Clock) : bool * Clock :=
  match ck_read c with
  | Some t => if t <=? ck_now c + d then (false, MkClock (Z.max (ck_now c) t) (ck_read c) (ck_write c)) else (true, after d c)
  | None => (true, after d c)
  end.

(** A request as time passes: how long its line is waited for, how long each of
    its frames, how long the work takes.  What putFile does before it reads is
    counted in the first frame, and the end marker is a frame; [Dropped] is a push
    or an upload that is refused, whose bytes are read and thrown away. *)
Inductive Timed :=
  | Line (wait work : Z)
  | PushImage (wait : Z) (frames : list Z) (work : Z)
  | PutFile (wait : Z) (frames : list Z) (work : Z)
  | Dropped (wait : Z) (frames : list Z) (work : Z)
  | SendsFile (wait work transfer : Z).
Definition waited (r : Timed) : Z := match r with Line w _ | PushImage w _ _ | PutFile w _ _ | Dropped w _ _ | SendsFile w _ _ => w end.

(** What the client is told: the outcome, that its bytes stopped coming, nothing
    though the work was done, or nothing because it said nothing. *)
Inductive Told := Outcome | StoppedComing | NoAnswer | Closed.

(** ReadChunks, whose reset is called before each frame. *)
Fixpoint frames_in (reset : Clock -> Clock) (frames : list Z) (c : Clock) : bool * Clock :=
  match frames with
  | [] => (true, c)
  | d :: rest => let '(came, c) := reads d (reset c) in if came then frames_in reset rest c else (false, c)
  end.
Definition keep_waiting (c : Clock) : Clock := SetReadDeadline (soon requestTimeout c) c.

(** WriteMessage, as long as it may. *)
Definition answer_with (t : Told) (c : Clock) : Told * Clock := (if passed (ck_write c) (ck_now c) then NoAnswer else t, c).

Definition timed_turn (r : Timed) (c : Clock) : Told * Clock :=
  let '(came, c) := reads (waited r) (SetReadDeadline (soon idleTimeout c) c) in
  if negb came then (Closed, c) else
  match r with
  | Line _ work =>
      let c := after work c in answer_with Outcome (SetWriteDeadline (soon requestTimeout c) c)
  | PushImage _ frames work =>
      let '(whole, c) := frames_in keep_waiting frames c in
      answer_with (if whole : bool then Outcome else StoppedComing) (after work c)
  | PutFile _ frames work =>
      let '(whole, c) := frames_in id frames c in
      answer_with (if whole : bool then Outcome else StoppedComing) (after work c)
  | Dropped _ frames work => answer_with Outcome (after work (frames_in id frames c).2)
  | SendsFile _ work transfer =>
      let c := after work c in
      let '(told, c) := answer_with Outcome (SetWriteDeadline (soon requestTimeout c) c) in
      (told, after transfer (SetWriteDeadline None c))
  end.

(** ** What is promised *)
Definition natural (r : Timed) : Prop :=
  match r with
  | Line w k => 0 <= w /\ 0 <= k
  | PushImage w l k | PutFile w l k | Dropped w l k => 0 <= w /\ 0 <= k /\ Forall (fun d => 0 <= d) l
  | SendsFile w k t => 0 <= w /\ 0 <= k /\ 0 <= t
  end.
Definition total (l : list Z) : Z := foldr Z.add 0 l.

Lemma frames_kept l c : Forall (fun d => 0 <= d) l ->
  (frames_in keep_waiting l c).1 = forallb (fun d => d <? requestTimeout) l /\
  (forallb (fun d => d <? requestTimeout) l = true -> ck_now (frames_in keep_waiting l c).2 = ck_now c + total l) /\
  ck_write (frames_in keep_waiting l c).2 = ck_write c.
Proof.
  intros Hl. revert c. induction Hl as [|d l Hd _ IH]; intros c; [split_and!; cbn; try done; lia|].
  cbn [frames_in]. unfold reads, keep_waiting, SetReadDeadline, soon. cbn [ck_read ck_now ck_write forallb total foldr].
  destruct (Z.leb_spec (ck_now c + requestTimeout) (ck_now c + d)) as [H|H].
  - replace (d <? requestTimeout) with false by lia. cbn. done.
  - replace (d <? requestTimeout) with true by lia. cbn [andb]. destruct (IH (after d (MkClock (ck_now c) (Some (ck_now c + requestTimeout)) (ck_write c)))) as (E1 & E2 & E3).
    unfold keep_waiting, SetReadDeadline, soon in *. rewrite E1, E3. split_and!; [done| |done]. intros Ht. rewrite (E2 Ht). unfold total. cbn. lia.
Qed.

Lemma frames_under t l c : Forall (fun d => 0 <= d) l -> ck_read c = Some t -> ck_now c < t ->
  (frames_in id l c).1 = (ck_now c + total l <? t) /\ ck_write (frames_in id l c).2 = ck_write c /\ ck_now (frames_in id l c).2 <= t.
Proof.
  intros Hl. revert c. induction Hl as [|d l Hd Hl IH]; intros c Hr Hn.
  - cbn. split_and!; [|done|lia]. symmetry. apply Z.ltb_lt. lia.
  - assert (H0 : 0 <= total l) by (clear -Hl; unfold total; induction Hl; cbn in *; lia).
    cbn [frames_in id total foldr]. unfold reads. rewrite Hr. fold (total l). destruct (Z.leb_spec t (ck_now c + d)) as [H|H]; cbn [fst snd ck_write ck_now].
    + split_and!; [|done|lia]. symmetry. apply Z.ltb_ge. lia.
    + destruct (IH (after d c)) as (E1 & E2 & E3); [done|cbn; lia|]. rewrite E1, E2. cbn [after ck_now]. split_and!; [f_equal; lia|done|exact E3].
Qed.



(** An image sent after any other request of the same connection is loaded and
    the answer is lost where the sending took half a minute: the moment until
    which the earlier answer was to be written still stands. *)
Lemma pushed_after_a_question_is_unanswered :
  let asked := (timed_turn (Line 0 0) (accepted 0)).2 in
  (timed_turn (PushImage 0 (replicate 40 Second) 0) asked).1 = NoAnswer /\
  (timed_turn (PushImage 0 (replicate 40 Second) 0) (accepted 0)).1 = Outcome.
Proof. by vm_compute. Qed.
(** An upload that never stops coming is cut after ten minutes; an image is not. *)
Lemma slow_upload_is_cut :
  (timed_turn (PutFile 0 (replicate 601 Second) 0) (accepted 0)).1 = StoppedComing /\
  (timed_turn (PushImage 0 (replicate 601 Second) 0) (accepted 0)).1 = Outcome.
Proof. by vm_compute. Qed.
