(* ===== verification/Client.v ===== *)
(** * Client: the other end of the connection

    src/api/client.go, and what src/api/local.go says of ssh and of the peer of
    a socket.  A connection is what was written to it and what will come over
    it; a request is answered by reading, so the client is a state transformer
    of the connection.  The lock that gives one request the whole stream is the
    order of the calls. *)
From S2P Require Import Prelude GoText GoTime Filo Protocol Runtime DockerClient Host FileHandlers Server.
From Stdlib Require Import Ascii SpecFloat.
Open Scope string_scope.
Open Scope list_scope.
Open Scope Z_scope.
Open Scope hostd_scope.

(** ** What goes over the wire *)

(** api.Response: the message and the body as text. *)
Record WireResponse := MkWireResponse {
  wr_Code : string;
  wr_Message : string;
  wr_Generation : Z;
  wr_Body : string;
}.
Definition no_response : WireResponse := MkWireResponse "" "" 0 "".
Definition wr_Failed (r : WireResponse) : bool := negb (String.eqb (wr_Code r) CodeOK).
(** Response.Err *)
Definition response_error (r : WireResponse) : option error :=
  if wr_Failed r then Some (ErrApi (wr_Code r) (wr_Message r)) else None.

(** The text filoconf.Marshal gives a value that renders. *)
Class Rendered := { payload_text : Payload -> string }.

Definition on_wire `{Rendered} (r : Response) : WireResponse :=
  MkWireResponse (Code r) (render_arg (AMsg (Message r))) (rs_Generation r)
    (match Body r with BNone => "" | b => payload_text b end).

(** ** A connection

    [broken] is what a deadline or a write fails with once the other end is
    gone. *)
Record Conn := MkConn { incoming : string; written : string; broken : option error }.

Definition SetDeadline : ST Conn (result unit) := fun c =>
  (match broken c with Some e => Err e | None => Ok tt end, c).
Definition write (s : string) : ST Conn (result unit) := fun c =>
  match broken c with
  | Some e => (Err e, c)
  | None => (Ok tt, MkConn (incoming c) (written c +:+ s) None)
  end.
(** Reading, by a function of what is there. *)
Definition read_with {B} (f : string -> B * string) : ST Conn B := fun c =>
  let '(b, rest) := f (incoming c) in (b, MkConn rest (written c) (broken c)).

Definition ErrNoAnswer : error := EMsg ("no hostd answered", []).
Definition Group := "hostd".

Section Client.
Context `{FiloEngine} `{!FiloType Request} `{!FiloType WireResponse} `{!FiloType Backup_} `{!FiloType FileTransfer}.
Context (target : string).

Definition write_request (req : Request) : ST Conn (result unit) :=
  match WriteMessage req with Err e => mret (Err e) | Ok out => write out end.

Definition no_answer (format : string) : error := EWrap (format, [AStr target]) ErrNoAnswer.
Definition closed : string :=
  "hostd on %s closed the connection without answering; it is not installed there, just restarted, or this user cannot open its socket: %w".
Definition took (what : string) : string :=
  "hostd on %s took the " +:+ what +:+
  " and closed the connection without answering; it restarted, or this pipe was already dead: %w".

(** ReadMessage of a response; the end of the stream is said as [silence]. *)
Definition read_response (silence : option error) : ST Conn (result WireResponse) :=
  r ← read_with (ReadMessage no_response);
  mret match r with
       | Err e => Err (match silence with Some s => if errors_is e EOF then s else e | None => e end)
       | Ok r => Ok r
       end.

(** What a method returns: the response, the zero one with an error. *)
Definition outcome (m : ST Conn (result WireResponse)) : ST Conn (WireResponse * option error) :=
  r ← m;
  mret match r with Ok r => (r, None) | Err e => (no_response, Some e) end.

Definition do (req : Request) : ST Conn (WireResponse * option error) :=
  outcome (_ ←! SetDeadline; _ ←! write_request req; read_response (Some (no_answer closed))).

(** A request and the bytes of a reader behind it: [reads] are what its Reads
    return, [failed] what ended them if not the end. *)
Definition write_content (reads : list string) (failed : option error) : ST Conn (result unit) :=
  r ← write (WriteChunks reads (match failed with Some _ => true | None => false end));
  mret match r, failed with
       | Err e, _ => Err e
       | Ok _, Some e => Err e
       | Ok _, None => Ok tt
       end.

Definition request_for (op name service arch : string) : Request :=
  MkRequest op name service "" "" "" "" 0 0 0 arch "" "" f64_zero f64_zero f64_zero 0 false "" "".

Definition Push (image arch : string) (reads : list string) (failed : option error)
    : ST Conn (WireResponse * option error) :=
  outcome (_ ←! SetDeadline; _ ←! write_request (request_for OpImagePush image "" arch);
           _ ←! write_content reads failed; read_response (Some (no_answer (took "image")))).

Definition SendFile (svc wirePath : string) (reads : list string) (failed : option error)
    : ST Conn (WireResponse * option error) :=
  outcome (_ ←! SetDeadline; _ ←! write_request (request_for OpFilePut wirePath svc "");
           _ ←! write_content reads failed; read_response (Some (no_answer (took "file")))).

Section Receive.
(** How many bytes one read of the connection returns at most. *)
Context (block : Z).

Definition broke (received : Z) (e : error) : error :=
  EWrap ("the transfer broke after %d bytes: %w", [AInt received]) e.

(** The file behind a response: [open] says where the bytes land, once it has
    seen what was announced. *)
Definition receive {T} `{!FiloType T} (name : string) (zero : T) (bytes : T -> float64) (open : T -> result Sink)
    (resp : WireResponse) : ST Conn (WireResponse * option error * option Sink) :=
  if wr_Failed resp then mret (resp, None, None)
  else match Decode name (wr_Body resp) zero with
       | Err e => mret (resp, Some e, None)
       | Ok told =>
           match open told with
           | Err e => mret (resp, Some e, None)
           | Ok sink =>
               r ← read_with (fun input => let '(received, err, rest, sink) := ReadChunks block input sink in
                                           ((received, err, sink), rest));
               let '(received, err, sink) := r in
               mret (resp,
                     match err with
                     | Some e => Some (broke received e)
                     | None => if f64_eqb (f64_of_Z received) (bytes told) then None
                               else Some (EMsg ("the machine announced %.0f bytes and sent %d", [AStr (FormatFixed 0 (bytes told)); AInt received]))
                     end, Some sink)
           end
       end.

Definition then_receive {T} `{!FiloType T} (m : ST Conn (result WireResponse)) (name : string) (zero : T)
    (bytes : T -> float64) (open : T -> result Sink) : ST Conn (WireResponse * option error * option Sink) :=
  r ← m;
  match r with
  | Err e => mret (no_response, Some e, None)
  | Ok resp => receive name zero bytes open resp
  end.

Definition Backup (name : string) (open : Backup_ -> result Sink) : ST Conn (WireResponse * option error * option Sink) :=
  then_receive (_ ←! SetDeadline; _ ←! write_request (request_for OpServiceBackup name "" "");
                read_response (Some (no_answer closed)))
    "backup" (MkBackup "" "" f64_zero) bk_Bytes open.

Definition FetchFile (svc wirePath : string) (open : FileTransfer -> result Sink)
    : ST Conn (WireResponse * option error * option Sink) :=
  then_receive (_ ←! SetDeadline; _ ←! write_request (request_for OpFileGet wirePath svc ""); read_response None)
    "file" (MkFileTransfer "" f64_zero) ft_Bytes open.
End Receive.

(** Following: lines are read until [fn] fails or the stream ends; [cancelled]
    says that it ended because the caller's context did.  Every line takes a
    byte, so the length of what comes is fuel enough. *)
Section Follow.
Context {L F : Type} `{!FiloType L} (zero_line : L) (cancelled : bool) (fn : L -> ST F (result unit)).

Fixpoint follow_lines (fuel : nat) (input : string) : ST F (result unit) :=
  match fuel with
  | O => mret (Ok tt)
  | S n =>
      match ReadMessage zero_line input with
      | (Err e, _) => mret (if cancelled then Ok tt else Err e)
      | (Ok line, rest) => _ ←! fn line; follow_lines n rest
      end
  end.

Definition with_op (op : string) (r : Request) : Request :=
  MkRequest op (rq_Name r) (rq_Service r) (rq_Stream r) (rq_Match r) (rq_Kind r) (rq_Run r) (rq_Limit r) (rq_Since r)
    (Keep r) (rq_Arch r) (rq_Scope r) (rq_Metric r) (FromMS r) (ToMS r) (rq_StepMS r) (ExpectGeneration r)
    (AllowDestructive r) (rq_OnBehalfOf r) (rq_Body r).

Definition Follow (req : Request) : ST (Conn * F) (result unit) := fun '(c, f) =>
  match (_ ←! SetDeadline; write_request (with_op OpLogFollow req)) c with
  | (Err e, c) => (Err e, (c, f))
  | (Ok _, c) =>
      let '(r, f') := follow_lines (S (String.length (incoming c))) (incoming c) f in
      (r, (MkConn "" (written c) (broken c), f'))
  end.
End Follow.

(** ** What the other end makes of it

    The bytes of what a connection is answered with; a message that cannot be
    written ends it. *)
Context `{Rendered} {L : Type} `{!FiloType L} (line_text : LogLine -> L).

Fixpoint respond (out : list sent) : string :=
  match out with
  | [] => ""
  | SResponse r :: more =>
      match WriteMessage (on_wire r) with Ok s => s +:+ respond more | Err _ => "" end
  | SLine l :: more =>
      match WriteMessage (line_text l) with Ok s => s +:+ respond more | Err _ => "" end
  | SBytes s :: more => s +:+ respond more
  end.
End Client.

(** ** ssh, and what it said *)
Definition maxTroubleBytes : Z := 4 * 2 ^ 10.

Definition tap_Write (held p : string) : string :=
  if len held <? maxTroubleBytes
  then held +:+ take_bytes (Z.to_nat (Z.min (len p) (maxTroubleBytes - len held))) p
  else held.
Definition Trouble (held : option string) : string := match held with Some s => TrimSpace s | None => "" end.

Definition connectTimeout : Z := 10.
Definition SSHArguments (host : string) (remote : list string) : list string :=
  ["-o"; "BatchMode=yes"; "-o"; "ConnectTimeout=" +:+ itoa connectTimeout; "-o"; "ServerAliveInterval=15";
   "-o"; "ServerAliveCountMax=4"; "--"; host] ++ remote.

(** Peer: the user of the other end of a socket, as the kernel tells it.
    [lookup] is user.LookupId, [sudo_user] the environment's SUDO_USER. *)
Definition Peer (uid : option Z) (lookup : string -> option string) (sudo_user : string) : string :=
  match uid with
  | None => ""
  | Some uid =>
      match lookup (itoa uid) with
      | None => itoa uid
      | Some name => if String.eqb name "root" && negb (String.eqb sudo_user "") then sudo_user +:+ " (root)" else name
      end
  end.
