(* ===== verification/ServerSimulation.v ===== *)
(** * ServerSimulation: the daemon over any runtime

    What Simulation.v shows of the supervisor, for every handler of the server
    and for a whole connection: the theorems about requests, stated for the
    traced runtime, hold over every implementation of the interface. *)
From S2P Require Import Prelude GoText GoTime GoPath Service Filo Tree DeclarationFiles AuditLog Runtime Supervisor Schedule Plan TraceRuntime Simulation Images Protocol MetricStore LogDatabase Volumes Host ServiceHandlers ImageHandlers FileHandlers Server.
From Stdlib Require Import Ascii SpecFloat.
Open Scope string_scope.
Open Scope list_scope.
Open Scope Z_scope.
Open Scope hostd_scope.

(** The server over the implementation, read off the one over the trace. *)
Definition concrete_host {W A} `{Runtime W} (start : W) (h : Host Trace A) : Host W A :=
  MkHost (concrete start (sup h)) (store h) (dir h) (db h) (appended h) (metrics h) (has_runtime h) (disks h).

Section Steps.
Context {W A : Type} `{R : Runtime W} `{LogStore} `{MapOrder Service} `{Auditor A} `{Render} (start : W).
#[local] Instance traced_steps : Runtime Trace := trace_runtime (oracle_of start).
Abbreviation sim := (simulated (concrete_host (A := A) start)).

Lemma sim_on_sup {X} (m : ST (Sup W) X) n : simulated (concrete start) m n -> sim (on_sup m) (on_sup n).
Proof. intros Hm h. unfold on_sup. cbn [sup concrete_host]. rewrite Hm. by destruct (n (sup h)). Qed.
Lemma sim_on_world {X} (m : ST W X) n :
  simulated (concrete start) (lift m) (lift n) -> sim (on_world m) (on_world n).
Proof. apply sim_on_sup. Qed.
Lemma sim_on_dir {X} (m : ST Dir X) : sim (on_dir m) (on_dir m).
Proof. intros h. unfold on_dir. cbn [dir concrete_host]. by destruct (m (dir h)). Qed.
Lemma sim_on_disk {X} mountpoint v (x : X) : sim (on_disk mountpoint v x) (on_disk mountpoint v x).
Proof. by intros h. Qed.
Lemma sim_record e c : sim (record e c) (record e c).
Proof. intros h. unfold record, clock_ms. cbn [sup store concrete_host now concrete]. by destruct (au_Record _ _ _ _). Qed.
Lemma sim_say service stream kind text : sim (say service stream kind text) (say service stream kind text).
Proof. by apply sim_on_sup, sim_blind. Qed.
Lemma sim_stamp r : sim (stamp r) (stamp r).
Proof. by intros h. Qed.
Lemma sim_stamped m n : sim m n -> sim (stamped m) (stamped n).
Proof. intros Hm. apply sim_bind; [done|apply sim_stamp]. Qed.
Lemma sim_failed e code m : sim (failed e code m) (failed e code m).
Proof. apply sim_bind; [apply sim_record|]. intros g. apply sim_ret. Qed.
Lemma sim_refuse e code cause : sim (refuse e code cause) (refuse e code cause).
Proof. apply sim_bind; [apply sim_record|]. intros g. apply sim_ret. Qed.
Lemma sim_settle : sim settle settle.
Proof. by intros h. Qed.
Lemma sim_set_db d : sim (set_db d) (set_db d).
Proof. by intros h. Qed.
Lemma sim_load `{FiloEngine} `{!FiloType Service} `{Sha256} : sim load load.
Proof. by intros h. Qed.
End Steps.
Create HintDb served.
#[export] Hint Resolve sim_on_dir sim_on_disk sim_record sim_say sim_stamp sim_failed sim_refuse sim_settle sim_set_db sim_load : served.

Ltac serve :=
  repeat first
    [ solve [auto 2 with served nocore]
    | progress (match goal with
      | |- simulated _ (on_sup _) _ => apply sim_on_sup; solve [auto 3 with simulation nocore]
      | |- simulated _ (on_world _) _ => apply sim_on_world; sim_step
      | |- simulated _ (stamped _) _ => apply sim_stamped
      end)
    | sim_step ].

Section Handlers.
Context {W A : Type} `{R : Runtime W} `{LogStore} `{MapOrder Service} `{Auditor A} `{Render} (start : W).
Context `{FiloEngine} `{!FiloType Service} `{!FiloType WireDeclaration} `{Sha256}.
#[local] Instance traced_handlers : Runtime Trace := trace_runtime (oracle_of start).
Abbreviation sim := (simulated (concrete_host (A := A) start)).

Lemma sim_mutate req actor name fn gn :
  (forall n, sim (fn n) (gn n)) -> sim (mutate req actor name fn) (mutate req actor name gn).
Proof. intros Hf. unfold mutate, store_check, statusList. serve; auto. apply sim_on_sup, sim_StatusOf. Qed.
Lemma sim_redeploy n : sim (redeploy n) (redeploy n).
Proof. unfold redeploy. serve. apply sim_on_sup, sim_Deploy. Qed.
Lemma sim_planOnly : sim planOnly planOnly.
Proof. unfold planOnly. serve. Qed.
Lemma sim_apply req actor : sim (apply req actor) (apply req actor).
Proof. unfold apply, store_check. serve; apply sim_on_sup, sim_Apply. Qed.
Lemma sim_runJob req actor : sim (runJob req actor) (runJob req actor).
Proof. unfold runJob, runFailed, store_check. serve. apply sim_on_sup, sim_RunNow. Qed.
Lemma sim_putService req actor : sim (putService req actor) (putService req actor).
Proof. unfold putService. serve. Qed.
Lemma sim_releaseImage image : sim (releaseImage image) (releaseImage image).
Proof. unfold releaseImage. serve. Qed.
Lemma sim_removed name image entry c : sim (removed name image entry c) (removed name image entry c).
Proof. unfold removed. serve. apply sim_releaseImage. Qed.
Lemma sim_removeService req actor : sim (removeService req actor) (removeService req actor).
Proof. unfold removeService. serve; first [apply sim_removed | apply sim_on_sup, sim_Remove]. Qed.
Lemma sim_imageHolders : sim imageHolders imageHolders.
Proof. unfold imageHolders. serve. Qed.
Lemma sim_listImages : sim listImages listImages.
Proof. unfold listImages. serve. apply sim_imageHolders. Qed.
Lemma sim_pruneImages req actor : sim (pruneImages req actor) (pruneImages req actor).
Proof. unfold pruneImages, prune_one. serve; apply sim_imageHolders. Qed.
Lemma sim_pullImage req actor : sim (pullImage req actor) (pullImage req actor).
Proof. unfold pullImage. serve. Qed.
Lemma sim_loadImage block room req input : sim (loadImage block room req input) (loadImage block room req input).
Proof. unfold loadImage, refuse_upload. serve. Qed.
Lemma sim_serviceVersions req : sim (serviceVersions req) (serviceVersions req).
Proof. unfold serviceVersions. serve. apply sim_on_sup, sim_StatusOf. Qed.
Lemma sim_declared_volumes svc : sim (declared_volumes svc) (declared_volumes svc).
Proof. by intros h. Qed.
Lemma sim_fileRoot svc path : sim (fileRoot svc path) (fileRoot svc path).
Proof. unfold fileRoot. serve. apply sim_declared_volumes. Qed.
End Handlers.
#[export] Hint Resolve sim_fileRoot sim_imageHolders : served.

Section Files.
Context {W A : Type} `{R : Runtime W} `{LogStore} `{MapOrder Service} `{Auditor A} `{Render} (start : W).
Context `{FiloEngine} `{!FiloType Service} `{!FiloType WireDeclaration} `{Sha256}.
#[local] Instance traced_files : Runtime Trace := trace_runtime (oracle_of start).
Abbreviation sim := (simulated (concrete_host (A := A) start)).

Lemma sim_listFiles req : sim (listFiles req) (listFiles req).
Proof. unfold listFiles, listVolumes. serve. apply sim_declared_volumes. Qed.
Lemma sim_deleteFile req actor : sim (deleteFile req actor) (deleteFile req actor).
Proof. unfold deleteFile. serve. Qed.
Lemma sim_getFile req actor : sim (getFile req actor) (getFile req actor).
Proof. unfold getFile. serve. Qed.
Lemma sim_putFile block faults req actor input : sim (putFile block faults req actor input) (putFile block faults req actor input).
Proof. unfold putFile. serve. Qed.
End Files.

Section Daemon.
Context {W A : Type} `{R : Runtime W} `{LogStore} `{MapOrder Service} `{Auditor A} `{Render} (start : W).
Context `{FiloEngine} `{!FiloType Service} `{!FiloType WireDeclaration} `{!FiloType Request} `{Sha256}.
Context `{TextSearch} `{Sql} `{Platform}.
#[local] Instance traced_daemon : Runtime Trace := trace_runtime (oracle_of start).
Abbreviation sim := (simulated (concrete_host (A := A) start)).

Lemma sim_searchLogs disk req : sim (searchLogs disk req) (searchLogs disk req).
Proof. unfold searchLogs. serve. Qed.
Lemma sim_appendLogs req : sim (appendLogs req) (appendLogs req).
Proof. unfold appendLogs. serve. Qed.
Lemma sim_readMetrics disk req : sim (readMetrics disk req) (readMetrics disk req).
Proof. by intros h. Qed.
Lemma sim_describe_machine disk : sim (Server.describe disk) (Server.describe disk).
Proof.
  unfold Server.describe, runtimeInfo. apply sim_bind; [serve|]. intros info. apply sim_blind. by intros h.
Qed.
Lemma sim_recent req : sim (recent_entries req) (recent_entries req).
Proof. by intros h. Qed.
Lemma sim_status_all : sim status_all status_all.
Proof. unfold status_all. serve. apply sim_on_sup, sim_Status. Qed.

Lemma sim_dispatch disk req actor : sim (dispatch disk req actor) (dispatch disk req actor).
Proof.
  unfold dispatch. cbv zeta.
  repeat match goal with |- simulated _ (if ?b then _ else _) _ => destruct b end;
    repeat apply sim_stamped;
    first [ apply sim_describe_machine | apply sim_status_all | apply sim_planOnly | apply sim_recent
          | apply sim_searchLogs | apply sim_appendLogs | apply sim_listFiles | apply sim_deleteFile
          | apply sim_readMetrics | apply sim_listImages | apply sim_serviceVersions | apply sim_runJob
          | apply sim_pruneImages | apply sim_pullImage | apply sim_removeService | apply sim_apply
          | apply sim_putService | apply sim_ret | idtac ].
  all: apply sim_mutate; intros n; first [ apply sim_redeploy | apply sim_on_sup ].
  - apply sim_Start.
  - apply sim_Stop.
  - apply sim_Restart.
Qed.

Lemma sim_backupService req actor : sim (backupService req actor) (backupService req actor).
Proof.
  unfold backupService, send_backup, backup_failed. serve; apply sim_on_sup, sim_Backup.
Qed.
Lemma sim_follow_server disk req live : sim (Server.follow disk req live) (Server.follow disk req live).
Proof. unfold Server.follow. serve. Qed.

Lemma sim_handle env actor input : sim (handle env actor input) (handle env actor input).
Proof.
  unfold handle. generalize (S (String.length input)). intros fuel. revert input.
  induction fuel as [|fuel IH]; intros input; [apply sim_ret|]. cbn [handle_go].
  serve; auto using sim_follow_server, sim_backupService, sim_getFile, sim_putFile, sim_loadImage, sim_dispatch.
Qed.
End Daemon.

