(* ===== verification/HostSamples.v ===== *)
(** * HostSamples: a concrete server, for the examples

    Every parameter of the server given a concrete function: an engine whose
    scripts are their own value, decoders that answer one fixed value, a log, a
    metric and an audit store that are empty, and the runtime of TraceRuntime.v
    that answers everything well. *)
From S2P Require Import Prelude GoText GoTime GoPath Service Filo Tree DeclarationFiles AuditLog Runtime Supervisor Schedule Plan Images Protocol MetricStore LogDatabase Volumes Host ServiceHandlers ImageHandlers FileHandlers Server TraceRuntime LogProofs.
From Stdlib Require Import Ascii SpecFloat.
Open Scope string_scope.
Open Scope list_scope.
Open Scope Z_scope.

Module HostSamples.
Export Samples.
#[export] Instance engine : FiloEngine := Build_FiloEngine string (fun s => Ok s).
Definition web_data : Service :=
  MkService "web" ["-listen"; ":8080"] "" ["TZ=UTC"] StateRunning RestartAlways f64_zero
    "nginx@sha256:aa" ["8080:80"] ["data:/var/lib/web"] [] f64_zero f64_zero f64_zero "" "" f64_zero "" "".
Definition any_type {A} (v : A) : FiloType A := {| UnmarshalFromValue _ _ := Ok v; filo_Marshal _ := Ok "" |}.
#[export] Instance services : FiloType Service := any_type web_data.
#[export] Instance declarations_ : FiloType WireDeclaration := any_type empty_declaration.
#[export] Instance requests : FiloType Request := any_type empty_request.
#[export] Instance entries : FiloType Entry := any_type empty_entry.
#[export] Instance snapshots : FiloType snapshot := any_type (MkSnapshot 1 0).
#[export] Instance renders : Render := {| render_error _ := None |}.
#[export] Instance sha : Sha256 := {| sha256_hex s := s |}.
#[export] Instance text : TextSearch := plain_search.
#[export] Instance sql : Sql := plain_sql.
#[export] Instance logs : LogStore := no_log.
#[export] Instance platform : Platform := {| Version := "dev"; NumCPU := 1; Zone := ("UTC", 0) |}.
#[export] Instance audit : Auditor (AuditLog.Store * Disk) := audit_store false false.
#[export] Instance audit_laws : AuditorLaws (AuditLog.Store * Disk) := audit_store_laws false false.

Definition running_web : list Docker.Container := [container_of "hostd-web" "id1" "web" "" true].
Definition machine : Host Trace (AuditLog.Store * Disk) :=
  MkHost (quiet [web] noon) (AuditLog.MkStore 5 0 [], empty_disk) None (LogDatabase.Open ∅) 0
    (MetricStore.MkStore (MetricStore.withDefaults (MetricStore.MkOptions 0 0)) ∅ zero_time) true ∅.
Definition asking_for (op name : string) (expect : Z) : Request :=
  MkRequest op name "" "" "" "" "" 0 0 0 "" "" "" f64_zero f64_zero f64_zero expect false "" "".
#[export] Instance calm_machine : Runtime Trace := trace_runtime (calm running_web).


(** A web server that keeps its data in a volume, with one file in it. *)
Definition data_at : string := VolumeName "web" "data".
Definition data_files : Volume := {["a.txt" := FFile "hello" noon]}.
Definition machine_with_data : Host Trace (AuditLog.Store * Disk) :=
  MkHost (quiet [web] noon) (AuditLog.MkStore 5 0 [], empty_disk) (Some {["web.filo" := NFile "web"]})
    (LogDatabase.Open ∅) 0 (MetricStore.MkStore (MetricStore.withDefaults (MetricStore.MkOptions 0 0)) ∅ zero_time) true
    {[data_at := data_files]}.
Definition file_request (op name : string) : Request :=
  MkRequest op name "web" "" "" "" "" 0 0 0 "" "" "" f64_zero f64_zero f64_zero 0 false "" "".
End HostSamples.
