(* ===== verification/ClientProofs.v ===== *)
(** * ClientProofs: the client and the daemon together *)
From S2P Require Import Prelude GoText GoTime GoPath Service Filo Tree DeclarationFiles AuditLog Runtime Supervisor Schedule Plan Images Protocol ProtocolProofs MetricStore LogDatabase Volumes Host ServiceHandlers ImageHandlers FileHandlers Server DockerClient TraceRuntime HostSamples Client.
From Stdlib Require Import Ascii SpecFloat.
Open Scope string_scope.
Open Scope list_scope.
Open Scope Z_scope.
Open Scope hostd_scope.

(** ** Whole numbers as floats *)
Lemma shr_1_nonneg r : 0 <= shr_m r -> 0 <= shr_m (shr_1 r).
Proof. destruct r as [[|[m|m|]|[m|m|]] gr gs]; cbn; lia. Qed.

Lemma iter_shr_nonneg p r : 0 <= shr_m r -> 0 <= shr_m (SpecFloat.iter_pos shr_1 p r).
Proof. revert r. induction p as [p IH|p IH|]; intros r Hr; cbn; auto using shr_1_nonneg. Qed.

Lemma shr_nonneg r e n : 0 <= shr_m r -> 0 <= shr_m (fst (shr r e n)).
Proof. intros Hr. unfold shr. destruct n; cbn; auto using iter_shr_nonneg. Qed.

Lemma round_is_number m e l : 0 <= m ->
  f64_eqb (binary_round_aux prec64 emax64 false m e l) (binary_round_aux prec64 emax64 false m e l) = true.
Proof.
  intros Hm. unfold binary_round_aux, shr_fexp.
  destruct (shr (shr_record_of_loc m l) e _) as [r e1] eqn:E1.
  assert (Hr : 0 <= shr_m r).
  { pose proof (shr_nonneg (shr_record_of_loc m l) e (fexp prec64 emax64 (Zdigits2 m + e) - e)) as H.
    rewrite E1 in H. apply H. by destruct l as [|[]]. }
  set (m1 := round_nearest_even (shr_m r) (loc_of_shr_record r)).
  assert (Hm1 : 0 <= m1).
  { unfold m1, round_nearest_even. destruct (loc_of_shr_record r) as [|[]]; [lia| |lia|lia].
    destruct (Z.even (shr_m r)); lia. }
  destruct (shr (shr_record_of_loc m1 loc_Exact) e1 _) as [r2 e2] eqn:E2.
  assert (Hr2 : 0 <= shr_m r2).
  { pose proof (shr_nonneg (shr_record_of_loc m1 loc_Exact) e1 (fexp prec64 emax64 (Zdigits2 m1 + e1) - e1)) as H.
    rewrite E2 in H. by apply H. }
  destruct (shr_m r2) as [|p|p]; [done| |lia]. destruct (e2 <=? emax64 - prec64); [|done].
  unfold f64_eqb, SFeqb, SFcompare. by rewrite Z.compare_refl, Pos.compare_cont_refl.
Qed.

Lemma f64_of_Z_number n : 0 <= n -> f64_eqb (f64_of_Z n) (f64_of_Z n) = true.
Proof.
  intros Hn. unfold f64_of_Z, binary_normalize. destruct n as [|p|p]; [done| |lia].
  unfold binary_round. destruct (shl_align _ _ _) as [m e]. by apply round_is_number.
Qed.

(** ** Paths and directories *)
Lemma walk_frame v v' dirs : (forall d, d ∈ dirs -> v' !! d = v !! d) -> walk v' dirs = walk v dirs.
Proof.
  induction dirs as [|d dirs IH]; intros H; [done|]. cbn. rewrite (H d) by left.
  destruct (v !! d) as [[]|]; try done. apply IH. intros x Hx. apply H. by right.
Qed.

Lemma Split_last c s : exists l p, Split s c = l ++ [p] /\
  forall t, contains_byte c t = false -> Split (s +:+ t) c = l ++ [p +:+ t].
Proof.
  induction s as [|x s (l & p & E & IH)].
  - exists [], "". split; [done|]. intros t Ht. by apply Split_none.
  - cbn [Split]. destruct (Ascii.eqb x c) eqn:Hx.
    + exists ("" :: l), p. rewrite E. split; [done|]. intros t Ht. rewrite append_cons. cbn [Split]. by rewrite Hx, IH.
    + destruct l as [|y l].
      * exists [], (String x p). rewrite E. split; [done|]. intros t Ht. rewrite append_cons. cbn [Split].
        by rewrite Hx, IH by done.
      * exists (String x y :: l), p. rewrite E. split; [done|]. intros t Ht. rewrite append_cons. cbn [Split].
        by rewrite Hx, IH by done.
Qed.

Lemma above_last l p q prefix : above (l ++ [p]) prefix = above (l ++ [q]) prefix.
Proof.
  revert prefix. induction l as [|x l IH]; intros prefix; [done|].
  destruct l as [|y l]; [done|]. cbn [app above]. f_equal. apply IH.
Qed.

Lemma above_shorter l p prefix d :
  d ∈ above (l ++ [p]) prefix ->
  (String.length d < String.length prefix + S (String.length (Join (l ++ [p]) (String slash ""))))%nat /\
  (prefix = "" -> (String.length d < String.length (Join (l ++ [p]) (String slash "")))%nat).
Proof.
  revert prefix d. induction l as [|x l IH]; intros prefix d Hd; [by apply not_elem_of_nil in Hd|].
  assert (Hj : Join ((x :: l) ++ [p]) (String slash "") =
               x +:+ String slash "" +:+ Join (l ++ [p]) (String slash "")) by (by destruct l).
  assert (Ha : above ((x :: l) ++ [p]) prefix =
    (if String.eqb prefix "" then x else prefix +:+ String slash x) ::
    above (l ++ [p]) (if String.eqb prefix "" then x else prefix +:+ String slash x)) by (by destruct l).
  rewrite Ha in Hd. rewrite Hj, !app_string_length. cbn [String.length].
  apply elem_of_cons in Hd as [->|Hd].
  - clear Ha. destruct (String.eqb_spec prefix "") as [->|Hp]; [cbn; lia|]. rewrite app_string_length. cbn [String.length].
    split; [lia|]. by intros ->.
  - apply IH in Hd as [Hd _]. clear Ha. destruct (String.eqb_spec prefix "") as [->|Hp]; [cbn; lia|].
    rewrite app_string_length in Hd. cbn [String.length] in Hd. split; [lia|]. by intros ->.
Qed.

Lemma parents_shorter p d : d ∈ parents p -> (String.length d < String.length p)%nat.
Proof.
  unfold parents. destruct (Split_last slash p) as (l & x & E & _). rewrite E.
  intros Hd. apply above_shorter in Hd as [_ Hd]. rewrite <- E in Hd at 1. rewrite Split_join in Hd. by apply Hd.
Qed.

Lemma parents_temporary p : parents (temporary p) = parents p.
Proof.
  unfold parents, temporary. destruct (Split_last slash p) as (l & x & E & H).
  rewrite E, H by reflexivity. apply above_last.
Qed.

(** What a path names is decided by its parents and itself. *)
Lemma resolve_frame p v v' :
  (forall k, (String.length k <= String.length p)%nat -> k <> p -> v' !! k = v !! k) ->
  resolve p v' = (n ← resolve p v; Ok (if String.eqb p "." then n else v' !! p)).
Proof.
  intros H. unfold resolve. destruct (negb (inside_path p)); [done|].
  destruct (String.eqb p "."); [done|]. rewrite (walk_frame v v' (parents p)); [by destruct (walk v (parents p))|].
  intros d Hd%parents_shorter. apply H; [lia|]. intros ->. lia.
Qed.

(** ** The handlers, where everything goes well *)
Abbreviation generation_of h := (au_Generation (store h)).

Section Machine.
Context {W A : Type} `{Runtime W} `{LogStore} `{MapOrder Service} `{HA : Auditor A} `{!AuditorLaws A} `{Render}.
Context `{FiloEngine} `{!FiloType Service} `{Sha256}.
Implicit Types h : Host W A.

(** What a request leaves alone: the volumes, the declarations, the runtime, the
    generation. *)
Definition same_but_disks h h' : Prop :=
  dir h' = dir h /\ has_runtime h' = has_runtime h /\ generation_of h' = generation_of h.
Definition same_files h h' : Prop := disks h' = disks h /\ same_but_disks h h'.
#[local] Instance same_files_preorder : PreOrder same_files.
Proof.
  split; [by intros h|]. intros a b c (? & ? & ? & ?) (? & ? & ? & ?). unfold same_files, same_but_disks.
  split_and!; congruence.
Qed.

(** A record that changes nothing answers the generation it finds. *)
Lemma record_same e h :
  exists h', @record W A _ e false h = (generation_of h, h') /\ same_files h h' /\ sup h' = sup h.
Proof.
  unfold record. pose proof (record_answers (clock_ms h) e false (store h)) as Hg.
  pose proof (record_keeps (clock_ms h) e false (store h) (or_intror eq_refl)) as Hk.
  destruct (au_Record _ _ _ _) as [g a]. cbn [fst snd] in *. subst g. rewrite Hk. eexists. by split_and!.
Qed.

(** The service declares the volume the path names, the runtime keeps saying
    where it is, and the disk there is [v]; [inside] is the path in it. *)
Record Mounted (svc path : string) h (mountpoint : string) (v : Volume) (inside : string) : Prop := {
  mo_runtime : has_runtime h = true;
  mo_declared : exists s names, ParseFile (svc +:+ Extension) (dir h) = Ok s /\ namedVolumes s = Ok names /\
    (wire_path path).1 ∈ names;
  mo_located : forall w, (rt_VolumeMountpoint (VolumeName svc (wire_path path).1) w).1 = Ok mountpoint;
  mo_inside : inside = Clean (if String.eqb (wire_path path).2 "" then "." else (wire_path path).2);
  mo_disk : disks h !! mountpoint = Some v;
}.

Lemma Mounted_same svc path h h' mountpoint v inside :
  same_files h h' -> Mounted svc path h mountpoint v inside -> Mounted svc path h' mountpoint v inside.
Proof. intros (Hd & Hdir & Hr & _) []. split; rewrite ?Hd, ?Hdir, ?Hr; done. Qed.

Lemma fileRoot_finds svc path h mountpoint v inside :
  Mounted svc path h mountpoint v inside ->
  exists h', fileRoot svc path h = (Ok (mountpoint, v, inside), h') /\ same_files h h'.
Proof.
  intros [Hr (s & names & Hp & Hn & Hv) Hl Hi Hd]. unfold fileRoot. rewrite ST_step. cbn [gets fst snd].
  rewrite Hr. cbn [negb].
  assert (Hdecl : declared_volumes svc h = (Ok names, h)) by (unfold declared_volumes; by rewrite Hp, Hn).
  rewrite (bindE_step _ _ _ _ _ Hdecl). destruct (wire_path path) as [volume inside0] eqn:Ew. cbn [fst snd] in *.
  rewrite bool_decide_eq_true_2 by done. cbn [negb].
  destruct (on_world (rt_VolumeMountpoint (VolumeName svc volume)) h) as [mp h1] eqn:Eo.
  assert (mp = Ok mountpoint /\ same_files h h1) as [-> (Hd1 & Hdir1 & Hr1 & Hg1)].
  { specialize (Hl (world (sup h))). unfold on_world, on_sup, lift in Eo.
    destruct (rt_VolumeMountpoint _ _) as [mp' w']. injection Eo as <- <-. by split_and!. }
  rewrite (bindE_step _ _ _ _ _ Eo), ST_step. cbn [gets fst snd mret ST_ret]. rewrite Hd1, Hd, <- Hi.
  eexists. split; [done|]. by split_and!.
Qed.

(** A path that can be written: what it names and the file beside may be there
    or not, but neither is a directory. *)
Definition writable (inside : string) (v : Volume) : Prop :=
  inside <> "." /\
  (exists n, resolve inside v = Ok n /\ n <> Some FDir) /\
  (exists n, resolve (temporary inside) v = Ok n /\ n <> Some FDir).

Lemma temporary_not_dot inside : String.eqb (temporary inside) "." = false.
Proof.
  apply String.eqb_neq. unfold temporary. intros E. apply (f_equal String.length) in E.
  rewrite app_string_length in E. cbn in E. lia.
Qed.
Lemma temporary_longer inside : (String.length inside < String.length (temporary inside))%nat.
Proof. unfold temporary. rewrite app_string_length. cbn. lia. Qed.

(** The volume after an upload. *)
Definition stored_at (inside content : string) (now : Time) (v : Volume) : Volume :=
  <[inside := FFile content now]> (delete (temporary inside) v).

Lemma create_and_rename inside now content v v1 :
  writable inside v -> Create_file now (temporary inside) v = Ok v1 ->
  Rename (temporary inside) inside (Write_file now (temporary inside) content v1) = Ok (stored_at inside content now v).
Proof.
  intros (Hdot & (n & Hn & Hnd) & (m & Hm & Hmd)) Hc. pose proof (temporary_longer inside) as Hlong.
  unfold Create_file in Hc. rewrite Hm in Hc. cbn in Hc.
  assert (v1 = <[temporary inside := FFile "" now]> v) as -> by (destruct m as [[]|]; congruence). clear Hc.
  unfold Write_file. rewrite insert_insert_eq. set (v2 := <[temporary inside := FFile content now]> v).
  assert (Ht : resolve (temporary inside) v2 = Ok (Some (FFile content now))).
  { rewrite (resolve_frame _ v) by (intros k _ Hk; unfold v2; by rewrite lookup_insert_ne).
    rewrite Hm. cbn. rewrite temporary_not_dot. unfold v2. by rewrite lookup_insert_eq. }
  assert (Hi : resolve inside v2 = Ok n).
  { rewrite (resolve_frame _ v).
    - rewrite Hn. cbn. destruct (String.eqb_spec inside ".") as [|_]; [done|].
      unfold v2. rewrite lookup_insert_ne by (intros E; rewrite E in Hlong; lia).
      unfold resolve in Hn. destruct (negb (inside_path inside)); [done|].
      destruct (String.eqb_spec inside "."); [done|]. destruct (walk v (parents inside)); [done|done].
    - intros k Hk _. unfold v2. rewrite lookup_insert_ne; [done|]. intros E. rewrite <- E in Hk. lia. }
  unfold Rename, Lstat. rewrite Ht. cbn. rewrite Hi. cbn. unfold stored_at, v2.
  rewrite delete_insert_eq. destruct n as [[]|]; done.
Qed.

Lemma stored_reads inside now content v :
  writable inside v -> Lstat inside (stored_at inside content now v) = Ok (FFile content now).
Proof.
  intros (Hdot & (n & Hn & Hnd) & _). pose proof (temporary_longer inside) as Hlong.
  unfold Lstat. rewrite (resolve_frame _ v).
  - rewrite Hn. cbn. destruct (String.eqb_spec inside "."); [done|]. unfold stored_at. by rewrite lookup_insert_eq.
  - intros k Hk Hne. unfold stored_at. rewrite lookup_insert_ne by done. rewrite lookup_delete_ne; [done|].
    intros <-. lia.
Qed.

Definition transferred (path : string) (n : Z) (g : Z) : Response :=
  with_generation g (body (BTransfer (MkFileTransfer path (f64_of_Z n)))).

Lemma putFile_stores block req actor reads rest h mountpoint v inside :
  0 < block -> ValidName (rq_Service req) = true -> HasSuffix (rq_Name req) "/" = false ->
  Mounted (rq_Service req) (rq_Name req) h mountpoint v inside -> writable inside v ->
  Forall (fun p => len p <= chunkSize) reads -> len (concat_bytes reads) <= maxUploadBytes ->
  exists h',
    putFile block (MkFaults None false false false) req actor (WriteChunks reads false +:+ rest) h =
      ((transferred (rq_Name req) (len (concat_bytes reads)) (generation_of h), rest), h') /\
    disks h' = <[mountpoint := stored_at inside (concat_bytes reads) (now (sup h')) v]> (disks h) /\
    same_but_disks h h'.
Proof.
  intros Hb Hvalid Hslash Hm Hw Hreads Hmax. unfold putFile. cbv zeta.
  rewrite Hvalid. cbn [negb]. destruct (fileRoot_finds _ _ _ _ _ _ Hm) as (h1 & Er & Hd1 & Hdir1 & Hr1 & Hg1).
  rewrite (ST_step_eq _ _ _ _ _ Er). pose proof Hw as (Hdot & _ & (m & Hm' & Hmd)).
  destruct (String.eqb_spec inside ".") as [|_]; [done|]. rewrite Hslash. cbn [orb].
  rewrite ST_step. cbn [gets fst snd].
  destruct (Create_file (now (sup h1)) (temporary inside) v) as [v1|e] eqn:Ec.
  2: { unfold Create_file in Ec. rewrite Hm' in Ec. by destruct m as [[]|]. }
  unfold upload. cbn [f_room f_sync f_close f_rename orb].
  change (MkSink "" None) with (unlimited ""). rewrite chunks_roundtrip by done. cbn [got unlimited].
  change ("" +:+ ?s) with s. rewrite (create_and_rename _ _ _ v) by done.
  rewrite ST_step. unfold on_disk. cbn [fst snd].
  match goal with |- context [(record ?e ?c ≫= _) ?h2] =>
    destruct (record_same e h2) as (h3 & E & (Hd & Hdir & Hr & Hg) & Hsup); rewrite (ST_step_eq _ _ _ _ _ E) end.
  cbn [disks dir has_runtime sup store] in *. rewrite Hg1. exists h3. split; [done|]. rewrite Hsup, Hd, Hd1.
  split; [done|]. split_and!; congruence.
Qed.

Lemma reads_of_content fuel content :
  (String.length content <= fuel)%nat ->
  concat_bytes (reads_of fuel content) = content /\ Forall (fun p => len p <= chunkSize) (reads_of fuel content).
Proof.
  revert content. induction fuel as [|fuel IH]; intros content Hf.
  - destruct content; [done|cbn in Hf; lia].
  - cbn [reads_of]. destruct (String.eqb_spec content "") as [->|Hne]; [done|].
    assert (Hn : (0 < Z.to_nat chunkSize)%nat) by (unfold chunkSize; lia).
    assert (0 < String.length content)%nat by (destruct content; [done|cbn; lia]).
    destruct (IH (drop_bytes (Z.to_nat chunkSize) content)) as [Ec Hc]; [rewrite length_drop_bytes; lia|].
    cbn [concat_bytes]. rewrite Ec, take_drop_bytes. split; [done|]. constructor; [|done].
    unfold len. rewrite length_take_bytes. lia.
Qed.

Lemma getFile_reads req actor h mountpoint v inside content modified :
  ValidName (rq_Service req) = true -> Mounted (rq_Service req) (rq_Name req) h mountpoint v inside ->
  Lstat inside v = Ok (FFile content modified) ->
  exists h',
    getFile req actor h =
      ((transferred (rq_Name req) (len content) (generation_of h),
        WriteChunks (reads_of (String.length content) content) false), h') /\
    same_files h h'.
Proof.
  intros Hvalid Hm Hl. unfold getFile. cbv zeta. rewrite Hvalid. cbn [negb].
  destruct (fileRoot_finds _ _ _ _ _ _ Hm) as (h1 & Er & Hs1). rewrite (ST_step_eq _ _ _ _ _ Er), Hl.
  match goal with |- context [(record ?e ?c ≫= _) ?h2] =>
    destruct (record_same e h2) as (h3 & E & Hs2 & _); rewrite (ST_step_eq _ _ _ _ _ E) end.
  rewrite ST_step. unfold stamp. cbn [fst snd].
  set (r0 := body (BTransfer (MkFileTransfer (rq_Name req) (f64_of_Z (len content))))).
  assert (E0 : rs_Generation r0 = 0) by (unfold r0, body; by destruct (render_error _)). rewrite E0. cbn [Z.eqb].
  assert (Hg : generation_of h3 = generation_of h)
    by (destruct Hs1 as (_ & _ & _ & ?), Hs2 as (_ & _ & _ & ?); congruence).
  exists h3. unfold transferred. fold r0. rewrite <- Hg. split; [done|]. by transitivity h1.
Qed.
End Machine.

(** ** A conversation *)

(** What filo is asked for: the value is written on one line that is not too
    long, and reading that line into the zero value gives it back. *)
Definition travels `{FiloType T} (v zero : T) : Prop :=
  exists text, WriteMessage v = Ok (text +:+ String newline "") /\ Plain text /\ len text < maxRequestBytes /\
    Decode "message" text zero = Ok v.

Lemma travels_read `{FiloType T} (v zero : T) out rest :
  travels v zero -> WriteMessage v = Ok out -> ReadMessage zero (out +:+ rest) = (Ok v, rest).
Proof.
  intros (text & Hw & Hp & Hl & Hd) Ho. rewrite Hw in Ho. injection Ho as <-.
  unfold ReadMessage. rewrite string_app_assoc. change (String newline "" +:+ rest) with (line_end rest).
  rewrite readLimitedLine_line by (done || lia). by rewrite Hd.
Qed.

Lemma travels_written `{FiloType T} (v zero : T) : travels v zero -> exists out, WriteMessage v = Ok out /\ out <> "".
Proof. intros (text & Hw & _). eexists. split; [done|]. by destruct text. Qed.

Section Conversation.
Context {W A L : Type} `{Runtime W} `{LogStore} `{MapOrder Service} `{HA : Auditor A} `{!AuditorLaws A} `{Render}.
Context `{FiloEngine} `{!FiloType Service} `{!FiloType WireDeclaration} `{!FiloType Request} `{Sha256}.
Context `{TextSearch} `{Sql} `{Platform}.
Context `{!FiloType WireResponse} `{!FiloType Backup_} `{!FiloType FileTransfer} `{!FiloType L} `{Rendered}.
Context (line_text : LogLine -> L) (target : string).
Implicit Types h : Host W A.

(** One call of the client over a connection of its own: what it writes before
    it reads reaches the daemon, and it reads what the daemon answers. *)
Definition talk {X} (m : ST Conn X) (env : Around) (actor : string) (h : Host W A) : X * Host W A :=
  let asked := written (m (MkConn "" "" None)).2 in
  let '(out, h') := handle env actor asked h in
  ((m (MkConn (respond line_text out) "" None)).1, h').

Definition open_conn (input asked : string) : Conn := MkConn input asked None.

Lemma write_request_ok req out input asked :
  WriteMessage req = Ok out -> write_request req (open_conn input asked) = (Ok tt, open_conn input (asked +:+ out)).
Proof. intros E. unfold write_request. by rewrite E. Qed.

Lemma SetDeadline_ok input asked : SetDeadline (open_conn input asked) = (Ok tt, open_conn input asked).
Proof. done. Qed.

Lemma read_response_ok (r : WireResponse) silence input asked :
  travels r no_response ->
  (forall out, WriteMessage r = Ok out ->
    read_response silence (open_conn (out +:+ input) asked) = (Ok r, open_conn input asked)).
Proof.
  intros Ht out Ho. unfold read_response, read_with. rewrite ST_step. cbn [incoming open_conn].
  by rewrite (travels_read r no_response out input).
Qed.

(** The request reached the daemon whole and nothing follows it. *)
Lemma handle_one env actor req rest h fuel :
  travels req empty_request ->
  (forall out, WriteMessage req = Ok out ->
    handle_go (S fuel) env actor (out +:+ rest) h =
      (if String.eqb (Op req) OpLogFollow then follow (a_disk env) req (a_live env)
       else if String.eqb (Op req) OpServiceBackup then
         out ← backupService req actor; more ← handle_go fuel env actor rest; mret (out ++ more)
       else if String.eqb (Op req) OpFileGet then
         r ← getFile req actor;
         more ← handle_go fuel env actor rest;
         mret (SResponse r.1 :: (if String.eqb r.2 "" then more else SBytes r.2 :: more))
       else if String.eqb (Op req) OpFilePut then
         r ← putFile (a_block env) (a_faults env) req actor rest;
         stamped_r ← stamp r.1;
         more ← handle_go fuel env actor r.2;
         mret (SResponse stamped_r :: more)
       else if String.eqb (Op req) OpImagePush then
         r ← loadImage (a_block env) (a_room env) req rest;
         stamped_r ← stamp r.1;
         more ← handle_go fuel env actor r.2;
         mret (SResponse stamped_r :: more)
       else
         r ← dispatch (a_disk env) req actor;
         more ← handle_go fuel env actor rest;
         mret (SResponse r :: more)) h).
Proof. intros Ht out Ho. cbn [handle_go]. by rewrite (travels_read req empty_request out rest). Qed.

Lemma handle_nothing fuel env actor h : handle_go fuel env actor "" h = ([], h).
Proof. by destruct fuel. Qed.

Lemma do_conn req out input :
  WriteMessage req = Ok out ->
  do target req (open_conn input "") = outcome (read_response (Some (no_answer target closed))) (open_conn input out).
Proof.
  intros Hw. unfold do, outcome. rewrite !ST_step.
  by rewrite (bindE_step _ _ _ _ _ (SetDeadline_ok input "")), (bindE_step _ _ _ _ _ (write_request_ok req out input "" Hw)).
Qed.

Lemma read_response_written silence input asked : written (outcome (read_response silence) (open_conn input asked)).2 = asked.
Proof.
  unfold outcome. rewrite ST_step. unfold read_response, read_with. rewrite ST_step. cbn [incoming open_conn].
  by destruct (ReadMessage no_response input).
Qed.

Lemma outcome_read (r : WireResponse) silence out input asked :
  travels r no_response -> WriteMessage r = Ok out ->
  (outcome (read_response silence) (open_conn (out +:+ input) asked)).1 = (r, None).
Proof.
  intros Ht Ho. unfold outcome. rewrite (ST_step_eq _ _ _ _ _ (read_response_ok r silence input asked Ht out Ho)). done.
Qed.

(** Answered on the connection it was asked on. *)
Definition answered_inline (op : string) : Prop :=
  op ∉ [OpLogFollow; OpServiceBackup; OpFileGet; OpFilePut; OpImagePush].

(** C21: asking over the wire is asking the daemon: for every operation answered
    by one message the client gets exactly the code, generation, message and
    body dispatch decided on, the daemon is left in the state dispatch leaves
    it in, and the operation is carried out once. *)
Theorem remote_call_is_local env actor req h :
  answered_inline (Op req) -> travels req empty_request ->
  travels (on_wire (dispatch (a_disk env) req actor h).1) no_response ->
  talk (do target req) env actor h =
    ((on_wire (dispatch (a_disk env) req actor h).1, None), (dispatch (a_disk env) req actor h).2).
Proof.
  intros Hop Hreq Hresp. destruct (travels_written _ _ Hreq) as (out & Hw & _).
  unfold talk. change (MkConn "" "" None) with (open_conn "" "").
  rewrite (do_conn req out "" Hw), read_response_written.
  unfold handle. rewrite <- (string_app_nil out) at 2. rewrite (handle_one env actor req "" h _ Hreq out Hw).
  unfold answered_inline in Hop. repeat (apply not_elem_of_cons in Hop as [?%String.eqb_neq Hop]).
  repeat match goal with E : String.eqb _ _ = false |- _ => rewrite E; clear E end.
  destruct (dispatch (a_disk env) req actor h) as [r h1] eqn:Ed. cbn [fst snd] in *.
  rewrite (ST_step_eq _ _ _ _ _ Ed), (ST_step_eq _ _ _ _ _ (handle_nothing _ env actor h1)). cbn [mret ST_ret respond].
  destruct (travels_written _ _ Hresp) as (answer & Ha & _). rewrite Ha. f_equal.
  change (MkConn ?i "" None) with (open_conn i ""). by rewrite (do_conn req out _ Hw), (outcome_read (on_wire r) _ answer "" out Hresp Ha).
Qed.

(** *** Files *)
Lemma stamp_transferred path n h :
  stamp (transferred path n (generation_of h)) h = (transferred path n (generation_of h), h).
Proof. unfold stamp. by destruct (rs_Generation _ =? 0). Qed.

Lemma SendFile_conn svc path reads out input :
  WriteMessage (request_for OpFilePut path svc "") = Ok out ->
  SendFile target svc path reads None (open_conn input "") =
  outcome (read_response (Some (no_answer target (took "file")))) (open_conn input (out +:+ WriteChunks reads false)).
Proof.
  intros Hw. unfold SendFile, outcome. rewrite !ST_step.
  rewrite (bindE_step _ _ _ _ _ (SetDeadline_ok input "")), (bindE_step _ _ _ _ _ (write_request_ok _ out input "" Hw)).
  by rewrite (bindE_step _ _ _ tt (open_conn input (out +:+ WriteChunks reads false))).
Qed.

Lemma FetchFile_conn block svc path open out input :
  WriteMessage (request_for OpFileGet path svc "") = Ok out ->
  FetchFile block svc path open (open_conn input "") =
  then_receive block (read_response None) "file" (MkFileTransfer "" f64_zero) ft_Bytes open (open_conn input out).
Proof.
  intros Hw. unfold FetchFile, then_receive. rewrite !ST_step.
  by rewrite (bindE_step _ _ _ _ _ (SetDeadline_ok input "")), (bindE_step _ _ _ _ _ (write_request_ok _ out input "" Hw)).
Qed.

Lemma receive_written {T} `{!FiloType T} block name (zero : T) bytes open resp input asked :
  written (receive block name zero bytes open resp (open_conn input asked)).2 = asked.
Proof.
  unfold receive. destruct (wr_Failed resp); [done|]. destruct (Decode name (wr_Body resp) zero) as [told|]; [|done].
  destruct (open told) as [sink|]; [|done]. rewrite ST_step. unfold read_with. cbn [incoming open_conn].
  by destruct (ReadChunks block input sink) as [[[? ?] ?] ?].
Qed.

Lemma then_receive_written block silence open input asked :
  written (then_receive block (read_response silence) "file" (MkFileTransfer "" f64_zero) ft_Bytes open
    (open_conn input asked)).2 = asked.
Proof.
  unfold then_receive. rewrite ST_step. unfold read_response, read_with. rewrite ST_step. cbn [incoming open_conn fst snd].
  destruct (ReadMessage no_response input) as [[r|e] rest]; [apply receive_written|done].
Qed.

Section OneFile.
Context (svc path : string) (reads : list string) (generation : Z).
#[local] Abbreviation content := (concat_bytes reads).
#[local] Abbreviation announced := (MkFileTransfer path (f64_of_Z (len content))).
Hypothesis put_travels : travels (request_for OpFilePut path svc "") empty_request.
Hypothesis get_travels : travels (request_for OpFileGet path svc "") empty_request.
Hypothesis answer_travels : travels (on_wire (transferred path (len content) generation)) no_response.
Hypothesis announced_renders : render_error (BTransfer announced) = None.
Hypothesis announced_reads : Decode "file" (payload_text (BTransfer announced)) (MkFileTransfer "" f64_zero) = Ok announced.
Hypothesis reads_fit : Forall (fun p => len p <= chunkSize) reads.
Hypothesis content_fits : len content <= maxUploadBytes.
Hypothesis valid : ValidName svc = true.

Lemma transferred_ok g : wr_Code (on_wire (transferred path (len content) g)) = CodeOK /\
  wr_Body (on_wire (transferred path (len content) g)) = payload_text (BTransfer announced).
Proof. unfold transferred, body. by rewrite announced_renders. Qed.

Lemma send_stores env actor h mountpoint v inside :
  0 < a_block env -> a_faults env = MkFaults None false false false -> HasSuffix path "/" = false ->
  Mounted svc path h mountpoint v inside -> writable inside v -> generation_of h = generation ->
  exists h', talk (SendFile target svc path reads None) env actor h =
      ((on_wire (transferred path (len content) generation), None), h') /\
    disks h' = <[mountpoint := stored_at inside content (now (sup h')) v]> (disks h) /\ same_but_disks h h'.
Proof.
  intros Hb Hf Hslash Hm Hw Hgen. destruct (travels_written _ _ put_travels) as (out & Ho & _).
  unfold talk. change (MkConn "" "" None) with (open_conn "" "").
  rewrite (SendFile_conn _ _ _ out "" Ho), read_response_written.
  unfold handle. rewrite (handle_one env actor _ (WriteChunks reads false) h _ put_travels out Ho).
  cbn [Op request_for]. change (String.eqb OpFilePut OpFilePut) with true.
  change (String.eqb OpFilePut OpLogFollow) with false. change (String.eqb OpFilePut OpServiceBackup) with false.
  change (String.eqb OpFilePut OpFileGet) with false. cbv iota.
  destruct (putFile_stores (a_block env) (request_for OpFilePut path svc "") actor reads "" h mountpoint v inside)
    as (h1 & Ep & Hd & Hs); [done..|].
  rewrite string_app_nil in Ep. rewrite Hf, (ST_step_eq _ _ _ _ _ Ep). cbn [fst snd rq_Name request_for].
  assert (Hg1 : generation_of h1 = generation) by (destruct Hs as (_ & _ & ?); congruence).
  rewrite Hgen, <- Hg1, (ST_step_eq _ _ _ _ _ (stamp_transferred path (len content) h1)).
  rewrite (ST_step_eq _ _ _ _ _ (handle_nothing _ env actor h1)), Hg1. cbn [mret ST_ret respond].
  exists h1. destruct (travels_written _ _ answer_travels) as (answer & Ha & _). rewrite Ha.
  change (MkConn ?i "" None) with (open_conn i ""). rewrite (SendFile_conn _ _ _ out _ Ho).
  rewrite (outcome_read _ _ answer "" _ answer_travels Ha). by split_and!.
Qed.

Lemma fetch_reads env actor h mountpoint v inside modified block :
  0 < block -> Mounted svc path h mountpoint v inside -> Lstat inside v = Ok (FFile content modified) ->
  generation_of h = generation ->
  exists h', talk (FetchFile block svc path (fun _ => Ok (unlimited ""))) env actor h =
      ((on_wire (transferred path (len content) generation), None, Some (unlimited content)), h') /\ same_files h h'.
Proof.
  intros Hb Hm Hl Hgen. destruct (travels_written _ _ get_travels) as (out & Ho & _).
  unfold talk. change (MkConn "" "" None) with (open_conn "" "").
  rewrite (FetchFile_conn _ _ _ _ out "" Ho), then_receive_written.
  pose proof (handle_one env actor _ "" h (String.length out) get_travels out Ho) as E.
  rewrite string_app_nil in E. unfold handle. rewrite E. clear E.
  cbn [Op request_for]. change (String.eqb OpFileGet OpFileGet) with true.
  change (String.eqb OpFileGet OpLogFollow) with false. change (String.eqb OpFileGet OpServiceBackup) with false.
  cbv iota. destruct (getFile_reads (request_for OpFileGet path svc "") actor h mountpoint v inside content modified)
    as (h1 & Eg & Hs); [done..|].
  rewrite (ST_step_eq _ _ _ _ _ Eg), (ST_step_eq _ _ _ _ _ (handle_nothing _ env actor h1)). cbn [mret ST_ret fst snd].
  destruct (reads_of_content (String.length content) content (le_n _)) as [Hc Hfit].
  set (chunks := reads_of _ _) in *. cbn [rq_Name request_for].
  assert (Hne : String.eqb (WriteChunks chunks false) "" = false).
  { apply String.eqb_neq. clear. induction chunks as [|p chunks IH]; [done|]. cbn [WriteChunks].
    destruct (0 <? len p); [|done]. unfold frame. by destruct (itoa (len p)). }
  rewrite Hne, Hgen. cbn [respond]. exists h1. destruct (travels_written _ _ answer_travels) as (answer & Ha & _).
  rewrite Ha, string_app_nil. change (MkConn ?i "" None) with (open_conn i "").
  rewrite (FetchFile_conn _ _ _ _ out _ Ho). unfold then_receive.
  rewrite (ST_step_eq _ _ _ _ _ (read_response_ok _ None (WriteChunks chunks false) out answer_travels answer Ha)).
  unfold receive, wr_Failed. destruct (transferred_ok generation) as [-> ->]. change (negb (String.eqb CodeOK CodeOK)) with false.
  cbv iota. rewrite announced_reads, ST_step. unfold read_with. cbn [incoming open_conn].
  rewrite <- (string_app_nil (WriteChunks chunks false)), chunks_roundtrip by (done || by rewrite Hc). rewrite Hc.
  cbn [fst snd mret ST_ret ft_Bytes]. rewrite f64_of_Z_number by (unfold len; lia). by split.
Qed.

(** C22: a file sent to a service is the file that comes back.  Where the service
    declares the volume and the path in it can be written, sending any bytes, in
    any pieces, is answered ok and changes only that volume, where the path now
    holds exactly those bytes; fetching the path then hands over the same bytes,
    announces their number and changes no volume; and neither moves the
    generation. *)
Theorem sent_file_comes_back env actor h mountpoint v inside block :
  0 < a_block env -> 0 < block -> a_faults env = MkFaults None false false false -> HasSuffix path "/" = false ->
  Mounted svc path h mountpoint v inside -> writable inside v -> generation_of h = generation ->
  exists r h1 h2,
    talk (SendFile target svc path reads None) env actor h = ((r, None), h1) /\
    wr_Code r = CodeOK /\ wr_Generation r = generation /\
    disks h1 = <[mountpoint := stored_at inside content (now (sup h1)) v]> (disks h) /\
    talk (FetchFile block svc path (fun _ => Ok (unlimited ""))) env actor h1 =
      ((r, None, Some (unlimited content)), h2) /\
    disks h2 = disks h1 /\ generation_of h2 = generation.
Proof.
  intros Hb Hb' Hf Hslash Hm Hw Hg.
  destruct (send_stores env actor h mountpoint v inside Hb Hf Hslash Hm Hw Hg) as (h1 & Hput & Hd & Hdir & Hr & Hg1).
  assert (Hm1 : Mounted svc path h1 mountpoint (stored_at inside content (now (sup h1)) v) inside).
  { destruct Hm as [? ? ? ? ?]. split; rewrite ?Hdir, ?Hr, ?Hd, ?lookup_insert_eq; done. }
  destruct (fetch_reads env actor h1 mountpoint _ inside (now (sup h1)) block Hb' Hm1)
    as (h2 & Hget & Hd2 & _ & _ & Hg2); [by apply stored_reads|congruence|].
  exists (on_wire (transferred path (len content) generation)), h1, h2.
  split_and!; [done|apply transferred_ok|by unfold transferred; destruct (body _)|done|done|done|congruence].
Qed.
End OneFile.
End Conversation.

(** ** What ssh said *)
Lemma take_bytes_app_ge n s t :
  (String.length s <= n)%nat -> take_bytes n (s +:+ t) = s +:+ take_bytes (n - String.length s) t.
Proof.
  revert n. induction s as [|c s IH]; intros n Hn; [by rewrite Nat.sub_0_r|].
  rewrite !append_cons. destruct n as [|n]; cbn in Hn; [lia|]. cbn. rewrite IH by lia. done.
Qed.

Lemma take_bytes_long n s : (String.length s <= n)%nat -> take_bytes n s = s.
Proof.
  revert n. induction s as [|c s IH]; intros n Hn; [by destruct n|].
  destruct n as [|n]; cbn in *; [lia|]. by rewrite IH by lia.
Qed.

(** What is kept of it is its first four kilobytes, however it was written. *)
Lemma trouble_kept ps :
  foldl tap_Write "" ps = take_bytes (Z.to_nat maxTroubleBytes) (concat_bytes ps).
Proof.
  set (n := Z.to_nat maxTroubleBytes).
  assert (G : forall before, foldl tap_Write (take_bytes n before) ps = take_bytes n (before +:+ concat_bytes ps)).
  2: { exact (G ""). }
  induction ps as [|p ps IH]; intros before; cbn [foldl concat_bytes]; [by rewrite string_app_nil|].
  rewrite <- string_app_assoc, <- IH. f_equal. unfold tap_Write, len. rewrite length_take_bytes.
  assert (Hn : Z.of_nat n = maxTroubleBytes) by reflexivity. clearbody n.
  destruct (Z.ltb_spec (Z.of_nat (Nat.min n (String.length before))) maxTroubleBytes) as [Hl|Hl].
  - assert (Hb : (String.length before <= n)%nat) by lia. rewrite take_bytes_long, take_bytes_app_ge by done.
    destruct (Nat.le_gt_cases (String.length p) (n - String.length before)).
    + rewrite !take_bytes_long by lia. done.
    + f_equal. f_equal. lia.
  - by rewrite take_bytes_app by lia.
Qed.

(** The machine's name is the first word after the end of the options, whatever
    it begins with; what comes before does not depend on it. *)
Lemma ssh_host_is_no_option host remote :
  exists options, SSHArguments host remote = options ++ ("--" :: host :: remote) /\ "--" ∉ options /\
    forall other, SSHArguments other remote = options ++ ("--" :: other :: remote).
Proof.
  eexists (take 8 (SSHArguments "" [])). split; [reflexivity|]. split; [|reflexivity]. by apply (bool_decide_unpack _).
Qed.

(** ** A conversation with the machine of HostSamples *)
Module Wire.
Export HostSamples.
(** A codec of its own for what these conversations carry. *)
Definition fields (parts : list string) : string := Join parts "|".
Definition unreadable_text {X} : result X := Err (EMsg (Lit "unreadable")).
#[export] Instance request_codec : FiloType Request := {|
  filo_Marshal r := Ok (fields [Op r; rq_Name r; rq_Service r]);
  UnmarshalFromValue v _ := match Split v "|" with
                            | [op; name; svc] => Ok (request_for op name svc "")
                            | _ => unreadable_text
                            end |}.
#[export] Instance response_codec : FiloType WireResponse := {|
  filo_Marshal r := Ok (fields [wr_Code r; wr_Message r; itoa (wr_Generation r); wr_Body r]);
  UnmarshalFromValue v _ := match Split v "|" with
                            | [c; m; g; b] => match Atoi g with
                                              | Some g => Ok (MkWireResponse c m g b)
                                              | None => unreadable_text
                                              end
                            | _ => unreadable_text
                            end |}.
#[export] Instance transfer_codec : FiloType FileTransfer := {|
  filo_Marshal t := Ok (fields [ft_Path t; itoa (f64_to_int64 (ft_Bytes t))]);
  UnmarshalFromValue v _ := match Split v ":" with
                            | [p; n] => match Atoi n with
                                        | Some n => Ok (MkFileTransfer p (f64_of_Z n))
                                        | None => unreadable_text
                                        end
                            | _ => unreadable_text
                            end |}.
#[export] Instance payload_codec : Rendered := {|
  payload_text b := match b with
                    | BTransfer t => Join [ft_Path t; itoa (f64_to_int64 (ft_Bytes t))] ":"
                    | BName s => s
                    | _ => "()"
                    end |}.
#[export] Instance lines : FiloType LogLine := any_type (MkLogLine 0 f64_zero "" "" "" "" (Lit "")).
Definition calm_around : Around :=
  MkAround (LogDatabase.MkFaults false false) 4096 None (MkFaults None false false false) [].
End Wire.

Section Witnesses.
Import Wire.
Ltac travels_by_computation :=
  match goal with |- travels ?v _ => exists (TrimRight (match filo_Marshal v with Ok s => s | Err _ => "" end) nl) end;
  split; [|split; [|split]]; [vm_compute; reflexivity|vm_compute; by split|vm_compute; reflexivity|vm_compute; reflexivity].

Lemma sent_file_comes_back_witness :
  exists h1 h2,
    disks h1 = <[data_at := <["b.txt" := FFile "hello world" noon]> data_files]> (disks machine_with_data) /\
    talk id (FetchFile 512 "web" "data/b.txt" (fun _ => Ok (unlimited ""))) calm_around "ana" h1 =
      ((MkWireResponse CodeOK "" 5 "data/b.txt:11", None, Some (unlimited "hello world")), h2).
Proof.
  destruct (sent_file_comes_back id "hostd" "web" "data/b.txt" ["hello"; ""; " world"] 5) with
    (env := calm_around) (actor := "ana") (h := machine_with_data) (mountpoint := data_at) (v := data_files)
    (inside := "b.txt") (block := 512) as (r & h1 & h2 & Hput & _ & _ & Hd & Hget & _ & _).
  - travels_by_computation.
  - travels_by_computation.
  - travels_by_computation.
  - reflexivity.
  - vm_compute. reflexivity.
  - repeat constructor; vm_compute; discriminate.
  - vm_compute. discriminate.
  - reflexivity.
  - reflexivity.
  - reflexivity.
  - reflexivity.
  - reflexivity.
  - split; [reflexivity| |intros w; vm_compute; reflexivity|vm_compute; reflexivity|vm_compute; reflexivity].
    exists web_data, ["data"]. split; [|split]; [vm_compute; reflexivity|vm_compute; reflexivity|left].
  - split; [done|]. split; exists None; split; done || (vm_compute; reflexivity).
  - reflexivity.
  - exists h1, h2. assert (Hh1 : now (sup h1) = noon /\ r = MkWireResponse CodeOK "" 5 "data/b.txt:11").
    { assert (E : now (sup (talk id (SendFile "hostd" "web" "data/b.txt" ["hello"; ""; " world"] None) calm_around "ana"
        machine_with_data).2) = noon /\ (talk id (SendFile "hostd" "web" "data/b.txt" ["hello"; ""; " world"] None) calm_around
        "ana" machine_with_data).1.1 = MkWireResponse CodeOK "" 5 "data/b.txt:11") by (vm_compute; by split).
      by rewrite Hput in E. }
    destruct Hh1 as [Hnow ->]. rewrite Hnow in Hd. split; [|done].
    rewrite Hd. f_equal.
Defined.

Definition stop_web : Request := request_for OpServiceStop "web" "" "".
Lemma remote_call_is_local_witness :
  (talk id (do "hostd" stop_web) calm_around "ana" machine).1 = (MkWireResponse CodeOK "" 6 "()", None) /\
  talk id (do "hostd" stop_web) calm_around "ana" machine =
    ((on_wire (dispatch (a_disk calm_around) stop_web "ana" machine).1, None),
     (dispatch (a_disk calm_around) stop_web "ana" machine).2).
Proof.
  split; [vm_compute; reflexivity|].
  apply (remote_call_is_local id "hostd" calm_around "ana" stop_web machine).
  - unfold answered_inline. by apply (bool_decide_unpack _).
  - travels_by_computation.
  - travels_by_computation.
Defined.
End Witnesses.
