(* ===== verification/Connection.v ===== *)
(** * Connection: every connection ends

    src/api/server.go: handle.  Server.v gives the loop fuel; here the loop is a
    relation without any, one turn after another, and the two are the same: a
    connection is over after finitely many requests, whatever arrives on it.  And
    what somebody who follows a log is sent over one (follow): the log once, in
    order. *)
From S2P Require Import Prelude GoText GoTime GoPath Service Filo AuditLog Runtime Supervisor Schedule Plan TraceRuntime Images Protocol ProtocolProofs Tree DeclarationFiles LogDatabase LogProofs MetricStore Volumes Host ServiceHandlers ImageHandlers FileHandlers Server HostSamples.
From Stdlib Require Import Ascii SpecFloat.
Open Scope string_scope.
Open Scope list_scope.
Open Scope Z_scope.
Open Scope hostd_scope.
Import Logs.

(** ** What is left is never longer *)
Abbreviation left_of rest input := (String.length rest <= String.length input)%nat.

Lemma line_left input : left_of (readLimitedLine input).2 input.
Proof.
  unfold readLimitedLine. generalize (S (String.length input)) as fuel. intros fuel. generalize "" as b. revert input.
  induction fuel as [|fuel IH]; intros input b; [done|]. cbn [read_limited_go].
  destruct (ReadLine input) as [[[chunk more]|e] rest] eqn:E.
  - apply ReadLine_rest in E. destruct (_ <? _); [cbn; lia|]. destruct more; [|cbn; lia]. etransitivity; [apply IH|lia].
  - unfold ReadLine in E. destruct (Cut input newline) as [[before after] found]. destruct (_ && _); [done|].
    destruct (_ <=? _); [done|]. destruct (String.eqb input ""); [|done]. injection E as _ <-. cbn. lia.
Qed.

Lemma drop_left n s : left_of (drop_bytes n s) s.
Proof. rewrite length_drop_bytes. lia. Qed.

Lemma copy_left block fuel size input w : left_of (CopyN_go block fuel size input w).1.2 input.
Proof.
  revert size input w. induction fuel as [|fuel IH]; intros size input w; cbn [CopyN_go]; [done|].
  destruct (_ <=? _); [done|]. destruct (String.eqb input ""); [done|]. destruct (sink_write _ _) as [ok w1].
  destruct ok; cbn [negb]; [|apply drop_left]. etransitivity; [apply IH|apply drop_left].
Qed.

Lemma chunks_left block input w : left_of (ReadChunks block input w).1.2 input.
Proof.
  unfold ReadChunks. generalize (S (String.length input)) as fuel. intros fuel. generalize 0 as total. revert input w.
  induction fuel as [|fuel IH]; intros input w total; [done|]. cbn [read_chunks_go].
  pose proof (line_left input) as Hl. destruct (readLimitedLine input) as [[line|e] rest]; [|done]. cbn [snd] in Hl.
  destruct (Atoi _) as [size|]; [|done]. destruct (_ =? _); [done|]. destruct (_ || _); [done|]. cbv zeta.
  destruct (_ <? _); [done|]. unfold CopyN. pose proof (copy_left block (S (String.length rest)) size rest w) as Hc.
  destruct (CopyN_go _ _ _ _ _) as [[[u|e] r2] w2]; cbn [fst snd] in *; [|lia]. specialize (IH r2 w2 (total + size)). lia.
Qed.

Section Connection.
Context {W A : Type} `{Runtime W} `{LogStore} `{MapOrder Service} `{Auditor A} `{Render}.
Context `{FiloEngine} `{!FiloType Service} `{!FiloType WireDeclaration} `{!FiloType Request} `{Sha256}.
Context `{TextSearch} `{Sql} `{Platform}.
Abbreviation Handler X := (ST (Host W A) X).

(** A handler that answers and says what it left of the input. *)
Definition leaves_no_more (input : string) (m : Handler (Response * string)) : Prop := forall h, left_of (m h).1.2 input.

Lemma leaves_ret input r rest : left_of rest input -> leaves_no_more input (mret (r, rest)).
Proof. by intros Hl h. Qed.
Lemma leaves_bind {X} input (m : Handler X) f : (forall x, leaves_no_more input (f x)) -> leaves_no_more input (m ≫= f).
Proof. intros Hf h. rewrite ST_step. apply Hf. Qed.

Ltac leaves :=
  repeat first
    [ apply leaves_bind; intros ?
    | apply leaves_ret; solve [auto]
    | match goal with |- leaves_no_more _ (match ?x with _ => _ end) => destruct x eqn:? end
    | progress cbv beta zeta ].

Lemma putFile_leaves block faults req actor input : leaves_no_more input (putFile block faults req actor input).
Proof.
  pose proof (chunks_left block input) as Hl. unfold putFile, upload. cbv zeta.
  assert (Hn := Hl (MkSink "" None)). assert (Hs := Hl (MkSink "" (f_room faults))).
  destruct (ReadChunks block input (MkSink "" None)) as [[[t0 e0] r0] w0].
  destruct (ReadChunks block input (MkSink "" (f_room faults))) as [[[t1 e1] r1] w1]. cbn [fst snd] in *.
  destruct (negb (ValidName (rq_Service req))); [leaves|].
  apply leaves_bind. intros [[[mountpoint v] inside]|e]; [|leaves]. destruct (_ || _); [leaves|].
  apply leaves_bind. intros now. destruct (Create_file _ _ _); [|leaves].
  destruct e1; [leaves|]. destruct (_ || _); [leaves|]. destruct (Rename _ _ _); leaves.
Qed.

Lemma loadImage_leaves block room req input : leaves_no_more input (loadImage block room req input).
Proof.
  pose proof (chunks_left block input) as Hl. unfold loadImage, refuse_upload. cbv zeta.
  assert (Hn := Hl (MkSink "" None)). assert (Hs := Hl (MkSink "" room)).
  destruct (ReadChunks block input (MkSink "" None)) as [[[t0 e0] r0] w0].
  destruct (ReadChunks block input (MkSink "" room)) as [[[t1 e1] r1] w1]. cbn [fst snd] in *. leaves. destruct e1; leaves.
Qed.

(** ** One turn of the loop *)
(** What is said, and what is left for the next turn: [None] where handle
    returns. *)
Definition turn (env : Around) (actor input : string) : Handler (list sent * option string) :=
  match ReadMessage empty_request input with
  | (Err e, _) => mret (if errors_is e EOF then [] else [SResponse (answer CodeInvalid (error_msg e))], None)
  | (Ok req, rest) =>
      if String.eqb (Op req) OpLogFollow then out ← Server.follow (a_disk env) req (a_live env); mret (out, None)
      else if String.eqb (Op req) OpServiceBackup then out ← backupService req actor; mret (out, Some rest)
      else if String.eqb (Op req) OpFileGet then
        r ← getFile req actor;
        mret (SResponse r.1 :: (if String.eqb r.2 "" then [] else [SBytes r.2]), Some rest)
      else if String.eqb (Op req) OpFilePut then
        r ← putFile (a_block env) (a_faults env) req actor rest;
        stamped_r ← stamp r.1;
        mret ([SResponse stamped_r], Some r.2)
      else if String.eqb (Op req) OpImagePush then
        r ← loadImage (a_block env) (a_room env) req rest;
        stamped_r ← stamp r.1;
        mret ([SResponse stamped_r], Some r.2)
      else r ← Server.dispatch (a_disk env) req actor; mret ([SResponse r], Some rest)
  end.

(** The loop, turn after turn: how many there are, what they read, what was said. *)
Inductive conversation (env : Around) (actor : string) : nat -> string -> Host W A -> list sent -> Host W A -> Prop :=
  | is_over input h out h' :
      turn env actor input h = ((out, None), h') -> conversation env actor 1 input h out h'
  | goes_on n input h out rest h1 more h' :
      turn env actor input h = ((out, Some rest), h1) -> conversation env actor n rest h1 more h' ->
      conversation env actor (S n) input h (out ++ more) h'.

(** A turn consumes a line at least. *)
Lemma turn_reads env actor input h out rest h' :
  turn env actor input h = ((out, Some rest), h') -> (String.length rest < String.length input)%nat.
Proof.
  unfold turn, ReadMessage. pose proof (line_ceiling input) as Hl.
  destruct (readLimitedLine input) as [[line|e] left] eqn:E; [|by intros [=]]. destruct (Hl line left eq_refl) as [_ Hlt].
  destruct (Decode _ _ _) as [req|e]; [|by intros [=]].
  repeat case_match; rewrite ?ST_step; try (intros [=]; subst; done).
  - pose proof (putFile_leaves (a_block env) (a_faults env) req actor left h). intros [=]. subst. cbn. lia.
  - pose proof (loadImage_leaves (a_block env) (a_room env) req left h). intros [=]. subst. cbn. lia.
Qed.

(** The loop as Server.v has it takes a turn and goes on. *)
Lemma handle_turn fuel env actor input h :
  handle_go (S fuel) env actor input h =
  (r ← turn env actor input;
   match r.2 with None => mret r.1 | Some rest => more ← handle_go fuel env actor rest; mret (r.1 ++ more) end) h.
Proof.
  cbn [handle_go]. unfold turn. destruct (ReadMessage _ _) as [[req|e] rest]; [|done].
  repeat (rewrite ?ST_step; cbn [fst snd mret ST_ret]; case_match); rewrite ?ST_step; cbn [fst snd mret ST_ret]; rewrite ?ST_step; try done.
Qed.

(** Any fuel above the length of what arrived runs the loop to its end. *)
Lemma handle_converses env actor fuel input h : (String.length input < fuel)%nat ->
  exists n, (n <= S (String.length input))%nat /\
    conversation env actor n input h (handle_go fuel env actor input h).1 (handle_go fuel env actor input h).2.
Proof.
  revert input h. induction fuel as [|fuel IH]; intros input h Hf; [lia|]. rewrite handle_turn, ST_step.
  destruct (turn env actor input h) as [[out [rest|]] h1] eqn:E; cbn [fst snd].
  - pose proof (turn_reads _ _ _ _ _ _ _ E) as Hr. destruct (IH rest h1) as (n & Hn & Hc); [lia|].
    exists (S n). split; [lia|]. rewrite ST_step. by eapply goes_on.
  - exists 1%nat. split; [lia|]. by apply is_over.
Qed.

(** There is one conversation for what arrives, and one outcome. *)
Lemma conversation_one env actor n m input h out out' h1 h2 :
  conversation env actor n input h out h1 -> conversation env actor m input h out' h2 -> n = m /\ out = out' /\ h1 = h2.
Proof.
  intros Hc. revert m out' h2. induction Hc as [input h out h' E|n input h out rest h1 more h' E Hc IH];
    intros m out' h2 Hd; inversion Hd as [? ? o2 k2 E2|n2 ? ? o2 r2 k2 more2 ? E2 Hc2]; subst; rewrite E in E2;
    [by injection E2 as <- <-|discriminate|discriminate|].
  injection E2 as <- <- <-. by destruct (IH _ _ _ Hc2) as (-> & -> & ->).
Qed.

(** C36: Every connection ends.  Whatever bytes arrive on it and whatever the
    runtime, the disks and the log answer, the daemon's loop — read a request,
    answer it, read the next — is over after no more turns than there are bytes,
    and one more; what it said and what it left of the machine are the only ones
    possible, they are [handle]'s, and any larger fuel gives the same. *)
Theorem every_connection_ends env actor input h fuel : (String.length input < fuel)%nat ->
  exists n, (n <= S (String.length input))%nat /\
    (forall m out h', conversation env actor m input h out h' <-> m = n /\ handle env actor input h = (out, h')) /\
    handle_go fuel env actor input h = handle env actor input h.
Proof.
  intros Hf. destruct (handle_converses env actor (S (String.length input)) input h) as (n & Hn & Hc); [lia|].
  destruct (handle_converses env actor fuel input h Hf) as (k & _ & Hk).
  fold (handle env actor input) in Hc. exists n. split; [done|]. split.
  - intros m out h'. split.
    + intros Hm. destruct (conversation_one _ _ _ _ _ _ _ _ _ _ Hm Hc) as (-> & -> & ->). split; [done|]. by destruct (handle env actor input h).
    + intros [-> E]. by rewrite E in Hc.
  - destruct (conversation_one _ _ _ _ _ _ _ _ _ _ Hk Hc) as (_ & E1 & E2).
    destruct (handle_go fuel env actor input h), (handle env actor input h). cbn in *. by subst.
Qed.
End Connection.

(** Two requests, and a machine that answers both. *)
Section Witness.
Import HostSamples.
#[local] Instance asks_for_the_plan : FiloType Request := any_type (asking_for OpPlan "" 0).
Definition calm_around : Around := MkAround (LogDatabase.MkFaults false false) 4096 None (MkFaults None false false false) [].
Definition two_lines : string := "first" +:+ String newline ("second" +:+ String newline "").
Lemma every_connection_ends_witness : exists n, (n <= 14)%nat /\
  (forall m out h', conversation calm_around "ana" m two_lines machine out h' <-> m = n /\ handle calm_around "ana" two_lines machine = (out, h')) /\
  handle_go 100 calm_around "ana" two_lines machine = handle calm_around "ana" two_lines machine.
Proof. refine (every_connection_ends calm_around "ana" two_lines machine 100 _). vm_compute. lia. Defined.
Example both_are_answered : length (handle calm_around "ana" two_lines machine).1 = 2%nat.
Proof. by vm_compute. Qed.
End Witness.

(** ** What somebody watching a log is sent *)
Section Follow.
Context `{TextSearch}.
Implicit Types (q : LogDatabase.Query) (live backlog : list Record_).

Lemma last_seq_snoc l r : last_seq (l ++ [r]) = r_Seq r.
Proof. unfold last_seq. by rewrite foldl_app. Qed.

Lemma last_seq_bound backlog r : StronglySorted seq_lt backlog -> r ∈ backlog -> r_Seq r <= last_seq backlog.
Proof.
  destruct backlog as [|x backlog _] using rev_ind; [intros _ Hr; by apply elem_of_nil in Hr|].
  intros Hs Hr. rewrite last_seq_snoc. apply elem_of_app in Hr as [Hr|Hr].
  - assert (seq_lt r x); [|unfold seq_lt in *; lia]. eapply StronglySorted_app_1_elem_of; [exact Hs|done|left].
  - apply list_elem_of_singleton in Hr as ->. lia.
Qed.

(** The live part, from the last number sent on. *)
Lemma follow_live_in q last live r :
  r ∈ follow_live q last live -> r ∈ live /\ last < r_Seq r /\ Matches q r = true.
Proof.
  revert last. induction live as [|x live IH]; intros last Hr; [by apply elem_of_nil in Hr|]. cbn in Hr.
  destruct (r_Seq x <=? last) eqn:E; bool_hyps.
  { apply IH in Hr as (? & ? & ?). split; [by right|done]. }
  destruct (Matches q x) eqn:Em.
  - apply elem_of_cons in Hr as [->|Hr]; [split; [left|split; [lia|done]]|].
    apply IH in Hr as (? & ? & ?). split; [by right|]. split; [lia|done].
  - apply IH in Hr as (? & ? & ?). split; [by right|]. split; [lia|done].
Qed.

Lemma follow_live_sorted q last live : StronglySorted seq_lt (follow_live q last live).
Proof.
  revert last. induction live as [|x live IH]; intros last; [constructor|]. cbn.
  destruct (_ <=? _); [done|]. destruct (Matches q x); [|done]. constructor; [done|].
  apply Forall_forall. intros r Hr. by apply follow_live_in in Hr as (_ & ? & _).
Qed.

Lemma follow_live_all q last live r :
  StronglySorted seq_lt live -> r ∈ live -> last < r_Seq r -> Matches q r = true -> r ∈ follow_live q last live.
Proof.
  revert last. induction live as [|x live IH]; intros last Hs Hr Hlt Hm; [by apply elem_of_nil in Hr|].
  apply StronglySorted_inv in Hs as [Hs Hx]. cbn. apply elem_of_cons in Hr as [->|Hr].
  - replace (r_Seq x <=? last) with false by lia. rewrite Hm. left.
  - assert (Hxr : r_Seq x < r_Seq r) by (rewrite Forall_forall in Hx; by apply Hx).
    destruct (_ <=? _); [by apply IH|]. destruct (Matches q x); [right|]; by apply IH.
Qed.
End Follow.

(** C19: A follower reads the log once and in order.  Whatever reaches it after
    the backlog, what it is sent is in strictly ascending order — nothing twice
    — and holds only the backlog and lines that match; and when the lines
    reach it in the order of their numbers, it is sent every matching line
    newer than the backlog. *)
Theorem follow_exact `{TextSearch} q backlog live :
  StronglySorted seq_lt backlog ->
  StronglySorted seq_lt (follow_sent q backlog live) /\
  (forall r, r ∈ follow_sent q backlog live -> r ∈ backlog \/ r ∈ live /\ Matches q r = true) /\
  (StronglySorted seq_lt live -> forall r,
   r ∈ follow_sent q backlog live <-> r ∈ backlog \/ r ∈ live /\ last_seq backlog < r_Seq r /\ Matches q r = true).
Proof.
  intros Hb. unfold follow_sent. split_and!.
  - apply StronglySorted_app_2; [|done|apply follow_live_sorted]. intros a b Ha Hr.
    pose proof (last_seq_bound _ _ Hb Ha). apply follow_live_in in Hr as (_ & ? & _). unfold seq_lt. lia.
  - intros r Hr. apply elem_of_app in Hr as [Hr|Hr]; [by left|]. apply follow_live_in in Hr. tauto.
  - intros Hl r. rewrite elem_of_app. split.
    + intros [Hr|Hr]; [by left|]. apply follow_live_in in Hr. tauto.
    + intros [Hr|(Hr & Hlt & Hm)]; [by left|right]. by apply follow_live_all.
Qed.

Definition numbered (n : Z) (run text : string) : Record_ := with_seq (line at_noon run text) n at_noon.

Lemma follow_exact_witness :
  let q := LogDatabase.MkQuery "web" "" "" "" "" 0 0 in
  let backlog := [numbered 1 "" "a"; numbered 2 "" "b"] in
  let live := [numbered 2 "" "b"; numbered 3 "" "c"] in
  @follow_sent plain_search q backlog live = [numbered 1 "" "a"; numbered 2 "" "b"; numbered 3 "" "c"] /\
  StronglySorted seq_lt (@follow_sent plain_search q backlog live).
Proof.
  intros q backlog live. split; [vm_compute; reflexivity|].
  refine (proj1 (@follow_exact plain_search q backlog live _)).
  repeat constructor; unfold seq_lt; cbn; lia.
Defined.

(** ** Findings *)

(** Somebody who follows one run of a job is sent the lines of every run: the
    query a follow makes leaves the run of its request out. *)
Theorem follow_ignores_run :
  let req := MkRequest OpLogFollow "" "web" "" "" "" "run-a" 0 0 0 "" "" "" f64_zero f64_zero f64_zero 0 false "" "" in
  @follow_sent plain_search (follow_query req) [] [numbered 7 "run-b" "of another run"] =
    [numbered 7 "run-b" "of another run"].
Proof. vm_compute. reflexivity. Qed.

(** Append numbers a line before it takes the lock that delivers it, so two
    lines can reach a follower the other way round; the older is then lost to
    it, although it is in the store. *)
Theorem follow_loses_the_overtaken :
  let q := LogDatabase.MkQuery "" "" "" "" "" 0 0 in
  let s0 := (Watch 16 (LogDatabase.Open ∅)).2 in
  let '(a, s1) := append_number at_noon (line at_noon "" "first") s0 in
  let '(b, s2) := append_number at_noon (line at_noon "" "second") s1 in
  let s3 := append_deliver b [a] s2 in
  let s4 := append_deliver a [] s3 in
  let got := from_option delivered [] (watchers s4 !! 0) in
  got = [b; a] /\ @follow_sent plain_search q [] got = [b].
Proof. vm_compute. split; reflexivity. Qed.
