(* ===== verification/ServerProofs.v ===== *)
(** * ServerProofs: what a request can and cannot do *)
From S2P Require Import Prelude GoText GoTime GoPath Service Filo Tree DeclarationFiles AuditLog Runtime Supervisor Schedule Plan Images Protocol MetricStore LogDatabase Volumes Host ServiceHandlers ImageHandlers FileHandlers Server TraceRuntime ScheduleProofs SupervisorProofs PlanProofs LogProofs HostSamples.
From Stdlib Require Import Ascii SpecFloat.
Open Scope string_scope.
Open Scope list_scope.
Open Scope Z_scope.
Open Scope hostd_scope.

(** ** Questions put to the runtime *)
Inductive question : Call -> Prop :=
  | q_list l : question (CList l)
  | q_inspect r : question (CInspect r)
  | q_image n : question (CImage n)
  | q_images : question CImages
  | q_server : question CServer
  | q_mount n : question (CVolumeMountpoint n).
#[export] Hint Constructors question : hostd.

(** A supervisor that only asked: everything but the list of calls is as it
    was. *)
Definition asked (s s' : Sup Trace) : Prop :=
  extends (fun _ c => question c) (world s) (world s') /\ s' = set_world (world s') s.
#[export] Instance asked_preorder : PreOrder asked.
Proof.
  split.
  - intros s. split; [constructor|by destruct s].
  - intros a b c [Hab Eb] [Hbc Ec]. split; [by eapply extends_trans|]. rewrite Ec, Eb. done.
Qed.

Section Asking.
Context (o : Oracle) `{LogStore} `{MapOrder Service}.

Lemma asked_lift {X} (m : ST Trace X) :
  (forall h, exists c, (m h).2 = h ++ [c] /\ question c) -> moves asked (lift m).
Proof.
  intros Hm s. destruct (Hm (world s)) as (c & E & Hc). unfold lift. destruct (m (world s)) as [x w]. cbn in *.
  subst w. split; [by apply extends_one|done].
Qed.

Ltac asks := apply asked_lift; intros ?; eexists; split; [reflexivity|auto with hostd].
Ltac asking := repeat first [moves_step | asks | (intros ?; reflexivity)].

Lemma containers_asks : moves asked (@containers _ (trace_runtime o)).
Proof.
  unfold containers. asking.
Qed.

Lemma Plan_asks l : moves asked (@Plan _ (trace_runtime o) l).
Proof. unfold Plan. repeat first [apply containers_asks | moves_step | (intros ?; reflexivity)]. Qed.

Lemma describe_asks st svc c : moves asked (@Plan.describe _ (trace_runtime o) st svc c).
Proof. unfold Plan.describe. asking. Qed.

Lemma Status_asks : moves asked (@Status_ _ (trace_runtime o)).
Proof.
  unfold Status_, declared_status, orphan_status.
  repeat first [apply containers_asks | apply describe_asks | moves_step | (intros ?; reflexivity)].
Qed.

Lemma StatusOf_asks n : moves asked (@StatusOf _ (trace_runtime o) n).
Proof. unfold StatusOf. repeat first [apply Status_asks | moves_step]. Qed.
End Asking.

(** ** Requests that only read *)
Section Requests.
Context (o : Oracle) {A : Type} `{LogStore} `{MapOrder Service} `{AuditorLaws A} `{Render}.
Context `{FiloEngine} `{!FiloType Service} `{!FiloType WireDeclaration} `{!FiloType Request} `{Sha256}.
Context `{TextSearch} `{Sql} `{Platform}.
#[local] Instance on_trace : Runtime Trace := trace_runtime o.
Implicit Types h : Host Trace A.

(** Nothing but the log store's own bookkeeping moved. *)
Definition read_only h h' : Prop :=
  asked (sup h) (sup h') /\ store h' = store h /\ dir h' = dir h /\ metrics h' = metrics h /\
  has_runtime h' = has_runtime h /\ disks h' = disks h.
#[local] Instance read_only_preorder : PreOrder read_only.
Proof.
  split.
  - intros h. by split; [reflexivity|].
  - intros a b c (Ha & E1 & E2 & E3 & E4 & E5) (Hb & F1 & F2 & F3 & F4 & F5). split; [by etransitivity|].
    by rewrite F1, F2, F3, F4, F5.
Qed.

Lemma read_on_sup {X} (m : ST (Sup Trace) X) : moves asked m -> moves read_only (@on_sup Trace A X m).
Proof. intros Hm h. unfold on_sup. specialize (Hm (sup h)). destruct (m (sup h)). by split. Qed.

Lemma read_on_world {X} (m : ST Trace X) :
  (forall w, exists c, (m w).2 = w ++ [c] /\ question c) -> moves read_only (@on_world Trace A X m).
Proof. intros Hm. apply read_on_sup. by apply asked_lift. Qed.

Lemma read_stamp r : moves read_only (@stamp Trace A _ r).
Proof. intros h. reflexivity. Qed.

Lemma read_settle : moves read_only (@settle Trace A).
Proof. intros h. by split; [reflexivity|]. Qed.
Lemma read_set_db d : moves read_only (@set_db Trace A d).
Proof. intros h. by split; [reflexivity|]. Qed.

Ltac reading :=
  repeat first
    [ apply read_stamp | apply read_settle | apply read_set_db
    | apply read_on_sup, Status_asks | apply read_on_sup, StatusOf_asks | apply read_on_sup, Plan_asks
    | apply read_on_world; intros ?; eexists; split; [reflexivity|auto with hostd]
    | moves_step
    | (intros ?; reflexivity) ].

Lemma imageHolders_reads : moves read_only (imageHolders : ST (Host Trace A) _).
Proof. unfold imageHolders, load. reading. Qed.

Lemma fileRoot_reads svc p : moves read_only (fileRoot svc p : ST (Host Trace A) _).
Proof. unfold fileRoot, declared_volumes. reading. Qed.

Definition changing : list string :=
  [OpFileDelete; OpLogAppend; OpJobRun; OpImagePrune; OpImagePull; OpServiceStart; OpServiceStop; OpServiceRestrt;
   OpServiceRedeploy; OpServiceRemove; OpApply; OpServicePut].

(** C17: A request that asks changes nothing.  Whatever the container runtime
    answers, an operation outside the list of those that change something — and
    a prune that was not allowed to destroy — puts only questions to the
    runtime and leaves the supervisor, the audit, the generation, the services
    directory, the metrics and the volumes as they were. *)
Theorem reads_change_nothing disk req actor h :
  Op req ∉ changing \/ Op req = OpImagePrune /\ AllowDestructive req = false ->
  read_only h (dispatch disk req actor h).2.
Proof.
  intros Hop. revert h. change (moves read_only (dispatch (W := Trace) (A := A) disk req actor)).
  unfold dispatch, stamped. cbv zeta.
  assert (Hno : forall op, op ∈ changing -> op <> OpImagePrune -> Op req = op -> False).
  { intros op Hin Hne E. destruct Hop as [Hn|[E' _]]; congruence. }
  repeat match goal with
  | |- context [String.eqb (Op req) ?op] => destruct (String.eqb_spec (Op req) op); cbn [orb];
      try (exfalso; eapply (Hno op); [apply (bool_decide_eq_true_1 _); vm_compute; reflexivity|discriminate|done])
  end.
  all: repeat match goal with |- moves _ (mbind (fun r => stamp r) _) => refine (moves_bind _ _ _ _ _); [|intros ?; apply read_stamp] end.
  - unfold describe, runtimeInfo. reading.
  - unfold status_all. reading.
  - unfold status_all. reading.
  - unfold planOnly, load. reading.
  - unfold recent_entries. reading.
  - unfold searchLogs. reading.
  - unfold listFiles, listVolumes, declared_volumes. repeat first [apply fileRoot_reads|reading].
  - unfold readMetrics. reading.
  - unfold listImages. repeat first [apply imageHolders_reads|reading].
  - unfold serviceVersions, load. reading.
  - destruct Hop as [Hn|[_ Hd]]; [destruct Hn; rewrite e; apply (bool_decide_eq_true_1 _); by vm_compute|].
    unfold pruneImages. rewrite Hd. cbn [negb]. repeat first [apply imageHolders_reads|reading].
  - reading.
Qed.

(** ** Requests that change something *)

(** How an operation ends: the last entry of the audit is its own, the answer
    carries the generation it left, and only a success moved it. *)
Definition concludes (op : string) (m : ST (Host Trace A) Response) : Prop := forall h,
  let r := (m h).1 in let h' := (m h).2 in
  rs_Generation r = au_Generation (store h') /\
  exists e', last (au_Recent 0 (store h')) = Some e' /\ Operation e' = op /\ AuditLog.After e' = rs_Generation r /\
    (Result e' <> ResultOK -> au_Generation (store h') = au_Generation (store h)).

Definition same_store h h' : Prop := store h' = store h.
#[local] Instance same_store_preorder : PreOrder same_store.
Proof. split; [by intros h|]. intros a b c E1 E2. unfold same_store in *. congruence. Qed.

Lemma same_store_sup {X} (m : ST (Sup Trace) X) : moves same_store (@on_sup Trace A X m).
Proof. intros h. unfold on_sup. by destruct (m (sup h)). Qed.

Lemma concludes_bind {X} op (m : ST (Host Trace A) X) f :
  moves same_store m -> (forall x, concludes op (f x)) -> concludes op (m ≫= f).
Proof.
  intros Hm Hf h. rewrite ST_step. specialize (Hm h). specialize (Hf (m h).1 (m h).2). cbv zeta in *.
  unfold same_store in Hm. by rewrite Hm in Hf.
Qed.

Lemma concludes_record op e c (f : Z -> ST (Host Trace A) Response) :
  Operation e = op -> (forall g h, rs_Generation (f g h).1 = g /\ store (f g h).2 = store h) ->
  concludes op (record e c ≫= f).
Proof.
  intros He Hf h. cbv zeta. rewrite ST_step. unfold record.
  destruct (au_Record (clock_ms h) e c (store h)) as [g a] eqn:E. cbn [fst snd].
  destruct (Hf g (MkHost (sup h) a (dir h) (db h) (appended h) (metrics h) (has_runtime h) (disks h))) as [-> ->].
  cbn [store]. pose proof (record_answers (clock_ms h) e c (store h)) as Hg. rewrite E in Hg. cbn [fst snd] in Hg.
  destruct (record_last (clock_ms h) e c (store h)) as (e' & Hl & Ho & _ & Hr & _ & Ha). rewrite E in Hl, Ha. cbn [snd] in *.
  split; [done|]. exists e'. split_and!; [done|congruence|congruence|].
  intros Hn. pose proof (record_keeps (clock_ms h) e c (store h)) as Hk. rewrite E in Hk. apply Hk. left. congruence.
Qed.

Lemma concludes_refuse op e code cause : Operation e = op -> concludes op (refuse e code cause).
Proof. intros He. unfold refuse. by apply concludes_record. Qed.
Lemma concludes_failed op e code m : Operation e = op -> concludes op (failed e code m).
Proof. intros He. unfold failed. by apply concludes_record. Qed.

Lemma concludes_map op m (f : Response -> Response) :
  (forall r, rs_Generation (f r) = rs_Generation r) -> concludes op m -> concludes op (m ≫= fun r => mret (f r)).
Proof. intros Hf Hm h. cbv zeta. rewrite ST_step. cbn. rewrite Hf. apply Hm. Qed.

Lemma body_generation g v : rs_Generation (with_generation g (body v)) = g.
Proof. done. Qed.

Lemma concludes_mutate req actor name fn :
  name <> "" -> (forall n, moves same_store (fn n)) -> concludes (Op req) (mutate req actor name fn).
Proof.
  intros Hn Hfn. unfold mutate. apply String.eqb_neq in Hn. rewrite Hn.
  apply concludes_bind; [by intros ?|]. intros [c|e]; [|by apply concludes_refuse].
  apply concludes_bind; [apply Hfn|]. intros [changed|e].
  - apply concludes_record; [done|]. intros g h. rewrite ST_step. cbn. split; [done|].
    unfold statusList. rewrite ST_step. cbn. apply same_store_sup.
  - case_match; [by apply concludes_refuse|by apply concludes_failed].
Qed.

Lemma concludes_apply req actor : concludes OpApply (apply req actor).
Proof.
  unfold apply. apply concludes_bind; [by intros ?|]. intros where_.
  apply concludes_bind; [by intros ?|]. intros [c|e]; [|by apply concludes_refuse].
  apply concludes_bind; [by intros ?|]. intros l.
  apply concludes_bind; [apply same_store_sup|]. intros changes.
  destruct (_ && _).
  - apply (concludes_map _ _ (with_body _)); [done|]. by apply concludes_refuse.
  - apply concludes_bind; [apply same_store_sup|]. intros applied.
    destruct l.2; by apply concludes_record.
Qed.

Lemma concludes_runJob req actor : rq_Name req <> "" -> concludes (Op req) (runJob req actor).
Proof.
  intros Hn. unfold runJob. apply String.eqb_neq in Hn. rewrite Hn.
  apply concludes_bind; [by intros ?|]. intros [c|e]; [|by apply concludes_refuse].
  apply concludes_bind; [apply same_store_sup|]. intros [run|e]; [by apply concludes_record|].
  unfold runFailed. repeat case_match; first [by apply concludes_refuse|by apply concludes_failed].
Qed.

Lemma concludes_stamped op m : concludes op m -> concludes op (stamped m).
Proof.
  intros Hm h. cbv zeta. unfold stamped. rewrite ST_step. specialize (Hm h). cbv zeta in Hm.
  destruct (m h) as [r h']. cbn [fst snd] in *. destruct Hm as (Hg & e' & Hl & Ho & Ha & Hk).
  unfold stamp. destruct (rs_Generation r =? 0); cbn [fst snd]; 
    (split; [done|]); exists e'; cbn in *; split_and!; congruence || auto.
Qed.

Definition gated : list string :=
  [OpServiceStart; OpServiceStop; OpServiceRestrt; OpServiceRedeploy; OpApply; OpJobRun].

Lemma redeploy_store n : moves same_store (redeploy n : ST (Host Trace A) _).
Proof. unfold redeploy. repeat first [apply same_store_sup|moves_step]. Qed.

Ltac not_listed Hop E :=
  exfalso; rewrite E in Hop;
  let Hb := fresh in pose proof (bool_decide_eq_true_2 _ Hop) as Hb; vm_compute in Hb; discriminate Hb.

(** Where the gated operations go. *)
Lemma dispatch_gated disk req actor : Op req ∈ gated ->
  Op req = OpJobRun /\ dispatch disk req actor = stamped (runJob req actor) \/
  Op req = OpApply /\ dispatch disk req actor = apply req actor \/
  Op req <> OpApply /\ exists fn : string -> ST (Host Trace A) (result bool),
    (forall n, moves same_store (fn n)) /\ dispatch disk req actor = mutate req actor (rq_Name req) fn.
Proof.
  intros Hop. unfold dispatch. cbv zeta.
  repeat match goal with
  | |- context [String.eqb (Op req) ?op] => destruct (String.eqb_spec (Op req) op) as [E|]; cbn [orb];
      [try (not_listed Hop E)|]
  end.
  - by left.
  - right. right. split; [by rewrite E|]. exists (fun n => on_sup (Start n)). split; [|done]. intros ?. apply same_store_sup.
  - right. right. split; [by rewrite E|]. exists (fun n => on_sup (Stop n)). split; [|done]. intros ?. apply same_store_sup.
  - right. right. split; [by rewrite E|]. exists (fun n => on_sup (Restart_ n)). split; [|done]. intros ?. apply same_store_sup.
  - right. right. split; [by rewrite E|]. exists redeploy. split; [|done]. apply redeploy_store.
  - right. by left.
  - exfalso. unfold gated in Hop. rewrite !elem_of_cons in Hop. set_solver.
Qed.

Lemma concludes_dispatch disk req actor :
  Op req ∈ gated -> Op req = OpApply \/ rq_Name req <> "" -> concludes (Op req) (dispatch disk req actor).
Proof.
  intros Hop Hname. destruct (dispatch_gated disk req actor Hop) as [[E ->]|[[E ->]|(Hne & fn & Hfn & ->)]].
  - apply concludes_stamped, concludes_runJob. destruct Hname as [Ha|]; [|done]. rewrite E in Ha. discriminate Ha.
  - rewrite E. apply concludes_apply.
  - apply concludes_mutate; [tauto|done].
Qed.

(** Turned away: the answer says so and only the audit moved. *)
Definition turned_away h (m : ST (Host Trace A) Response) : Prop :=
  Code (m h).1 = CodeConflict /\ sup (m h).2 = sup h /\ dir (m h).2 = dir h /\ disks (m h).2 = disks h /\
  au_Generation (store (m h).2) = au_Generation (store h).

Lemma refuse_turns_away h e cause : turned_away h (refuse e CodeConflict cause).
Proof.
  unfold turned_away, refuse. rewrite ST_step. unfold record.
  pose proof (record_keeps (clock_ms h) (with_result e ResultRefused (error_msg cause)) false (store h)) as Hk.
  destruct (au_Record _ _ _ _) as [g a]. cbn in *. split_and!; try done. apply Hk. by right.
Qed.

Lemma stamped_turns_away h m : turned_away h m -> turned_away h (stamped m).
Proof.
  unfold turned_away, stamped. rewrite ST_step. destruct (m h) as [r h']. unfold stamp.
  cbn [fst snd]. by destruct (rs_Generation r =? 0).
Qed.

Lemma stale_turned_away disk req actor h :
  Op req ∈ gated -> Op req = OpApply \/ rq_Name req <> "" ->
  ExpectGeneration req <> 0 -> ExpectGeneration req <> au_Generation (store h) ->
  turned_away h (dispatch disk req actor).
Proof.
  intros Hop Hname H0e Hge.
  destruct (au_Check (ExpectGeneration req) (store h)) as [[]|cause] eqn:Ec; [apply check_exact in Ec; tauto|].
  assert (Hchk : forall f : result unit -> ST (Host Trace A) Response,
    turned_away h (f (Err cause)) -> turned_away h (store_check (ExpectGeneration req) ≫= f)).
  { intros f Hf. unfold turned_away in *. rewrite ST_step. unfold store_check. cbn [gets fst snd]. by rewrite Ec. }
  destruct (dispatch_gated disk req actor Hop) as [[E ->]|[[E ->]|(Hne & fn & Hfn & ->)]].
  - apply stamped_turns_away. unfold runJob. destruct (String.eqb_spec (rq_Name req) "") as [En|].
    { destruct Hname as [Ha|]; [|done]. rewrite E in Ha. discriminate Ha. }
    apply Hchk, refuse_turns_away.
  - unfold turned_away, apply. rewrite ST_step. cbn [gets fst snd]. apply Hchk, refuse_turns_away.
  - unfold mutate. destruct (String.eqb_spec (rq_Name req) "") as [En|]; [tauto|]. apply Hchk, refuse_turns_away.
Qed.


(** ** An apply that would destroy *)

(** The listing shows a service running: its last container does. *)
Definition shown_running (found : list Docker.Container) (n : string) : Prop :=
  exists pre c post, found = pre ++ c :: post /\ Docker.label labelService (Docker.c_Labels c) = n /\
    Docker.c_Running c = true /\ forall c', c' ∈ post -> Docker.label labelService (Docker.c_Labels c') <> n.

Definition as_held (c : Docker.Container) : held := MkHeld c (Docker.label labelService (Docker.c_Labels c)).

Lemma live_shown found n : shown_running found n -> live_map (as_held <$> found) !! n = Some true.
Proof.
  intros (pre & c & post & -> & Hn & Hr & Hpost). unfold live_map. rewrite fmap_app, fmap_cons, foldl_app. cbn [foldl].
  set (m := <[_ := _]> _). assert (Hm : m !! n = Some true) by (unfold m; cbn; rewrite Hn, Hr; apply lookup_insert_eq).
  clearbody m. revert m Hm. induction post as [|x post IH]; intros m Hm; [done|]. cbn. apply IH.
  - intros c' Hc'. apply Hpost. by right.
  - rewrite lookup_insert_ne; [done|]. apply Hpost. left.
Qed.

Lemma plan_destroys l s found n svc :
  client s = true -> o_List o (world s) labelService = Ok found -> declared s !! n = Some svc ->
  (forall x, x ∈ l -> Name x <> n) -> shown_running found n -> HasDestructive (Plan l s).1 = true.
Proof.
  intros Hc Hl Hd Hgone Hrun.
  assert (E : (Plan l s).1 = plan_of (live_map (as_held <$> found)) (declared s) (by_name l)).
  { unfold Plan, containers. rewrite !ST_step. cbn [gets fst snd]. rewrite Hc. cbn [negb]. unfold bindE, lift.
    cbn [rt_List on_trace trace_runtime]. rewrite Hl. done. }
  rewrite E. unfold HasDestructive. apply existsb_exists.
  set (c := MkChange n ActionRemove (removedDetail svc) true false). exists c. split; [|done].
  apply In_elem_of, in_plan. unfold wanted_change. cbn [ch_Service c]. rewrite Hd.
  destruct (by_name l !! n) as [x|] eqn:Ex; [apply by_name_spec in Ex as [? ?]; by destruct (Hgone x)|].
  by rewrite (live_shown _ _ Hrun).
Qed.

End Requests.

(** ** Witnesses: a machine that runs web, whose file is gone *)
Import HostSamples.

Definition answer_to (req : Request) := dispatch (LogDatabase.MkFaults false false) req "ana" machine.

Lemma reads_change_nothing_witness : read_only machine (answer_to (asking_for OpPlan "" 0)).2.
Proof.
  refine (reads_change_nothing (calm running_web) (LogDatabase.MkFaults false false) (asking_for OpPlan "" 0) "ana" machine _).
  left. apply (bool_decide_eq_true_1 _). vm_compute. reflexivity.
Defined.



(** ** Findings *)
Definition api : Service := with_Name web "api".
Definition api_and_web : list Docker.Container := [container_of "hostd-api" "id2" "api" "" true].
Module Typo.
#[local] Instance busy_machine : Runtime Trace := trace_runtime (calm api_and_web).
(** web.filo reads and differs from what the machine runs; api.filo declares
    another name than its own, and does not load. *)
Definition machine_with_typo : Host Trace (AuditLog.Store * Disk) :=
  MkHost (quiet [web; api] noon) (AuditLog.MkStore 5 0 [], empty_disk)
    (Some (<["api.filo" := NFile "web"]> {["web.filo" := NFile "web"]}))
    (LogDatabase.Open ∅) 0 (MetricStore.MkStore (MetricStore.withDefaults (MetricStore.MkOptions 0 0)) ∅ zero_time) true ∅.

(** A file that does not load reads as a service that is gone: while that
    service runs, the typo keeps every readable file from being applied. *)
Theorem typo_stops_the_apply :
  let '(r, h) := dispatch (LogDatabase.MkFaults false false) (asking_for OpApply "" 0) "ana" machine_with_typo in
  (Name <$> (LoadDir (dir machine_with_typo)).1) = ["web"] /\
  Code r = CodeDestructive /\ world (sup h) = [CList labelService].
Proof. vm_compute. done. Qed.
End Typo.

(** A removal that cannot delete the file has already taken the container and
    the declaration, and leaves neither an audit entry nor a new generation. *)
Definition machine_with_directory : Host Trace (AuditLog.Store * Disk) :=
  MkHost (quiet [web] noon) (AuditLog.MkStore 5 0 [], empty_disk)
    (Some {["web.filo" := NDir {["x" := LFile ""]}]})
    (LogDatabase.Open ∅) 0 (MetricStore.MkStore (MetricStore.withDefaults (MetricStore.MkOptions 0 0)) ∅ zero_time) true ∅.
Theorem failed_removal_is_not_audited :
  let '(r, h) := dispatch (LogDatabase.MkFaults false false) (asking_for OpServiceRemove "web" 0) "ana" machine_with_directory in
  Code r = CodeFailed /\ declared (sup h) !! "web" = None /\ au_Recent 0 (store h) = [] /\
  au_Generation (store h) = au_Generation (store machine_with_directory).
Proof. vm_compute. done. Qed.

(** A removal does not look at the generation its request claims. *)
Theorem removal_ignores_the_generation :
  let '(r, h) := dispatch (LogDatabase.MkFaults false false) (asking_for OpServiceRemove "web" 4) "ana" machine in
  au_Generation (store machine) = 5 /\ Code r = CodeOK /\ au_Generation (store h) = 6.
Proof. vm_compute. done. Qed.
