(* ===== verification/FileProofs.v ===== *)
(** * FileProofs: what an upload and a deletion do to a service's data *)
From S2P Require Import Prelude GoText GoTime GoPath Service Filo Tree AuditLog Runtime Supervisor Schedule Plan Images Protocol MetricStore LogDatabase Volumes Host ServiceHandlers FileHandlers Server TraceRuntime HostSamples.
From Stdlib Require Import Ascii SpecFloat.
Open Scope string_scope.
Open Scope list_scope.
Open Scope Z_scope.
Open Scope hostd_scope.

Section Files.
Context {W A : Type} `{Runtime W} `{LogStore} `{MapOrder Service} `{Auditor A} `{Render}.
Context `{FiloEngine} `{!FiloType Service} `{Sha256}.
Implicit Types h : Host W A.

Definition same_disks h h' : Prop := disks h' = disks h /\ dir h' = dir h.
#[local] Instance same_disks_preorder : PreOrder same_disks.
Proof. split; [by intros h|]. intros a b c [? ?] [? ?]. unfold same_disks. split; congruence. Qed.

Lemma disks_on_world {X} (m : ST W X) : moves same_disks (@on_world W A X m).
Proof. intros h. unfold on_world, on_sup, lift. by destruct (m (world (sup h))). Qed.
Lemma disks_record e c : moves same_disks (@record W A _ e c).
Proof. intros h. unfold record. by destruct (au_Record _ _ _ _). Qed.
Lemma disks_failed e code m : moves same_disks (@failed W A _ e code m).
Proof. unfold failed. moves_step; [apply disks_record|moves_step]. Qed.

(** The place a request names: a volume the service's declaration mounts, where
    the runtime says it is, and a cleaned path inside it. *)
Record Place (svc wirePath : string) h (mountpoint : string) (v : Volume) (inside : string) : Prop := {
  pl_declared : exists s names, ParseFile (svc +:+ Extension) (dir h) = Ok s /\ namedVolumes s = Ok names /\
    (wire_path wirePath).1 ∈ names;
  pl_inside : inside = Clean (if String.eqb (wire_path wirePath).2 "" then "." else (wire_path wirePath).2);
  pl_disk : disks h !! mountpoint = Some v;
}.

Lemma fileRoot_place svc p h mountpoint v inside h' :
  fileRoot svc p h = (Ok (mountpoint, v, inside), h') -> Place svc p h mountpoint v inside /\ same_disks h h'.
Proof.
  unfold fileRoot. rewrite ST_step. cbn [gets fst snd]. destruct (has_runtime h); cbn [negb]; [|done].
  intros (names & h1 & Hn & E)%bindE_ok. unfold declared_volumes in Hn. injection Hn as Hn <-.
  destruct (wire_path p) as [volume inside0] eqn:Ew.
  destruct (bool_decide (volume ∈ names)) eqn:Ev; cbn [negb] in E; [|done].
  apply bindE_ok in E as (mp & h1 & Hmp & E).
  pose proof (disks_on_world (rt_VolumeMountpoint (VolumeName svc volume)) h) as Hd. rewrite Hmp in Hd.
  rewrite ST_step in E. cbn [gets mret ST_ret fst snd] in E.
  destruct (disks h1 !! mp) as [v1|] eqn:Evol; [|done]. injection E as <- <- <- <-. split; [|exact Hd].
  destruct Hd as [Hd _]. cbn [snd] in Hd. split.
  - destruct (ParseFile (svc +:+ Extension) (dir h)) as [s|] eqn:Ep; [|done]. exists s, names.
    rewrite Ew. split_and!; [done|done|]. by apply bool_decide_eq_true in Ev.
  - by rewrite Ew.
  - congruence.
Qed.

Lemma fileRoot_disks svc p : moves same_disks (fileRoot svc p : ST (Host W A) _).
Proof.
  unfold fileRoot, declared_volumes.
  repeat first [apply disks_on_world | moves_step | (intros ?; reflexivity)].
Qed.

(** A deletion removes one file of the service's own data, or nothing.
    After it either every volume is as it was, or exactly one entry is gone: a
    file, at the cleaned path the request names, in a volume the service's
    declaration mounts. *)
Theorem delete_one_file req actor h r h' :
  deleteFile req actor h = (r, h') ->
  disks h' = disks h \/
  exists mountpoint v inside content modified,
    Place (rq_Service req) (rq_Name req) h mountpoint v inside /\
    inside <> "." /\ inside_path inside = true /\ v !! inside = Some (FFile content modified) /\
    disks h' = <[mountpoint := delete inside v]> (disks h).
Proof.
  unfold deleteFile. cbv zeta.
  assert (Hfail : forall h1 e code m, same_disks h h1 -> failed e code m h1 = (r, h') -> disks h' = disks h).
  { intros h1 e code m [Hd _] E. pose proof (disks_failed e code m h1) as [Hf _]. rewrite E in Hf. cbn in Hf. congruence. }
  destruct (ValidName _); cbn [negb]; [|intros E; left; by eapply Hfail; [split|]].
  intros E. rewrite ST_step in E. destruct (fileRoot (rq_Service req) (rq_Name req) h) as [root h1] eqn:Er. cbn [fst snd] in E.
  pose proof (fileRoot_disks (rq_Service req) (rq_Name req) h) as Hd. rewrite Er in Hd. cbn [snd] in Hd.
  destruct root as [[[mp v] inside]|e]; [|left; by eapply Hfail].
  destruct (String.eqb_spec inside "."); [left; by eapply Hfail|].
  destruct (Lstat inside v) as [[content modified|]|e] eqn:El; [|left; by eapply Hfail..].
  destruct (Remove_file inside v) as [v'|e] eqn:Em; [|left; by eapply Hfail].
  right. exists mp, v, inside, content, modified. apply fileRoot_place in Er as [Hp _].
  unfold Remove_file in Em. rewrite El in Em. injection Em as <-.
  unfold Lstat, resolve in El. destruct (inside_path inside) eqn:Ei; [|done]. cbn [negb] in El.
  replace (String.eqb inside ".") with false in El by (symmetry; by apply String.eqb_neq).
  destruct (walk v (parents inside)); [|done]. cbn in El. destruct (v !! inside) eqn:Ev; [|done]. injection El as ->.
  split_and!; try done. rewrite ST_step in E. unfold on_disk in E. cbn [fst snd] in E. rewrite ST_step in E.
  match type of E with context [record ?e ?c ?h2] =>
    pose proof (disks_record e c h2) as [Hr _]; destruct (record e c h2) as [g h3] end.
  injection E as _ <-. cbn in *. rewrite Hr. destruct Hd as [-> _]. done.
Qed.

Lemma temporary_other inside : temporary inside <> inside.
Proof.
  unfold temporary. intros E. apply (f_equal String.length) in E. rewrite app_string_length in E. cbn in E. lia.
Qed.

(** What an upload leaves under the final name: what was there, or the whole
    file as the chunks carried it. *)
Lemma upload_effect block faults now inside v input err total v' rest :
  upload block faults now inside v input = (err, total, v', rest) ->
  (forall k, k <> inside -> k <> temporary inside -> v' !! k = v !! k) /\ v' !! temporary inside = None /\
  match err with
  | Some _ => v' !! inside = v !! inside
  | None => exists w, ReadChunks block input (MkSink "" (f_room faults)) = (total, None, rest, w) /\
                      v' !! inside = Some (FFile (got w) now)
  end.
Proof.
  unfold upload. pose proof (temporary_other inside) as Hne.
  destruct (ReadChunks block input (MkSink "" (f_room faults))) as [[[received e] rest'] w] eqn:Er.
  set (v1 := Write_file now (temporary inside) (got w) v).
  assert (Hgone : (forall k, k <> inside -> k <> temporary inside -> delete (temporary inside) v1 !! k = v !! k) /\
    delete (temporary inside) v1 !! temporary inside = None /\ delete (temporary inside) v1 !! inside = v !! inside).
  { unfold v1, Write_file. split_and!; [|apply lookup_delete_eq|].
    - intros k _ Hk. by rewrite lookup_delete_ne, lookup_insert_ne by done.
    - by rewrite lookup_delete_ne, lookup_insert_ne by done. }
  destruct e as [e|]; [by intros [= <- <- <- <-]|].
  destruct (f_sync faults || f_close faults || f_rename faults); [by intros [= <- <- <- <-]|].
  destruct (Rename (temporary inside) inside v1) as [v2|e] eqn:Em; intros [= <- <- <- <-]; [|done].
  unfold Rename in Em. destruct (Lstat (temporary inside) v1) as [n|] eqn:El; [|done]. cbn in Em.
  destruct (resolve inside v1) as [target|]; [|done]. cbn in Em.
  assert (Ev2 : v2 = <[inside := n]> (delete (temporary inside) v1)) by (destruct target as [[]|]; congruence).
  assert (En : n = FFile (got w) now).
  { unfold Lstat, resolve in El. destruct (inside_path _); [|done]. cbn [negb] in El.
    destruct (String.eqb (temporary inside) ".") eqn:Ed.
    { exfalso. unfold temporary in Ed. apply String.eqb_eq in Ed. apply (f_equal String.length) in Ed.
      rewrite app_string_length in Ed. cbn in Ed. lia. }
    destruct (walk v1 _); [|done]. cbn in El. unfold v1, Write_file in El. rewrite lookup_insert_eq in El. congruence. }
  destruct Hgone as (Ho & Ht & _). subst v2 n. split_and!.
  - intros k Hk Hk'. rewrite lookup_insert_ne by done. by apply Ho.
  - by rewrite lookup_insert_ne by done.
  - exists w. split; [done|apply lookup_insert_eq].
Qed.

(** C18: Half an upload is never readable under the final name.  After an upload
    either every volume is as it was, or only the volume the request names
    changed, in it only the path it names and the file beside, which is gone;
    and under the path is what was there before, the answer being a failure, or
    the bytes of the chunks, read to their end marker. *)
Theorem upload_all_or_nothing block faults req actor input h r rest h' :
  putFile block faults req actor input h = ((r, rest), h') ->
  disks h' = disks h \/
  exists mountpoint v v' inside,
    Place (rq_Service req) (rq_Name req) h mountpoint v inside /\ inside <> "." /\
    disks h' = <[mountpoint := v']> (disks h) /\
    (forall k, k <> inside -> k <> temporary inside -> v' !! k = v !! k) /\ v' !! temporary inside = None /\
    (v' !! inside = v !! inside /\ Code r = CodeFailed \/
     exists total w t, ReadChunks block input (MkSink "" (f_room faults)) = (total, None, rest, w) /\
       v' !! inside = Some (FFile (got w) t)).
Proof.
  unfold putFile. cbv zeta.
  destruct (ReadChunks block input (MkSink "" None)) as [[[total0 err0] rest0] w0].
  assert (Hrefused : forall h1 e code m, same_disks h h1 ->
    (r ← failed e code m; mret (r, rest0)) h1 = ((r, rest), h') -> disks h' = disks h).
  { intros h1 e code m [Hd _] E. rewrite ST_step in E. pose proof (disks_failed e code m h1) as [Hf _].
    injection E as _ _ <-. cbn. congruence. }
  destruct (ValidName _); cbn [negb]; [|intros E; left; by eapply Hrefused; [split|]].
  intros E. rewrite ST_step in E. destruct (fileRoot (rq_Service req) (rq_Name req) h) as [root h1] eqn:Er. cbn [fst snd] in E.
  pose proof (fileRoot_disks (rq_Service req) (rq_Name req) h) as Hd. rewrite Er in Hd. cbn [snd] in Hd.
  destruct root as [[[mp v] inside]|e]; [|left; by eapply Hrefused].
  apply fileRoot_place in Er as [Hp _].
  destruct (String.eqb_spec inside ".") as [|Hdot]; cbn [orb] in E; [left; by eapply Hrefused|].
  destruct (HasSuffix (rq_Name req) "/"); [left; by eapply Hrefused|].
  rewrite ST_step in E. cbn [gets fst snd] in E.
  destruct (Create_file (now (sup h1)) (temporary inside) v) as [v1|e] eqn:Ec; [|left; by eapply Hrefused].
  destruct (upload block faults (now (sup h1)) inside v1 input) as [[[err received] v2] rest1] eqn:Eu.
  assert (Hv1 : forall k, k <> temporary inside -> v1 !! k = v !! k).
  { intros k Hk. unfold Create_file in Ec. destruct (resolve (temporary inside) v) as [n|]; [|done]. cbn in Ec.
    assert (v1 = <[temporary inside := FFile "" (now (sup h1))]> v) as -> by (destruct n as [[]|]; congruence).
    by rewrite lookup_insert_ne. }
  destruct (upload_effect _ _ _ _ _ _ _ _ _ _ Eu) as (Ho & Ht & Hin).
  right. exists mp, v, v2, inside. rewrite ST_step in E. unfold on_disk in E. cbn [fst snd] in E.
  destruct Hd as [Hd _].
  assert (Hend : disks h' = <[mp := v2]> (disks h) /\ rest = rest1 /\ (err <> None -> Code r = CodeFailed)).
  { destruct err as [e|].
    - rewrite ST_step in E. match type of E with context [failed ?e ?c ?m ?h2] =>
        pose proof (disks_failed e c m h2) as [Hf _]; unfold failed in E, Hf; rewrite ST_step in E, Hf end.
      cbn [fst snd mret ST_ret] in E, Hf. injection E as <- <- <-. split_and!; [|done|done]. rewrite Hf. cbn. by rewrite Hd.
    - rewrite ST_step in E. match type of E with context [record ?e ?c ?h2] =>
        pose proof (disks_record e c h2) as [Hf _] end.
      cbn [fst snd mret ST_ret] in E. injection E as _ <- <-. split_and!; [|done|done]. rewrite Hf. cbn. by rewrite Hd. }
  destruct Hend as (Hdisks & -> & Hcode). split_and!; [done|done|done| |done|].
  - intros k Hk Hk'. rewrite Ho by done. by apply Hv1.
  - destruct err as [e|]; [left|right].
    + split; [|by apply Hcode]. rewrite Hin. apply Hv1. intros E'. by apply (temporary_other inside).
    + destruct Hin as (w & Hw & Hv). eauto.
Qed.
End Files.

(** ** Witnesses *)
Import HostSamples.

Lemma delete_one_file_witness :
  let a := deleteFile (file_request OpFileDelete "data/a.txt") "ana" machine_with_data in
  Code a.1 = CodeOK /\ disks a.2 = {[data_at := ∅]} /\
  exists mountpoint v, disks a.2 = <[mountpoint := delete "a.txt" v]> (disks machine_with_data).
Proof.
  intros a. split; [vm_compute; reflexivity|]. split; [vm_compute; reflexivity|].
  destruct (delete_one_file (file_request OpFileDelete "data/a.txt") "ana" machine_with_data a.1 a.2 (surjective_pairing a))
    as [E|(mp & v & inside & content & modified & [_ Hi _] & _ & _ & _ & Hd)].
  - exfalso. apply (f_equal (fun d => bool_decide (d !! data_at = Some data_files))) in E.
    vm_compute in E. discriminate E.
  - exists mp, v. assert (Ei : inside = "a.txt") by (rewrite Hi; vm_compute; reflexivity). rewrite Hd, Ei. done.
Defined.

Definition hello_chunks : string := WriteChunks ["hello"; " world"] false.
Definition no_faults : Faults := MkFaults None false false false.

Lemma upload_all_or_nothing_witness :
  let a := putFile 4096 no_faults (file_request OpFilePut "data/b.txt") "ana" hello_chunks machine_with_data in
  Code a.1.1 = CodeOK /\
  disks a.2 = {[data_at := <["b.txt" := FFile "hello world" noon]> data_files]} /\
  (disks a.2 = disks machine_with_data \/ exists mountpoint v, disks a.2 = <[mountpoint := v]> (disks machine_with_data)).
Proof.
  intros a. split; [vm_compute; reflexivity|]. split; [vm_compute; reflexivity|].
  destruct (upload_all_or_nothing 4096 no_faults (file_request OpFilePut "data/b.txt") "ana" hello_chunks
              machine_with_data a.1.1 a.1.2 a.2) as [E|(mp & v & v' & inside & _ & _ & Hd & _)].
  - unfold a. by destruct (putFile _ _ _ _ _ _) as [[] ?].
  - by left.
  - right. by exists mp, v'.
Defined.
