(* ===== verification/CommandLine.v ===== *)
(** * CommandLine: what hostctl was asked

    src/cmd/hostctl/main.go: the flags, wherever they stand, the machines they
    choose (src/cmd/hostctl/fleet.go), the route a command takes and the status a
    program reads.  What the package flag makes of one value is [accepts]; the
    options arrive as the record it fills. *)
From S2P Require Import Prelude GoText GoTime GoPath Filo Host Client.
From Stdlib Require Import Ascii SpecFloat.
Open Scope string_scope.
Open Scope list_scope.
Open Scope Z_scope.

(** ** Exit statuses *)
Definition exitOK : Z := 0.
Definition exitFailed : Z := 1.
Definition exitUsage : Z := 2.
Definition exitComms : Z := 3.
Definition exitAuth : Z := 4.
Definition exitPartial : Z := 5.
Definition exitRefused : Z := 6.

Definition is_api (e : error) : bool := match e with ErrApi _ _ => true | _ => false end.

Definition codeFor (e : error) : Z :=
  match errors_as is_api e with
  | Some (ErrApi c _) =>
      if String.eqb c CodeInvalid || String.eqb c CodeUnknownOp then exitUsage
      else if String.eqb c CodeUnavailable then exitComms
      else if String.eqb c CodeConflict || String.eqb c CodeDestructive || String.eqb c CodeRefused then exitRefused
      else exitFailed
  | _ => exitFailed
  end.

(** ** flag.FlagSet *)
Definition ErrHelp : error := EMsg ("flag: help requested", []).

Section Flags.
(** The flags defined and whether one is a switch, which takes no value of its
    own; [accepts] is whether the flag's Set takes a value. *)
Context (formal : gmap string bool) (accepts : string -> string -> bool).

Definition dash : ascii := "-"%char.
Definition equals : ascii := "="%char.

(** What the first argument is: not a flag, the end of them, a flag and its
    value if it carries one, or nothing the package reads. *)
Inductive Flag := NotAFlag | Terminator | IsFlag (name : string) (value : option string) | BadSyntax.

Definition read_flag (s : string) : Flag :=
  if (len s <? 2) || negb (HasPrefix s "-") then NotAFlag else
  let doubled := HasPrefix s "--" in
  if doubled && (len s =? 2) then Terminator else
  let name := drop_bytes (if doubled then 2 else 1) s in
  match name with
  | "" => BadSyntax
  | String c rest =>
      if Ascii.eqb c dash || Ascii.eqb c equals then BadSyntax
      else let '(before, after, found) := Cut rest equals in
           IsFlag (String c before) (if found then Some after else None)
  end.

Abbreviation Setting := (string * string)%type.

Definition prepend (s : Setting) (r : result (list Setting * list string)) : result (list Setting * list string) :=
  '(settings, rest) ← r; Ok (s :: settings, rest).
Definition set_value (name value : string) (r : result (list Setting * list string)) : result (list Setting * list string) :=
  if accepts name value then prepend (name, value) r
  else Err (EMsg ("invalid value %q for flag -%s", [AStr value; AStr name])).

(** flags.Parse: the values it sets, in order, and flags.Args(). *)
Fixpoint Parse (args : list string) : result (list Setting * list string) :=
  match args with
  | [] => Ok ([], [])
  | s :: rest =>
      match read_flag s with
      | NotAFlag => Ok ([], args)
      | Terminator => Ok ([], rest)
      | BadSyntax => Err (EMsg ("bad flag syntax: %s", [AStr s]))
      | IsFlag name value =>
          match formal !! name with
          | None => if String.eqb name "help" || String.eqb name "h" then Err ErrHelp
                    else Err (EMsg ("flag provided but not defined: -%s", [AStr name]))
          | Some true => set_value name (default "true" value) (Parse rest)
          | Some false =>
              match value, rest with
              | Some v, _ => set_value name v (Parse rest)
              | None, v :: rest' => set_value name v (Parse rest')
              | None, [] => Err (EMsg ("flag needs an argument: -%s", [AStr name]))
              end
          end
      end
  end.

(** The loop around it: a word is kept and the rest is parsed again. *)
Fixpoint parse_go (fuel : nat) (args : list string) : result (list Setting * list string) :=
  match fuel with
  | O => Ok ([], [])
  | S n =>
      '(settings, rest) ← Parse args;
      match rest with
      | [] => Ok (settings, [])
      | word :: more => '(later, words) ← parse_go n more; Ok (settings ++ later, word :: words)
      end
  end.
Definition parseAnywhere (args : list string) : result (list Setting * list string) := parse_go (S (length args)) args.
End Flags.

(** ** Options *)
Record options := MkOptions {
  o_host : string; o_hosts : list string; o_all : bool; o_tag : string;
  o_config : string; o_inventory : string; o_remote : string;
  o_filoOut : bool; o_jsonOut : bool; o_limit : Z; o_keep : Z; o_outDir : string;
  o_stream : string; o_kind : string; o_run : string; o_service : string;
  o_follow : bool; o_sinceSeq : Z; o_expectGen : Z; o_allowDestr : bool; o_onBehalfOf : string; o_dryRun : bool;
  o_scope : string; o_metric : string; o_window : Z; o_step : Z;
}.

Definition with_host (host : string) (o : options) : options :=
  MkOptions host (o_hosts o) (o_all o) (o_tag o) (o_config o) (o_inventory o) (o_remote o) (o_filoOut o) (o_jsonOut o)
    (o_limit o) (o_keep o) (o_outDir o) (o_stream o) (o_kind o) (o_run o) (o_service o) (o_follow o) (o_sinceSeq o)
    (o_expectGen o) (o_allowDestr o) (o_onBehalfOf o) (o_dryRun o) (o_scope o) (o_metric o) (o_window o) (o_step o).
Definition with_paths (config inventory : string) (o : options) : options :=
  MkOptions (o_host o) (o_hosts o) (o_all o) (o_tag o) config inventory (o_remote o) (o_filoOut o) (o_jsonOut o)
    (o_limit o) (o_keep o) (o_outDir o) (o_stream o) (o_kind o) (o_run o) (o_service o) (o_follow o) (o_sinceSeq o)
    (o_expectGen o) (o_allowDestr o) (o_onBehalfOf o) (o_dryRun o) (o_scope o) (o_metric o) (o_window o) (o_step o).

Definition InventoryFile := "inventory.filo".

(** [home] is os.UserConfigDir(). *)
Definition resolveClientPaths (home : result string) (o : options) : result options :=
  config ← (if String.eqb (o_config o) "" then dir ← home; Ok (PathJoin [dir; "hostd"]) else Ok (o_config o));
  Ok (with_paths config (if String.eqb (o_inventory o) "" then PathJoin [config; InventoryFile] else o_inventory o) o).

(** ** The fleet: a file the operator keeps *)
Record inventoryEntry := MkInventoryEntry { in_Name : string; in_Tags : list string }.

Section Inventory.
(** [ReadFile] is os.ReadFile. *)
Context `{FiloEngine} `{!FiloType (list inventoryEntry)} (ReadFile : string -> result string).

Definition readInventory (path : string) : result (list inventoryEntry) :=
  match ReadFile path with
  | Err e => if bool_decide (e = ErrNotExist) then Ok [] else Err e
  | Ok data => Decode (Base path) data []
  end.

Definition fleet (o : options) : result (list string) :=
  entries ← readInventory (o_inventory o);
  match entries with
  | [] => Err (EMsg ("no machine is listed in %s; add one, or name it with -host", [AStr (o_inventory o)]))
  | _ => Ok (in_Name <$> entries)
  end.

Definition carries (tag : string) (e : inventoryEntry) : bool := bool_decide (tag ∈ in_Tags e).

Definition tagged (o : options) : result (list string) :=
  entries ← readInventory (o_inventory o);
  match filter (fun e => carries (o_tag o) e = true) entries with
  | [] => Err (EMsg ("no machine carries the tag %q in %s", [AStr (o_tag o); AStr (o_inventory o)]))
  | found => Ok (in_Name <$> found)
  end.

Definition selectors (o : options) : list bool :=
  [negb (String.eqb (o_host o) ""); 0 <? Z.of_nat (length (o_hosts o)); o_all o; negb (String.eqb (o_tag o) "")].

Definition selection (o : options) : result (list string) :=
  let chosen := Z.of_nat (length (filter (fun b => b = true) (selectors o))) in
  if 1 <? chosen then Err (EMsg ("choose one of -host, -hosts, -all or -tag, not several", []))
  else if negb (String.eqb (o_host o) "") then Ok [o_host o]
  else if 0 <? Z.of_nat (length (o_hosts o)) then Ok (o_hosts o)
  else if o_all o then fleet o
  else if negb (String.eqb (o_tag o) "") then tagged o
  else Ok [].

(** ** Where a command goes

    run, from the words on: the window and the Caddyfile are not fanned out;
    one machine is asked directly, several at once. *)
Inductive Route :=
  | ToWindow (args : list string)
  | ToCaddyfile (args : list string)
  | ToOne (o : options) (args : list string)
  | ToMany (hosts args : list string)
  | Misused (e : error).

Definition route (o : options) (rest : list string) : Route :=
  let rest := match rest with [] => ["gui"] | _ => rest end in
  if o_filoOut o && o_jsonOut o then Misused (EMsg ("choose -filo or -json, not both", [])) else
  let command := default "" (head rest) in
  if String.eqb command "gui" then ToWindow (tail rest)
  else if String.eqb command "caddyfile" then ToCaddyfile (tail rest)
  else match selection o with
       | Err e => Misused e
       | Ok chosen =>
           if 1 <? Z.of_nat (length chosen) then
             if o_follow o then Misused (EMsg ("-follow watches one machine at a time; name it with -host", []))
             else if negb (o_expectGen o =? 0)
             then Misused (EMsg ("-expect-generation applies to one machine; name it with -host", []))
             else ToMany chosen rest
           else ToOne (match chosen with [host] => with_host host o | _ => o end) rest
       end.
End Inventory.
