(* ===== verification/Fleet.v ===== *)
(** * Fleet: one question put to many machines

    src/cmd/hostctl/fleet.go: asking every machine at once, with a ceiling on how
    many are asked together, printing each answer as soon as those before it have
    been printed, and the one exit status of it all. *)
From S2P Require Import Prelude GoText GoTime Json DockerClient CommandLine.
From Stdlib Require Import Ascii.
Open Scope string_scope.
Open Scope list_scope.
Open Scope Z_scope.

Definition fleetConcurrency : Z := 8.

Record hostResult := MkHostResult { hr_host : string; hr_code : Z; hr_err : option error; hr_answer : string }.

(** ** The exit status *)
Fixpoint count_codes (results : list hostResult) (worked failed first : Z) : Z * Z * Z :=
  match results with
  | [] => (worked, failed, first)
  | r :: rest =>
      if hr_code r =? exitOK then count_codes rest (worked + 1) failed first
      else count_codes rest worked (failed + 1) (if first =? exitOK then hr_code r else first)
  end.
Definition fleetCode (results : list hostResult) : Z :=
  let '(worked, failed, first) := count_codes results 0 0 exitOK in
  if failed =? 0 then exitOK else if worked =? 0 then first else exitPartial.

(** ** What is printed *)
Definition said (format : string) (args : list Arg) : string := render_arg (AFmt format args) +:+ String newline "".

Definition printHostResult (r : hostResult) : string :=
  said "== %s" [AStr (hr_host r)] +:+
  (if negb (String.eqb (hr_answer r) "") then hr_answer r
   else match hr_err r with
        | Some e => said "did not answer: %v" [AMsg (error_msg e)]
        | None => said "did not answer" []
        end).

(** json.Valid *)
Definition json_Valid (s : string) : bool := match Unmarshal s with Some _ => true | None => false end.

Definition message_of (r : hostResult) : string := match hr_err r with Some e => error_text e | None => "" end.

(** The body of one machine inside the fleet's document: kept as it is if it is
    JSON, null otherwise. *)
Record fleetAnswer := MkFleetAnswer { fa_Host : string; fa_Exit : Z; fa_Message : string; fa_Body : string }.
Definition fleet_answer (r : hostResult) : fleetAnswer :=
  let body := TrimSpace (hr_answer r) in
  MkFleetAnswer (hr_host r) (hr_code r) (message_of r) (if json_Valid body then body else "null").

Definition filo_answer (r : hostResult) : string :=
  let body := TrimSpace (hr_answer r) in
  " (list (tuple " +:+ Quote "host" +:+ " " +:+ Quote (hr_host r) +:+
  ") (tuple " +:+ Quote "exit" +:+ " " +:+ itoa (hr_code r) +:+
  ") (tuple " +:+ Quote "message" +:+ " " +:+ Quote (message_of r) +:+
  ") (tuple " +:+ Quote "body" +:+ " " +:+ (if String.eqb body "" then "(list)" else body) +:+ "))".
Definition concat_text (l : list string) : string := foldr (fun s acc => s +:+ acc) "" l.
Definition printFleetFilo (results : list hostResult) : string :=
  "(list" +:+ concat_text (filo_answer <$> results) +:+ ")" +:+ String newline "".

Section Fan.
(** [ask] is askOne for a machine; [writeJSON] is encoding/json over the answers
    of the fleet; [document] is whether -filo or -json asked for one document. *)
Context (ask : string -> hostResult) (writeJSON : list fleetAnswer -> string).
Context (filoOut jsonOut : bool) (hosts : list string).

Definition printFleetJSON (results : list hostResult) : string := writeJSON (fleet_answer <$> results).
Definition document : bool := filoOut || jsonOut.

(** ** Asking them at once

    A machine waits for a slot, is being asked, and has answered; the printer has
    written the first [fo_next] of them.  [fo_done] holds results[i] of every i
    whose channel is closed. *)
Record Fan := MkFan { fo_waiting : gset nat; fo_asked : gset nat; fo_done : gmap nat hostResult; fo_next : nat; fo_out : string }.

Definition n_hosts : nat := length hosts.
Definition fan_start : Fan := MkFan (set_seq 0 n_hosts) ∅ ∅ 0 "".

Inductive fan_step : Fan -> Fan -> Prop :=
  | takes_slot f i :
      i ∈ fo_waiting f -> Z.of_nat (size (fo_asked f)) < fleetConcurrency ->
      fan_step f (MkFan (fo_waiting f ∖ {[i]}) ({[i]} ∪ fo_asked f) (fo_done f) (fo_next f) (fo_out f))
  | answers f i host :
      i ∈ fo_asked f -> hosts !! i = Some host ->
      fan_step f (MkFan (fo_waiting f) (fo_asked f ∖ {[i]}) (<[i := ask host]> (fo_done f)) (fo_next f) (fo_out f))
  | prints f r :
      document = false -> fo_done f !! fo_next f = Some r ->
      fan_step f (MkFan (fo_waiting f) (fo_asked f) (fo_done f) (S (fo_next f)) (fo_out f +:+ printHostResult r))
  | prints_all f results :
      document = true -> fo_next f = 0%nat -> (0 < n_hosts)%nat -> fo_waiting f = ∅ -> fo_asked f = ∅ ->
      results = omap (fun i => fo_done f !! i) (seq 0 n_hosts) ->
      fan_step f (MkFan ∅ ∅ (fo_done f) n_hosts (if filoOut then printFleetFilo results else printFleetJSON results)).

(** Every goroutine ended and everything was printed. *)
Definition fan_over (f : Fan) : Prop := fo_waiting f = ∅ /\ fo_asked f = ∅ /\ fo_next f = n_hosts.

(** fanOut as a function: what is on the screen, and the status. *)
Definition fanOut : string * Z :=
  let results := ask <$> hosts in
  (if filoOut then printFleetFilo results else if jsonOut then printFleetJSON results
   else concat_text (printHostResult <$> results), fleetCode results).
End Fan.

(** ** The command line and the fleet *)
(** ** The machines asked at once *)
Section Fan.
Context (ask : string -> hostResult) (writeJSON : list fleetAnswer -> string).
Context (filoOut jsonOut : bool) (hosts : list string).
Abbreviation step := (fan_step ask writeJSON filoOut jsonOut hosts).
Abbreviation start := (fan_start hosts).
Abbreviation n := (n_hosts hosts).
Abbreviation document := (document filoOut jsonOut).

Definition blocks : list string := printHostResult <$> (ask <$> hosts).

(** What is left to do: two moves for a machine that waits, one for a machine
    being asked, and the printing. *)
Definition remaining (f : Fan) : nat :=
  2 * size (fo_waiting f) + size (fo_asked f) +
  (if document then (if decide (fo_next f = n) then 0 else 1) else n - fo_next f).

Record fan_ok (f : Fan) : Prop := {
  ok_parts : forall i, (i < n)%nat <-> i ∈ fo_waiting f \/ i ∈ fo_asked f \/ i ∈ dom (fo_done f);
  ok_slots : Z.of_nat (size (fo_asked f)) <= fleetConcurrency;
  ok_done : forall i r, fo_done f !! i = Some r -> exists host, hosts !! i = Some host /\ r = ask host;
  ok_out : if document
           then (fo_next f = 0%nat /\ fo_out f = "") \/ (fo_next f = n /\ fo_out f = (fanOut ask writeJSON filoOut jsonOut hosts).1)
           else (fo_next f <= n)%nat /\ fo_out f = concat_text (take (fo_next f) blocks);
}.

Lemma concat_text_app l k : concat_text (l ++ k) = concat_text l +:+ concat_text k.
Proof.
  induction l as [|s l IH]; [done|]. change (s +:+ concat_text (l ++ k) = (s +:+ concat_text l) +:+ concat_text k).
  by rewrite IH, string_app_assoc.
Qed.

Lemma size_without (X : gset nat) i : i ∈ X -> size X = S (size (X ∖ {[i]})).
Proof.
  intros Hi. rewrite (union_difference_singleton_L i X Hi) at 1. rewrite size_union by set_solver. by rewrite size_singleton.
Qed.
Lemma size_with (X : gset nat) i : (size ({[i]} ∪ X) <= S (size X))%nat.
Proof.
  rewrite size_union_alt, size_singleton. assert (size (X ∖ {[i]}) <= size X)%nat by (apply subseteq_size; set_solver). lia.
Qed.

Lemma ok_start : fan_ok start.
Proof.
  split; cbn.
  - intros i. rewrite elem_of_set_seq, dom_empty_L. set_solver by lia.
  - rewrite size_empty. done.
  - intros i r Hr. by rewrite lookup_empty in Hr.
  - destruct document; [by left|]. split; [lia|done].
Qed.

Lemma done_in_order f : fan_ok f -> fo_waiting f = ∅ -> fo_asked f = ∅ ->
  omap (fun i => fo_done f !! i) (seq 0 n) = ask <$> hosts.
Proof.
  intros Hok Hw Ha.
  assert (Hall : forall i host, hosts !! i = Some host -> fo_done f !! i = Some (ask host)).
  { intros i host Hi. assert (Hin : i ∈ dom (fo_done f)).
    { apply lookup_lt_Some in Hi as Hlt. apply (ok_parts f Hok) in Hlt. rewrite Hw, Ha in Hlt. set_solver. }
    apply elem_of_dom in Hin as [r Hr]. destruct (ok_done f Hok i r Hr) as (h' & Hh & ->). congruence. }
  assert (Hgen : forall k l, (forall i host, l !! i = Some host -> fo_done f !! (k + i)%nat = Some (ask host)) ->
            omap (fun i => fo_done f !! i) (seq k (length l)) = ask <$> l).
  { intros k l. revert k. induction l as [|h l IH]; intros k Hl; [done|]. cbn.
    assert (H0 := Hl 0%nat h eq_refl). rewrite Nat.add_0_r in H0. rewrite H0. f_equal. apply IH.
    intros i host Hi. rewrite Nat.add_succ_comm. by apply Hl. }
  apply (Hgen 0%nat hosts). exact Hall.
Qed.

Lemma fan_ok_step f f' : fan_ok f -> step f f' -> fan_ok f' /\ (remaining f' < remaining f)%nat.
Proof.
  intros Hok Hs. destruct Hok as [Hp Hsl Hd Ho]. destruct Hs as [f i Hi Hsz|f i host Hi Hh|f r Hdoc Hr|f results Hdoc Hn0 Hn Hw Ha ->].
  - pose proof (size_with (fo_asked f) i) as Hs2. pose proof (size_without _ _ Hi) as Hs3.
    split; [split; cbn; [|lia|done|done]|unfold remaining; cbn; lia].
    intros j. rewrite Hp. destruct (decide (j = i)) as [->|]; set_solver.
  - pose proof (size_without _ _ Hi) as Hs3.
    split; [split; cbn; [|lia| |done]|unfold remaining; cbn; lia].
    + intros j. rewrite Hp, dom_insert_L. destruct (decide (j = i)) as [->|]; set_solver.
    + intros j r Hr. destruct (decide (j = i)) as [->|]; [rewrite lookup_insert_eq in Hr; simplify_eq; eauto|].
      rewrite lookup_insert_ne in Hr by done. eauto.
  - destruct (Hd _ _ Hr) as (host & Hh & ->). apply lookup_lt_Some in Hh as Hlt. rewrite Hdoc in Ho. destruct Ho as [Hle Ho].
    split; [split; cbn; [done|done|done|]|unfold remaining; cbn; rewrite Hdoc; unfold n_hosts in *; lia].
    rewrite Hdoc. split; [unfold n_hosts in *; lia|]. rewrite (take_S_r _ _ (printHostResult (ask host))).
    + rewrite concat_text_app, Ho. cbn. by rewrite string_app_nil.
    + unfold blocks. by rewrite !list_lookup_fmap, Hh.
  - assert (Hok : fan_ok f) by (split; done).
    split; [split; cbn; [|by rewrite size_empty|done|]|].
    + intros j. rewrite Hp, Hw, Ha. set_solver.
    + rewrite Hdoc. right. split; [done|]. rewrite done_in_order by done. unfold fanOut. cbn.
      unfold Fleet.document in Hdoc. by destruct filoOut, jsonOut.
    + unfold remaining. cbn. rewrite Hdoc, Hn0, !size_empty. destruct (decide (n = n)); [|done]. destruct (decide (0 = n)%nat); lia.
Qed.

Lemma ok_reached k f : nsteps step k start f -> fan_ok f /\ (remaining f + k <= remaining start)%nat.
Proof.
  intros Hk. assert (Hgen : forall x, nsteps step k x f -> fan_ok x -> fan_ok f /\ (remaining f + k <= remaining x)%nat).
  { clear Hk. revert f. induction k as [|k IH]; intros f x Hk Hx.
    - inversion Hk; subst. split; [done|lia].
    - apply nsteps_inv_r in Hk as (y & Hy & Hs). destruct (IH y x Hy Hx) as [Hok Hr].
      destruct (fan_ok_step y f Hok Hs) as [Hok' Hlt]. split; [done|lia]. }
  apply Hgen; [done|apply ok_start].
Qed.

Lemma ok_progress f : fan_ok f -> (0 < n)%nat -> fan_over hosts f \/ exists f', step f f'.
Proof.
  intros Hok Hn. destruct Hok as [Hp Hsl Hd Ho].
  destruct (set_choose_or_empty (fo_asked f)) as [[i Hi]|Ha%leibniz_equiv].
  { right. assert (Hlt : (i < n)%nat) by (apply Hp; tauto). apply lookup_lt_is_Some in Hlt as [host Hh]. eexists. by eapply answers. }
  destruct (set_choose_or_empty (fo_waiting f)) as [[i Hi]|Hw%leibniz_equiv].
  { right. eexists. apply (takes_slot _ _ _ _ _ f i Hi). rewrite Ha, size_empty. done. }
  destruct (decide (fo_next f = n)) as [E|E]; [by left|]. right.
  destruct document eqn:Hdoc.
  - destruct Ho as [[E0 _]|[? _]]; [|done]. eexists. by eapply prints_all.
  - destruct Ho as [Hle _]. assert (Hlt : (fo_next f < n)%nat) by lia. apply Hp in Hlt. rewrite Ha, Hw in Hlt.
    assert (Hin : fo_next f ∈ dom (fo_done f)) by set_solver. apply elem_of_dom in Hin as [r Hr]. eexists. by eapply prints.
Qed.

(** C25: Asking many machines at once ends, whatever the order they answer in,
    and what is on the screen does not depend on it.  No run of the goroutines
    and the printer has more steps than three for each machine; at every moment
    no more than eight machines are being asked, and without -filo or -json what
    has been printed is the answers of the first machines of the inventory, in
    its order; a run that cannot go on has printed everything, and what it
    printed is what asking one after the other would have. *)
Theorem fan_out_ends k f :
  (1 < length hosts)%nat -> nsteps step k start f ->
  (k <= 3 * length hosts)%nat /\
  Z.of_nat (size (fo_asked f)) <= fleetConcurrency /\
  (document = false -> fo_out f = concat_text (take (fo_next f) (printHostResult <$> (ask <$> hosts)))) /\
  (fan_over hosts f \/ exists f', step f f') /\
  (fan_over hosts f -> fo_out f = (fanOut ask writeJSON filoOut jsonOut hosts).1).
Proof.
  intros Hn Hk. destruct (ok_reached k f Hk) as [Hok Hr]. split_and!.
  - assert (Hs : (remaining start <= 3 * length hosts)%nat); [|lia].
    unfold remaining. cbn. rewrite size_set_seq, size_empty. unfold n_hosts. destruct document; [|lia]. case_decide; lia.
  - apply ok_slots, Hok.
  - intros Hdoc. pose proof (ok_out f Hok) as Ho. rewrite Hdoc in Ho. apply Ho.
  - apply ok_progress; [done|]. unfold n_hosts. lia.
  - intros (_ & _ & E). pose proof (ok_out f Hok) as Ho. destruct document eqn:Hdoc.
    + destruct Ho as [[E0 _]|[_ Ho]]; [unfold n_hosts in *; lia|done].
    + destruct Ho as [_ ->]. unfold blocks. rewrite E, take_ge by (unfold n_hosts; by rewrite !length_fmap).
      unfold fanOut. unfold Fleet.document in Hdoc. by destruct filoOut, jsonOut.
Qed.
End Fan.

(** ** The one status *)
Lemma count_codes_spec results worked failed first :
  count_codes results worked failed first =
  (worked + Z.of_nat (length (filter (fun r => hr_code r = exitOK) results)),
   failed + Z.of_nat (length (filter (fun r => hr_code r <> exitOK) results)),
   if first =? exitOK then default exitOK (hr_code <$> head (filter (fun r => hr_code r <> exitOK) results)) else first).
Proof.
  revert worked failed first. induction results as [|r rs IH]; intros w fl fi.
  - cbn. rewrite !Z.add_0_r. by destruct (fi =? exitOK) eqn:E; [apply Z.eqb_eq in E as ->|].
  - cbn [count_codes]. rewrite !filter_cons. destruct (Z.eqb_spec (hr_code r) exitOK) as [E|E].
    + rewrite IH, decide_True, decide_False by tauto. cbn [length]. apply (f_equal2 pair); [apply (f_equal2 pair); lia|done].
    + rewrite IH, decide_False, decide_True by tauto. cbn [length head fmap option_fmap option_map default].
      apply Z.eqb_neq in E. destruct (fi =? exitOK) eqn:Ef; rewrite ?E, ?Ef; (apply (f_equal2 pair); [apply (f_equal2 pair); lia|done]).
Qed.

(** One status for many machines.  It is 0 exactly when every machine
    answered with 0; when none did it is the status of the first of them; and a
    fleet of which some machines did and some did not is 5. *)
Theorem fleetCode_exact results :
  fleetCode results =
  if decide (Forall (fun r => hr_code r = exitOK) results) then exitOK
  else if decide (Forall (fun r => hr_code r <> exitOK) results) then default exitOK (hr_code <$> head results)
  else exitPartial.
Proof.
  unfold fleetCode. rewrite count_codes_spec. cbn [Z.eqb exitOK].
  assert (Hgood := filter_none (fun r => hr_code r = exitOK) results).
  assert (Hbad := filter_none (fun r => hr_code r <> exitOK) results).
  assert (Hfine : Forall (fun r => hr_code r = exitOK) results <-> filter (fun r => hr_code r <> exitOK) results = []).
  { rewrite Hbad, !Forall_forall. split; intros H2 r Hr; specialize (H2 r Hr); destruct (decide (hr_code r = exitOK)); tauto. }
  case_decide as Hf; [by rewrite (proj1 Hfine Hf)|].
  destruct (Z.eqb_spec (0 + Z.of_nat (length (filter (fun r => hr_code r <> exitOK) results))) 0) as [E|_].
  { destruct Hf. apply Hfine, length_zero_iff_nil. lia. }
  case_decide as Hn.
  - rewrite (proj2 Hgood Hn). cbn. destruct results as [|r rs]; [done|]. apply Forall_cons in Hn as [Hr _].
    by rewrite filter_cons, decide_True.
  - destruct (Z.eqb_spec (0 + Z.of_nat (length (filter (fun r => hr_code r = exitOK) results))) 0) as [E|_]; [|done].
    destruct Hn. apply Hgood, length_zero_iff_nil. lia.
Qed.

(** ** Flags anywhere *)
Section Flags.
Context (formal : gmap string bool) (accepts : string -> string -> bool).

(** What a person types: a word, a switch, a flag with its value behind an
    equals sign or in the next argument; one dash or two. *)
Inductive Piece :=
  | Word (w : string)
  | Switch (doubled : bool) (name : string)
  | Inline (doubled : bool) (name value : string)
  | Apart (doubled : bool) (name value : string).

Definition dashes (doubled : bool) : string := if doubled then "--" else "-".
Definition typed (p : Piece) : list string :=
  match p with
  | Word w => [w]
  | Switch d n => [dashes d +:+ n]
  | Inline d n v => [dashes d +:+ (n +:+ String equals v)]
  | Apart d n v => [dashes d +:+ n; v]
  end.
Definition set_by (p : Piece) : list (string * string) :=
  match p with Word _ => [] | Switch _ n => [(n, "true")] | Inline _ n v | Apart _ n v => [(n, v)] end.
Definition word_of (p : Piece) : list string := match p with Word w => [w] | _ => [] end.

Definition flag_name (n : string) : Prop :=
  match n with "" => False | String c _ => c <> dash end /\ contains_byte equals n = false.

(** A word is not a flag, as "-" and "status" are not; a flag is one the program
    defines, and takes the value. *)
Definition well_typed (p : Piece) : Prop :=
  match p with
  | Word w => read_flag w = NotAFlag
  | Switch _ n => flag_name n /\ formal !! n = Some true /\ accepts n "true" = true
  | Inline _ n v => flag_name n /\ is_Some (formal !! n) /\ accepts n v = true
  | Apart _ n v => flag_name n /\ formal !! n = Some false /\ accepts n v = true
  end.

Lemma read_flag_name d n tail value :
  flag_name n -> tail = (match value with Some v => String equals v | None => "" end) ->
  read_flag (dashes d +:+ (n +:+ tail)) = IsFlag n value.
Proof.
  intros [Hc He] ->. destruct n as [|c n]; [done|]. rewrite contains_byte_cons in He. apply orb_false_iff in He as [Hne He].
  assert (Hde : Ascii.eqb c dash = false) by (by apply Ascii.eqb_neq).
  rewrite Ascii.eqb_sym in Hne.
  assert (Hcut : Cut (n +:+ match value with Some v => String equals v | None => "" end) equals =
    match value with Some v => (n, v, true) | None => (n, "", false) end).
  { destruct value; [by apply Cut_app|]. rewrite string_app_nil. by apply Cut_none. }
  set (rest := n +:+ _) in *. unfold read_flag.
  assert (Hlen : 1 <= len (String c rest)) by (unfold len; cbn [String.length]; lia).
  destruct d.
  - change (dashes true +:+ (String c n +:+ _)) with ("--" +:+ String c rest).
    rewrite HasPrefix_app. change ("--" +:+ String c rest) with ("-" +:+ String dash (String c rest)).
    rewrite HasPrefix_app, len_app. change (len (String dash (String c rest))) with (len ("-" +:+ String c rest)). rewrite len_app.
    change (len "-") with 1. replace (1 + (1 + len (String c rest)) <? 2) with false by lia.
    replace (1 + (1 + len (String c rest)) =? 2) with false by lia. cbn [negb orb andb].
    change (drop_bytes 2 ("-" +:+ String dash (String c rest))) with (String c rest). cbn match.
    rewrite Hde, Hne. cbn [orb]. rewrite Hcut. by destruct value.
  - change (dashes false +:+ (String c n +:+ _)) with ("-" +:+ String c rest).
    rewrite HasPrefix_app, len_app. change (len "-") with 1. replace (1 + len (String c rest) <? 2) with false by lia.
    assert (Hd : HasPrefix ("-" +:+ String c rest) "--" = false).
    { change ("-" +:+ String c rest) with (String dash (String c rest)). unfold HasPrefix. cbn [String.prefix].
      destruct (ascii_dec _ dash) as [_|]; [|done]. destruct (ascii_dec _ c) as [E|]; [by destruct Hc|done]. }
    rewrite Hd. cbn [negb orb andb].
    change (drop_bytes 1 ("-" +:+ String c rest)) with (String c rest). cbn match.
    rewrite Hde, Hne. cbn [orb]. rewrite Hcut. by destruct value.
Qed.

Lemma Parse_piece p rest : word_of p = [] -> well_typed p ->
  Parse formal accepts (typed p ++ rest) =
  ('(settings, words) ← Parse formal accepts rest; Ok (set_by p ++ settings, words)).
Proof.
  intros Hw Hp. destruct p as [w|d n|d n v|d n v]; [done|..]; destruct Hp as (Hn & Hf & Ha); cbn [typed app Parse].
  - assert (E := read_flag_name d n "" None Hn eq_refl). rewrite string_app_nil in E.
    rewrite E. cbv iota beta. rewrite Hf. cbv iota beta. unfold set_value. cbn [default]. by rewrite Ha.
  - assert (E := read_flag_name d n _ (Some v) Hn eq_refl). rewrite E. cbv iota beta.
    destruct Hf as [[] Hf]; rewrite Hf; cbv iota beta; unfold set_value; cbn [default from_option id]; by rewrite Ha.
  - assert (E := read_flag_name d n "" None Hn eq_refl). rewrite string_app_nil in E.
    rewrite E. cbv iota beta. rewrite Hf. cbv iota beta. unfold set_value. by rewrite Ha.
Qed.

Lemma parse_go_typed k pieces : Forall well_typed pieces -> (length (pieces ≫= word_of) < k)%nat ->
  parse_go formal accepts k (pieces ≫= typed) = Ok (pieces ≫= set_by, pieces ≫= word_of).
Proof.
  revert k. induction pieces as [|p ps IH]; intros k Hps Hk; [by destruct k; [cbn in Hk; lia|]|].
  apply Forall_cons in Hps as [Hp Hps]. destruct k as [|k]; [lia|]. rewrite !bind_cons in *.
  destruct (decide (word_of p = [])) as [E|E].
  - cbn [parse_go]. rewrite (Parse_piece p) by done. rewrite E in *. cbn [app] in *.
    specialize (IH (S k) Hps Hk). cbn [parse_go] in IH.
    destruct (Parse formal accepts (ps ≫= typed)) as [[ss ws]|e]; [|done]. cbn [mbind result_bind] in *.
    destruct ws as [|w ws]; [by injection IH as -> <-|].
    destruct (parse_go formal accepts k ws) as [[later words]|e]; [|done]. cbn [mbind result_bind] in *.
    injection IH as <- <-. by rewrite app_assoc.
  - destruct p as [w| | |]; try done. cbn [typed word_of set_by app] in *. cbn [well_typed] in Hp.
    cbn [parse_go Parse]. rewrite Hp. cbn [mbind result_bind].
    rewrite IH by (done || cbn in Hk; lia). done.
Qed.

Lemma typed_length p : (length (word_of p) <= length (typed p))%nat.
Proof. destruct p; cbn; lia. Qed.

(** Flags anywhere.  However flags and words are mixed on the command line —
    one dash or two, a value behind an equals sign or in the next argument —
    every flag the program defines is set, in the order typed, with its value,
    and every word is a word of the command, in its order; none is lost and none
    becomes the other. *)
Theorem flags_anywhere pieces :
  Forall well_typed pieces ->
  parseAnywhere formal accepts (pieces ≫= typed) = Ok (pieces ≫= set_by, pieces ≫= word_of).
Proof.
  intros Hp. apply parse_go_typed; [done|].
  assert (Hl : (length (pieces ≫= word_of) <= length (pieces ≫= typed))%nat); [|lia].
  clear Hp. induction pieces as [|p ps IH]; [done|]. rewrite !bind_cons, !length_app. pose proof (typed_length p). lia.
Qed.
End Flags.

(** ** Concrete fleets *)

(** A machine that did what it was asked and had nothing to say is reported as
    one that did not answer. *)
Lemma silence_is_no_answer :
  printHostResult (MkHostResult "yuki" exitOK None "") = "== yuki" +:+ String newline ("did not answer" +:+ String newline "").
Proof. reflexivity. Qed.

(** With -json the log lines of a machine are one object a line: two of them are
    no JSON document, and the fleet's document holds null in their place. *)
Lemma json_lines_are_lost :
  fa_Body (fleet_answer (MkHostResult "yuki" exitOK None ("{}" +:+ String newline ("{}" +:+ String newline "")))) = "null" /\
  fa_Body (fleet_answer (MkHostResult "yuki" exitOK None ("{}" +:+ String newline ""))) = "{}".
Proof. vm_compute. split; reflexivity. Qed.

Definition two_hosts : list string := ["yuki"; "sora"].
Definition ask_two (host : string) : hostResult :=
  if String.eqb host "yuki" then MkHostResult host exitComms (Some (EMsg ("no route", []))) ""
  else MkHostResult host exitOK None "fine".
Definition no_json (l : list fleetAnswer) : string := "".

Lemma fan_out_ends_witness : exists f,
  nsteps (fan_step ask_two no_json false false two_hosts) 6 (fan_start two_hosts) f /\ fan_over two_hosts f /\
  fo_out f = (fanOut ask_two no_json false false two_hosts).1.
Proof.
  assert (Hrun : exists f, nsteps (fan_step ask_two no_json false false two_hosts) 6 (fan_start two_hosts) f /\ fan_over two_hosts f).
  { eexists. split.
    - eapply nsteps_l; [apply takes_slot with (i := 1%nat); by vm_compute|].
      eapply nsteps_l; [eapply answers with (i := 1%nat); [by vm_compute|reflexivity]|].
      eapply nsteps_l; [apply takes_slot with (i := 0%nat); by vm_compute|].
      eapply nsteps_l; [eapply answers with (i := 0%nat); [by vm_compute|reflexivity]|].
      eapply nsteps_l; [apply prints; [reflexivity|vm_compute; reflexivity]|].
      eapply nsteps_l; [apply prints; [reflexivity|vm_compute; reflexivity]|].
      apply nsteps_O.
    - by vm_compute. }
  destruct Hrun as (f & Hf & Ho). exists f. split; [done|]. split; [done|].
  apply (fan_out_ends ask_two no_json false false two_hosts 6 f ltac:(cbn; lia) Hf). exact Ho.
Defined.

Definition some_flags : gmap string bool := {["host" := false; "all" := true; "limit" := false]}.
Definition takes_any (name value : string) : bool := true.
Lemma flags_anywhere_witness :
  parseAnywhere some_flags takes_any ["log"; "-host"; "yuki"; "error"; "--limit=5"; "-all"] =
  Ok ([("host", "yuki"); ("limit", "5"); ("all", "true")], ["log"; "error"]).
Proof.
  apply (flags_anywhere some_flags takes_any [Word "log"; Apart false "host" "yuki"; Word "error"; Inline true "limit" "5"; Switch false "all"]).
  repeat (apply Forall_cons_2; [cbn; try (split_and!; try done; by vm_compute)|]); try apply Forall_nil_2; try (by vm_compute).
Defined.
