(* ===== verification/Commands.v ===== *)
(** * Commands: what hostctl does with one machine's answer

    src/cmd/hostctl/commands.go, job.go, files.go, versions.go, version.go,
    metrics.go and image.go: each command asks over a connection, reads the
    answer and puts something on the screen; it ends with an exit status and the
    error that explains it.  What goes on the screen is kept as the calls that
    write it: a table's rows before text/tabwriter aligns them, a value before
    encoding/json renders it, and a moment or a duration as its number before the
    package time lays it out. *)
From S2P Require Import Prelude GoText GoTime GoPath Filo AuditLog Runtime DockerClient Plan Images Protocol MetricStore Host FileHandlers ServiceHandlers ImageHandlers Server Client CommandLine.
From Stdlib Require Import Ascii SpecFloat.
Open Scope string_scope.
Open Scope list_scope.
Open Scope Z_scope.
Open Scope hostd_scope.

(** ** Text *)
Definition binary_units : list string := ["KiB"; "MiB"; "GiB"; "TiB"].
Definition f1024 : float64 := f64_of_Z 1024.
Fixpoint scale_bytes (value : float64) (unit_ : string) (larger : list string) : float64 * string :=
  match larger with
  | [] => (value, unit_)
  | next :: more => if f64_leb f1024 value then scale_bytes (f64_div value f1024) next more else (value, unit_)
  end.
Definition formatBytes (value : float64) : string :=
  let '(v, u) := scale_bytes value "B" binary_units in
  FormatFixed (if String.eqb u "B" then 0 else 1) v +:+ " " +:+ u.

Definition formatValue (metric : string) (value : float64) : string :=
  if HasSuffix metric "-percent" then FormatFixed 1 value +:+ "%"
  else if HasSuffix metric "-bytes-per-second" then formatBytes value +:+ "/s"
  else if HasSuffix metric "-bytes" then formatBytes value
  else FormatFixed 2 value.

Definition nameOrDash (name : string) : string := if String.eqb name "" then "-" else name.

(** min and max of two floats, the first if either is not a number. *)
Definition is_nan (f : float64) : bool := match f with S754_nan => true | _ => false end.
Definition f64_min (x y : float64) : float64 := if is_nan x then x else if is_nan y then y else if f64_ltb y x then y else x.
Definition f64_max (x y : float64) : float64 := if is_nan x then x else if is_nan y then y else if f64_ltb x y then y else x.

Definition summarise (points : list Point) : float64 * float64 * float64 :=
  match points with
  | [] => (f64_zero, f64_zero, f64_zero)
  | p0 :: _ =>
      let '(low, total, high) :=
        foldl (fun '(low, total, high) p =>
          (f64_min low (MetricStore.Value p), f64_add total (MetricStore.Value p), f64_max high (MetricStore.Value p)))
          (MetricStore.Value p0, f64_zero, MetricStore.Value p0) points in
      (low, f64_div total (f64_of_Z (Z.of_nat (length points))), high)
  end.

Definition ownerText (managed : bool) : string := if managed then "hostd" else "other".
Definition tagsText (tags : list string) : string := match tags with [] => "<untagged>" | _ => Join tags ", " end.
Definition shortDigest (digest : string) : string :=
  let trimmed := TrimPrefix digest "sha256:" in
  if len trimmed <=? 12 then trimmed else take_bytes 12 trimmed.

Definition impactOf (c : Change) : string :=
  if ch_Destructive c then "STOPS SERVICE" else if ch_Disruptive c then "interrupts" else "safe".
Definition streamMark (stream : string) : string :=
  if String.eqb stream "stderr" then "E" else if String.eqb stream "event" then "*" else "|".
Definition runtimeText (d : Description) : Arg :=
  if String.eqb (ds_Arch d) "" then AStr "none on this machine" else AFmt "%s on %s" [AStr (ds_Runtime d); AStr (ds_Arch d)].
Definition pidText (pid : Z) : Arg := if pid =? 0 then AStr "-" else AInt pid.
Definition runsText (s : Status) : Arg := if st_Runs s =? 0 then AStr "-" else AInt (st_Runs s).
Definition uptime (now : Time) (s : Status) : Arg :=
  if negb (String.eqb (st_State s) Service.StateRunning) || f64_eqb (st_Since s) f64_zero then AStr "-" else
  let d := GoTime.Sub now (of_unix_milli (f64_to_int64 (st_Since s))) in
  let d := Z.quot d Second * Second in
  if d <? 0 then AStr "-" else AInt d.
Definition detail_of (s : Status) : Arg :=
  if negb (bool_decide (st_LastError s = Lit "")) then AMsg (st_LastError s)
  else if negb (String.eqb (st_Every s) "") then AStr ("every " +:+ st_Every s)
  else if st_Orphan s then AStr "orphan, not declared" else AStr "".

(** ** Versions *)
Fixpoint after_declared (versions : list ServiceVersion) : option (list ServiceVersion) :=
  match versions with
  | [] => None
  | v :: rest => if sv_Declared v then Some rest else after_declared rest
  end.
Definition previousTo (versions : list ServiceVersion) : option ServiceVersion :=
  match after_declared versions with None => head versions | Some older => head older end.
Definition inUseText (v : ServiceVersion) : string :=
  match ((if sv_Running v then ["running"] else []) ++ (if sv_Declared v then ["declared"] else []))%list with
  | [] => "-"
  | uses => Join uses ", "
  end.
Definition otherTags (v : ServiceVersion) : string :=
  match filter (fun tag => tag <> sv_Ref v) (sv_Tags v) with [] => "-" | rest => Join rest ", " end.

Definition stateCurrent := "current".
Definition stateDiffers := "differs".
Definition stateUnknown := "unknown".
Record fleetVersion := MkFleetVersion { fv_Host : string; fv_Runs : string; fv_Carries : string; fv_State : string; fv_Advice : string }.
Definition compareVersions (host runs carries : string) : fleetVersion :=
  if String.eqb carries ""
  then MkFleetVersion host runs carries stateUnknown
         "this hostctl carries no daemon, so there is nothing to compare; a release build does"
  else if String.eqb runs carries then MkFleetVersion host runs carries stateCurrent ""
  else MkFleetVersion host runs carries stateDiffers ("hostctl -host " +:+ host +:+ " install").
Definition sentenceFor (a : fleetVersion) : Msg :=
  if String.eqb (fv_State a) stateCurrent then ("runs %s, the version this hostctl carries", [AStr (fv_Runs a)])
  else if String.eqb (fv_State a) stateDiffers
  then ("runs %s, not the %s this hostctl carries; put this one on it with %s",
        [AStr (fv_Runs a); AStr (fv_Carries a); AStr (fv_Advice a)])
  else ("runs %s; %s", [AStr (fv_Runs a); AStr (fv_Advice a)]).

(** ** The screen *)
Inductive Shown :=
  | Text (m : Msg)
  | Table (rows : list (list Arg))
  | Raw (s : string)
  | AsJSON (v : Payload)
  | VersionJSON (v : fleetVersion).

Definition texts (l : list string) : list Arg := AStr <$> l.

(** A connection, the screen, and the files hostctl has written here. *)
Record Desk := MkDesk { d_conn : Conn; d_out : list Shown; d_files : gmap string string }.
Abbreviation Outcome := (Z * option error)%type.

Definition show (l : list Shown) : ST Desk unit := modify (fun d => MkDesk (d_conn d) (d_out d ++ l) (d_files d)).
Definition on_conn {B} (m : ST Conn B) : ST Desk B := fun d =>
  let '(b, c) := m (d_conn d) in (b, MkDesk c (d_out d) (d_files d)).

Definition emit (opt : options) (filoBody : string) (structured : Shown) (human : list Shown) : list Shown :=
  if o_filoOut opt then [Raw (TrimRight filoBody (String newline "") +:+ String newline "")]
  else if o_jsonOut opt then [structured] else human.

Definition api_error (resp : WireResponse) : error := ErrApi (wr_Code resp) (wr_Message resp).
Definition failed_with (resp : WireResponse) : Outcome := (codeFor (api_error resp), Some (api_error resp)).
Definition usage {B} (m : Msg) : ST B Outcome := mret (exitUsage, Some (EMsg m)).
Definition comms (e : error) : Outcome := (exitComms, Some e).
Definition broken_answer (e : error) : Outcome := (exitFailed, Some e).
Definition fine : Outcome := (exitOK, None).

(** How hostctl builds a request: the fields it names, the others zero. *)
Definition asking (op name : string) : Request := request_for op name "" "".
Definition on_service (op svc name : string) : Request := request_for op name svc "".
(** The fields of a request that changes something. *)
Definition claiming (expect : Z) (allow : bool) (behalf : string) (r : Request) : Request :=
  MkRequest (Op r) (rq_Name r) (rq_Service r) (rq_Stream r) (rq_Match r) (rq_Kind r) (rq_Run r) (rq_Limit r) (rq_Since r)
    (Keep r) (rq_Arch r) (rq_Scope r) (rq_Metric r) (FromMS r) (ToMS r) (rq_StepMS r) expect allow behalf (rq_Body r).
Definition carrying (payload : string) (r : Request) : Request :=
  MkRequest (Op r) (rq_Name r) (rq_Service r) (rq_Stream r) (rq_Match r) (rq_Kind r) (rq_Run r) (rq_Limit r) (rq_Since r)
    (Keep r) (rq_Arch r) (rq_Scope r) (rq_Metric r) (FromMS r) (ToMS r) (rq_StepMS r) (ExpectGeneration r)
    (AllowDestructive r) (rq_OnBehalfOf r) payload.
Definition keeping (keep : Z) (r : Request) : Request :=
  MkRequest (Op r) (rq_Name r) (rq_Service r) (rq_Stream r) (rq_Match r) (rq_Kind r) (rq_Run r) (rq_Limit r) (rq_Since r)
    keep (rq_Arch r) (rq_Scope r) (rq_Metric r) (FromMS r) (ToMS r) (rq_StepMS r) (ExpectGeneration r)
    (AllowDestructive r) (rq_OnBehalfOf r) (rq_Body r).

(** ** The commands *)

(** What hostctl's own disk does: whether a file can be created, how much it
    takes, whether closing it fails, and the Reads of a file to send with what
    ended them. *)
Record Local := MkLocal {
  lc_create : string -> option error;
  lc_room : option Z;
  lc_close : option error;
  lc_open : string -> result (list string * option error);
}.

Section Commands.
Context `{FiloEngine} `{!FiloType Request} `{!FiloType WireResponse} `{!FiloType (list Status)} `{!FiloType (list Change)}.
Context `{!FiloType (list Entry)} `{!FiloType (list LogLine)} `{!FiloType LogLine} `{!FiloType (list Series)}.
Context `{!FiloType (list ImageEntry)} `{!FiloType ImagePrune} `{!FiloType ServiceVersions} `{!FiloType Description}.
Context `{!FiloType JobRun} `{!FiloType Removal} `{!FiloType Backup_} `{!FiloType (list FileEntry)} `{!FiloType FileTransfer}.
Context `{!FiloType fleetVersion}.
(** The machine's name, the clock, the bytes one read returns, hostctl's disk
    and the version of the daemon it carries. *)
Context (target : string) (now : Time) (block : Z) (local : Local) (carried : string).

Definition decode {T} `{!FiloType T} (body : string) (zero : T) : result T :=
  if String.eqb body "" then Ok zero else Decode "response" body zero.

(** One request, its answer decoded: the way every command begins. *)
Definition answered {T} `{!FiloType T} (zero : T) (req : Request) (use : WireResponse -> T -> ST Desk Outcome) : ST Desk Outcome :=
  r ← on_conn (Client.do target req);
  match r with
  | (_, Some e) => mret (comms e)
  | (resp, None) =>
      if wr_Failed resp then mret (failed_with resp)
      else match decode (wr_Body resp) zero with
           | Err e => mret (broken_answer e)
           | Ok v => use resp v
           end
  end.
Definition shown (l : list Shown) : ST Desk Outcome := show l ;; mret fine.

Definition heading (resp : WireResponse) : Shown := Text ("host %s, generation %d", [AStr target; AInt (wr_Generation resp)]).

Definition status_row (s : Status) : list Arg :=
  [AStr (st_Name s); AStr (st_State s); pidText (st_PID s); uptime now s; runsText s; AInt (st_Restarts s); detail_of s].
Definition printStatuses (resp : WireResponse) (statuses : list Status) : list Shown :=
  heading resp ::
  match statuses with
  | [] => [Text ("no services are declared", [])]
  | _ => [Table (texts ["SERVICE"; "STATE"; "PID"; "UPTIME"; "RUNS"; "RESTARTS"; "DETAIL"] :: (status_row <$> merge_sort status_le statuses))]
  end.
Definition showStatus (opt : options) (req : Request) : ST Desk Outcome :=
  answered [] req (fun resp statuses => shown (emit opt (wr_Body resp) (AsJSON (BStatus statuses)) (printStatuses resp statuses))).
Definition runStatus (opt : options) : ST Desk Outcome := showStatus opt (asking OpStatus "").

Definition no_description : Description := MkDescription "" 0 0 [] "" "" 0 f64_zero f64_zero "" f64_zero.
Definition printDescription (d : Description) : list Shown :=
  [Text ("host      %s", [AStr target]); Text ("version   %s", [AStr (ds_Version d)]);
   Text ("protocol  %d", [AInt (ds_Protocol d)]); Text ("schema    %d", [AInt (ds_Schema d)]);
   Text ("runtime   %s", [runtimeText d]); Text ("hardware  %d cpu(s), %s", [AInt (ds_CPUs d); AStr (formatBytes (ds_MemoryBytes d))])] ++
  (if f64_ltb f64_zero (ds_TimeMS d)
   then [Text ("clock     %s", [AInt (f64_to_int64 (ds_TimeMS d)); AStr (ds_Zone d); AInt (f64_to_int64 (f64_div (ds_ZoneOffsetMS d) (f64_of_Z 1000)))])]
   else []) ++
  [Text ("supports  %s", [AStr (Join (Operations d) " ")])].
Definition runDescribe (opt : options) : ST Desk Outcome :=
  answered no_description (asking OpDescribe "") (fun resp d =>
    shown (emit opt (wr_Body resp) (AsJSON (BDescription d)) (printDescription d))).

Definition change_row (c : Change) : list Arg := [AStr (ch_Service c); AStr (ch_Action c); AStr (impactOf c); AMsg (ch_Detail c)].
Definition printChanges (changes : list Change) : list Shown :=
  [Table (texts ["SERVICE"; "ACTION"; "IMPACT"; "DETAIL"] :: (change_row <$> changes))].
(** A plan is shown also when the answer is a refusal that carries one. *)
Definition showPlan (opt : options) (req : Request) (empty : string) : ST Desk Outcome :=
  r ← on_conn (Client.do target req);
  match r with
  | (_, Some e) => mret (comms e)
  | (resp, None) =>
      match (if String.eqb (wr_Body resp) "" then Ok [] else decode (wr_Body resp) []) with
      | Err e => mret (broken_answer e)
      | Ok changes =>
          show (emit opt (wr_Body resp) (AsJSON (BChanges changes))
            (heading resp :: match changes with [] => [Text (empty, [])] | _ => printChanges changes end)) ;;
          mret (if negb (wr_Failed resp) then fine
                else if String.eqb (wr_Code resp) CodeFailed then (exitPartial, Some (api_error resp))
                else failed_with resp)
      end
  end.
Definition runPlan (opt : options) : ST Desk Outcome := showPlan opt (asking OpPlan "") "nothing to change".
Definition runApply (opt : options) : ST Desk Outcome :=
  if o_dryRun opt then runPlan opt
  else showPlan opt (claiming (o_expectGen opt) (o_allowDestr opt) (o_onBehalfOf opt) (asking OpApply "")) "nothing to change".

Definition with_limit (limit : Z) (r : Request) : Request :=
  MkRequest (Op r) (rq_Name r) (rq_Service r) (rq_Stream r) (rq_Match r) (rq_Kind r) (rq_Run r) limit (rq_Since r)
    (Keep r) (rq_Arch r) (rq_Scope r) (rq_Metric r) (FromMS r) (ToMS r) (rq_StepMS r) (ExpectGeneration r)
    (AllowDestructive r) (rq_OnBehalfOf r) (rq_Body r).
Definition entry_row (e : Entry) : list Arg :=
  [AInt (f64_to_int64 (AuditLog.TimeMS e));
   AStr (Actor e +:+ (if String.eqb (AuditLog.OnBehalfOf e) "" then "" else " for " +:+ AuditLog.OnBehalfOf e));
   AStr (Operation e); AStr (AuditLog.Target e); AFmt "%d->%d" [AInt (Before e); AInt (AuditLog.After e)]; AStr (Result e); AMsg (Detail e)].
Definition runAudit (opt : options) : ST Desk Outcome :=
  answered [] (with_limit (o_limit opt) (asking OpAudit "")) (fun resp entries =>
    shown (emit opt (wr_Body resp) (AsJSON (BAudit entries))
      (heading resp :: match entries with
                       | [] => [Text ("nothing has changed this host yet", [])]
                       | _ => [Table (texts ["WHEN"; "ACTOR"; "OPERATION"; "TARGET"; "GEN"; "RESULT"; "DETAIL"] :: (entry_row <$> entries))]
                       end))).

(** ** The log *)
Definition log_request (opt : options) (args : list string) : Request :=
  MkRequest OpLogSearch "" (o_service opt) (o_stream opt) (match args with [] => "" | _ => Join args " " end) (o_kind opt) (o_run opt)
    (o_limit opt) (o_sinceSeq opt) 0 "" "" "" f64_zero f64_zero f64_zero 0 false "" "".
Definition printLine (opt : options) (l : LogLine) : result (list Shown) :=
  if o_jsonOut opt then Ok [AsJSON (BLines [l])]
  else if negb (o_filoOut opt)
  then Ok [Text ("%s %s %s %s",
             [AInt (f64_to_int64 (ll_Time l));
              AStr (ll_Service l +:+ (if String.eqb (ll_Run l) "" then "" else "/" +:+ ll_Run l));
              AStr (streamMark (ll_Stream l)); AMsg (ll_Text l)])]
  else match Marshal l with
       | Err e => Err (EWrap ("cannot render log line %d: %w", [AInt (ll_Seq l)]) e)
       | Ok text => Ok [Raw (text +:+ String newline "")]
       end.
Definition print_to (opt : options) (l : LogLine) : ST (list Shown) (result unit) := fun out =>
  match printLine opt l with Err e => (Err e, out) | Ok more => (Ok tt, out ++ more) end.
Definition no_line : LogLine := MkLogLine 0 f64_zero "" "" "" "" (Lit "").

(** [cancelled]: the operator's interrupt ended it. *)
Definition runLog (cancelled : bool) (opt : options) (args : list string) : ST Desk Outcome :=
  if o_follow opt then fun d =>
    let '(r, (c, out)) := Client.Follow no_line cancelled (print_to opt) (log_request opt args) (d_conn d, d_out d) in
    (match r with Err e => comms e | Ok _ => fine end, MkDesk c out (d_files d))
  else
    answered [] (log_request opt args) (fun resp lines =>
      if o_filoOut opt then shown [Raw (TrimRight (wr_Body resp) (String newline "") +:+ String newline "")]
      else fun d =>
        let '(r, out) := for_eachE lines (print_to opt) (d_out d) in
        (match r with Err e => broken_answer e | Ok _ => fine end, MkDesk (d_conn d) out (d_files d))).

(** ** Metrics *)
Definition metrics_request (opt : options) : Request :=
  let scope := if negb (String.eqb (o_service opt) "") && String.eqb (o_scope opt) "" then "service" else o_scope opt in
  let ms t := f64_of_Z (UnixMilli t) in
  let '(from, to, step) :=
    if 0 <? o_window opt
    then (ms (GoTime.Add now (- o_window opt)), ms now, f64_of_Z (Z.quot (o_step opt) Millisecond)) else (f64_zero, f64_zero, f64_zero) in
  MkRequest OpMetrics "" (o_service opt) "" "" "" "" (o_limit opt) 0 0 "" scope (o_metric opt) from to step 0 false "" "".
Definition named_cells (s : Series) : list Arg := texts [sr_Scope s; nameOrDash (sr_Name s); sr_Metric s].
Definition latest_row (s : Series) : list (list Arg) :=
  match last (Points s) with
  | None => []
  | Some p =>
      let age := Z.quot (GoTime.Sub now (of_unix_milli (f64_to_int64 (MetricStore.TimeMS p)))) Second * Second in
      [named_cells s ++ [AStr (formatValue (sr_Metric s) (MetricStore.Value p)); AInt age]]
  end.
Definition window_row (s : Series) : list (list Arg) :=
  match last (Points s) with
  | None => []
  | Some p =>
      let '(low, average, high) := summarise (Points s) in
      [named_cells s ++ AInt (Z.of_nat (length (Points s))) ::
       texts [formatValue (sr_Metric s) low; formatValue (sr_Metric s) average; formatValue (sr_Metric s) high;
              formatValue (sr_Metric s) (MetricStore.Value p)]]
  end.
Definition printLatest (l : list Series) : list Shown :=
  [Table (texts ["SCOPE"; "NAME"; "METRIC"; "VALUE"; "AGE"] :: concat (latest_row <$> l))].
Definition printWindow (l : list Series) : list Shown :=
  [Table (texts ["SCOPE"; "NAME"; "METRIC"; "POINTS"; "MIN"; "AVG"; "MAX"; "LAST"] :: concat (window_row <$> l))].
Definition runMetrics (opt : options) : ST Desk Outcome :=
  answered [] (metrics_request opt) (fun resp series =>
    shown (emit opt (wr_Body resp) (AsJSON (BSeries series))
      (heading resp :: match series with
                       | [] => [Text ("nothing has been sampled yet; hostd samples every %s", [AInt SampleInterval])]
                       | _ => if 0 <? o_window opt then printWindow series else printLatest series
                       end))).

(** ** Services *)
Definition no_versions : ServiceVersions := MkServiceVersions "" "" "" [].
Definition printGoBack (found : ServiceVersions) : list Shown :=
  match previousTo (svs_Versions found) with
  | None => [Text ("there is no older version here to go back to", [])]
  | Some previous =>
      [Text ("to go back, put this in %s%s, then push and apply:", [AStr (svs_Service found); AStr ".filo"]);
       Text ("  (tuple %q %q)", [AStr "image"; AStr (sv_Ref previous)])] ++
      (if String.eqb (sv_Ref previous) (sv_Digest previous)
       then [Text ("that version carries no hostd stamp, so it is pinned by digest, which means nothing on another machine", [])]
       else [])
  end.
Definition version_row (v : ServiceVersion) : list Arg :=
  [AStr (sv_Ref v); AStr (formatBytes (sv_Bytes v)); AInt (sv_Created v); AStr (inUseText v); AStr (otherTags v)].
Definition printVersions (found : ServiceVersions) : list Shown :=
  [Text ("host %s, service %s", [AStr target; AStr (svs_Service found)]); Text ("declared as %s", [AStr (svs_Image found)])] ++
  match svs_Versions found with
  | [] => [Text ("this machine holds no image for %s; push one before it can run", [AStr (svs_Service found)])]
  | versions =>
      Table (texts ["VERSION"; "SIZE"; "CREATED"; "IN USE"; "OTHER TAGS"] :: (version_row <$> versions)) ::
      (if existsb sv_Declared versions then []
       else [Text ("nothing here matches %s, so a start would fail until it is pushed", [AStr (svs_Image found)])]) ++
      printGoBack found
  end.
Definition runServiceVersions (opt : options) (args : list string) : ST Desk Outcome :=
  match args with
  | [] => usage ("service versions needs a service name", [])
  | name :: _ =>
      answered no_versions (asking OpServiceVersions name) (fun resp found =>
        shown (emit opt (wr_Body resp) (AsJSON (BVersions found)) (printVersions found)))
  end.

Definition runServiceRemove (opt : options) (name : string) : ST Desk Outcome :=
  answered (MkRemoval "" "" (Lit "")) (claiming 0 false (o_onBehalfOf opt) (asking OpServiceRemove name)) (fun resp report =>
    shown (emit opt (wr_Body resp) (AsJSON (BRemoval report))
      [Text ("%s: container %s", [AStr target; AStr (rm_Container report)]);
       Text ("%s: image %s", [AStr target; AMsg (rm_Image report)]);
       Text ("%s: %s removed; the tree still describes it, and a deploy puts it back", [AStr target; AStr (rm_Service report)])])).

(** What a transfer leaves on the operator's disk.  The file it created is
    removed when the transfer did not end well. *)
Definition remove_local (into : string) : ST Desk unit := modify (fun d => MkDesk (d_conn d) (d_out d) (delete into (d_files d))).
Definition create_local (into : string) : result Sink :=
  match lc_create local into with Some e => Err e | None => Ok (MkSink "" (lc_room local)) end.
Definition keep_local (into : string) (err : option error) (sink : option Sink) : ST Desk (option error) :=
  let err := match err, sink with None, Some _ => lc_close local | _, _ => err end in
  match err with
  | Some e => (if String.eqb into "" then mret tt else remove_local into) ;; mret (Some e)
  | None =>
      match sink with
      | Some s => modify (fun d => MkDesk (d_conn d) (d_out d) (<[into := got s]> (d_files d))) ;; mret None
      | None => mret None
      end
  end.
(** The name the announcement gave the file, once it was read. *)
Definition into_of {T} `{!FiloType T} (name : string) (zero : T) (path : T -> string) (resp : WireResponse) : string :=
  if wr_Failed resp then "" else match Decode name (wr_Body resp) zero with Ok told => path told | Err _ => "" end.

Definition no_backup : Backup_ := MkBackup "" "" f64_zero.
Definition backup_into (opt : options) (told : Backup_) : string := PathJoin [o_outDir opt; bk_File told].
Definition runServiceBackup (opt : options) (name : string) : ST Desk Outcome :=
  r ← on_conn (Client.Backup target block name (fun told => create_local (backup_into opt told)));
  let '(resp, err, sink) := r in
  let into := into_of "backup" no_backup (backup_into opt) resp in
  err ← keep_local into err sink;
  match err with
  | Some e => mret (comms e)
  | None =>
      if wr_Failed resp then mret (failed_with resp)
      else match decode (wr_Body resp) no_backup with
           | Err e => mret (broken_answer e)
           | Ok told =>
               shown [Text ("%s (%s)", [AStr into; AStr (formatBytes (bk_Bytes told))]);
                      Text ("what the script said: hostctl -host %s log -service %s -run %s", [AStr target; AStr name; AStr (bk_Run told)])]
           end
  end.

(** ** Files *)
Definition file_row (entry : FileEntry) : list Arg :=
  if fe_Dir entry then [AStr (fe_Name entry +:+ "/"); AStr ""; AStr ""]
  else [AStr (fe_Name entry); AStr (formatBytes (fe_Bytes entry)); AInt (f64_to_int64 (fe_MS entry))].
Definition runFileList (opt : options) (svc wire : string) : ST Desk Outcome :=
  answered [] (on_service OpFileList svc wire) (fun resp entries =>
    shown (emit opt (wr_Body resp) (AsJSON (BFiles entries))
      match entries with [] => [Text ("nothing here", [])] | _ => [Table (file_row <$> entries)] end)).

Definition no_transfer : FileTransfer := MkFileTransfer "" f64_zero.
Definition file_into (opt : options) (told : FileTransfer) : string := PathJoin [o_outDir opt; Base (ft_Path told)].
Definition runFileGet (opt : options) (svc wire : string) : ST Desk Outcome :=
  r ← on_conn (Client.FetchFile block svc wire (fun told => create_local (file_into opt told)));
  let '(resp, err, sink) := r in
  let into := into_of "file" no_transfer (file_into opt) resp in
  err ← keep_local into err sink;
  match err with
  | Some e => mret (comms e)
  | None =>
      if wr_Failed resp then mret (failed_with resp)
      else match decode (wr_Body resp) no_transfer with
           | Err e => mret (broken_answer e)
           | Ok told => shown [Text ("%s (%s)", [AStr into; AStr (formatBytes (ft_Bytes told))])]
           end
  end.
(** What a transfer request answers, said with [format]. *)
Definition told_transfer (svc format : string) (resp : WireResponse) : ST Desk Outcome :=
  if wr_Failed resp then mret (failed_with resp)
  else match decode (wr_Body resp) no_transfer with
       | Err e => mret (broken_answer e)
       | Ok told => shown [Text (format, [AStr target; AStr svc; AStr (ft_Path told); AStr (formatBytes (ft_Bytes told))])]
       end.
Definition runFilePut (svc file wire : string) : ST Desk Outcome :=
  match lc_open local file with
  | Err e => mret (broken_answer e)
  | Ok (reads, ended) =>
      r ← on_conn (SendFile target svc wire reads ended);
      match r with
      | (_, Some e) => mret (comms e)
      | (resp, None) => told_transfer svc "%s: %s now holds %s (%s)" resp
      end
  end.
Definition runFileDelete (svc wire : string) : ST Desk Outcome :=
  r ← on_conn (Client.do target (on_service OpFileDelete svc wire));
  match r with
  | (_, Some e) => mret (comms e)
  | (resp, None) => told_transfer svc "%s: %s no longer holds %s (%s)" resp
  end.
Definition runFile (opt : options) (args : list string) : ST Desk Outcome :=
  match args with
  | [] => usage ("file needs a subcommand: ls, get, put or rm", [])
  | sub :: rest =>
      if String.eqb sub "ls" || String.eqb sub "list" then
        match rest with
        | [] => usage ("file ls needs a service, and optionally volume/path inside it", [])
        | [svc] => runFileList opt svc ""
        | svc :: wire :: _ => runFileList opt svc wire
        end
      else if String.eqb sub "get" then
        match rest with svc :: wire :: _ => runFileGet opt svc wire | _ => usage ("file get needs a service and volume/path/to/file", []) end
      else if String.eqb sub "put" then
        match rest with
        | svc :: file :: wire :: _ => runFilePut svc file wire
        | _ => usage ("file put needs a service, a local file, and volume/path/to/write", [])
        end
      else if String.eqb sub "rm" then
        match rest with svc :: wire :: _ => runFileDelete svc wire | _ => usage ("file rm needs a service and volume/path/to/file", []) end
      else usage ("file %s does not exist; ls, get, put and rm do", [AStr sub])
  end.

(** ** Jobs and versions *)
Definition runJobNow (opt : options) (name : string) : ST Desk Outcome :=
  answered (MkJobRun "" "") (claiming (o_expectGen opt) false (o_onBehalfOf opt) (asking OpJobRun name)) (fun resp started =>
    shown (emit opt (wr_Body resp) (AsJSON (BRun started))
      [Text ("host %s, %s run %s started", [AStr target; AStr (jr_Service started); AStr (jr_Run started)]);
       Text ("watch it with: hostctl -host %s log -service %s -run %s -follow", [AStr target; AStr (jr_Service started); AStr (jr_Run started)])])).
Definition runJob (opt : options) (args : list string) : ST Desk Outcome :=
  match args with
  | [] => usage ("job needs a subcommand: run <name>", [])
  | sub :: rest =>
      if negb (String.eqb sub "run") then usage ("unknown job subcommand %q; expected run", [AStr sub])
      else match rest with [] => usage ("job run needs a job name", []) | name :: _ => runJobNow opt name end
  end.

Definition runFleetVersion (opt : options) (args : list string) : ST Desk Outcome :=
  match args with
  | _ :: _ => usage ("version takes no arguments; name the machines with -host, -hosts, -tag or -all", [])
  | [] =>
      answered no_description (asking OpDescribe "") (fun _ described =>
        let answer := compareVersions target (ds_Version described) carried in
        match Marshal answer with
        | Err e => mret (broken_answer e)
        | Ok body => shown (emit opt body (VersionJSON answer) [Text (sentenceFor answer)])
        end)
  end.

(** ** Images *)
Definition no_prune : ImagePrune := MkImagePrune 0 0 [] false.
Definition has_problem (c : ImageChange) : bool := negb (bool_decide (ic_Problem c = Lit "")).
Definition prune_row (c : ImageChange) : list Arg :=
  [AStr (tagsText (ic_Tags c)); AStr (formatBytes (ic_Bytes c)); AStr (shortDigest (ic_Digest c));
   if has_problem c then AMsg (ic_Problem c) else AStr (if ic_Removed c then "removed" else "would remove")].
Definition sum_bytes (l : list ImageChange) : float64 := foldl (fun acc c => f64_add acc (ic_Bytes c)) f64_zero l.
Definition printPrune (plan : ImagePrune) : list Shown :=
  Text ("host %s, keeping %d version(s) of each image still declared here", [AStr target; AInt (ip_Keep plan)]) ::
  match ip_Remove plan with
  | [] => [Text ("nothing to remove; %d image(s) of ours are held or within the %d kept", [AInt (Kept plan); AInt (ip_Keep plan)])]
  | l =>
      let count := AInt (Z.of_nat (length l)) in
      Table (texts ["IMAGE"; "SIZE"; "DIGEST"; "RESULT"] :: (prune_row <$> l)) ::
      if Applied plan
      then [Text ("%d image(s) removed, %s freed; %d kept",
              [count; AStr (formatBytes (sum_bytes (filter (fun c => has_problem c = false /\ ic_Removed c = true) l))); AInt (Kept plan)])]
      else [Text ("%d image(s), %s; nothing was removed", [count; AStr (formatBytes (sum_bytes l))]);
            Text ("run it again with -allow-destructive to remove them", [])]
  end.
Definition runImagePrune (opt : options) : ST Desk Outcome :=
  if o_keep opt <? 1 then usage ("-keep is how many versions survive, so it is at least 1; got %d", [AInt (o_keep opt)]) else
  r ← on_conn (Client.do target (keeping (o_keep opt) (claiming 0 (o_allowDestr opt) (o_onBehalfOf opt) (asking OpImagePrune ""))));
  match r with
  | (_, Some e) => mret (comms e)
  | (resp, None) =>
      match decode (wr_Body resp) no_prune with
      | Err e => mret (if wr_Failed resp then failed_with resp else broken_answer e)
      | Ok plan =>
          show (emit opt (wr_Body resp) (AsJSON (BPrune plan)) (printPrune plan)) ;;
          mret (if wr_Failed resp then failed_with resp else fine)
      end
  end.

Definition image_row (i : ImageEntry) : list Arg :=
  [AStr (tagsText (ie_Tags i)); AStr (formatBytes (ie_Bytes i)); AInt (f64_to_int64 (ie_Created i)); AStr (nameOrDash (UsedBy i));
   AStr (ownerText (Managed i)); AStr (shortDigest (ie_Digest i))].
Definition entry_bytes (l : list ImageEntry) : float64 := foldl (fun acc i => f64_add acc (ie_Bytes i)) f64_zero l.
Definition printImages (held : list ImageEntry) : list Shown :=
  Text ("host %s", [AStr target]) ::
  match held with
  | [] => [Text ("this machine holds no images", [])]
  | _ =>
      let ours := filter (fun i => Managed i = true) held in
      let loose := filter (fun i => UsedBy i = "") ours in
      let count {X} (l : list X) := AInt (Z.of_nat (length l)) in
      [Table (texts ["IMAGE"; "SIZE"; "CREATED"; "USED BY"; "OWNER"; "DIGEST"] :: (image_row <$> held));
       Text ("%d images, %s", [count held; AStr (formatBytes (entry_bytes held))]);
       Text ("%d put here by hostd, %s", [count ours; AStr (formatBytes (entry_bytes ours))])] ++
      match loose with [] => [] | _ => [Text ("%d of ours held by nothing, %s", [count loose; AStr (formatBytes (entry_bytes loose))])] end
  end.
Definition runImageList (opt : options) : ST Desk Outcome :=
  answered [] (asking OpImageList "") (fun resp held =>
    shown (emit opt (wr_Body resp) (AsJSON (BImages held)) (printImages held))).
End Commands.
