(* ===== verification/Deploy.v ===== *)
(** * Deploy: putting a service on a machine

    src/cmd/hostctl/deploy.go, push.go, the push of src/cmd/hostctl/image.go and
    the dispatch of main.go.  The bench is the desk of Commands and the container
    runtime of the operator's own machine; [tree] is what service.LoadTree read
    of the operator's directory. *)
From S2P Require Import Prelude GoText GoTime GoPath Service Filo Tree DeclarationFiles AuditLog Runtime DockerClient Plan Images Protocol MetricStore Host FileHandlers ServiceHandlers ImageHandlers Server Client CommandLine Commands.
From Stdlib Require Import Ascii SpecFloat.
Open Scope string_scope.
Open Scope list_scope.
Open Scope Z_scope.
Open Scope hostd_scope.

(** One line of hostctl's own in the window's log: of what service, and whether
    it is a problem. *)
Record Saying := MkSaying { sy_Service : string; sy_Text : Msg; sy_Bad : bool }.

Section Deploy.
Context `{FiloEngine} `{!FiloType Request} `{!FiloType WireResponse} `{!FiloType (list Status)} `{!FiloType (list Change)}.
Context `{!FiloType (list Entry)} `{!FiloType (list LogLine)} `{!FiloType LogLine} `{!FiloType (list Series)}.
Context `{!FiloType (list ImageEntry)} `{!FiloType ImagePrune} `{!FiloType ServiceVersions} `{!FiloType Description}.
Context `{!FiloType JobRun} `{!FiloType Removal} `{!FiloType Backup_} `{!FiloType (list FileEntry)} `{!FiloType FileTransfer}.
Context `{!FiloType fleetVersion} `{!FiloType Image_} `{!FiloType WireDeclaration} `{Sha256} {W : Type} `{Transport W}.
Context (target : string) (now : Time) (block : Z) (local : Local) (carried : string) (cancelled : bool).
(** docker.Open() on the operator's machine; the tree and how it is named. *)
Context (docker_Open : option error) (tree : list Declaration * option error) (dir : string).

(** [b_said] is what the window's log was told, where the window is what asks. *)
Record Bench := MkBench { b_desk : Desk; b_world : W; b_said : list Saying }.
Definition at_desk {B} (m : ST Desk B) : ST Bench B := fun b => let '(r, d) := m (b_desk b) in (r, MkBench d (b_world b) (b_said b)).
Definition here {B} (m : ST W B) : ST Bench B := fun b => let '(r, w) := m (b_world b) in (r, MkBench (b_desk b) w (b_said b)).
Definition ask_machine (req : Request) : ST Bench (WireResponse * option error) := at_desk (on_conn (Client.do target req)).

(** How the command line tells a step of a deploy; the steps of a deploy are told
    through whatever function it is given. *)
Definition say_step (step : Msg) : ST Bench unit := at_desk (show [Text ("%s: %s", [AStr target; AMsg step])]).

Definition catalogEntry (name : string) : result Declaration :=
  match find (fun d => String.eqb (Name (d_Service d)) name) tree.1 with
  | Some d => Ok d
  | None =>
      let names := (fun d => Name (d_Service d)) <$> tree.1 in
      Err (EMsg ("the tree at %s does not describe %q%s%s",
        [AStr dir; AStr name;
         match names with [] => AStr "" | _ => AFmt "; it describes %s" [AStr (Join names ", ")] end;
         match tree.2 with None => AStr "" | Some e => AFmt " (and part of it could not be read: %v)" [AMsg (error_msg e)] end]))
  end.

(** ** The image *)
Definition machineHolds (image : string) : ST Bench bool :=
  r ← ask_machine (asking OpImageList "");
  mret match r with
       | (_, Some _) => false
       | (resp, None) =>
           if wr_Failed resp then false
           else match decode (wr_Body resp) ([] : list ImageEntry) with
                | Err _ => false
                | Ok held => existsb (fun e => bool_decide (image ∈ ie_Tags e)) held
                end
       end.

Definition errComms : error := EMsg ("could not reach the machine", []).
Definition no_image : Image_ := MkImage "" "" "" f64_zero "".

(** What reading the saved image gives: its bytes and how they ended. *)
Definition saved (image : string) : ST Bench (string * option error) :=
  r ← here (DockerClient.Save image);
  mret match r with Err e => ("", Some e) | Ok (content, cut) => (content, cut) end.

Definition pushImage (image : string) : ST Bench (result (Image_ * string)) :=
  built ← here (DockerClient.Image image);
  match built with
  | Err e => mret (Err (EWrap ("%s is not on this machine; build it first: %w", [AStr image]) e))
  | Ok info =>
      s ← saved image;
      let '(content, cut) := s in
      r ← at_desk (on_conn (Push target image (Docker.ii_Arch info) (reads_of (String.length content) content) cut));
      mret match r with
           | (_, Some e) => Err (EWrap ("%w: %v", [AMsg (error_msg e)]) errComms)
           | (resp, None) =>
               if wr_Failed resp then Err (api_error resp)
               else received ← decode (wr_Body resp) no_image;
                    let sum := sha256_hex content in
                    if negb (String.eqb (i_Content received) sum)
                    then Err (EMsg ("%s arrived as sha256:%s and left here as sha256:%s; the bytes did not survive the trip",
                               [AStr image; AStr (i_Content received); AStr sum]))
                    else Ok (received, wr_Body resp)
           end
  end.

Section Told.
Context (say : Msg -> ST Bench unit).
(** The image is built here, held there, or pulled there; only a push that fails
    stops the deploy.  How far a push is, told by the clock while it goes on, is
    left out. *)
Definition ensureImage (name image : string) : ST Bench (result unit) :=
  built ← (match docker_Open with Some e => mret (Err e) | None => here (DockerClient.Image image) end);
  match built with
  | Ok _ =>
      say ("sending image %s from this machine…", [AStr image]) ;;
      '(received, _) ←! pushImage image;
      say ("image %s sent (%s)", [AStr image; AStr (formatBytes (i_Bytes received))]) ;;
      mret (Ok tt)
  | Err _ =>
      held ← machineHolds image;
      if held : bool then say ("image %s is already on the machine", [AStr image]) ;; mret (Ok tt)
      else
        say ("image %s is not here nor there; the machine is pulling it from its registry…", [AStr image]) ;;
        r ← ask_machine (request_for OpImagePull image name "");
        match r with
        | (_, Some e) => mret (Err e)
        | (resp, None) =>
            (if wr_Failed resp then say ("could not pull: %s", [AMsg (error_msg (api_error resp))])
             else say ("image %s pulled by the machine", [AStr image])) ;;
            mret (Ok tt)
        end
  end.
End Told.

(** ** The declaration *)
Definition putDeclaration (opt : options) (declaration : Declaration) : ST Bench (result unit) :=
  match Marshal (Send declaration) with
  | Err e => mret (Err e)
  | Ok payload =>
      r ← ask_machine (carrying payload (claiming 0 false (o_onBehalfOf opt) (asking OpServicePut "")));
      mret match r with
           | (_, Some e) => Err e
           | (resp, None) => if wr_Failed resp then Err (EWrap ("%s: %w", [AStr (Name (d_Service declaration))]) (api_error resp)) else Ok tt
           end
  end.

Definition state_said (name : string) (statuses : list Status) : Msg :=
  foldl (fun said st => if String.eqb (st_Name st) name then ("%s is %s", [AStr name; AStr (st_State st)]) else said)
    ("%s is deployed", [AStr name]) statuses.

Definition deployService (say : Msg -> ST Bench unit) (opt : options) (name : string) : ST Bench (result Msg) :=
  declaration ←! mret (catalogEntry name);
  _ ←! ensureImage say name (Service.Image (d_Service declaration));
  say ("sending the declaration and %d file(s) beside it…", [AInt (Z.of_nat (length (Artifacts declaration)))]) ;;
  _ ←! putDeclaration opt declaration;
  say ("starting a fresh container…", []) ;;
  r ← ask_machine (claiming 0 false (o_onBehalfOf opt) (asking OpServiceRedeploy name));
  mret match r with
       | (_, Some e) => Err e
       | (resp, None) =>
           if wr_Failed resp then Err (api_error resp)
           else Ok (match decode (wr_Body resp) ([] : list Status) with
                    | Ok statuses => state_said name statuses
                    | Err _ => ("%s is deployed", [AStr name])
                    end)
       end.

Definition runServiceDeploy (opt : options) (name : string) : ST Bench Outcome :=
  r ← deployService say_step opt name;
  match r with
  | Err e => mret (codeFor e, Some e)
  | Ok outcome =>
      say_step outcome ;;
      at_desk (shown [Text ("watch it with hostctl -host %s log -follow -service %s", [AStr target; AStr name])])
  end.

(** ** Refreshing what a machine holds *)
Definition described (name : string) : option Declaration := last (filter (fun d => Name (d_Service d) = name) tree.1).

Fixpoint push_each (opt : options) (held : list Status) (sent : Z) : ST Bench (result Z) :=
  match held with
  | [] => mret (Ok sent)
  | st :: rest =>
      if st_Orphan st then push_each opt rest sent
      else match described (st_Name st) with
           | None =>
               at_desk (show [Text ("%s;%s;runs here but the tree does not describe it", [AStr target; AStr (st_Name st)])]) ;;
               push_each opt rest sent
           | Some declaration =>
               _ ←! putDeclaration opt declaration;
               at_desk (show [Text ("%s;%s;%d", [AStr target; AStr (Name (d_Service declaration)); AInt (Z.of_nat (length (Artifacts declaration)))])]) ;;
               push_each opt rest (sent + 1)
           end
  end.

Definition runPush (opt : options) (args : list string) : ST Bench Outcome :=
  match args with
  | _ :: _ => usage ("push takes no arguments; it refreshes this machine's services from the tree named by -config", [])
  | [] =>
      r ← ask_machine (asking OpServiceList "");
      match r with
      | (_, Some e) => mret (comms e)
      | (resp, None) =>
          if wr_Failed resp then mret (failed_with resp)
          else match decode (wr_Body resp) ([] : list Status) with
               | Err e => mret (broken_answer e)
               | Ok held =>
                   r ← push_each opt held 0;
                   match r with
                   | Err e => mret (codeFor e, Some e)
                   | Ok sent =>
                       at_desk (show [Text ("refreshed %d declaration(s); run apply to converge, or service deploy to overwrite one", [AInt sent])]) ;;
                       mret (match tree.2 with Some e => (exitPartial, Some e) | None => fine end)
                   end
               end
      end
  end.

(** ** An image pushed by hand *)
Definition printNotADeploy (received : Image_) : list Shown :=
  if String.eqb (i_Ref received) "" then [] else
  [Text ("marked as %s", [AStr (i_Ref received)]);
   Text ("a push is not a deploy: what a service runs does not change until its", []);
   Text ("declaration names this version. Put this in the service's %s, then push", [AStr ".filo"]);
   Text ("and apply:", []); Text ("  (tuple %q %q)", [AStr "image"; AStr (i_Ref received)])].
Definition runImagePush (opt : options) (args : list string) : ST Bench Outcome :=
  match args with
  | [] => usage ("image push needs the image to send, as it is named here", [])
  | image :: _ =>
      match docker_Open with
      | Some e => mret (exitFailed, Some (EWrap ("no container runtime on this machine to read %s from: %w", [AStr image]) e))
      | None =>
          r ← pushImage image;
          match r with
          | Err e => mret (if errors_is e errComms then exitComms else codeFor e, Some e)
          | Ok (received, body) =>
              at_desk (shown (emit opt body (AsJSON (BImage received))
                (Text ("%s;%s;%s;sha256:%s", [AStr target; AStr (i_Digest received); AStr (FormatFixed 0 (i_Bytes received)); AStr (i_Content received)]) ::
                 printNotADeploy received)))
          end
      end
  end.
Definition runImage (opt : options) (args : list string) : ST Bench Outcome :=
  match args with
  | [] => usage ("image needs a subcommand: ls, or push <image>", [])
  | sub :: rest =>
      if String.eqb sub "ls" || String.eqb sub "list" then at_desk (runImageList target opt)
      else if String.eqb sub "prune" then at_desk (runImagePrune target opt)
      else if String.eqb sub "push" then runImagePush opt rest
      else usage ("unknown image subcommand %q; expected ls, prune or push", [AStr sub])
  end.

(** ** The commands of a service, and of hostctl *)
Definition service_op (sub : string) : option string :=
  if String.eqb sub "start" then Some OpServiceStart else if String.eqb sub "stop" then Some OpServiceStop
  else if String.eqb sub "restart" then Some OpServiceRestrt else if String.eqb sub "redeploy" then Some OpServiceRedeploy else None.

Definition named_service (rest : list string) (m : Msg) (run : string -> ST Bench Outcome) : ST Bench Outcome :=
  match rest with [] => usage m | name :: _ => run name end.

Definition runService (opt : options) (args : list string) : ST Bench Outcome :=
  match args with
  | [] => usage ("service needs a subcommand: list, versions, deploy, remove, backup, start, stop, restart or redeploy", [])
  | sub :: rest =>
      if String.eqb sub "list" then at_desk (showStatus target now opt (asking OpServiceList ""))
      else if String.eqb sub "versions" then at_desk (runServiceVersions target opt rest)
      else if String.eqb sub "deploy" then named_service rest ("service deploy needs a service name from the tree", []) (runServiceDeploy opt)
      else if String.eqb sub "remove"
      then named_service rest ("service remove needs a service name", []) (fun name => at_desk (runServiceRemove target opt name))
      else if String.eqb sub "backup"
      then named_service rest ("service backup needs a service name", []) (fun name => at_desk (runServiceBackup target block local opt name))
      else match service_op sub with
           | Some op =>
               named_service rest ("service %s needs a service name", [AStr sub]) (fun name =>
                 at_desk (showStatus target now opt (claiming (o_expectGen opt) false (o_onBehalfOf opt) (asking op name))))
           | None => usage ("unknown service subcommand %q; expected list, versions, deploy, remove, start, stop, restart or redeploy", [AStr sub])
           end
  end.

(** dispatch, once connected; [install] is the one command that is not. *)
Definition dispatch (opt : options) (args : list string) : ST Bench Outcome :=
  let command := default "" (head args) in
  let rest := tail args in
  if String.eqb command "status" then at_desk (runStatus target now opt)
  else if String.eqb command "describe" then at_desk (runDescribe target opt)
  else if String.eqb command "version" then at_desk (runFleetVersion target carried opt rest)
  else if String.eqb command "service" then runService opt rest
  else if String.eqb command "plan" then at_desk (runPlan target opt)
  else if String.eqb command "apply" then at_desk (runApply target opt)
  else if String.eqb command "audit" then at_desk (runAudit target opt)
  else if String.eqb command "log" || String.eqb command "logs" then at_desk (runLog target cancelled opt rest)
  else if String.eqb command "metrics" then at_desk (runMetrics target now opt)
  else if String.eqb command "image" then runImage opt rest
  else if String.eqb command "job" then at_desk (runJob target opt rest)
  else if String.eqb command "file" then at_desk (runFile target block local opt rest)
  else if String.eqb command "push" then runPush opt rest
  else usage ("unknown command %q; run hostctl with no arguments to see what exists", [AStr command]).

(** The words dispatch takes, once connected; to any other it says so and asks
    the machine nothing. *)
Definition known_commands : list string :=
  ["status"; "describe"; "version"; "service"; "plan"; "apply"; "audit"; "log"; "logs"; "metrics"; "image"; "job"; "file"; "push"].
Lemma unknown_command opt args : default "" (head args) ∉ known_commands ->
  dispatch opt args = usage ("unknown command %q; run hostctl with no arguments to see what exists", [AStr (default "" (head args))]).
Proof.
  unfold dispatch, known_commands. generalize (default "" (head args)) as c. intros c Hc.
  repeat match goal with |- context [String.eqb c ?k] => destruct (String.eqb_spec c k) as [->|_]; [destruct Hc; repeat constructor|] end.
  done.
Qed.
End Deploy.
