(* ===== verification/CommandProofs.v ===== *)
(** * CommandProofs: what every command of hostctl has in common

    The status a program reads and the error a person reads never disagree, and
    with -filo or -json a command that answers writes one document. *)
From S2P Require Import Prelude GoText GoTime GoPath Service Filo Tree DeclarationFiles AuditLog Runtime DockerClient Plan Images Protocol MetricStore Host FileHandlers ServiceHandlers ImageHandlers Server Client CommandLine Commands Deploy HostSamples.
From Stdlib Require Import Ascii SpecFloat.
Open Scope string_scope.
Open Scope list_scope.
Open Scope Z_scope.
Open Scope hostd_scope.

(** ** What a computation gives *)
Definition gives {S X} (P : X -> Prop) (m : ST S X) : Prop := forall s, P (m s).1.

Lemma gives_ret {S X} (P : X -> Prop) (x : X) : P x -> gives (S := S) P (mret x).
Proof. by intros ? s. Qed.
Lemma gives_bind {S X Y} (P : Y -> Prop) (m : ST S X) f : (forall x, gives P (f x)) -> gives P (m ≫= f).
Proof. intros Hf s. rewrite ST_step. apply Hf. Qed.
Lemma gives_at_desk {W X} (P : X -> Prop) (m : ST Desk X) : gives P m -> gives P (at_desk (W := W) m).
Proof. intros Hm b. specialize (Hm (b_desk b)). unfold at_desk. by destruct (m (b_desk b)). Qed.

(** What a command puts on the screen, with what it ends in. *)
Definition quiet {S X} (out : S -> list Shown) (m : ST S X) : Prop := forall s, out (m s).2 = out s.
Definition says {S} (out : S -> list Shown) (Q : Outcome -> list Shown -> Prop) (m : ST S Outcome) : Prop :=
  forall s, exists l, out (m s).2 = out s ++ l /\ Q (m s).1 l.
Abbreviation on_screen := (fun b : Bench => d_out (b_desk b)).

Section Says.
Context {S : Type} (out : S -> list Shown) (Q : Outcome -> list Shown -> Prop).
Implicit Types r : Outcome.

Lemma says_ret r : Q r [] -> says out Q (mret r).
Proof. intros HQ s. exists []. by rewrite app_nil_r. Qed.
Lemma says_bind {X} (m : ST S X) f : quiet out m -> (forall x, says out Q (f x)) -> says out Q (m ≫= f).
Proof. intros Hm Hf s. rewrite ST_step. destruct (Hf (m s).1 (m s).2) as (l & El & HQ). exists l. by rewrite El, Hm. Qed.
Lemma quiet_bind {X Y} (m : ST S X) (f : X -> ST S Y) : quiet out m -> (forall x, quiet out (f x)) -> quiet out (m ≫= f).
Proof. intros Hm Hf s. rewrite ST_step, Hf. apply Hm. Qed.
Lemma quiet_ret {X} (x : X) : quiet out (mret x).
Proof. done. Qed.
End Says.

Lemma quiet_conn {X} (m : ST Conn X) : quiet d_out (on_conn m).
Proof. intros d. unfold on_conn. by destruct (m (d_conn d)). Qed.
Lemma quiet_at_desk {W X} (m : ST Desk X) : quiet d_out m -> quiet on_screen (at_desk (W := W) m).
Proof. intros Hm b. specialize (Hm (b_desk b)). unfold at_desk. by destruct (m (b_desk b)). Qed.
Lemma quiet_here {W X} (m : ST W X) : quiet on_screen (here m).
Proof. intros b. unfold here. by destruct (m (b_world b)). Qed.
Lemma says_at_desk {W} Q (m : ST Desk Outcome) : says d_out Q m -> says on_screen Q (at_desk (W := W) m).
Proof. intros Hm b. destruct (Hm (b_desk b)) as (l & El & HQ). exists l. unfold at_desk. by destruct (m (b_desk b)). Qed.
Lemma says_show Q l r : Q r l -> says d_out Q (show l ;; mret r).
Proof. intros HQ d. exists l. split; [done|exact HQ]. Qed.

(** ** How a command ends *)
Definition statuses : list Z := [exitOK; exitFailed; exitUsage; exitComms; exitPartial; exitRefused].
Definition well_ended (r : Outcome) : Prop := r.1 ∈ statuses /\ (r.1 = exitOK <-> r.2 = None).

Lemma well_ended_error code e : code ∈ [exitFailed; exitUsage; exitComms; exitPartial; exitRefused] -> well_ended (code, Some e).
Proof.
  intros Hc. split; cbn [fst snd]; [by apply list_elem_of_further|]. split; [|done]. intros ->.
  exfalso. revert Hc. by apply (bool_decide_unpack (_ ∉ _)).
Qed.
Lemma well_ended_code e : well_ended (codeFor e, Some e).
Proof. apply well_ended_error. unfold codeFor. repeat case_match; by apply (bool_decide_unpack _). Qed.
Lemma well_ended_fine : well_ended fine.
Proof. split; [by apply (bool_decide_unpack _)|done]. Qed.

(** What was read of the answer decides, and every branch ends well. *)
Ltac branches := repeat first
  [ apply well_ended_fine | apply well_ended_code | apply well_ended_error; by apply (bool_decide_unpack _)
  | apply gives_ret | apply gives_at_desk | apply gives_bind; intro | case_match ].

Section Commands.
Context `{FiloEngine} `{!FiloType Request} `{!FiloType WireResponse} `{!FiloType (list Status)} `{!FiloType (list Change)}.
Context `{!FiloType (list Entry)} `{!FiloType (list LogLine)} `{!FiloType LogLine} `{!FiloType (list Series)}.
Context `{!FiloType (list ImageEntry)} `{!FiloType ImagePrune} `{!FiloType ServiceVersions} `{!FiloType Description}.
Context `{!FiloType JobRun} `{!FiloType Removal} `{!FiloType Backup_} `{!FiloType (list FileEntry)} `{!FiloType FileTransfer}.
Context `{!FiloType fleetVersion} `{!FiloType Image_} `{!FiloType WireDeclaration} `{Sha256} {W : Type} `{Transport W}.
Context (target : string) (now : Time) (block : Z) (local : Local) (carried : string) (cancelled : bool).
Context (docker_Open : option error) (tree : list Declaration * option error) (dir : string).
Abbreviation command := (dispatch (W := W) target now block local carried cancelled docker_Open tree dir).

Lemma answered_ends {T} `{!FiloType T} (zero : T) req use :
  (forall resp v, gives well_ended (use resp v)) -> gives well_ended (answered target zero req use).
Proof. intros Hu. unfold answered. branches. apply Hu. Qed.

Lemma log_ends opt args : gives well_ended (runLog target cancelled opt args).
Proof.
  unfold runLog. case_match.
  - intros d. destruct (Follow _ _ _ _ _) as [r [c out]]. cbn. branches.
  - apply answered_ends. intros resp lines. case_match; [unfold shown; branches|].
    intros d. destruct (for_eachE _ _ _) as [r out]. cbn. branches.
Qed.

Ltac opened :=
  unfold runStatus, runDescribe, runFleetVersion, runService, named_service, runPlan, runApply, showPlan, runAudit, runMetrics, runImage, runJob, runJobNow,
    runFile, runPush, runServiceDeploy, runServiceVersions, runServiceRemove, runServiceBackup, runImageList, runImagePrune, runImagePush, pushImage, saved,
    machineHolds, ask_machine, runFileList, runFileGet, runFilePut, runFileDelete, told_transfer, showStatus, usage, shown, comms, broken_answer, failed_with.
Ltac commands_end := repeat first [ apply log_ends | apply answered_ends; intros | progress branches ].


(** ** One document on stdout *)
(** The commands that honour -filo and -json with one document; the log is a
    stream of them, and what transfers files writes prose all the same. *)
Definition one_document (args : list string) : bool :=
  let named c l := bool_decide (c ∈ l) in
  match args with
  | [] => true
  | c :: rest =>
      let sub := default "" (head rest) in
      named c ["status"; "describe"; "version"; "plan"; "apply"; "audit"; "metrics"; "image"; "job"]
      || String.eqb c "service" && negb (named sub ["deploy"; "backup"])
      || String.eqb c "file" && negb (named sub ["get"; "put"; "rm"])
  end.

(** One document or nothing, exactly one where the command succeeded, and with
    -filo the daemon's own text. *)
Definition a_document (opt : options) (r : Outcome) (l : list Shown) : Prop :=
  (length l <= 1)%nat /\ (r.1 = exitOK -> length l = 1%nat) /\ (o_filoOut opt = true -> Forall (fun x => exists s, x = Raw s) l).

Section Document.
Context (opt : options) (Hshape : o_filoOut opt || o_jsonOut opt = true).

Lemma document_emit r body structured human : a_document opt r (emit opt body structured human).
Proof.
  unfold a_document, emit. destruct (o_filoOut opt); cbn in Hshape.
  - repeat split; [cbn; lia|]. intros _. constructor; [by eexists|constructor].
  - rewrite Hshape. split; [cbn; lia|]. done.
Qed.
Lemma document_none code e : code <> exitOK -> a_document opt (code, e) [].
Proof. intros Hc. split; [cbn; lia|]. split; [done|constructor]. Qed.
Lemma document_code e : a_document opt (codeFor e, Some e) [].
Proof. apply document_none. unfold codeFor. by repeat case_match. Qed.

Lemma answered_document {T} `{!FiloType T} (zero : T) req use :
  (forall resp v, says d_out (a_document opt) (use resp v)) -> says d_out (a_document opt) (answered target zero req use).
Proof.
  intros Hu. unfold answered. apply says_bind; [apply quiet_conn|]. intros [resp [e|]]; [by apply says_ret, document_none|].
  repeat case_match; try apply Hu; apply says_ret; [apply document_code|by apply document_none].
Qed.
End Document.

Ltac words := repeat match goal with
  | |- says _ _ (if String.eqb ?x ?y || _ then _ else _) => destruct (String.eqb_spec x y) as [->|_]; cbn [orb]
  | |- says _ _ (if String.eqb ?x ?y then _ else _) => destruct (String.eqb_spec x y) as [->|_]
  end.
Ltac documents Hs := repeat first
  [ apply answered_document; intros | apply says_at_desk
  | apply says_show; apply (document_emit _ Hs)
  | apply says_ret; first [apply document_code | by apply document_none]
  | apply says_bind; [by repeat first [apply quiet_conn | apply quiet_at_desk | apply quiet_here | apply quiet_ret | apply quiet_bind; intros | case_match] | intro]
  | progress case_match ].

(** With -filo or -json, stdout carries one document.  A command other than the
    log, a deploy, a push of declarations, a backup or a transfer of a file
    leaves on the screen what was there and at most one document more, exactly
    one when it succeeded; with -filo the document is text in the language of
    the daemon. *)
Theorem one_document_on_stdout opt args b :
  o_filoOut opt || o_jsonOut opt = true -> one_document args = true ->
  exists l, d_out (b_desk (command opt args b).2) = d_out (b_desk b) ++ l /\ a_document opt (command opt args b).1 l.
Proof.
  intros Hs Hone. revert b. change (says on_screen (a_document opt) (command opt args)). unfold dispatch.
  destruct args as [|c rest].
  { cbn. by apply says_ret, document_none. }
  change (default "" (head (c :: rest))) with c. change (tail (c :: rest)) with rest.
  words.
  all: try (exfalso; revert Hone; by vm_compute).
  all: opened.
  all: try (documents Hs; fail).
  - unfold service_op. destruct rest as [|sub rest]; [by apply says_ret, document_none|]. words.
    all: try (exfalso; revert Hone; by vm_compute).
    all: opened; documents Hs.
  - apply says_at_desk. destruct rest as [|sub rest]; [by apply says_ret, document_none|]. words.
    all: try (exfalso; revert Hone; by vm_compute).
    all: opened; documents Hs.
Qed.
End Commands.

(** What transfers a file is told the shape asked for and writes prose: the
    options only say where a file is kept. *)
Lemma transfers_ignore_the_shape target now block local carried cancelled docker_Open tree dir
    `{FiloEngine} `{!FiloType Request} `{!FiloType WireResponse} `{!FiloType (list Status)} `{!FiloType (list Change)}
    `{!FiloType (list Entry)} `{!FiloType (list LogLine)} `{!FiloType LogLine} `{!FiloType (list Series)}
    `{!FiloType (list ImageEntry)} `{!FiloType ImagePrune} `{!FiloType ServiceVersions} `{!FiloType Description}
    `{!FiloType JobRun} `{!FiloType Removal} `{!FiloType Backup_} `{!FiloType (list FileEntry)} `{!FiloType FileTransfer}
    `{!FiloType fleetVersion} `{!FiloType Image_} `{!FiloType WireDeclaration} `{Sha256} {W : Type} `{Transport W} opt opt' sub rest :
  sub ∈ ["put"; "rm"] ->
  dispatch (W := W) target now block local carried cancelled docker_Open tree dir opt ("file" :: sub :: rest) =
  dispatch (W := W) target now block local carried cancelled docker_Open tree dir opt' ("file" :: sub :: rest).
Proof. intros [<-|[<-|[]]]%list_elem_of_In; reflexivity. Qed.

Section Witness.
Import HostSamples.
#[local] Instance as_it_is (T : Type) : FiloType T := {| UnmarshalFromValue _ zero := Ok zero; filo_Marshal _ := Ok "" |}.
#[local] Instance answers_ok : FiloType WireResponse := any_type (MkWireResponse CodeOK "" 7 "(list)").
#[local] Instance no_docker : Transport unit := {| http_Do _ := mret (Err ErrNotExist) |}.
Definition in_filo : options :=
  MkOptions "yuki" [] false "" "" "" "" true false 200 3 "." "" "" "" "" false 0 0 false "" false "" "" 0 0.
Definition disk_here : Local := MkLocal (fun _ => None) None None (fun _ => Err ErrNotExist).
Definition asked := dispatch (W := unit) "yuki" 0 512 disk_here "" false None ([], None) "/tree" in_filo ["status"]
  (MkBench (MkDesk (MkConn (String newline "") "" None) [] ∅) tt []).
Lemma one_document_on_stdout_witness : exists l, d_out (b_desk asked.2) = [] ++ l /\ a_document in_filo asked.1 l.
Proof. by apply (one_document_on_stdout "yuki" 0 512 disk_here "" false None ([], None) "/tree" in_filo ["status"]). Defined.
Example asked_status : asked.1 = fine /\ d_out (b_desk asked.2) = [Raw ("(list)" +:+ String newline "")].
Proof. by vm_compute. Qed.
End Witness.
