(* ===== verification/RefusalProofs.v ===== *)
(** * RefusalProofs: exit status 6, "refused, nothing changed"

    What a daemon's refusal leaves behind, and what hostctl makes of it at the
    other end of the wire. *)
From S2P Require Import Prelude GoText GoTime GoPath Service Filo Tree DeclarationFiles AuditLog Runtime DockerClient Supervisor Schedule Plan Images Protocol MetricStore LogDatabase Volumes Host ServiceHandlers ImageHandlers FileHandlers Server TraceRuntime ScheduleProofs Client ClientProofs ServerProofs CommandLine Commands HostSamples.
From Stdlib Require Import Ascii SpecFloat.
Open Scope string_scope.
Open Scope list_scope.
Open Scope Z_scope.
Open Scope hostd_scope.

Definition refusals : list string := [CodeConflict; CodeDestructive; CodeRefused].

(** The supervisor refuses a run by an error of its own, which no answer of the
    runtime is. *)
Definition own (e : error) : bool := as_b is_run_refused e.
Record foreign (o : Oracle) : Prop := {
  fo_List : forall h l e, o_List o h l = Err e -> own e = false;
  fo_Volume : forall h n l e, o_EnsureVolume o h n l = Err e -> own e = false;
  fo_Network : forall h n e, o_EnsureNetwork o h n = Err e -> own e = false;
  fo_Remove : forall h r e, o_Remove o h r = Err e -> own e = false;
  fo_Create : forall h s e, o_Create o h s = Err e -> own e = false;
  fo_Start : forall h r e, o_Start o h r = Err e -> own e = false;
}.

(** ** Errors that are not the supervisor's refusal *)
Definition outside {S X} (m : ST S (result X)) : Prop := forall s e, (m s).1 = Err e -> own e = false.

Lemma outside_bindE {S X Y} (m : ST S (result X)) (f : X -> ST S (result Y)) :
  outside m -> (forall x, outside (f x)) -> outside (bindE m f).
Proof.
  intros Hm Hf s e E. unfold bindE in E. specialize (Hm s). destruct (m s) as [[x|e'] s1]; [by apply (Hf x) in E|].
  apply Hm. cbn in *. congruence.
Qed.
Lemma outside_bind {S X Y} (m : ST S X) (f : X -> ST S (result Y)) : (forall x, outside (f x)) -> outside (m ≫= f).
Proof. intros Hf s e. rewrite ST_step. apply Hf. Qed.
Lemma outside_ok {S X} (x : X) : outside (S := S) (mret (Ok x)).
Proof. done. Qed.
Lemma outside_map {S X Y} (l : list X) (f : X -> ST S (result Y)) : (forall x, outside (f x)) -> outside (map_ST l f).
Proof.
  intros Hf. induction l as [|x l IH]; [apply outside_ok|]. cbn [map_ST].
  apply outside_bindE; [apply Hf|]. intros y. apply outside_bindE; [done|]. intros ys. apply outside_ok.
Qed.

Lemma parseMount_outside v e : parseMount v = Err e -> own e = false.
Proof.
  unfold parseMount. set (fields := Split v ":"). clearbody fields. intros E.
  destruct (match fields with [_; _; _] => _ | _ => _ end) as [[ro l]|e'] eqn:El in E; cbn [mbind result_bind] in E.
  - repeat case_match; simplify_eq; done.
  - repeat case_match; simplify_eq; done.
Qed.
Lemma Mounts_outside svc e : Mounts svc = Err e -> own e = false.
Proof.
  unfold Mounts. generalize (Volumes svc). induction l as [|v l IH]; [done|]. cbn [map_result].
  destruct (parseMount v) as [m|e'] eqn:Ev; cbn; [|intros [= <-]; by eapply parseMount_outside].
  destruct (map_result parseMount l); cbn; [done|]. exact IH.
Qed.

Section Runs.
Context (o : Oracle) (Ho : foreign o) `{LogStore}.
#[local] Instance on_oracle : Runtime Trace := trace_runtime o.

Lemma createRun_outside svc slot : outside (createRun svc slot : ST (Sup Trace) _).
Proof.
  destruct Ho as [Hl Hv Hn Hr Hc Hs]. unfold createRun.
  apply outside_bindE.
  { unfold prepareMounts. destruct (Mounts svc) as [l|e] eqn:E; [|intros s e' [= <-]; by eapply Mounts_outside].
    apply outside_map. intros m. unfold prepare_mount. destruct (mount_Named m); [|apply outside_ok].
    apply outside_bindE; [|intros ?; apply outside_ok]. intros s e. apply Hv. }
  intros mounts. apply outside_bind. intros extra.
  apply outside_bindE; [intros s e; apply Hn|intros _]. apply outside_bindE; [intros s e; apply Hr|intros _].
  apply outside_bindE; [intros s e; apply Hc|intros id]. intros s e. rewrite ST_step.
  destruct (lift (rt_Start id) s) as [[[]|e'] s1] eqn:E; cbn [fst snd]; [done|].
  rewrite ST_step. cbn. intros [= <-]. unfold lift in E. cbn in E. eapply Hs. by injection E as E _.
Qed.

Lemma runsOf_outside n : outside (runsOf n : ST (Sup Trace) _).
Proof.
  unfold runsOf. apply outside_bindE; [|intros ?; apply outside_ok]. unfold containers. apply outside_bind. intros c.
  destruct (negb c); [by intros s e [= <-]|]. apply outside_bindE; [|intros ?; apply outside_ok]. intros s e. apply (fo_List o Ho).
Qed.
End Runs.

(** ** Handlers that refuse *)
Section Handlers.
Context (o : Oracle) (Ho : foreign o) {A : Type} `{LogStore} `{MapOrder Service} `{AuditorLaws A} `{Render}.
Context `{FiloEngine} `{!FiloType Service} `{!FiloType WireDeclaration} `{!FiloType Request} `{Sha256}.
Context `{TextSearch} `{Sql} `{Platform}.
#[local] Instance on_trace : Runtime Trace := trace_runtime o.
Implicit Types h : Host Trace A.

(** The supervisor as it was, but for questions put to the runtime and lines of
    its timeline. *)
Definition sup_stays (s s' : Sup Trace) : Prop :=
  extends (fun _ c => question c) (world s) (world s') /\
  exists said, s' = set_world (world s') (foldl (fun s r => add_record r s) s said).
(** The machine as it was: what runs, what is declared and remembered, the
    services directory, the volumes, the measurements and the generation. *)
Definition untouched h h' : Prop :=
  sup_stays (sup h) (sup h') /\ au_Generation (store h') = au_Generation (store h) /\ dir h' = dir h /\
  disks h' = disks h /\ metrics h' = metrics h /\ has_runtime h' = has_runtime h.

Lemma add_records_world said w (s : Sup Trace) :
  foldl (fun s r => add_record r s) (set_world w s) said = set_world w (foldl (fun s r => add_record r s) s said).
Proof. revert s. induction said as [|r l IH]; intros s; [done|]. cbn. by rewrite <- IH. Qed.

#[local] Instance sup_stays_preorder : PreOrder sup_stays.
Proof.
  split.
  - intros s. split; [constructor|]. exists []. by destruct s.
  - intros a b c [Hab (l & Eb)] [Hbc (k & Ec)]. split; [by eapply extends_trans|].
    exists (l ++ k). rewrite Ec, Eb, add_records_world, foldl_app. cbn. done.
Qed.
#[local] Instance untouched_preorder : PreOrder untouched.
Proof.
  split.
  - intros h. split_and!; done || reflexivity.
  - intros a b c (Ha & E1 & E2 & E3 & E4 & E5) (Hb & F1 & F2 & F3 & F4 & F5).
    split_and!; [by etransitivity|congruence..].
Qed.

Lemma asked_stays s s' : asked s s' -> sup_stays s s'.
Proof. intros [Hx E]. split; [done|]. exists []. done. Qed.

Lemma untouched_read h h' : read_only h h' -> untouched h h'.
Proof. intros (Ha & E1 & E2 & E3 & E4 & E5). split_and!; try done; [by apply asked_stays|by rewrite E1]. Qed.

Lemma untouched_sup {X} (m : ST (Sup Trace) X) h : sup_stays (sup h) (m (sup h)).2 -> untouched h (@on_sup Trace A X m h).2.
Proof. unfold on_sup. destruct (m (sup h)) as [x s]. cbn. intros Hs. by split_and!. Qed.

Lemma untouched_unchanged e h : untouched h (record e false h).2.
Proof.
  unfold record. pose proof (record_keeps (clock_ms h) e false (store h) (or_intror eq_refl)) as Hk.
  destruct (au_Record _ _ _ _) as [g a]. cbn in *. by split_and!.
Qed.

(** ** Answers that are no refusal *)
Definition polite (m : ST (Host Trace A) Response) : Prop := forall h, Code (m h).1 ∉ refusals.
Definition honest (m : ST (Host Trace A) Response) : Prop := forall h, Code (m h).1 ∈ refusals -> untouched h (m h).2.

Lemma polite_ret r : Code r ∉ refusals -> polite (mret r).
Proof. by intros Hr h. Qed.
Lemma polite_bind {X} (m : ST (Host Trace A) X) f : (forall x, polite (f x)) -> polite (m ≫= f).
Proof. intros Hf h. rewrite ST_step. apply Hf. Qed.
Lemma polite_stamped m : polite m -> polite (stamped m).
Proof. intros Hm h. unfold stamped. rewrite ST_step. specialize (Hm h). destruct (m h) as [r h1]. unfold stamp. cbn. by destruct (rs_Generation r =? 0). Qed.
Lemma polite_body v g : Code (with_generation g (body v)) ∉ refusals.
Proof. unfold body. destruct (render_error v); cbn; by apply (bool_decide_unpack _). Qed.
Lemma polite_body0 v : Code (body v) ∉ refusals.
Proof. unfold body. destruct (render_error v); cbn; by apply (bool_decide_unpack _). Qed.
Lemma polite_honest m : polite m -> honest m.
Proof. intros Hm h Hin. by destruct (Hm h). Qed.
Lemma honest_after {X} (m : ST (Host Trace A) X) f : moves untouched m -> (forall x, honest (f x)) -> honest (m ≫= f).
Proof. intros Hm Hf h. rewrite ST_step. intros Hin. etransitivity; [apply Hm|by apply Hf]. Qed.
Lemma honest_stamped m : honest m -> honest (stamped m).
Proof.
  intros Hm h. unfold stamped. rewrite ST_step. specialize (Hm h). destruct (m h) as [r h1]. unfold stamp. cbn in *.
  by destruct (rs_Generation r =? 0).
Qed.
Lemma honest_refuse e code cause : honest (refuse e code cause).
Proof. intros h _. unfold refuse. rewrite ST_step. apply untouched_unchanged. Qed.
Lemma honest_map m (f : Response -> Response) : honest m -> (forall r, Code (f r) = Code r) -> honest (r ← m; mret (f r)).
Proof. intros Hm Hf h. rewrite ST_step. cbn. rewrite Hf. apply Hm. Qed.

Ltac civil_code := first [apply polite_body | apply polite_body0 | (cbn; by apply (bool_decide_unpack _))].
Ltac civil := repeat first
  [ apply polite_stamped
  | apply polite_ret; repeat case_match; civil_code
  | apply polite_bind; intros ?
  | match goal with |- polite (if ?b then _ else _) => destruct b | |- polite (match ?x with _ => _ end) => destruct x
      | |- polite (failed _ _ _) => unfold failed end ].

(** Such an answer is not one of the handler that is left. *)
Ltac courteous :=
  let Hin := fresh in intros Hin; exfalso;
  match type of Hin with Code (?K ?x).1 ∈ _ => assert (Hp : polite K) by civil; exact (Hp x Hin) end.

Lemma honest_mutate req actor name fn : honest (mutate req actor name fn).
Proof.
  unfold mutate. destruct (String.eqb name ""); [apply polite_honest; civil|].
  apply honest_after; [intros h; reflexivity|]. intros [[]|e]; [|apply honest_refuse].
  apply polite_honest. unfold refuse. civil.
Qed.

Lemma Plan_stays l : moves sup_stays (@Plan _ on_trace l).
Proof. intros s. apply asked_stays, Plan_asks. Qed.

Lemma honest_apply req actor : honest (apply req actor).
Proof.
  unfold apply. apply honest_after; [intros h; reflexivity|]. intros where_.
  apply honest_after; [intros h; reflexivity|]. intros [[]|e]; [|apply honest_refuse].
  apply honest_after; [intros h; reflexivity|]. intros l.
  apply honest_after; [intros h; apply untouched_sup, Plan_stays|]. intros changes.
  destruct (HasDestructive changes && negb (AllowDestructive req)); [apply honest_map; [apply honest_refuse|done]|].
  apply polite_honest. civil.
Qed.

Lemma RunNow_refused name s e : (RunNow name s).1 = Err e -> own e = true -> sup_stays s (RunNow name s).2.
Proof.
  unfold RunNow. rewrite !ST_step. unfold declaration. cbn [gets fst snd].
  destruct (declared s !! name) as [svc|]; [|by intros [= <-]]. destruct (negb (IsJob svc)); [by intros [= <-]|].
  rewrite !ST_step. cbn [gets fst snd]. destruct (negb (client s)); [by intros [= <-]|]. rewrite !ST_step. cbn [gets fst snd].
  unfold startRun. rewrite !ST_step. intros Hr Hown.
  pose proof (runsOf_outside o Ho (Name svc) s) as Hout.
  assert (Hasks : sup_stays s (runsOf (Name svc) s).2).
  { apply asked_stays. unfold runsOf. apply moves_bindE; [apply _|apply containers_asks|]. intros ?. apply moves_ret, _. }
  destruct (runsOf (Name svc) s) as [[live|e'] s1]; cbn [fst snd] in *.
  2:{ rewrite ST_step in Hr. cbn in Hr. injection Hr as <-. rewrite (Hout e' eq_refl) in Hown. discriminate. }
  assert (Hsaid : forall m, sup_stays s1 (refuseRun (Name svc) m s1).2).
  { intros m. split; [constructor|]. eexists [_]. reflexivity. }
  revert Hr. destruct (String.eqb (Overlap svc) OverlapSkip && Nat.ltb 0 (length live)).
  { intros _. etransitivity; [exact Hasks|]. rewrite ST_step. apply Hsaid. }
  destruct (Parallel svc <=? Z.of_nat (length live)).
  { intros _. etransitivity; [exact Hasks|]. rewrite ST_step. apply Hsaid. }
  rewrite ST_step. intros Hr.
  pose proof (createRun_outside o Ho svc (now s) s1) as Hc.
  destruct (createRun svc (now s) s1) as [[id|e'] s2]; cbn [fst snd] in *.
  - unfold run_started in Hr. rewrite !ST_step in Hr. discriminate Hr.
  - rewrite ST_step in Hr. cbn in Hr. injection Hr as <-. rewrite (Hc e' eq_refl) in Hown. discriminate.
Qed.

Lemma honest_runJob req actor : honest (ServiceHandlers.runJob req actor).
Proof.
  unfold ServiceHandlers.runJob. destruct (String.eqb (rq_Name req) ""); [apply polite_honest; civil|].
  apply honest_after; [intros h; reflexivity|]. intros [[]|e]; [|apply honest_refuse].
  intros h. rewrite ST_step. pose proof (RunNow_refused (rq_Name req) (sup h)) as Hr.
  assert (Hs := untouched_sup (RunNow (rq_Name req)) h).
  unfold on_sup in *. destruct (RunNow (rq_Name req) (sup h)) as [[run|e] s1]; cbn [fst snd] in *.
  - courteous.
  - unfold runFailed. destruct (unknown e); [unfold refuse; courteous|]. destruct (as_b is_not_a_job e); [unfold refuse; courteous|].
    destruct (as_b is_run_refused e) eqn:Eo; [|unfold failed; courteous].
    intros Hin. etransitivity; [apply Hs, (Hr e eq_refl Eo)|]. by apply (honest_refuse _ CodeRefused e).
Qed.

(** A refusal leaves the machine as it was, whatever was asked. *)
Lemma honest_dispatch disk req actor : honest (dispatch disk req actor).
Proof.
  unfold dispatch. cbv zeta.
  repeat match goal with |- honest (if ?b then _ else _) => destruct b end;
    try apply honest_mutate; try apply honest_apply; try (apply honest_stamped, honest_runJob); apply polite_honest.
  all: unfold describe, status_all, planOnly, recent_entries, searchLogs, appendLogs, listFiles, listVolumes, deleteFile, readMetrics, listImages, serviceVersions, pruneImages, pullImage, removeService, removed, putService.
  all: civil.
  all: try (intros h; cbn; repeat case_match; civil_code).
Qed.
End Handlers.

(** ** At the other end of the wire *)
Section Wire.
Context (o : Oracle) (Ho : foreign o) {A L : Type} `{LogStore} `{MapOrder Service} `{HA : Auditor A} `{!AuditorLaws A} `{Render}.
Context `{FiloEngine} `{!FiloType Service} `{!FiloType WireDeclaration} `{!FiloType Request} `{Sha256}.
Context `{TextSearch} `{Sql} `{Platform}.
Context `{!FiloType WireResponse} `{!FiloType Backup_} `{!FiloType FileTransfer} `{!FiloType L} `{Rendered}.
Context `{!FiloType (list Status)} `{!FiloType (list Change)} `{!FiloType JobRun} `{!FiloType Removal}.
Context (line_text : LogLine -> L) (target : string) (clock : Time).
#[local] Instance wired : Runtime Trace := trace_runtime o.
Implicit Types h : Host Trace A.

(** A command as the operator sees it: its status, its error and the screen. *)
Definition at_screen (cmd : ST Desk Outcome) : ST Conn (Outcome * list Shown) := fun c =>
  let '(r, d) := cmd (MkDesk c [] ∅) in ((r, d_out d), d_conn d).

(** The commands that change a machine, and the request each sends. *)
Inductive changes_machine (opt : options) : Request -> ST Desk Outcome -> Prop :=
  | by_status req : changes_machine opt req (showStatus target clock opt req)
  | by_plan req empty : changes_machine opt req (showPlan target opt req empty)
  | by_job name :
      changes_machine opt (claiming (o_expectGen opt) false (o_onBehalfOf opt) (asking OpJobRun name)) (runJobNow target opt name)
  | by_removal name :
      changes_machine opt (claiming 0 false (o_onBehalfOf opt) (asking OpServiceRemove name)) (runServiceRemove target opt name).

(** What each does with the answer. *)
Lemma command_shape opt req cmd : changes_machine opt req cmd -> exists K : WireResponse * option error -> ST Desk Outcome,
  (forall d, cmd d = (r ← on_conn (Client.do target req); K r) d) /\
  (forall r d, d_conn (K r d).2 = d_conn d) /\
  (forall resp d, (K (resp, None) d).1.1 = exitRefused -> wr_Code resp ∈ refusals).
Proof.
  assert (Hcode : forall resp, codeFor (api_error resp) = exitRefused -> wr_Code resp ∈ refusals).
  { intros resp. unfold codeFor, api_error. cbn [errors_as is_api].
    destruct (_ || _); [discriminate|]. destruct (String.eqb _ CodeUnavailable); [discriminate|].
    destruct (_ || _) eqn:E; [|discriminate]. intros _. apply orb_true_iff in E as [E|E]; [apply orb_true_iff in E as [E|E]|];
      apply String.eqb_eq in E; rewrite E; by apply (bool_decide_unpack _). }
  intros [req'|req' empty|name|name]; (eexists; split; [intros d; reflexivity|split]).
  - intros [resp [e|]] d; cbn; [done|]. destruct (wr_Failed resp); [done|]. by destruct (decode _ _).
  - intros resp d. cbn. destruct (wr_Failed resp); [apply Hcode|]. by destruct (decode _ _).
  - intros [resp [e|]] d; cbn; [done|]. by destruct (if String.eqb (wr_Body resp) "" then _ else _).
  - intros resp d. cbn. destruct (if String.eqb (wr_Body resp) "" then _ else _); [|done]. cbn.
    destruct (wr_Failed resp); [|done]. destruct (String.eqb _ CodeFailed); [done|]. apply Hcode.
  - intros [resp [e|]] d; cbn; [done|]. destruct (wr_Failed resp); [done|]. by destruct (decode _ _).
  - intros resp d. cbn. destruct (wr_Failed resp); [apply Hcode|]. by destruct (decode _ _).
  - intros [resp [e|]] d; cbn; [done|]. destruct (wr_Failed resp); [done|]. by destruct (decode _ _).
  - intros resp d. cbn. destruct (wr_Failed resp); [apply Hcode|]. by destruct (decode _ _).
Qed.

Lemma talk_screen req cmd (K : WireResponse * option error -> ST Desk Outcome) env actor h :
  (forall d, cmd d = (r ← on_conn (Client.do target req); K r) d) -> (forall r d, d_conn (K r d).2 = d_conn d) ->
  let t := talk line_text (Client.do target req) env actor h in
  exists d, talk line_text (at_screen cmd) env actor h = ((K t.1 d).1, d_out (K t.1 d).2, t.2).
Proof.
  intros Hcmd Hconn. unfold talk. cbv zeta.
  assert (Hat : forall c, at_screen cmd c =
    let '(r, c') := Client.do target req c in
    let '(x, d) := K r (MkDesk c' [] ∅) in ((x, d_out d), c')).
  { intros c. unfold at_screen. rewrite Hcmd, ST_step. unfold on_conn. cbn [d_conn d_out d_files].
    destruct (Client.do target req c) as [r c']. cbn [fst snd]. pose proof (Hconn r (MkDesk c' [] ∅)) as Hc.
    destruct (K r (MkDesk c' [] ∅)) as [x d]. cbn in Hc. by rewrite Hc. }
  assert (Hw : written (at_screen cmd (MkConn "" "" None)).2 = written (Client.do target req (MkConn "" "" None)).2).
  { rewrite Hat. destruct (Client.do target req (MkConn "" "" None)) as [r c']. by destruct (K r (MkDesk c' [] ∅)). }
  rewrite Hw. destruct (handle env actor _ h) as [out h']. cbn [fst snd]. rewrite Hat.
  destruct (Client.do target req (MkConn (respond line_text out) "" None)) as [r c']. cbn [fst snd].
  exists (MkDesk c' [] ∅). by destruct (K r (MkDesk c' [] ∅)).
Qed.

(** C24: Exit status 6 means that nothing changed.  A command that changes a
    machine is run over a connection to it, and ends with status 6: then the
    container runtime was only asked questions, and what is declared, what the
    supervisor remembers, the services directory, the volumes, the measurements
    and the generation are what they were; all that is new is lines of the
    timeline and an entry of the audit.  The runtime may answer anything but the
    supervisor's own refusal. *)
Theorem exit_six_changed_nothing opt req cmd env actor h code err screen h' :
  changes_machine opt req cmd -> answered_inline (Op req) -> travels req empty_request ->
  travels (on_wire (dispatch (a_disk env) req actor h).1) no_response ->
  talk line_text (at_screen cmd) env actor h = (((code, err), screen), h') ->
  code = exitRefused -> untouched h h'.
Proof.
  intros Hcmd Hop Hreq Hresp Ht Hcode. destruct (command_shape opt req cmd Hcmd) as (K & Hk & Hconn & Hsix).
  destruct (talk_screen req cmd K env actor h Hk Hconn) as (d & E). rewrite E in Ht. clear E.
  rewrite (remote_call_is_local line_text target env actor req h Hop Hreq Hresp) in Ht. cbn [fst snd] in Ht.
  pose proof (honest_dispatch o Ho (a_disk env) req actor h) as Hhonest.
  destruct (dispatch (a_disk env) req actor h) as [resp h1]. cbn [fst snd] in *.
  specialize (Hsix (on_wire resp) d). destruct (K (on_wire resp, None) d) as [[c e] d']. cbn in *. simplify_eq.
  apply Hhonest. by apply Hsix.
Qed.
End Wire.

Section Witness.
Import ClientProofs.Wire.
#[local] Instance some_statuses : FiloType (list Status) := any_type [].
#[local] Instance some_changes : FiloType (list Change) := any_type [].
#[local] Instance some_run : FiloType JobRun := any_type (MkJobRun "" "").
#[local] Instance some_removal : FiloType Removal := any_type (MkRemoval "" "" (Lit "")).

Definition plain : options :=
  MkOptions "" [] false "" "" "" "" false false 200 3 "." "" "" "" "" false 0 0 false "" false "" "" 0 0.
Definition apply_all : Request := request_for OpApply "" "" "".

Lemma calm_is_foreign l : foreign (calm l).
Proof.
  split; cbn; try done. 
Qed.

(** Nothing declares the web server any more: the apply is turned away with 6. *)
Definition turned_back := talk id (at_screen (showPlan "yuki" plain apply_all "nothing to change")) calm_around "ana" machine.
Lemma exit_six_changed_nothing_witness : turned_back.1.1.1 = exitRefused /\ untouched machine turned_back.2.
Proof.
  assert (Hcode : turned_back.1.1.1 = exitRefused) by (vm_compute; reflexivity). split; [exact Hcode|].
  refine (exit_six_changed_nothing (calm running_web) (calm_is_foreign running_web) id "yuki" noon plain apply_all
    (showPlan "yuki" plain apply_all "nothing to change") calm_around "ana" machine _ turned_back.1.1.2 turned_back.1.2 _
    (by_plan _ _ _ _ _) _ _ _ _ Hcode).
  - unfold answered_inline. by apply (bool_decide_unpack _).
  - exists (fields [OpApply; ""; ""]). split; [|split; [|split]]; [vm_compute; reflexivity|vm_compute; by split|vm_compute; reflexivity|vm_compute; reflexivity].
  - match goal with |- travels ?v _ => exists (TrimRight (match filo_Marshal v with Ok s => s | Err _ => "" end) nl) end.
    split; [|split; [|split]]; [vm_compute; reflexivity|vm_compute; by split|vm_compute; reflexivity|vm_compute; reflexivity].
  - unfold turned_back. destruct (talk _ _ _ _ _) as [[[? ?] ?] ?]. reflexivity.
Defined.
End Witness.
