(* ===== verification/Install.v ===== *)
(** * Install: putting this hostctl's own daemon on a machine

    src/cmd/hostctl/install.go, selftest.go and rollback.go.  The machine is
    reached by ssh, one command at a time, and its daemon by a connection; both
    are operations of [Remote].  The scripts that run on the machine are shell
    and are carried as their text; unzipping the embedded daemon is [binary]. *)
From S2P Require Import Prelude GoText GoTime Service Plan Host CommandLine.
From Stdlib Require Import Ascii SpecFloat.
Open Scope string_scope.
Open Scope list_scope.
Open Scope Z_scope.
Open Scope hostd_scope.

(** ** What a machine answers *)
Definition safe_byte (c : ascii) : bool :=
  Ascii.eqb c "/" || Ascii.eqb c "." || Ascii.eqb c "-" || Ascii.eqb c "_" ||
  ((97 <=? code c) && (code c <=? 122)) || ((65 <=? code c) && (code c <=? 90)) || is_digit c.
Fixpoint all_safe (s : string) : bool :=
  match s with "" => true | String c rest => safe_byte c && all_safe rest end.

Definition scratchPath (answer : string) : result string :=
  let path := TrimSpace answer in
  if String.eqb path "" then Err (EMsg ("mktemp -d answered nothing, so there is nowhere to put the daemon", []))
  else if ContainsAny path (String newline (String carriage ""))
  then Err (EMsg ("mktemp -d answered more than one line, which is a shell that says something on login: %q", [AStr answer]))
  else if negb (HasPrefix path "/")
  then Err (EMsg ("mktemp -d answered %q, which is not an absolute path", [AStr path]))
  else if Contains path ".." then Err (EMsg ("mktemp -d answered %q, which walks back up a tree", [AStr path]))
  else if all_safe path then Ok path
  else Err (EMsg ("mktemp -d answered %q, which carries characters a scratch directory has no reason to", [AStr path])).

Definition hostdArch (answer : string) : result string :=
  let '(system, machine, _) := Cut (TrimSpace answer) " " in
  let machine := TrimSpace machine in
  if String.eqb system "Darwin"
  then Err (EMsg ("this is a Mac, and hostd services belong on Linux; to test in loopback, run hostd there as yourself — it keeps its state under the user's own config directory", []))
  else if negb (String.eqb system "Linux")
  then Err (EMsg ("hostd runs on Linux, and this machine answers %q", [AStr (TrimSpace answer)]))
  else if String.eqb machine "x86_64" then Ok "amd64"
  else if String.eqb machine "aarch64" || String.eqb machine "arm64" then Ok "arm64"
  else Err (EMsg ("hostd targets x86_64 and aarch64, not %s", [AStr machine])).

Definition versionIn (line : string) : string :=
  match Fields line with
  | word :: version :: _ => if String.eqb word "hostd" then version else ""
  | _ => ""
  end.

Definition transition (before now : string) : string :=
  if String.eqb before "" then "installed"
  else if Contains before now then "unchanged"
  else let was := versionIn before in if String.eqb was "" then "replaced" else "replaced " +:+ was.

Definition staleDaemon (carried version : string) : option Msg :=
  if String.eqb carried "" || String.eqb carried version then None
  else Some ("this hostctl is %s and carries hostd %s: the stamps disagree, so the embedded daemon may be from another build — make builds both together",
             [AStr version; AStr carried]).

(** ** What an upgrade must not change *)
Definition was_running (s : Status) : Prop := st_State s = StateRunning /\ st_PID s <> 0.
Definition runningIn (statuses : list Status) : list Status := filter was_running statuses.
Definition kept (wasRunning : list Status) : Msg :=
  match wasRunning with
  | [] => ("no service was running", [])
  | _ => ("%d service(s) kept running", [AInt (Z.of_nat (length wasRunning))])
  end.

(** The map by name: of two statuses of a name the later. *)
Definition by_status_name (after : list Status) : gmap string Status := foldl (fun m s => <[st_Name s := s]> m) ∅ after.
Definition complaint (after : gmap string Status) (was : Status) : option Msg :=
  match after !! st_Name was with
  | None => Some ("%s was running as pid %d and the machine no longer declares it", [AStr (st_Name was); AInt (st_PID was)])
  | Some cur =>
      if negb (String.eqb (st_State cur) StateRunning)
      then Some ("%s was running as pid %d and is now %s", [AStr (st_Name was); AInt (st_PID was); AStr (st_State cur)])
      else if negb (st_PID cur =? st_PID was)
      then Some ("%s was running as pid %d and is now pid %d, so its container was replaced",
                 [AStr (st_Name was); AInt (st_PID was); AInt (st_PID cur)])
      else None
  end.
Definition lostServices (before after : list Status) : list Msg := omap (complaint (by_status_name after)) (runningIn before).

(** ** Reaching the machine *)

(** [ssh] runs a command there with what it reads, [reach] connects to the daemon
    and asks its status, [wait] sleeps, and [Now] and [Done] are the clock and
    the operator's interrupt; [hang_up] ends the connection ssh shares, so that
    the next command is a fresh login. *)
Class Remote (R : Type) := {
  ssh : string -> string -> ST R (result string);
  reach : ST R (result (result (list Status)));
  Now : R -> Time;
  wait : Z -> R -> R;
  Done : R -> bool;
  hang_up : R -> R;
}.

Definition adoptionSettle : Z := 20 * Second.
Definition adoptionPoll : Z := Second.

Section Install.
Context {R : Type} `{Remote R}.
(** The scripts, the unit, the daemon for an architecture, its version and this
    program's own. *)
Context (installScript rollbackScript unit_ : string) (binary : string -> result string) (carried version : string).

(** One look at what the machine runs: nothing said of it, or what was lost. *)
Definition look (before : list Status) : ST R (option (list Msg)) :=
  r ← reach;
  mret match r with
       | Err e => Some [("could not be reached to check: %v", [AMsg (error_msg e)])]
       | Ok (Err e) => Some [("could not read what is running: %v", [AMsg (error_msg e)])]
       | Ok (Ok after) => match lostServices before after with [] => None | lost => Some lost end
       end.

(** A look, and another a poll later until the machine has settled; the settling
    time is twenty polls, which bounds the looks. *)
Fixpoint survive_go (fuel : nat) (deadline : Time) (before : list Status) : ST R (list Msg) :=
  match fuel with
  | O => mret []
  | S n =>
      r ← look before;
      match r with
      | None => mret []
      | Some complaints =>
          late ← gets (fun w => After (Now w) deadline);
          if late : bool then mret complaints else
          over ← gets Done;
          if over : bool then mret complaints
          else modify (wait adoptionPoll) ;; survive_go n deadline before
      end
  end.
Definition looks : nat := 22.
Definition servicesSurvived (before : list Status) : ST R (list Msg) :=
  match runningIn before with
  | [] => mret []
  | _ => t ← gets Now; survive_go looks (Add t adoptionSettle) before
  end.

Record rollback := MkRollback { rb_version : string; rb_problem : option Msg; rb_stillLost : list Msg }.
Definition goBack (wasRunning : list Status) : ST R rollback :=
  r ← ssh "sh -s" rollbackScript;
  match r with
  | Err e => mret (MkRollback "" (Some (error_msg e)) [])
  | Ok out =>
      let v := TrimSpace out in
      if String.eqb v "" then mret (MkRollback "" (Some ("the machine did not say which daemon came back", [])) [])
      else lost ← servicesSurvived wasRunning; mret (MkRollback v None lost)
  end.
Definition report (host : string) (r : rollback) : list Msg :=
  match rb_problem r, rb_stillLost r with
  | Some problem, _ => [("%s: could not go back to the previous daemon: %s", [AStr host; AMsg problem])]
  | None, [] => [("%s: went back to %s and the work is running again", [AStr host; AStr (rb_version r)])]
  | None, lost =>
      ("%s: went back to %s, and the work has not returned yet:", [AStr host; AStr (rb_version r)]) ::
      ((fun c => ("%s:   %s", [AStr host; AMsg c])) <$> lost) ++
      [("%s: the drift round recreates what a declaration still names; if it does not, the declaration or the image is what to look at", [AStr host])]
  end.

Definition runningServices : ST R (list Status) :=
  r ← reach; mret match r with Ok (Ok statuses) => runningIn statuses | _ => [] end.

Definition send_to (host path content : string) : ST R (result unit) :=
  r ← ssh ("cat > '" +:+ path +:+ "'") content;
  mret match r with Err e => Err (EWrap ("%s: sending %s: %w", [AStr host; AStr path]) e) | Ok _ => Ok tt end.
Definition at_host {X} (host : string) (r : result X) : result X :=
  match r with Err e => Err (EWrap ("%s: %w", [AStr host]) e) | Ok x => Ok x end.

Definition remoteArch (host : string) : ST R (result string) :=
  r ← ssh "uname -sm" ""; mret (at_host host (answer ← at_host host r; hostdArch answer)).

(** The status and the error, and what is said on the way. *)
Abbreviation Verdict := (Z * option error * list Msg)%type.
Definition stop (code : Z) (e : error) : ST R Verdict := mret (code, Some e, []).

(** The end of an install: the daemon that came up, and the work it kept. *)
Definition settle_install (host machine before reported : string) (wasRunning : list Status) : ST R Verdict :=
  if negb (String.eqb reported carried)
  then stop exitFailed (EMsg ("%s: the daemon that came up reports %s, not the %s just installed; the restart did not take",
                          [AStr host; AStr reported; AStr carried]))
  else
    lost ← servicesSurvived wasRunning;
    match lost with
    | [] =>
        mret (exitOK, None, [("%s;%s;%s;%s;%s",
          [AStr host; AStr machine; AStr reported; AStr (transition before reported); AMsg (kept wasRunning)])])
    | _ =>
        restored ← goBack wasRunning;
        mret (exitFailed,
          Some (EMsg ("%s did not keep its services through the upgrade to %s, so it was put back; hostd is meant to be replaceable without touching them",
                  [AStr host; AStr reported])),
          ((fun c => ("%s: %s", [AStr host; AMsg c])) <$> lost) ++
          [("%s: putting the previous daemon back", [AStr host])] ++ report host restored)
    end.

(** The files sent to the scratch directory, and the script that puts them in
    their place: what the daemon that came up says it is. *)
Definition place (host dir : string) (daemon : string) : ST R (result (result string)) :=
  _ ←! send_to host (dir +:+ "/hostd") daemon;
  _ ←! send_to host (dir +:+ "/hostd.service") unit_;
  reported ← ssh ("REMOTE_DIR='" +:+ dir +:+ "' sh -s") installScript;
  mret (Ok (answer ← at_host host reported; Ok (TrimSpace answer))).

Definition runInstall (host : string) (args : list string) : ST R Verdict :=
  match args with
  | _ :: _ => stop exitUsage (EMsg ("install takes no arguments; name the machine with -host, -hosts, -tag or -all", []))
  | [] =>
      if String.eqb host "" then stop exitUsage (EMsg ("install needs a machine; name it with -host", [])) else
      machine ← remoteArch host;
      match machine with
      | Err e => stop exitComms e
      | Ok machine =>
          match binary machine with
          | Err e => stop exitFailed e
          | Ok daemon =>
              before ← ssh "/usr/local/bin/hostd -version 2>/dev/null || true" "";
              let before := match before with Ok s => TrimSpace s | Err _ => "" end in
              wasRunning ← runningServices;
              answer ← ssh "mktemp -d" "";
              match at_host host answer with
              | Err e => stop exitComms e
              | Ok answer =>
                  match at_host host (scratchPath answer) with
                  | Err e => stop exitFailed e
                  | Ok dir =>
                      placed ← place host dir daemon;
                      match placed with
                      | Err e => stop exitComms e
                      | Ok (Err e) => stop exitFailed e
                      | Ok (Ok reported) =>
                          modify hang_up ;;
                          settle_install host machine before reported wasRunning
                      end
                  end
              end
          end
      end
  end.
End Install.

(** ** An install that says it worked *)
(** ** The scratch directory *)
Lemma safe_no_byte c s : safe_byte c = false -> all_safe s = true -> contains_byte c s = false.
Proof.
  intros Hc. induction s as [|x s IH]; [done|]. cbn. intros Hs. apply andb_true_iff in Hs as [Hx Hs].
  rewrite contains_byte_cons, (IH Hs), orb_false_r. apply Ascii.eqb_neq. intros ->. congruence.
Qed.

(** What a machine answers for a scratch directory goes back to it inside a
    quoted shell word, and cannot leave it.  An answer that is accepted is one
    absolute path of letters, digits and / . - _, without the two dots that walk
    up a tree, so that it holds neither a quote nor a line break; and an answer
    that is such a path, with white space around it or not, is accepted. *)
Theorem scratch_path_inert answer :
  (forall p, scratchPath answer = Ok p ->
    p = TrimSpace answer /\ all_safe p = true /\ HasPrefix p "/" = true /\ Contains p ".." = false /\
    contains_byte "'" p = false /\ contains_byte newline p = false /\ contains_byte carriage p = false) /\
  (all_safe (TrimSpace answer) = true -> HasPrefix (TrimSpace answer) "/" = true -> Contains (TrimSpace answer) ".." = false ->
    scratchPath answer = Ok (TrimSpace answer)).
Proof.
  unfold scratchPath. set (p := TrimSpace answer). split.
  - intros q. destruct (String.eqb p ""); [done|]. destruct (ContainsAny _ _); [done|].
    destruct (HasPrefix p "/") eqn:Ep; [|done]. destruct (Contains p "..") eqn:Ed; [done|]. destruct (all_safe p) eqn:Es; [|done].
    intros [= <-]. split_and!; try done; by apply safe_no_byte.
  - intros Hs Hp Hd. destruct (String.eqb_spec p "") as [E|_]; [by rewrite E in Hp|].
    assert (Hn : forall s, all_safe s = true -> ContainsAny s (String newline (String carriage "")) = false).
    { induction s as [|c s IH]; [done|]. cbn [all_safe]. intros Hcs. apply andb_true_iff in Hcs as [Hc Hcs]. cbn [ContainsAny].
      rewrite (IH Hcs), orb_false_r.
      destruct (contains_byte c (String newline (String carriage ""))) eqn:E; [|by rewrite ?E].
      exfalso. rewrite !contains_byte_cons in E. apply orb_true_iff in E as [E|E]; [|apply orb_true_iff in E as [E|E]; [|done]];
        apply Ascii.eqb_eq in E; subst c; done. }
    by rewrite (Hn p Hs), Hp, Hd, Hs.
Qed.

(** ** What an upgrade cost *)
Lemma by_status_name_last after n : by_status_name after !! n = last (filter (fun s => st_Name s = n) after).
Proof.
  unfold by_status_name. rewrite <- (reverse_involutive after). generalize (reverse after). intros l. clear after.
  induction l as [|s l IH]; [done|]. rewrite reverse_cons, foldl_app, filter_app. cbn [foldl].
  rewrite filter_cons, filter_nil. destruct (decide (st_Name s = n)) as [E|E].
  - rewrite <- E, lookup_insert_eq. by rewrite last_snoc.
  - rewrite lookup_insert_ne by done. by rewrite app_nil_r.
Qed.

(** The service runs as it did: the machine's last word on it is running, under
    the same process. *)
Definition still_there (after : list Status) (was : Status) : Prop :=
  exists cur, last (filter (fun s => st_Name s = st_Name was) after) = Some cur /\
    st_State cur = StateRunning /\ st_PID cur = st_PID was.

Lemma complaint_none after was : complaint (by_status_name after) was = None <-> still_there after was.
Proof.
  unfold complaint, still_there. rewrite by_status_name_last.
  destruct (last _) as [cur|]; [|split; [done|by intros (? & ? & _)]].
  destruct (String.eqb_spec (st_State cur) StateRunning) as [E|E]; cbn.
  - destruct (Z.eqb_spec (st_PID cur) (st_PID was)) as [F|F]; cbn; split; try done.
    + intros _. by exists cur.
    + intros (c & [= <-] & _ & ?). done.
  - split; [done|]. intros (c & [= <-] & ? & _). done.
Qed.

Lemma complaint_names after was m :
  complaint after was = Some m -> exists format rest, m = (format, AStr (st_Name was) :: AInt (st_PID was) :: rest).
Proof. unfold complaint. repeat case_match; intros [= <-]; by eexists _, _. Qed.

(** What an upgrade cost is said in full and nothing else is.  There is no
    complaint exactly when every status before it that was running as a process
    is still running under the same one, by the machine's last word on it; each
    complaint names a service and process of which that is not so, and each such
    service has one. *)
Theorem lost_exact before after :
  (lostServices before after = [] <-> forall was, was ∈ before -> was_running was -> still_there after was) /\
  (forall m, m ∈ lostServices before after -> exists was format rest,
     was ∈ before /\ was_running was /\ ~ still_there after was /\ m = (format, AStr (st_Name was) :: AInt (st_PID was) :: rest)) /\
  (forall was, was ∈ before -> was_running was -> ~ still_there after was -> exists format rest,
     (format, AStr (st_Name was) :: AInt (st_PID was) :: rest) ∈ lostServices before after).
Proof.
  assert (Hin : forall m, m ∈ lostServices before after <->
    exists was, was ∈ before /\ was_running was /\ complaint (by_status_name after) was = Some m).
  { intros m. unfold lostServices, runningIn. rewrite list_elem_of_omap. split.
    - intros (was & Hw%list_elem_of_filter & Hm). exists was. tauto.
    - intros (was & Hw & Hr & Hm). exists was. split; [|done]. by apply list_elem_of_filter. }
  split_and!.
  - split.
    + intros E was Hw Hr. apply complaint_none. destruct (complaint _ was) as [m|] eqn:Em; [|done].
      assert (Hm : m ∈ lostServices before after) by (apply Hin; eauto). rewrite E in Hm. by apply elem_of_nil in Hm.
    + intros Hall. apply elem_of_nil_inv. intros m (was & Hw & Hr & Em)%Hin.
      apply Hall in Hr; [|done]. apply complaint_none in Hr. congruence.
  - intros m (was & Hw & Hr & Em)%Hin. destruct (complaint_names _ _ _ Em) as (f & rest & ->). exists was, f, rest.
    split_and!; try done. rewrite <- complaint_none. congruence.
  - intros was Hw Hr Hn. rewrite <- complaint_none in Hn. destruct (complaint (by_status_name after) was) as [m|] eqn:Em; [|done].
    destruct (complaint_names _ _ _ Em) as (f & rest & ->). exists f, rest. apply Hin. eauto.
Qed.

(** ** The settling time *)
Section Settle.
Context {R : Type} `{Remote R}.
(** Asking takes no time back, and sleeping takes the time it says. *)
Context (reach_forward : forall r, Now r <= Now (reach r).2) (wait_forward : forall d r, Now r + d <= Now (wait d r)).

Lemma look_now before w : Now w <= Now (look before w).2.
Proof. unfold look. rewrite ST_step. apply reach_forward. Qed.

Lemma survive_S n deadline before :
  survive_go (S n) deadline before =
  (r ← look before;
   match r with
   | None => mret []
   | Some complaints =>
       late ← gets (fun w => After (Now w) deadline);
       if late : bool then mret complaints else
       over ← gets Done;
       if over : bool then mret complaints else modify (wait adoptionPoll) ;; survive_go n deadline before
   end).
Proof. reflexivity. Qed.

Lemma survive_settles before deadline n m w :
  deadline - Now w < Z.of_nat n * adoptionPoll -> (n <= m)%nat ->
  survive_go (S m) deadline before w = survive_go (S n) deadline before w.
Proof.
  revert m w. induction n as [|n IH]; intros m w Hd Hm; rewrite (survive_S m), survive_S, !ST_step;
    pose proof (look_now before w) as Hl; destruct (look before w) as [[complaints|] w1]; cbn [fst snd] in *; try done;
    rewrite !ST_step; cbn [gets fst snd].
  - replace (After (Now w1) deadline) with true; [done|]. unfold After. lia.
  - destruct (After (Now w1) deadline); [done|]. rewrite !ST_step. cbn [gets fst snd]. destruct (Done w1); [done|].
    rewrite !ST_step. cbn [modify fst snd]. destruct m as [|m]; [lia|].
    apply IH; [|lia]. pose proof (wait_forward adoptionPoll w1). lia.
Qed.

(** The self-test of an install ends.  Where asking takes no time back and
    sleeping takes the time it says, the looks the model allows it are never used
    up: allowing more changes nothing, so a machine that does not settle is given
    up on by the clock, after twenty seconds, and never by a count. *)
Theorem self_test_ends before more w :
  survive_go (looks + more) (Add (Now w) adoptionSettle) before w = survive_go looks (Add (Now w) adoptionSettle) before w.
Proof.
  apply (survive_settles before (Add (Now w) adoptionSettle) 21 (21 + more) w); [|lia].
  unfold Add, adoptionSettle, adoptionPoll, Second. lia.
Qed.

Definition seen_whole (before : list Status) : Prop :=
  exists w after, (reach w).1 = Ok (Ok after) /\ lostServices before after = [].

Lemma look_says before w :
  match (look before w).1 with None => seen_whole before | Some complaints => complaints <> [] end.
Proof.
  unfold look. rewrite ST_step. destruct (reach w) as [[[after|e]|e] w1] eqn:E; cbn [mret ST_ret fst snd]; [|done..].
  destruct (lostServices before after) eqn:El; [|done]. exists w, after. by rewrite E.
Qed.

Lemma survive_clean before deadline n w :
  deadline - Now w < Z.of_nat n * adoptionPoll -> (survive_go (S n) deadline before w).1 = [] -> seen_whole before.
Proof.
  revert w. induction n as [|n IH]; intros w Hd; rewrite survive_S, !ST_step;
    pose proof (look_now before w) as Hl; pose proof (look_says before w) as Hs;
    destruct (look before w) as [[complaints|] w1]; cbn [fst snd] in *; try done; rewrite !ST_step; cbn [gets fst snd].
  - replace (After (Now w1) deadline) with true by (unfold After; lia). done.
  - destruct (After (Now w1) deadline); [done|]. rewrite !ST_step. cbn [gets fst snd]. destruct (Done w1); [done|].
    rewrite !ST_step. cbn [modify fst snd]. apply IH. pose proof (wait_forward adoptionPoll w1). lia.
Qed.

(** ** What an install that says it worked has checked *)
Context (installScript rollbackScript unit_ : string) (binary : string -> result string) (carried : string).

Lemma filter_twice l : runningIn (runningIn l) = runningIn l.
Proof.
  unfold runningIn. induction l as [|s l IH]; [done|]. rewrite filter_cons. case_decide; [|done].
  rewrite filter_cons, decide_True by done. by rewrite IH.
Qed.

Lemma settle_ok host machine before reported was w err out w' :
  settle_install rollbackScript carried host machine before reported was w = ((exitOK, err, out), w') ->
  err = None /\ reported = carried /\ (runningIn was = [] \/ seen_whole was).
Proof.
  unfold settle_install. destruct (String.eqb_spec reported carried) as [E|E]; cbn [negb]; [|done].
  rewrite ST_step. unfold servicesSurvived. destruct (runningIn was) eqn:Er.
  - cbn. intros [= <- <- <-]. auto.
  - rewrite ST_step. cbn [gets fst snd].
    assert (Hc := fun Hd => survive_clean was (Add (Now w) adoptionSettle) 21 w Hd : (survive_go looks (Add (Now w) adoptionSettle) was w).1 = [] -> seen_whole was).
    destruct (survive_go looks (Add (Now w) adoptionSettle) was w) as [[|c lost] w1] eqn:Es; cbn [fst snd].
    + intros [= <- <- <-]. split_and!; [done|done|right]. apply Hc; [|done].
      unfold Add, adoptionSettle, adoptionPoll, Second. lia.
    + by rewrite ST_step.
Qed.

End Settle.


(** ** Concrete machines *)

(** A version that the one before begins with is taken for the same one. *)
Lemma prefix_is_unchanged : transition "hostd 1.10 (protocol 1, schema 1)" "1.1" = "unchanged".
Proof. reflexivity. Qed.

Definition status_of (name state : string) (pid : Z) : Status :=
  MkStatus name StateRunning state pid false f64_zero 0 0 0 (Lit "") "" "" "".
(** A job whose run was going when the daemon was replaced, and ended well
    meanwhile, is taken for a service the upgrade lost. *)
Lemma ended_run_is_lost :
  lostServices [status_of "tick" StateRunning 41] [status_of "tick" StatusScheduled 0] =
  [("%s was running as pid %d and is now %s", [AStr "tick"; AInt 41; AStr StatusScheduled])].
Proof. vm_compute. reflexivity. Qed.

(** A clock, and what the daemon answers: the web server comes back at second 3. *)
#[local] Instance slow_machine : Remote Z := {|
  ssh command _ w := (Ok (if String.eqb command "uname -sm" then "Linux x86_64" else
                          if String.eqb command "mktemp -d" then "/tmp/tmp.a1" else "v2"), w);
  reach w := (Ok (Ok [status_of "web" (if w <? 3 * Second then StatusStarting else StateRunning) 7]), w);
  Now w := w; wait d w := w + d; Done _ := false; hang_up w := 1 |}.

Lemma slow_forward : (forall r : Z, Now r <= Now (reach r).2) /\ (forall d r : Z, Now r + d <= Now (wait d r)).
Proof. split; intros; cbn; lia. Qed.
Lemma self_test_ends_witness :
  survive_go (looks + 5) (Add (Now (1 : Z)) adoptionSettle) [status_of "web" StateRunning 7] (1 : Z) =
  survive_go looks (Add (Now (1 : Z)) adoptionSettle) [status_of "web" StateRunning 7] (1 : Z).
Proof.
  exact (self_test_ends (proj1 slow_forward) (proj2 slow_forward) [status_of "web" StateRunning 7] 5 1).
Defined.

#[local] Instance steady_machine : Remote (unit * Z) := {|
  ssh command _ w := (Ok (if String.eqb command "uname -sm" then "Linux x86_64" else
                          if String.eqb command "mktemp -d" then "/tmp/tmp.a1" else "v2"), w);
  reach w := (Ok (Ok [status_of "web" StateRunning 7]), w);
  Now w := w.2; wait d w := (w.1, w.2 + d); Done _ := false; hang_up w := w |}.
Lemma steady_forward : (forall r : unit * Z, Now r <= Now (reach r).2) /\ (forall d (r : unit * Z), Now r + d <= Now (wait d r)).
Proof. split; intros; cbn; lia. Qed.
Definition installed := runInstall (R := unit * Z) "install" "rollback" "unit" (fun a => Ok a) "v2" "yuki" [] (tt, 0).
