(* ===== verification/Caddyfile.v ===== *)
(** * Caddyfile: a proxy's configuration from what the tree declares

    src/cmd/hostctl/caddyfile.go and alert.go: the blocks of the file, in an
    order that does not change between two generations, and what the window says
    of a machine itself. *)
From S2P Require Import Prelude GoText Service Tree DockerClient CommandLine Fleet.
From Stdlib Require Import Ascii.
Open Scope string_scope.
Open Scope list_scope.
Open Scope Z_scope.

Record site := MkSite { s_domains : list string; s_upstream : string; s_service : string }.

Definition site_of (svc : Service) : option site :=
  match Domain svc with
  | [] => None
  | domains => Some (MkSite (merge_sort String.le domains) (Upstream svc) (Name svc))
  end.

Definition first_domain (s : site) : string := default "" (head (s_domains s)).
(** By the first name, then by the service. *)
Definition site_le (a b : site) : Prop :=
  if String.eqb (first_domain a) (first_domain b) then String.le (s_service a) (s_service b)
  else String.le (first_domain a) (first_domain b).
#[export] Instance site_le_dec a b : Decision (site_le a b).
Proof. unfold site_le. destruct (String.eqb _ _); apply _. Defined.

Definition sites_of (declared : list Service) : list site := merge_sort site_le (omap site_of declared).

(** The domains of one site: who holds each, and the first that is taken. *)
Fixpoint own_domains (service : string) (domains : list string) (owner : gmap string string) : result (gmap string string) :=
  match domains with
  | [] => Ok owner
  | d :: rest =>
      match owner !! d with
      | Some held => Err (EMsg ("%s is declared by both %s and %s; one name cannot reach two services",
                            [AStr d; AStr held; AStr service]))
      | None => own_domains service rest (<[d := service]> owner)
      end
  end.
Fixpoint own_sites (sites : list site) (owner : gmap string string) : result (gmap string string) :=
  match sites with
  | [] => Ok owner
  | s :: rest => owner ← own_domains (s_service s) (s_domains s) owner; own_sites rest owner
  end.
Definition oneOwnerPerDomain (sites : list site) : result unit := _ ← own_sites sites ∅; Ok tt.

Definition line (s : string) : string := s +:+ String newline "".
Definition tab (s : string) : string := String (chr 9) s.
Definition caddy_header (source host : string) : string :=
  line ("# Generated by hostctl caddyfile from the declarations in " +:+ source +:+ ".") +:+
  (if String.eqb host "" then "" else line ("# For " +:+ host +:+ ": only what the tree places there is here.")) +:+
  line "# It is an ordinary file from here on. Edit it by hand if you need to;" +:+
  line "# nothing regenerates it, and hostd only carries what is beside the" +:+
  line "# declaration.".
Definition block_of (s : site) : string :=
  line "" +:+ line (Join (s_domains s) ", " +:+ " {") +:+ line (tab ("reverse_proxy " +:+ s_upstream s)) +:+ line "}".

Definition caddyfile (declared : list Service) (source host : string) : result string :=
  match omap site_of declared with
  | [] => Ok ""
  | _ => _ ← oneOwnerPerDomain (sites_of declared);
         Ok (caddy_header source host +:+ concat_text (block_of <$> sites_of declared))
  end.

(** [tree] is what service.LoadTree read of the directory -config names. *)
Definition runCaddyfile (tree : list Declaration * option error) (o : options) (args : list string) : Z * option error * string :=
  match args with
  | _ :: _ => (exitUsage, Some (EMsg ("caddyfile takes no arguments; it reads the declarations in %s", [AStr (o_config o)])), "")
  | [] =>
      if o_filoOut o || o_jsonOut o
      then (exitUsage, Some (EMsg ("caddyfile writes a Caddyfile, so -filo and -json do not apply to it", [])), "")
      else match tree.2 with
           | Some e => (exitFailed, Some e, "")
           | None =>
               match caddyfile (d_Service <$> tree.1) (o_config o) (o_host o) with
               | Err e => (exitFailed, Some e, "")
               | Ok out =>
                   if String.eqb out ""
                   then (exitFailed, Some (EMsg ("no declaration in %s names a domain, so there is nothing to serve", [AStr (o_config o)])), "")
                   else (exitOK, None, out)
               end
           end
  end.

(** ** What holds of it *)
Lemma own_domains_spec service domains owner :
  match own_domains service domains owner with
  | Ok owner' => NoDup domains /\ (forall d, d ∈ domains -> owner !! d = None) /\
      dom owner' = list_to_set domains ∪ dom owner
  | Err _ => ~ (NoDup domains /\ forall d, d ∈ domains -> owner !! d = None)
  end.
Proof.
  revert owner. induction domains as [|d l IH]; intros owner; cbn.
  - split_and!; [constructor|by intros d ?%elem_of_nil|set_solver].
  - destruct (owner !! d) as [held|] eqn:E.
    + intros [_ Hf]. specialize (Hf d ltac:(left)). congruence.
    + specialize (IH (<[d := service]> owner)). destruct (own_domains service l _) as [owner'|e].
      * destruct IH as (Hn & Hf & Hd). split_and!.
        -- apply NoDup_cons. split; [|done]. intros Hin. specialize (Hf d Hin). by rewrite lookup_insert_eq in Hf.
        -- intros x [->|Hx]%elem_of_cons; [done|]. specialize (Hf x Hx). destruct (decide (d = x)) as [->|]; [done|]. by rewrite lookup_insert_ne in Hf.
        -- rewrite Hd, dom_insert_L. set_solver.
      * intros [[Hni Hn]%NoDup_cons Hf]. destruct IH. split; [done|]. intros x Hx. rewrite lookup_insert_ne; [by apply Hf; right|]. intros ->. done.
Qed.

Lemma own_sites_spec sites owner :
  is_ok (own_sites sites owner) = true <->
  NoDup (concat (s_domains <$> sites)) /\ forall d, d ∈ concat (s_domains <$> sites) -> owner !! d = None.
Proof.
  revert owner. induction sites as [|s l IH]; intros owner.
  - cbn. split; [intros _; split; [constructor|by intros d ?%elem_of_nil]|done].
  - cbn [own_sites]. rewrite fmap_cons. cbn [concat]. rewrite NoDup_app.
    pose proof (own_domains_spec (s_service s) (s_domains s) owner) as Hs.
    destruct (own_domains _ _ owner) as [owner'|e]; cbn [mbind result_bind].
    + destruct Hs as (Hn & Hf & Hd). rewrite IH. split.
      * intros (Hl & Hfl). assert (Hfree : forall x, x ∈ concat (s_domains <$> l) -> x ∉ dom owner') by (intros x Hx; by apply not_elem_of_dom, Hfl).
        split_and!; try done.
        -- intros x Hx Hx'. apply (Hfree x Hx'). rewrite Hd. apply elem_of_union_l. by apply elem_of_list_to_set.
        -- intros x [Hx|Hx]%elem_of_app; [by apply Hf|]. apply not_elem_of_dom. specialize (Hfree x Hx). rewrite Hd in Hfree. set_solver.
      * intros ((_ & Hdis & Hl) & Hfl). split; [done|]. intros x Hx. apply not_elem_of_dom. rewrite Hd. apply not_elem_of_union. split.
        -- rewrite elem_of_list_to_set. intros Hx'. by apply (Hdis x).
        -- apply not_elem_of_dom, Hfl, elem_of_app. by right.
    + split; [done|]. intros ((Hn & _ & _) & Hfl). destruct Hs. split; [done|]. intros x Hx. apply Hfl, elem_of_app. by left.
Qed.

Lemma domains_perm declared : concat (s_domains <$> sites_of declared) ≡ₚ concat (Domain <$> declared).
Proof.
  unfold sites_of. rewrite merge_sort_Permutation. induction declared as [|svc l IH]; [done|].
  cbn [omap list_omap]. unfold site_of at 1. rewrite fmap_cons. cbn [concat]. destruct (Domain svc) as [|d ds]; [exact IH|].
  rewrite fmap_cons. cbn [concat s_domains]. by rewrite IH, merge_sort_Permutation.
Qed.

#[export] Instance site_le_trans : Transitive site_le.
Proof.
  intros a b c. unfold site_le. intros Hab Hbc.
  destruct (String.eqb_spec (first_domain a) (first_domain b)) as [Eab|Eab],
    (String.eqb_spec (first_domain b) (first_domain c)) as [Ebc|Ebc],
    (String.eqb_spec (first_domain a) (first_domain c)) as [Eac|Eac]; try congruence.
  - by etransitivity.
  - destruct Eab. apply (anti_symm String.le); [done|]. by rewrite Eac.
  - by etransitivity.
Qed.

Lemma same_first l a b :
  NoDup (concat (s_domains <$> l)) -> a ∈ l -> b ∈ l -> s_domains a <> [] -> first_domain a = first_domain b ->
  s_domains b <> [] -> a = b.
Proof.
  intros Hn Ha Hb Hna E Hnb.
  assert (Hin : forall s, s_domains s <> [] -> first_domain s ∈ s_domains s) by (intros [[|d ds] ? ?]; [done|left]).
  apply Hin in Hna, Hnb. rewrite <- E in Hnb. clear E. revert Hn Ha Hb. induction l as [|s l IH]; [by intros _ ?%elem_of_nil|].
  rewrite fmap_cons. cbn [concat]. rewrite NoDup_app. intros (_ & Hdis & Hn).
  assert (Hl : forall x y, x ∈ s_domains y -> y ∈ l -> x ∈ concat (s_domains <$> l)).
  { intros x y Hx Hy. apply list_elem_of_In, in_concat. exists (s_domains y). split; apply list_elem_of_In; [by apply list_elem_of_fmap_2|done]. }
  intros [->|Ha]%elem_of_cons [->|Hb]%elem_of_cons; [done|..]; [| |by apply IH].
  - destruct (Hdis _ Hna). by apply (Hl _ b).
  - destruct (Hdis _ Hnb). by apply (Hl _ a).
Qed.

Lemma sites_settled declared declared' :
  declared ≡ₚ declared' -> NoDup (concat (Domain <$> declared)) -> sites_of declared = sites_of declared'.
Proof.
  intros Hp Hn.
  assert (Htot : Total site_le).
  { intros a b. unfold site_le. rewrite String.eqb_sym. destruct (String.eqb (first_domain b) (first_domain a)); apply (total String.le). }
  assert (Hhas : forall l s, s ∈ sites_of l -> s_domains s <> []).
  { intros l s. unfold sites_of. rewrite merge_sort_Permutation, list_elem_of_omap. intros (svc & _ & E). unfold site_of in E.
    destruct (Domain svc) as [|d ds] eqn:Ed; [done|]. injection E as <-. cbn [s_domains]. intros E.
    pose proof (merge_sort_Permutation String.le (d :: ds)) as Hpd. rewrite E in Hpd. by apply Permutation_nil_l in Hpd. }
  assert (Hperm : sites_of declared ≡ₚ sites_of declared').
  { unfold sites_of. rewrite !merge_sort_Permutation. by rewrite Hp. }
  apply (StronglySorted_unique_strong site_le); [|apply StronglySorted_merge_sort; apply _..|done].
  intros a b Ha Hb Hab Hba. rewrite <- Hperm in Hb. rewrite <- domains_perm in Hn.
  apply (same_first (sites_of declared)); [done..|by eapply Hhas| |by eapply Hhas].
  unfold site_le in Hab, Hba. rewrite String.eqb_sym in Hba.
  destruct (String.eqb_spec (first_domain a) (first_domain b)) as [E|_]; [done|]. by apply (anti_symm String.le).
Qed.

(** A generated Caddyfile serves each declared name once.  It is refused
    exactly when a name is declared twice, and empty exactly when none is
    declared; otherwise it is its header and one block for each service with a
    name, sorted; and the same declarations read in another order give the same
    file. *)
Theorem caddyfile_exact declared source host :
  let names := concat (Domain <$> declared) in
  (is_ok (caddyfile declared source host) = true <-> NoDup names) /\
  (caddyfile declared source host = Ok "" <-> names = []) /\
  (forall text, caddyfile declared source host = Ok text -> names <> [] ->
     exists sites, sites ≡ₚ omap site_of declared /\ Sorted site_le sites /\
       text = caddy_header source host +:+ concat_text (block_of <$> sites)) /\
  (forall declared' text, declared ≡ₚ declared' -> caddyfile declared source host = Ok text ->
     caddyfile declared' source host = Ok text).
Proof.
  intros names.
  assert (Hnil : omap site_of declared = [] <-> names = []).
  { unfold names. induction declared as [|svc l IH]; [done|]. cbn [omap list_omap]. unfold site_of at 1. rewrite fmap_cons. cbn [concat].
    destruct (Domain svc); [exact IH|]. done. }
  assert (Hown : is_ok (oneOwnerPerDomain (sites_of declared)) = true <-> NoDup names).
  { assert (E : is_ok (oneOwnerPerDomain (sites_of declared)) = is_ok (own_sites (sites_of declared) ∅)).
    { unfold oneOwnerPerDomain. by destruct (own_sites _ _). }
    rewrite E, own_sites_spec, domains_perm. split; [by intros [? _]|]. intros Hn. split; [done|]. intros d _. apply lookup_empty. }
  assert (Hsame : forall declared' text, declared ≡ₚ declared' -> caddyfile declared source host = Ok text ->
     caddyfile declared' source host = Ok text).
  { intros declared' text Hp. assert (Hpo : omap site_of declared ≡ₚ omap site_of declared') by (by rewrite Hp). unfold caddyfile.
    destruct (omap site_of declared) as [|s l] eqn:El; [by apply Permutation_nil_l in Hpo as <-|].
    destruct (omap site_of declared') eqn:El'; [by apply Permutation_nil_r in Hpo|].
    destruct (oneOwnerPerDomain (sites_of declared)) as [[]|e] eqn:Eo; [|done]. rewrite <- (sites_settled declared declared' Hp).
    - rewrite Eo. done.
    - by apply Hown. }
  cut ((is_ok (caddyfile declared source host) = true <-> NoDup names) /\ (caddyfile declared source host = Ok "" <-> names = []) /\
    (forall text, caddyfile declared source host = Ok text -> names <> [] -> exists sites, sites ≡ₚ omap site_of declared /\
       Sorted site_le sites /\ text = caddy_header source host +:+ concat_text (block_of <$> sites))); [tauto|].
  unfold caddyfile. destruct (omap site_of declared) as [|s l] eqn:El.
  - assert (En : names = []) by tauto. rewrite En. split_and!; [|done|done]. split; [constructor|done].
  - rewrite <- El in *. assert (Hne : names <> []) by (intros En; apply Hnil in En; congruence).
    destruct (oneOwnerPerDomain (sites_of declared)) as [[]|e]; cbn [mbind result_bind].
    + split_and!.
      * tauto.
      * split; [|done]. intros E. exfalso. injection E as E. unfold caddy_header in E. done.
      * intros text [= <-] _. exists (sites_of declared). split_and!; [apply merge_sort_Permutation| |done].
        apply Sorted_merge_sort. intros a b. unfold site_le. rewrite String.eqb_sym.
        destruct (String.eqb (first_domain b) (first_domain a)); apply (total String.le).
    + split_and!; [tauto|done|done].
Qed.

