(* ===== verification/HostctlMain.v ===== *)
(** * HostctlMain: hostctl from its arguments to its exit status

    src/cmd/hostctl/main.go: run, with the flags it defines, their values and
    defaults, the help it prints, -version, and where the rest goes; the
    beginning of runGUI (gui.go) and reaching a machine (connect here, DialUnix
    and DialSSH in src/api).  What one machine answers is a parameter: Deploy.v and
    Install.v are its two sides. *)
From S2P Require Import Prelude GoText GoTime GoPath Filo Tree DockerClient Images Host Protocol Server Client CommandLine Fleet HostSamples Deploy Install Caddyfile.
From Stdlib Require Import Ascii SpecFloat.
Open Scope string_scope.
Open Scope list_scope.
Open Scope Z_scope.

(** ** The values of flags *)
(** strconv.ParseBool *)
Definition ParseBool (s : string) : option bool :=
  if bool_decide (s ∈ ["1"; "t"; "T"; "TRUE"; "true"; "True"]) then Some true
  else if bool_decide (s ∈ ["0"; "f"; "F"; "FALSE"; "false"; "False"]) then Some false else None.

Definition underscore : ascii := "_"%char.
(** The value of a digit of any base. *)
Definition digit_value (c : ascii) : option Z :=
  let c := lower_byte c in
  if is_digit c then Some (code c - 48) else if (97 <=? code c) && (code c <=? 122) then Some (code c - 87) else None.
Fixpoint base_value (base : Z) (s : string) (n : Z) : option Z :=
  match s with
  | "" => Some n
  | String c rest =>
      if Ascii.eqb c underscore then base_value base rest n
      else match digit_value c with Some d => if d <? base then base_value base rest (n * base + d) else None | None => None end
  end.

(** The base its prefix names, and what follows the prefix. *)
Definition base_of (s : string) : Z * string :=
  match s with
  | String "0" rest =>
      let plain := if String.eqb s "0" then (10, s) else (8, rest) in
      match rest with
      | String c (String _ _ as digits) =>
          let c := lower_byte c in
          if Ascii.eqb c "b" then (2, digits) else if Ascii.eqb c "o" then (8, digits) else if Ascii.eqb c "x" then (16, digits) else plain
      | _ => plain
      end
  | _ => (10, s)
  end.

(** underscoreOK: an underscore stands between two digits, or after the prefix.
    [saw] is what came before: a digit, an underscore, or neither. *)
Inductive Saw := SawStart | SawDigit | SawUnderscore | SawOther.
Fixpoint underscores_go (hex : bool) (saw : Saw) (s : string) : bool :=
  match s with
  | "" => match saw with SawUnderscore => false | _ => true end
  | String c rest =>
      let l := code (lower_byte c) in
      if is_digit c || (hex && (97 <=? l) && (l <=? 102)) then underscores_go hex SawDigit rest
      else if Ascii.eqb c underscore then match saw with SawDigit => underscores_go hex SawUnderscore rest | _ => false end
      else match saw with SawUnderscore => false | _ => underscores_go hex SawOther rest end
  end.
Definition underscoreOK (s : string) : bool :=
  match s with
  | String "0" (String c rest) =>
      let l := lower_byte c in
      if bool_decide (l ∈ ["b"%char; "o"%char; "x"%char]) then underscores_go (Ascii.eqb l "x") SawDigit rest
      else underscores_go false SawStart s
  | _ => underscores_go false SawStart s
  end.

(** strconv.ParseUint(s, 0, 64) and strconv.ParseInt(s, 0, 64): [None] is an
    error. *)
Definition ParseUint0 (s : string) : option Z :=
  if String.eqb s "" then None else
  let '(base, digits) := base_of s in
  n ← base_value base digits 0;
  if (n <? 2 ^ 64) && (negb (contains_byte underscore s) || underscoreOK s) then Some n else None.
Definition ParseInt0 (s : string) : option Z :=
  let '(neg, digits) := match s with
    | String c rest => if Ascii.eqb c "-" then (true, rest) else if Ascii.eqb c "+" then (false, rest) else (false, s)
    | "" => (false, s)
    end in
  n ← ParseUint0 digits;
  if neg : bool then if n <=? 2 ^ 63 then Some (- n) else None else if n <? 2 ^ 63 then Some n else None.

Example numbers_as_typed : ParseInt0 "0x10" = Some 16 /\ ParseInt0 "-1_000" = Some (-1000) /\ ParseInt0 "010" = Some 8 /\ ParseInt0 "1__0" = None /\
  ParseInt0 "0" = Some 0 /\ ParseInt0 "_1" = None /\ ParseInt0 "0b" = None /\ ParseUint0 "-1" = None /\ ParseInt0 "9223372036854775808" = None.
Proof. by vm_compute. Qed.

(** ** The flags of hostctl *)
Inductive Kind := KString | KBool | KInt | KUint64 | KDuration.
Inductive FlagValue := VStr (s : string) | VBool (b : bool) | VInt (z : Z).
Record FlagDef := MkFlagDef { fd_name : string; fd_kind : Kind; fd_default : FlagValue; fd_usage : string }.

Definition flag_table : list FlagDef := [
  MkFlagDef "host" KString (VStr "") "machine to operate; without it, the hostd on this machine";
  MkFlagDef "hosts" KString (VStr "") "machines to operate, separated by commas";
  MkFlagDef "all" KBool (VBool false) "every machine listed in the inventory";
  MkFlagDef "tag" KString (VStr "") "every machine carrying this tag in the inventory";
  MkFlagDef "config" KString (VStr "") "directory of declarations to send (default the hostd directory of your config)";
  MkFlagDef "inventory" KString (VStr "") "file listing the fleet (default inventory.filo inside -config)";
  MkFlagDef "remote-command" KString (VStr "hostd -stdio") "what ssh runs on the machine to reach its daemon";
  MkFlagDef "socket" KString (VStr "") "path to the hostd control socket";
  MkFlagDef "filo" KBool (VBool false) "write the result as Filo and nothing else";
  MkFlagDef "json" KBool (VBool false) "write the result as JSON and nothing else";
  MkFlagDef "limit" KInt (VInt 200) "maximum number of log lines";
  MkFlagDef "keep" KInt (VInt DefaultImageKeep) "versions of each still-declared image a prune leaves behind";
  MkFlagDef "out" KString (VStr ".") "directory a backup is saved into";
  MkFlagDef "stream" KString (VStr "") "only stdout, stderr or event";
  MkFlagDef "service" KString (VStr "") "only this service";
  MkFlagDef "kind" KString (VStr "") "only events of this kind, e.g. service.exited";
  MkFlagDef "run" KString (VStr "") "only this run of a job";
  MkFlagDef "follow" KBool (VBool false) "keep watching for new lines";
  MkFlagDef "since" KUint64 (VInt 0) "only lines after this sequence";
  MkFlagDef "expect-generation" KUint64 (VInt 0) "refuse if the host has moved past this generation";
  MkFlagDef "allow-destructive" KBool (VBool false) "authorise changes that take a running service away";
  MkFlagDef "on-behalf-of" KString (VStr "") "identity this command is being run for, recorded in the audit log";
  MkFlagDef "dry-run" KBool (VBool false) "show what apply would do, and do nothing";
  MkFlagDef "debug" KBool (VBool false) "write one key=value diagnostic line per request to stderr";
  MkFlagDef "version" KBool (VBool false) "print the version and exit";
  MkFlagDef "scope" KString (VStr "") "metrics of the host or of the services";
  MkFlagDef "metric" KString (VStr "") "only this metric, e.g. cpu-percent";
  MkFlagDef "window" KDuration (VInt 0) "how far back metrics reach; without it, the latest values";
  MkFlagDef "step" KDuration (VInt 0) "seconds per metric point; without it, the finest the window still has"
].

(** Value.Set of each kind of flag. *)
Definition parse_value (k : Kind) (s : string) : option FlagValue :=
  match k with
  | KString => Some (VStr s)
  | KBool => VBool <$> ParseBool s
  | KInt => VInt <$> ParseInt0 s
  | KUint64 => VInt <$> ParseUint0 s
  | KDuration => VInt <$> ParseDuration s
  end.

Definition is_bool (k : Kind) : bool := match k with KBool => true | _ => false end.
Definition flags_by_name : gmap string FlagDef := list_to_map ((fun d => (fd_name d, d)) <$> flag_table).
Definition formal : gmap string bool := (fun d => is_bool (fd_kind d)) <$> flags_by_name.
Definition value_of (name value : string) : option FlagValue := d ← flags_by_name !! name; parse_value (fd_kind d) value.
Definition accepts (name value : string) : bool := bool_decide (is_Some (value_of name value)).

(** The variables the flags are bound to, by the flag's name. *)
Definition Variables : Type := gmap string FlagValue.
Definition at_start : Variables := fd_default <$> flags_by_name.
Definition set_variable (s : string * string) (v : Variables) : Variables :=
  match value_of s.1 s.2 with Some x => <[s.1 := x]> v | None => v end.
Definition set_all (settings : list (string * string)) (v : Variables) : Variables := foldl (fun v s => set_variable s v) v settings.

Definition text_at (v : Variables) (name : string) : string := match v !! name with Some (VStr s) => s | _ => "" end.
Definition switch_at (v : Variables) (name : string) : bool := match v !! name with Some (VBool b) => b | _ => false end.
Definition number_at (v : Variables) (name : string) : Z := match v !! name with Some (VInt z) => z | _ => 0 end.

Definition comma : ascii := ","%char.
(** The options as the flags left them, with the machines of -hosts. *)
Definition options_of (v : Variables) : options :=
  MkOptions (text_at v "host") (if String.eqb (text_at v "hosts") "" then [] else Split (text_at v "hosts") comma) (switch_at v "all") (text_at v "tag")
    (text_at v "config") (text_at v "inventory") (text_at v "remote-command") (switch_at v "filo") (switch_at v "json")
    (number_at v "limit") (number_at v "keep") (text_at v "out") (text_at v "stream") (text_at v "kind") (text_at v "run") (text_at v "service")
    (switch_at v "follow") (number_at v "since") (number_at v "expect-generation") (switch_at v "allow-destructive") (text_at v "on-behalf-of")
    (switch_at v "dry-run") (text_at v "scope") (text_at v "metric") (number_at v "window") (number_at v "step").

(** ** The help *)
Definition usage_head : string := "hostctl operates hostd.

usage:
  hostctl                              watch the fleet in a window
  hostctl -host <machine> status       operate a machine over the network
  hostctl -all status                  ask every machine at once
  hostctl status                       what every service is doing
  hostctl describe                     versions and capabilities of the daemon
  hostctl -all version                 which machines are not on the daemon this
                                       hostctl carries
  hostctl service deploy <name>        put a service from the tree on that
                                       machine — declaration, image and a fresh
                                       container; deploying again overwrites,
                                       which is how a new version goes live
  hostctl service remove <name>        take it off that machine — container,
                                       declaration and image; the tree still
                                       describes it, and a deploy puts it back
  hostctl service backup <name>        run the service's own backup_data.sh on
                                       the machine and save the file it makes
                                       here (-out says where); everything the
                                       script says lands in the machine's log
  hostctl service list                 same as status, by service
  hostctl service versions <name>      which versions it could be put back on
  hostctl job run <name>               run a job now, without waiting for it
  hostctl file ls <name> [vol/path]    the files in a service's data volumes
  hostctl file get <name> <vol/path>   download one of them (-out says where)
  hostctl file put <name> <local> <vol/path>
                                       place a file in a service's data
  hostctl file rm <name> <vol/path>    delete one file of it, by name
  hostctl service start <name>         ask a service to run
  hostctl service stop <name>          ask a service to stop
  hostctl service restart <name>       stop and start a service
  hostctl service redeploy <name>      a fresh container from the declaration,
                                       resolving its image tag again
  hostctl plan                         what an apply would do, without doing it
  hostctl apply                        re-read the services directory and converge
  hostctl audit                        who changed what, and when
  hostctl log [pattern]                what the services wrote
  hostctl log -follow                  keep watching
  hostctl caddyfile                    write a Caddyfile from what the tree
                                       declares, to stdout
  hostctl push                         refresh the declarations of the services
                                       that machine already runs, from the tree
  hostctl install                      put this hostctl's own hostd on it
  hostctl image ls                     the images that machine holds
  hostctl image prune                  what an image cleanup would remove
  hostctl image push <image>           send an image built here to that machine
                                       (sending is not deploying: a service runs
                                       what its declaration names)
  hostctl metrics                      what the host and its services are using
  hostctl metrics -window 1h           the same, over a window

flags:
".
Definition usage_tail : string := "
output:
  the requested result goes to stdout, diagnostics to stderr.
  -filo makes stdout a Filo expression and nothing else, and -json the same
  answer as JSON. Filo is what the daemon speaks; JSON is rendered here, from
  the same values, for whatever reads it more easily.

exit status:
  0 success   1 failed   2 bad arguments   3 no connection
  4 not authorised   5 partial success   6 refused, nothing changed

the network:
  -host names one machine, -hosts a few, -all every machine in the inventory,
  and -tag those carrying a tag there. Several machines are asked at once and
  each answer is printed whole under its host; exit 5 means some answered and
  some did not.

  Reaching a machine is ssh running " +:+ Quote "hostd -stdio" +:+ " on it, so authentication,
  host identity and the record of the attempt are sshd's, and no port of ours
  is on the network. Membership of the hostd group on that machine is the
  permission to operate it, and the audit records the account that did.

example:
  hostctl -host yuki.local status
  hostctl -all metrics
  hostctl log -service api -follow
  hostctl metrics -service api -metric cpu-percent -window 30m
".

(** flags.PrintDefaults: by name; a default that is the zero of its kind is not
    said. *)
Definition kind_name (k : Kind) : string := match k with KString => "string" | KBool => "" | KInt => "int" | KUint64 => "uint" | KDuration => "duration" end.
Definition tab : ascii := chr 9.
Definition said_default (v : FlagValue) : string :=
  match v with
  | VStr s => if String.eqb s "" then "" else " (default " +:+ Quote s +:+ ")"
  | VBool b => if b then " (default true)" else ""
  | VInt z => if z =? 0 then "" else " (default " +:+ itoa z +:+ ")"
  end.
Definition print_default (d : FlagDef) : string :=
  let head := "  -" +:+ fd_name d +:+ (if String.eqb (kind_name (fd_kind d)) "" then "" else " " +:+ kind_name (fd_kind d)) in
  head +:+ (if len head <=? 4 then String tab "" else String newline ("    " +:+ String tab "")) +:+
  fd_usage d +:+ said_default (fd_default d) +:+ String newline "".
Definition PrintDefaults (l : list FlagDef) : string :=
  concat_text (print_default <$> omap (fun n => flags_by_name !! n) (sorted_keys (list_to_set (fd_name <$> l)))).
Definition usage : string := usage_head +:+ PrintDefaults flag_table +:+ usage_tail.

(** ** The machine behind a name *)
Inductive Way := ThisMachine (socket : string) | BySSH (arguments : list string).
(** connect: where a machine is reached. *)
Definition connect (socket : string) (o : options) : Way :=
  if String.eqb (o_host o) "" then ThisMachine socket else BySSH (SSHArguments (o_host o) (Fields (o_remote o))).
(** DialUnix and DialSSH: [opened] is what opening the socket or starting ssh
    gave. *)
Definition reached {L} (w : Way) (opened : result L) : result L :=
  match opened, w with
  | Ok l, _ => Ok l
  | Err e, ThisMachine path => Err (EWrap ("cannot reach hostd on %s: %w; is it running? check with systemctl status hostd", [AStr path]) e)
  | Err e, BySSH _ => Err (EWrap ("cannot run ssh: %w", []) e)
  end.

(** The line -debug writes for each request: what Do was answered, and how long
    it took, in microseconds. *)
Definition debug_line (req : Request) (target : string) (elapsed : Z) (r : result WireResponse) : Msg :=
  let '(code, body) := match r with Ok resp => (wr_Code resp, wr_Body resp) | Err _ => ("no-answer", "") end in
  ("debug op=%s target=%s elapsed-ms=%.1f code=%s body-bytes=%d",
   [AStr (Op req); AStr target; AStr (FormatFixed 1 (f64_div (f64_of_Z elapsed) (f64_of_Z 1000))); AStr code; AInt (len body)]).
Definition Do {L} (debug : bool) (target : string) (elapsed : Z) (do_ : Request -> ST L (result WireResponse)) (req : Request)
    : ST L (result WireResponse * list Msg) :=
  r ← do_ req;
  mret (r, if debug then [debug_line req target elapsed r] else []).

(** ** A run of the program *)
(** What a machine answered to a command: the status, the error, and what the
    command put on the screen. *)
Record Answer := MkAnswer { an_code : Z; an_err : option error; an_out : string }.
(** A process that ended: its status, both its streams, and the machines it
    asked, with the options and the words each was asked with. *)
Record Process := MkProcess { p_code : Z; p_stdout : list Msg; p_stderr : list Msg; p_asked : list (options * list string) }.

Definition spoken (e : option error) : list Msg := match e with Some e => [("hostctl: %v", [AMsg (error_msg e)])] | None => [] end.
(** -version *)
Definition version_line (program version : string) : Msg :=
  (program +:+ " %s (protocol %d, schema %d)", [AStr version; AInt Protocol_; AInt Schema]).
Definition carried_lines (carried : list string) (daemon_version version : string) : list Msg :=
  match carried with
  | [] => [Lit "carries no hostd (development build; make dist embeds it)"]
  | _ => ("carries hostd %s for linux/%s", [AStr daemon_version; AStr (Join carried ", linux/")]) ::
         match staleDaemon daemon_version version with Some m => [m] | None => [] end
  end.

Section Main.
Context `{FiloEngine} `{!FiloType (list inventoryEntry)} (ReadFile : string -> result string).
(** The machine hostctl runs on: os.UserConfigDir, the socket of Locate, the
    tree of a directory as LoadTree reads it, encoding/json. *)
Context (home : result string) (local_socket : string) (LoadTree : string -> list Declaration * option error) (writeJSON : list fleetAnswer -> string).
(** What this binary is and carries. *)
Context (version daemon_version : string) (carried : list string).
(** Opening a way to a machine; what a command does once there (Deploy's
    dispatch), and what installing does (Install's runInstall). *)
Context {L : Type} (open : Way -> result L) (command : L -> options -> list string -> Answer) (install : options -> list string -> Answer).
(** The window, from newPanel on, over these machines. *)
Context (window : options -> list string -> Z * option error).

(** dispatch, whose second half is Deploy's. *)
Definition dispatch (socket : string) (o : options) (args : list string) : Answer :=
  match args with
  | "install" :: rest => install o rest
  | _ => match reached (connect socket o) (open (connect socket o)) with
         | Err e => MkAnswer exitComms (Some e) ""
         | Ok l => command l o args
         end
  end.
(** askOne *)
Definition askOne (socket : string) (o : options) (args : list string) (host : string) : hostResult :=
  let a := dispatch socket (with_host host o) args in MkHostResult host (an_code a) (an_err a) (an_out a).

Definition complain (code : Z) (e : error) : Process := MkProcess code [] (spoken (Some e)) [].

(** runGUI, until there are machines to watch. *)
Definition runGUI (o : options) (args : list string) : Z * option error :=
  match args with
  | _ :: _ => (exitUsage, Some (EMsg ("gui takes no arguments; choose the machines with -host, -hosts, -all or -tag", [])))
  | [] =>
      match selection ReadFile o with
      | Err e => (exitUsage, Some e)
      | Ok (host :: hosts) => window o (host :: hosts)
      | Ok [] =>
          match fleet ReadFile o with
          | Err e => (exitUsage, Some (EWrap ("%w" +:+ String newline "list your machines there, or run hostctl -h to see what else it does", []) e))
          | Ok hosts => window o hosts
          end
      end
  end.

(** What the flags say: the options and the words, or what is wrong. *)
Definition invocation (args : list string) : result (Variables * list string) :=
  '(settings, words) ← parseAnywhere formal accepts args; Ok (set_all settings at_start, words).

(** A line flag cannot read: the package says so and calls Usage, both on the
    output the flag set has by then, which is stdout; run prints the help again. *)
Definition misread (e : error) : Process :=
  if errors_is e ErrHelp then MkProcess exitOK [Lit usage] [] []
  else MkProcess exitUsage [error_msg e; Lit usage] [Lit usage] [].

Definition run (args : list string) : Process :=
  match invocation args with
  | Err e => misread e
  | Ok (v, words) =>
      if switch_at v "version" then MkProcess exitOK (version_line "hostctl" version :: carried_lines carried daemon_version version) [] []
      else
        let socket := if String.eqb (text_at v "socket") "" then local_socket else text_at v "socket" in
        match resolveClientPaths home (options_of v) with
        | Err e => complain exitUsage e
        | Ok o =>
            match route ReadFile o words with
            | Misused e => complain exitUsage e
            | ToWindow args => let '(code, e) := runGUI o args in MkProcess code [] (spoken e) []
            | ToCaddyfile args =>
                let '(code, e, out) := runCaddyfile (LoadTree (o_config o)) o args in MkProcess code [Lit out] (spoken e) []
            | ToMany hosts args =>
                let '(out, code) := fanOut (askOne socket o args) writeJSON (o_filoOut o) (o_jsonOut o) hosts in
                MkProcess code [Lit out] [] ((fun host => (with_host host o, args)) <$> hosts)
            | ToOne o args =>
                let a := dispatch socket o args in MkProcess (an_code a) [Lit (an_out a)] (spoken (an_err a)) [(o, args)]
            end
        end
  end.

(** ** Whom it asks *)
(** The machines named on the command line: by exactly one of the four flags, or
    by none of them, which is this machine.  [path] is the inventory's. *)
Inductive named (v : Variables) (path : string) : list string -> Prop :=
  | by_none : text_at v "host" = "" -> text_at v "hosts" = "" -> switch_at v "all" = false -> text_at v "tag" = "" -> named v path [""]
  | by_host : text_at v "host" <> "" -> text_at v "hosts" = "" -> switch_at v "all" = false -> text_at v "tag" = "" ->
      named v path [text_at v "host"]
  | by_hosts : text_at v "host" = "" -> text_at v "hosts" <> "" -> switch_at v "all" = false -> text_at v "tag" = "" ->
      named v path (Split (text_at v "hosts") comma)
  | by_all entries : text_at v "host" = "" -> text_at v "hosts" = "" -> switch_at v "all" = true -> text_at v "tag" = "" ->
      readInventory ReadFile path = Ok entries -> entries <> [] -> named v path (in_Name <$> entries)
  | by_tag entries : text_at v "host" = "" -> text_at v "hosts" = "" -> switch_at v "all" = false -> text_at v "tag" <> "" ->
      readInventory ReadFile path = Ok entries -> filter (fun e => text_at v "tag" ∈ in_Tags e) entries <> [] ->
      named v path (in_Name <$> filter (fun e => text_at v "tag" ∈ in_Tags e) entries).

Lemma Split_some s : (0 < length (Split s comma))%nat.
Proof. induction s as [|c s IH]; cbn; [lia|]. destruct (Ascii.eqb _ _); cbn; [lia|]. destruct (Split s comma); cbn in *; lia. Qed.

Lemma filter_carries tag (entries : list inventoryEntry) : filter (fun e => carries tag e = true) entries = filter (fun e => tag ∈ in_Tags e) entries.
Proof. apply list_filter_iff. intros e. unfold carries. by rewrite bool_decide_eq_true. Qed.

(** selection, with the default of a command: the machine itself. *)
Lemma selection_named v o : o_host o = text_at v "host" -> o_hosts o = (if String.eqb (text_at v "hosts") "" then [] else Split (text_at v "hosts") comma) ->
  o_all o = switch_at v "all" -> o_tag o = text_at v "tag" ->
  forall chosen, selection ReadFile o = Ok chosen -> named v (o_inventory o) (match chosen with [] => [""] | _ => chosen end).
Proof.
  intros Eh Ehs Ea Et chosen. unfold selection, selectors.
  assert (Hn : (0 <? Z.of_nat (length (o_hosts o))) = negb (String.eqb (text_at v "hosts") "")).
  { rewrite Ehs. destruct (String.eqb_spec (text_at v "hosts") ""); [done|]. pose proof (Split_some (text_at v "hosts")). cbn. lia. }
  rewrite Hn, Eh, Ea, Et. pose proof (Split_some (text_at v "hosts")) as Hs.
  destruct (String.eqb_spec (text_at v "host") "") as [H1|H1]; destruct (String.eqb_spec (text_at v "hosts") "") as [H2|H2];
    destruct (switch_at v "all") eqn:H3; destruct (String.eqb_spec (text_at v "tag") "") as [H4|H4]; cbn; try (by intros [=]).
  - unfold fleet. destruct (readInventory _ _) as [[|e es]|e] eqn:E; cbn; [done| |done]. intros [= <-]. by apply (by_all v _ (e :: es)).
  - intros [= <-]. by apply by_none.
  - unfold tagged. rewrite Et. destruct (readInventory _ _) as [es|e] eqn:E; cbn; [|done]. rewrite filter_carries.
    destruct (filter _ es) as [|x xs] eqn:Ef; cbn; [done|]. intros [= <-]. rewrite <- fmap_cons, <- Ef. apply by_tag; try done. by rewrite Ef.
  - intros [= <-]. rewrite Ehs. destruct (Split _ _) eqn:Es; [cbn in Hs; lia|]. rewrite <- Es. by apply by_hosts.
  - intros [= <-]. by apply by_host.
Qed.

Lemma with_own_host o : with_host (o_host o) o = o.
Proof. by destruct o. Qed.

(** Options that came of these variables. *)
Record from_line (v : Variables) (o : options) : Prop := {
  fl_host : o_host o = text_at v "host";
  fl_hosts : o_hosts o = (if String.eqb (text_at v "hosts") "" then [] else Split (text_at v "hosts") comma);
  fl_all : o_all o = switch_at v "all";
  fl_tag : o_tag o = text_at v "tag";
  fl_filo : o_filoOut o = switch_at v "filo";
  fl_json : o_jsonOut o = switch_at v "json";
}.
Lemma resolved_from v o : resolveClientPaths home (options_of v) = Ok o -> from_line v o.
Proof.
  unfold resolveClientPaths. destruct (if String.eqb _ _ then _ else _) as [config|]; [|done]. intros [= <-]. by split.
Qed.

Lemma route_asks v base words : from_line v base ->
  match route ReadFile base words with
  | ToOne o args => args = words /\ switch_at v "filo" && switch_at v "json" = false /\
      exists host, named v (o_inventory base) [host] /\ o = with_host host base
  | ToMany hosts args => args = words /\ switch_at v "filo" && switch_at v "json" = false /\
      named v (o_inventory base) hosts /\ (1 < length hosts)%nat
  | _ => True
  end.
Proof.
  intros [Eh Ehs Ea Et Ef Ej]. unfold route. rewrite Ef, Ej. destruct (switch_at v "filo" && switch_at v "json"); [done|].
  destruct words as [|w ws]; [done|]. cbn [head tail default from_option id].
  destruct (String.eqb w "gui"); [done|]. destruct (String.eqb w "caddyfile"); [done|].
  destruct (selection ReadFile base) as [chosen|e] eqn:Es; [|done]. apply (selection_named v) in Es; try done.
  destruct chosen as [|host [|h2 hs]]; cbn -[with_host Z.of_nat Z.ltb] in *.
  - split_and!; try done. exists "". split; [done|]. rewrite <- (with_own_host base) at 1. f_equal. inversion Es; congruence.
  - split_and!; try done. by exists host.
  - destruct (1 <? _) eqn:El; [|apply Z.ltb_ge in El; lia]. destruct (o_follow base); [done|]. destruct (negb _); [done|].
    split_and!; [done|done|exact Es|cbn; lia].
Qed.

End Main.

(** ** The help, followed *)
(** The command lines the help lists: what stands before the explanation. *)
Fixpoint until_gap (s : string) : string :=
  match s with "" => "" | String c rest => if HasPrefix s "  " then "" else String c (until_gap rest) end.
Definition listed : list (list string) :=
  (fun line => tail (Fields (until_gap (drop_bytes 2 line)))) <$> filter (fun line => HasPrefix line "  hostctl" = true) (Split usage newline).
Definition understood (args : list string) : bool :=
  match invocation args with
  | Ok (_, []) => true
  | Ok (_, w :: _) => bool_decide (w ∈ "gui" :: "caddyfile" :: "install" :: known_commands)
  | Err _ => false
  end.
(** Every command line the help shows is one hostctl reads, with flags it
    defines and a command it knows. *)
Lemma help_is_followed : forallb understood listed = true /\ length listed = 37%nat.
Proof. by vm_compute. Qed.

(** ** Runs, for the examples *)
Section Runs.
Import HostSamples.
#[local] Instance inventories : FiloType (list inventoryEntry) := any_type [MkInventoryEntry "yuki" ["edge"]; MkInventoryEntry "sora" []].
Definition no_file (path : string) : result string := Err ErrNotExist.
Definition empty_tree (dir : string) : list Declaration * option error := ([], None).
(** Every machine answers by its name. *)
Definition says_its_name (w : Way) (o : options) (args : list string) : Answer := MkAnswer exitOK None (o_host o).
Definition hostctl (args : list string) : Process :=
  run no_file (Ok "/home/ana") "/run/hostd/hostd.sock" empty_tree no_json "v1" "v1" [] (fun w => Ok w) says_its_name
    (fun o args => MkAnswer exitOK None "") (fun o hosts => (exitOK, None)) args.


(** A line flag cannot read is complained about on stdout, where the answer
    would be: the flag set writes where the help goes. *)
Lemma misread_is_said_on_stdout :
  let p := hostctl ["status"; "-json"; "-limt"; "5"] in
  p_code p = exitUsage /\ p_stdout p = [("flag provided but not defined: -%s", [AStr "limt"]); Lit usage] /\ p_stderr p = [Lit usage].
Proof. by vm_compute. Qed.
(** A list that ends with a comma names one machine more: this one. *)
Lemma trailing_comma_is_this_machine :
  let p := hostctl ["-hosts"; "yuki,"; "service"; "stop"; "web"] in
  (connect "/run/hostd/hostd.sock" ∘ fst <$> p_asked p) =
    [BySSH (SSHArguments "yuki" ["hostd"; "-stdio"]); ThisMachine "/run/hostd/hostd.sock"] /\
  (snd <$> p_asked p) = [["service"; "stop"; "web"]; ["service"; "stop"; "web"]].
Proof. by vm_compute. Qed.
(** Two dashes end the flags for one word only. *)
Lemma terminator_keeps_one_word :
  parseAnywhere formal accepts ["log"; "--"; "-e"] = Ok ([], ["log"; "-e"]) /\
  parseAnywhere formal accepts ["log"; "--"; "a"; "-e"] = Err (EMsg ("flag provided but not defined: -%s", [AStr "e"])).
Proof. by vm_compute. Qed.
(** -step is said to be in seconds, and a number of seconds is refused. *)
Lemma step_needs_a_unit : accepts "step" "30" = false /\ accepts "step" "30s" = true.
Proof. by vm_compute. Qed.
(** No arguments open the window; nothing is said of what else there is. *)
Lemma no_arguments_say_nothing : p_stdout (hostctl ["-host"; "yuki"]) = [] /\ p_stderr (hostctl ["-host"; "yuki"]) = [] /\ p_asked (hostctl ["-host"; "yuki"]) = [].
Proof. by vm_compute. Qed.
End Runs.
