(* ===== verification/Panel.v ===== *)
(** * Panel: what the window knows and what a click does

    src/cmd/hostctl/snapshot.go, alert.go, the state of gui.go, and the clicks of
    actions.go and panelhttp.go.  The picture is what snapMu guards; each method
    of the panel that takes a lock is one function of it, so that rounds of
    different machines and clicks interleave as any order of these functions.
    What the page looks like is in PanelView. *)
From S2P Require Import Prelude GoText GoTime GoPath Filo AuditLog Runtime DockerClient Plan Images Protocol MetricStore Host FileHandlers ServiceHandlers ImageHandlers Server Client CommandLine Counters Commands.
From Stdlib Require Import Ascii SpecFloat.
Open Scope string_scope.
Open Scope list_scope.
Open Scope Z_scope.
Open Scope hostd_scope.

(** ** One machine *)
Record fleetHost := MkFleetHost {
  fh_Host : string; fh_Error : string; fh_Services : list Status; fh_Metrics : list Series; fh_Lines : list LogLine;
  fh_Images : list ImageEntry; fh_ImagesError : string; fh_Since : Z; fh_Version : string;
  fh_ClockSkewMS : float64; fh_Zone : string; fh_ZoneOffsetMS : float64; fh_NoDaemon : bool;
}.
Definition has_error (h : fleetHost) : bool := negb (String.eqb (fh_Error h) "").

Record alert := MkAlert { al_Text : Msg; al_Act : string }.
Definition no_alert : alert := MkAlert ("", []) "".

(** [carried] is daemon.Version(): the daemon this hostctl embeds, if any. *)
Definition alertFor (carried : string) (h : fleetHost) : alert :=
  if has_error h then
    if fh_NoDaemon h && negb (String.eqb carried "") then MkAlert ("no hostd answered here", []) ("do/install/" +:+ fh_Host h)
    else MkAlert ("not answering", []) ""
  else if String.eqb carried "" || String.eqb (fh_Version h) "" || String.eqb (fh_Version h) carried then no_alert
  else MkAlert ("hostd %s here, %s in this window", [AStr (fh_Version h); AStr carried]) ("do/install/" +:+ fh_Host h).

(** ** The picture *)
Definition maxLines : Z := 4000.

(** [ln_N] is the panel's own numbering. *)
Record line := MkLine { ln_Log : LogLine; ln_Host : string; ln_N : Z; ln_Bad : bool }.
Definition ln_Seq (l : line) : Z := ll_Seq (ln_Log l).

Record Picture := MkPicture {
  pc_Fleet : list fleetHost; pc_Lines : list line; pc_Updated : option Time;
  pc_since : gmap string Z; pc_held : gset string; pc_cursor : Z;
}.
Definition no_picture : Picture := MkPicture [] [] None ∅ ∅ 0.

Definition with_fleet (fleet : list fleetHost) (pc : Picture) : Picture :=
  MkPicture fleet (pc_Lines pc) (pc_Updated pc) (pc_since pc) (pc_held pc) (pc_cursor pc).

(** slices.IndexFunc over the machines known. *)
Definition position (name : string) (fleet : list fleetHost) : option nat := fst <$> list_find (fun h => fh_Host h = name) fleet.

(** The place the inventory gives each machine; a machine it does not name has
    the zero of the map. *)
Definition order_of (hosts : list string) : gmap string Z := foldl (fun m p => <[p.2 := p.1]> m) ∅ (imap (fun i h => (Z.of_nat i, h)) hosts).
Definition rank (hosts : list string) (h : fleetHost) : Z := default 0 (order_of hosts !! fh_Host h).

(** slices.SortStableFunc, as the insertion of each before those not below it. *)
Fixpoint insert_stable (key : fleetHost -> Z) (x : fleetHost) (l : list fleetHost) : list fleetHost :=
  match l with
  | [] => [x]
  | y :: l' => if key x <=? key y then x :: l else y :: insert_stable key x l'
  end.
Definition orderFleet (hosts : list string) (fleet : list fleetHost) : list fleetHost := foldr (insert_stable (rank hosts)) [] fleet.

(** What a bad round leaves of what was known. *)
Definition keep_known (known answer : fleetHost) : fleetHost :=
  let services := 0 <? Z.of_nat (length (fh_Services known)) in
  let images := 0 <? Z.of_nat (length (fh_Images known)) in
  MkFleetHost (fh_Host answer) (fh_Error answer) (if services then fh_Services known else fh_Services answer)
    (if services then fh_Metrics known else fh_Metrics answer) (fh_Lines answer) (if images then fh_Images known else fh_Images answer)
    (if images then fh_ImagesError known else fh_ImagesError answer) (fh_Since answer) (fh_Version known)
    (fh_ClockSkewMS known) (fh_Zone known) (fh_ZoneOffsetMS known) (fh_NoDaemon answer).

Definition held_key (host : string) (seq : Z) : string := host +:+ ":" +:+ itoa seq.

Definition add_line (host : string) (pc : Picture) (arrived : LogLine) : Picture :=
  let key := held_key host (ll_Seq arrived) in
  if decide (key ∈ pc_held pc) then pc else
  let n := pc_cursor pc + 1 in
  MkPicture (pc_Fleet pc) (pc_Lines pc ++ [MkLine arrived host n false]) (pc_Updated pc) (pc_since pc) ({[key]} ∪ pc_held pc) n.

Definition advance_since (answer : fleetHost) (pc : Picture) : Picture :=
  if default 0 (pc_since pc !! fh_Host answer) <? fh_Since answer
  then MkPicture (pc_Fleet pc) (pc_Lines pc) (pc_Updated pc) (<[fh_Host answer := fh_Since answer]> (pc_since pc)) (pc_held pc) (pc_cursor pc)
  else pc.

(** A machine new to the panel takes the place the inventory gives it. *)
Definition placed (hosts : list string) (answer : fleetHost) (fleet : list fleetHost) : list fleetHost :=
  match position (fh_Host answer) fleet with Some _ => fleet | None => orderFleet hosts (fleet ++ [answer]) end.

Definition absorb_one (hosts : list string) (pc : Picture) (answer : fleetHost) : Picture :=
  let fleet := placed hosts answer (pc_Fleet pc) in
  let fleet' := match position (fh_Host answer) fleet with
                | Some at_ => alter (fun known => if has_error answer then keep_known known answer else answer) at_ fleet
                | None => fleet
                end in
  advance_since answer (foldl (add_line (fh_Host answer)) (with_fleet fleet' pc) (fh_Lines answer)).

(** The oldest lines beyond the ceiling go, with their keys. *)
Definition over (lines : list line) : nat := length lines - Z.to_nat maxLines.
Definition drop_over (pc : Picture) : Picture :=
  let dropped := take (over (pc_Lines pc)) (pc_Lines pc) in
  MkPicture (pc_Fleet pc) (drop (over (pc_Lines pc)) (pc_Lines pc)) (pc_Updated pc) (pc_since pc)
    (foldl (fun held gone => held ∖ {[held_key (ln_Host gone) (ln_Seq gone)]}) (pc_held pc) dropped) (pc_cursor pc).

Definition absorb (now : Time) (hosts : list string) (fleet : list fleetHost) (pc : Picture) : Picture :=
  drop_over (foldl (absorb_one hosts)
    (MkPicture (pc_Fleet pc) (pc_Lines pc) (Some now) (pc_since pc) (pc_held pc) (pc_cursor pc)) fleet).

(** A line of hostctl's own; here the keys of what is dropped stay. *)
Definition sayLine (now : Time) (host service : string) (text : Msg) (bad : bool) (pc : Picture) : Picture :=
  let n := pc_cursor pc + 1 in
  let lines := pc_Lines pc ++ [MkLine (MkLogLine 0 (f64_of_Z (UnixMilli now)) service Logs.StreamEvent "" "" text) host n bad] in
  MkPicture (pc_Fleet pc) (drop (over lines) lines) (pc_Updated pc) (pc_since pc) (pc_held pc) n.

Definition clear_version (host : string) (h : fleetHost) : fleetHost :=
  if String.eqb (fh_Host h) host
  then MkFleetHost (fh_Host h) (fh_Error h) (fh_Services h) (fh_Metrics h) (fh_Lines h) (fh_Images h) (fh_ImagesError h) (fh_Since h) ""
         (fh_ClockSkewMS h) (fh_Zone h) (fh_ZoneOffsetMS h) (fh_NoDaemon h)
  else h.

(** What is remembered of a machine's clock and version. *)
Definition knownClock (host : string) (pc : Picture) : string * float64 * string * float64 :=
  match list_find (fun h => fh_Host h = host) (pc_Fleet pc) with
  | Some (_, h) => (fh_Version h, fh_ClockSkewMS h, fh_Zone h, fh_ZoneOffsetMS h)
  | None => ("", f64_zero, "", f64_zero)
  end.

(** ** Asking one machine *)
Section Asking.
Context `{FiloEngine} `{!FiloType Request} `{!FiloType WireResponse} `{!FiloType (list Status)} `{!FiloType Description}.
Context `{!FiloType (list Series)} `{!FiloType (list LogLine)} `{!FiloType (list ImageEntry)}.
Context (target : string).

Definition ask {T} `{!FiloType T} (req : Request) (zero : T) : ST Conn (result T) :=
  r ← Client.do target req;
  mret match r with
       | (_, Some e) => Err e
       | (resp, None) =>
           if wr_Failed resp then Err (api_error resp)
           else if String.eqb (wr_Body resp) "" then Ok zero else decode (wr_Body resp) zero
       end.

Definition unanswered (since : Z) : fleetHost := MkFleetHost target "" [] [] [] [] "" since "" f64_zero "" f64_zero false.
Definition failing (text : string) (no_daemon : bool) (h : fleetHost) : fleetHost :=
  MkFleetHost (fh_Host h) text (fh_Services h) (fh_Metrics h) (fh_Lines h) (fh_Images h) (fh_ImagesError h) (fh_Since h) (fh_Version h)
    (fh_ClockSkewMS h) (fh_Zone h) (fh_ZoneOffsetMS h) no_daemon.
Definition with_status (services : list Status) (clock : string * float64 * string * float64) (h : fleetHost) : fleetHost :=
  let '(version, skew, zone, offset) := clock in
  MkFleetHost (fh_Host h) (fh_Error h) services (fh_Metrics h) (fh_Lines h) (fh_Images h) (fh_ImagesError h) (fh_Since h) version skew zone offset (fh_NoDaemon h).
Definition with_metrics (metrics : list Series) (h : fleetHost) : fleetHost :=
  MkFleetHost (fh_Host h) (fh_Error h) (fh_Services h) metrics (fh_Lines h) (fh_Images h) (fh_ImagesError h) (fh_Since h) (fh_Version h)
    (fh_ClockSkewMS h) (fh_Zone h) (fh_ZoneOffsetMS h) (fh_NoDaemon h).
Definition with_lines (lines : list LogLine) (h : fleetHost) : fleetHost :=
  MkFleetHost (fh_Host h) (fh_Error h) (fh_Services h) (fh_Metrics h) lines (fh_Images h) (fh_ImagesError h)
    (foldl (fun since l => if since <? ll_Seq l then ll_Seq l else since) (fh_Since h) lines)
    (fh_Version h) (fh_ClockSkewMS h) (fh_Zone h) (fh_ZoneOffsetMS h) (fh_NoDaemon h).
Definition with_images (r : result (list ImageEntry)) (h : fleetHost) : fleetHost :=
  let '(images, problem) := match r with Ok images => (images, "") | Err e => ([], error_text e) end in
  MkFleetHost (fh_Host h) (fh_Error h) (fh_Services h) (fh_Metrics h) (fh_Lines h) images problem (fh_Since h) (fh_Version h)
    (fh_ClockSkewMS h) (fh_Zone h) (fh_ZoneOffsetMS h) (fh_NoDaemon h).

(** What a describe says of the version and the clock; an answer it cannot give
    leaves them unknown. *)
Definition clock_of (now : Time) (known : string * float64 * string * float64) (d : Description) : string * float64 * string * float64 :=
  let '(_, skew, zone, offset) := known in
  if f64_ltb f64_zero (ds_TimeMS d)
  then (ds_Version d, f64_sub (ds_TimeMS d) (f64_of_Z (UnixMilli now)), ds_Zone d, ds_ZoneOffsetMS d)
  else (ds_Version d, skew, zone, offset).
Definition current_clock (now : Time) (known : string * float64 * string * float64) : ST Conn (string * float64 * string * float64) :=
  let '(version, _, _, _) := known in
  if negb (String.eqb version "") then mret known
  else d ← ask (request_for OpDescribe "" "" "") no_description;
       mret match d with Ok described => clock_of now known described | Err _ => known end.

Definition metrics_since (from to : float64) : Request :=
  MkRequest OpMetrics "" "" "" "" "" "" 2000 0 0 "" "" "" from to f64_zero 0 false "" "".
Definition lines_since (since : Z) : Request :=
  MkRequest OpLogSearch "" "" "" "" "" "" 300 since 0 "" "" "" f64_zero f64_zero f64_zero 0 false "" "".

(** panel.one.  [dialled] is what reaching the machine gave, [trouble] what ssh
    itself said, [known] what knownClock answers. *)
Definition one (dialled : option error) (trouble : string) (now : Time) (known : string * float64 * string * float64)
    (from to : float64) (since : Z) (wantImages : bool) : ST Conn fleetHost :=
  let answer := unanswered since in
  match dialled with
  | Some e => mret (failing (error_text e) false answer)
  | None =>
      s ← ask (request_for OpStatus "" "" "") [];
      match s with
      | Err e =>
          let text := if String.eqb trouble "" then error_text e else trouble in
          let noBinary := Contains trouble "command not found" || Contains trouble "not found: hostd" in
          mret (failing text ((String.eqb trouble "" || noBinary) && errors_is e ErrNoAnswer) answer)
      | Ok services =>
          clock ← current_clock now known;
          let answer := with_status services clock answer in
          m ← ask (metrics_since from to) [];
          match m with
          | Err e => mret (failing (error_text e) false answer)
          | Ok metrics =>
              let answer := with_metrics metrics answer in
              l ← ask (lines_since since) [];
              match l with
              | Err e => mret (failing (error_text e) false answer)
              | Ok lines =>
                  let answer := with_lines lines answer in
                  if wantImages then r ← ask (request_for OpImageList "" "" "") []; mret (with_images r answer)
                  else mret answer
              end
          end
      end
  end.
End Asking.

(** ** The panel *)
Record viewState := MkView {
  v_kind : string; v_host : string; v_name : string; v_path : string; v_window : Z; v_from : float64; v_to : float64;
  v_closed : gmap string bool; v_opened : gmap string bool;
}.
Definition first_view : viewState := MkView "fleet" "" "" "" 3600 f64_zero f64_zero ∅ ∅.

Record Panel := MkPanel {
  p_hosts : list string; p_dir : string; p_problem : string; p_picture : Picture;
  p_said : gset string; p_busy : gset string; p_armed : gmap string Time; p_view : viewState;
  p_sent : gmap string string; p_pushed : Z;
}.
Definition newPanel (dir : string) (hosts : list string) : Panel :=
  MkPanel hosts dir "" no_picture ∅ ∅ ∅ first_view ∅ 0.

Definition on_picture (f : Picture -> Picture) (p : Panel) : Panel :=
  MkPanel (p_hosts p) (p_dir p) (p_problem p) (f (p_picture p)) (p_said p) (p_busy p) (p_armed p) (p_view p) (p_sent p) (p_pushed p).
Definition set_said (said : gset string) (p : Panel) : Panel :=
  MkPanel (p_hosts p) (p_dir p) (p_problem p) (p_picture p) said (p_busy p) (p_armed p) (p_view p) (p_sent p) (p_pushed p).
Definition set_busy (busy : gset string) (p : Panel) : Panel :=
  MkPanel (p_hosts p) (p_dir p) (p_problem p) (p_picture p) (p_said p) busy (p_armed p) (p_view p) (p_sent p) (p_pushed p).
Definition set_armed (armed : gmap string Time) (p : Panel) : Panel :=
  MkPanel (p_hosts p) (p_dir p) (p_problem p) (p_picture p) (p_said p) (p_busy p) armed (p_view p) (p_sent p) (p_pushed p).
Definition on_view (f : viewState -> viewState) (p : Panel) : Panel :=
  MkPanel (p_hosts p) (p_dir p) (p_problem p) (p_picture p) (p_said p) (p_busy p) (p_armed p) (f (p_view p)) (p_sent p) (p_pushed p).
Definition set_config (hosts : list string) (dir problem : string) (p : Panel) : Panel :=
  MkPanel hosts dir problem (p_picture p) (p_said p) (p_busy p) (p_armed p) (p_view p) (p_sent p) (p_pushed p).
Definition set_page (sent : gmap string string) (pushed : Z) (p : Panel) : Panel :=
  MkPanel (p_hosts p) (p_dir p) (p_problem p) (p_picture p) (p_said p) (p_busy p) (p_armed p) (p_view p) sent pushed.

(** *** Rounds *)
Definition said_prefix (host : string) : string := host +:+ String (chr 0) "".
Definition said_key (host : string) (warning : alert) : string := said_prefix host +:+ render_arg (AMsg (al_Text warning)).
Definition sayAlert (carried : string) (now : Time) (h : fleetHost) (p : Panel) : Panel :=
  let warning := alertFor carried h in
  if String.eqb (al_Act warning) "" then p else
  let key := said_key (fh_Host h) warning in
  if decide (key ∈ p_said p) then p
  else on_picture (sayLine now (fh_Host h) "hostd" ("%s — the button beside the machine's name updates it", [AMsg (al_Text warning)]) false)
         (set_said ({[key]} ∪ p_said p) p).

Definition imagesHost (v : viewState) : string := if String.eqb (v_kind v) "images" then v_host v else "".
(** How far back the graphs reach, unless a range was dragged on one. *)
Definition reach_back (now : Time) (v : viewState) : float64 * float64 :=
  if f64_leb (v_from v) f64_zero then (f64_of_Z (UnixMilli (GoTime.Add now (- v_window v * Second))), f64_zero) else (v_from v, v_to v).
(** [answer] is the panel's ask, of which [one] is the window's. *)
Definition roundOne (carried : string) (now : Time) (host : string) (answer : float64 -> float64 -> Z -> bool -> fleetHost) (p : Panel) : Panel :=
  let '(from, to) := reach_back now (p_view p) in
  let a := answer from to (default 0 (pc_since (p_picture p) !! host)) (String.eqb host (imagesHost (p_view p))) in
  sayAlert carried now a (on_picture (absorb now (p_hosts p) [a]) p).

(** After an install: what the machine runs is asked again, and warned of again. *)
Definition forgetVersion (host : string) (p : Panel) : Panel :=
  set_said (filter (fun key => HasPrefix key (said_prefix host) = false) (p_said p))
    (on_picture (fun pc => with_fleet (clear_version host <$> pc_Fleet pc) pc) p).

(** *** The configuration.  [inventory] is readInventory of the file in a directory. *)
Definition reloadFleet (inventory : string -> result (list inventoryEntry)) (p : Panel) : Panel :=
  let file := PathJoin [p_dir p; InventoryFile] in
  match inventory file with
  | Err e => set_config (p_hosts p) (p_dir p) (error_text e) p
  | Ok [] => set_config (p_hosts p) (p_dir p) ("no machine is listed in " +:+ file) p
  | Ok entries =>
      let hosts := in_Name <$> entries in
      on_picture (fun pc => with_fleet (filter (fun h => fh_Host h ∈ hosts) (pc_Fleet pc)) pc) (set_config hosts (p_dir p) "" p)
  end.
(** [dialog] is what the directory chooser of the window gave; the window may have none. *)
Definition chooseConfig (inventory : string -> result (list inventoryEntry)) (dialog : option (result string)) (p : Panel) : Panel :=
  match dialog with
  | None => set_config (p_hosts p) (p_dir p) "choosing a directory needs the window; use -config on the command line here" p
  | Some (Err e) => set_config (p_hosts p) (p_dir p) (error_text e) p
  | Some (Ok dir) => if String.eqb dir "" then p else reloadFleet inventory (set_config (p_hosts p) dir (p_problem p) p)
  end.

(** *** Work in hand *)
Definition hold (action : string) : ST Panel bool := fun p =>
  if decide (action ∈ p_busy p) then (false, p) else (true, set_busy ({[action]} ∪ p_busy p) p).
Definition release (action : string) (p : Panel) : Panel := set_busy (p_busy p ∖ {[action]}) p.
Definition running (action : string) (p : Panel) : bool := bool_decide (action ∈ p_busy p).

(** *** What is about to be deleted *)
Definition armedFor : Z := 5 * Second.
Definition arm (act : string) (now : Time) (p : Panel) : Panel := set_armed (<[act := GoTime.Add now armedFor]> (p_armed p)) p.
(** The timer of one arming. *)
Definition expire (act : string) (now : Time) (p : Panel) : Panel :=
  match p_armed p !! act with
  | Some until => if GoTime.After until now then p else set_armed (delete act (p_armed p)) p
  | None => p
  end.
Definition disarm (act : string) (now : Time) : ST Panel bool := fun p =>
  match p_armed p !! act with
  | None => (false, p)
  | Some until => (GoTime.After until now, set_armed (delete act (p_armed p)) p)
  end.
Definition isArmed (act : string) (now : Time) (p : Panel) : bool :=
  match p_armed p !! act with Some until => GoTime.After until now | None => false end.

(** ** What a click asks for *)
Inductive Work :=
  | Deploying (host name : string)
  | Commanding (host name op : string)
  | Pruning (host : string)
  | Installing (host : string)
  | OpeningTree
  | Arming (act : string)
  | DeletingDeclaration (name : string)
  | DeletingFile (host wire : string)
  | Downloading (host wire : string)
  | Uploading (host svc wire : string).

Definition command_op (verb : string) : option string :=
  if String.eqb verb "remove" then Some OpServiceRemove else if String.eqb verb "restart" then Some OpServiceRestrt
  else if String.eqb verb "stop" then Some OpServiceStop else if String.eqb verb "start" then Some OpServiceStart else None.

(** A deletion is done by the second click: the first arms it. *)
Definition twice (now : Time) (parts : list string) (work : Work) : ST Panel (result Work) :=
  let act := "do/" +:+ Join parts "/" in
  sure ← disarm act now;
  mret (Ok (if sure : bool then work else Arming act)).

Definition action (now : Time) (parts : list string) : ST Panel (result Work) :=
  let refuse := mret (Err (EMsg ("no such action: %q", [AStr (Join parts "/")]))) in
  match parts with
  | verb :: host :: rest =>
      let name := default "" (head rest) in
      let op := command_op verb in
      let long := 3 <? Z.of_nat (length parts) in
      if String.eqb verb "deploy" && negb (String.eqb name "") then mret (Ok (Deploying host name))
      else if match op with Some _ => negb (String.eqb name "") | None => false end then mret (Ok (Commanding host name (default "" op)))
      else if String.eqb verb "prune" then mret (Ok (Pruning host))
      else if String.eqb verb "install" then mret (Ok (Installing host))
      else if String.eqb verb "opentree" then mret (Ok OpeningTree)
      else if String.eqb verb "svcdel" && (Z.of_nat (length parts) =? 2) then twice now parts (DeletingDeclaration host)
      else if String.eqb verb "filerm" && long then twice now parts (DeletingFile host (Join rest "/"))
      else if String.eqb verb "filedl" && long then mret (Ok (Downloading host (Join rest "/")))
      else if String.eqb verb "fileup" && long then mret (Ok (Uploading host name (Join (tail rest) "/")))
      else refuse
  | _ => refuse
  end.

(** ** Where the window looks *)
Definition pick (rest : list string) (v : viewState) : viewState :=
  let kind := default "" (head rest) in
  let host := default "" (rest !! 1%nat) in
  let name := default "" (rest !! 2%nat) in
  let '(host, name) := if String.eqb kind "svcedit" then ("", host) else (host, name) in
  MkView kind host name (Join (drop 3 rest) "/") (v_window v) (v_from v) (v_to v)
    (if String.eqb host "" then v_closed v else <[host := false]> (v_closed v)) (v_opened v).
Definition flip (key : string) (m : gmap string bool) : gmap string bool := <[key := negb (default false (m !! key))]> m.
Definition toggle (host : string) (v : viewState) : viewState :=
  MkView (v_kind v) (v_host v) (v_name v) (v_path v) (v_window v) (v_from v) (v_to v) (flip host (v_closed v)) (v_opened v).
Definition toggleService (host name : string) (v : viewState) : viewState :=
  MkView (v_kind v) (v_host v) (v_name v) (v_path v) (v_window v) (v_from v) (v_to v) (v_closed v) (flip (host +:+ "/" +:+ name) (v_opened v)).
Definition pickRange (from to : float64) (v : viewState) : viewState :=
  MkView (v_kind v) (v_host v) (v_name v) (v_path v) (v_window v) from to (v_closed v) (v_opened v).
Definition pickWindow (value : string) (v : viewState) : viewState :=
  match Atoi value with
  | Some seconds =>
      if seconds <=? 0 then v
      else MkView (v_kind v) (v_host v) (v_name v) (v_path v) seconds f64_zero f64_zero (v_closed v) (v_opened v)
  | None => v
  end.

(** f, _ := strconv.ParseFloat(s, 64): out of range is still an infinity. *)
Definition number_of (s : string) : float64 :=
  match ParseFloat s with
  | Some f => f
  | None =>
      let '(neg, body) := match s with String "-" s' => (true, s') | String "+" s' => (false, s') | _ => (false, s) end in
      default f64_zero (parse_decimal neg body)
  end.

(** panel.Act.  Work is started once however often it is asked for; a view that
    moved has the log written anew. *)
Inductive Acted := Refused (e : error) | Going | Started (w : Work) | Seen (moved : bool).

Definition Act (now : Time) (inventory : string -> result (list inventoryEntry)) (dialog : option (result string)) (a : string) : ST Panel Acted :=
  let parts := Split a "/"%char in
  let verb := default "" (head parts) in
  let rest := tail parts in
  if String.eqb verb "do" then
    w ← action now rest;
    match w with
    | Err e => mret (Refused e)
    | Ok work => held ← hold a; mret (if held : bool then Started work else Going)
    end
  else
    let seen (f : Panel -> Panel) : ST Panel Acted := fun p =>
      let p' := f p in
      let v := p_view p in let v' := p_view p' in
      (Seen (negb (String.eqb (v_kind v) (v_kind v') && String.eqb (v_host v) (v_host v') && String.eqb (v_name v) (v_name v'))), p') in
    match rest with
    | _ :: _ => if String.eqb verb "select" then seen (on_view (pick rest)) else
        match rest with
        | [x] =>
            if String.eqb verb "toggle" then seen (on_view (toggle x))
            else if String.eqb verb "window" then seen (on_view (pickWindow x))
            else if String.eqb verb "range" && String.eqb x "live" then seen (on_view (pickRange f64_zero f64_zero))
            else if String.eqb verb "refresh" then seen id
            else if String.eqb verb "config" && String.eqb x "choose" then seen (chooseConfig inventory dialog)
            else if String.eqb verb "config" && String.eqb x "reload" then seen (reloadFleet inventory)
            else mret (Refused (EMsg ("no such action: %q", [AStr a])))
        | [x; y] =>
            if String.eqb verb "toggle" then seen (on_view (toggleService x y))
            else if String.eqb verb "range" then seen (on_view (pickRange (number_of x) (number_of y)))
            else if String.eqb verb "refresh" then seen id
            else mret (Refused (EMsg ("no such action: %q", [AStr a])))
        | _ => if String.eqb verb "refresh" then seen id else mret (Refused (EMsg ("no such action: %q", [AStr a])))
        end
    | [] => if String.eqb verb "refresh" then seen id else mret (Refused (EMsg ("no such action: %q", [AStr a])))
    end.
