(* ===== verification/Chart.v ===== *)
(** * Chart: what a graph of the window is made of

    src/cmd/hostctl/chart.go and the readings of detail.go that feed it: where a
    moment falls, how tall a value stands, and the text of the SVG.  A picture is
    1000 wide and 100 high whatever the window. *)
From S2P Require Import Prelude GoText GoTime DockerClient Plan MetricStore Host Sampler Commands Panel.
From Stdlib Require Import Ascii SpecFloat.
Open Scope string_scope.
Open Scope list_scope.
Open Scope Z_scope.

Definition text_of (format : string) (args : list Arg) : string := render_arg (AFmt format args).
Definition plotWidth : float64 := f64_of_Z 1000.
Definition plotHeight : float64 := f64_of_Z 100.

Record layer := MkLayer {
  la_Label : string; la_Points : list Point; la_Colour : string; la_Area : bool; la_Stack : bool; la_Top : float64;
}.

Definition f64_is_zero (f : float64) : bool := f64_eqb f f64_zero.
Definition window_ms (v : viewState) : float64 := f64_mul (f64_of_Z (v_window v)) (f64_of_Z 1000).

(** The newest moment of some points, 0 when there is none. *)
Definition newest (points : list Point) : float64 := foldl (fun t p => f64_max t (TimeMS p)) f64_zero points.

(** window of chart.go and span of detail.go: the range dragged, else the last
    seconds of what is drawn. *)
Definition window (v : viewState) (points : list Point) : float64 * float64 :=
  if f64_ltb f64_zero (v_from v) then (v_from v, v_to v)
  else let to := newest points in
       if f64_is_zero to then (f64_zero, f64_zero) else (f64_sub to (window_ms v), to).

Definition at_ (when from to : float64) : float64 :=
  if f64_leb to from then f64_zero else f64_mul (f64_div (f64_sub when from) (f64_sub to from)) plotWidth.
Definition height_of (value top : float64) : float64 := f64_sub plotHeight (f64_mul (f64_div (f64_min value top) top) plotHeight).

(** The moments of what is stacked, each once, in order: the loop swaps each back
    past those above it. *)
Definition add_instant (out : list float64) (t : float64) : list float64 := if existsb (f64_eqb t) out then out else out ++ [t].
Fixpoint swap_back (x : float64) (sorted_rev : list float64) : list float64 :=
  match sorted_rev with
  | y :: l => if f64_ltb x y then y :: swap_back x l else x :: sorted_rev
  | [] => [x]
  end.
Definition instants (layers : list layer) : list float64 :=
  let all := foldl add_instant [] (TimeMS <$> concat (la_Points <$> filter (fun l => la_Stack l = true) layers)) in
  rev (foldl (fun acc x => swap_back x acc) [] all).

(** The last value at or before a moment. *)
Fixpoint value_go (points : list Point) (when value : float64) : float64 :=
  match points with
  | [] => value
  | p :: l => if f64_ltb when (TimeMS p) then value else value_go l when (Value p)
  end.
Definition valueAt (points : list Point) (when : float64) : float64 := value_go points when f64_zero.

Definition layer_top (top : float64) (l : layer) : float64 :=
  if la_Stack l then top
  else if f64_ltb f64_zero (la_Top l) then f64_max top (la_Top l)
  else foldl (fun t p => f64_max t (Value p)) top (la_Points l).
Definition stacked_sum (layers : list layer) (when : float64) : float64 := foldl (fun sum l => f64_add sum (valueAt (la_Points l) when)) f64_zero layers.
Definition ceiling (layers : list layer) : float64 :=
  let top := foldl layer_top f64_zero layers in
  let top := if existsb la_Stack layers then foldl (fun t when => f64_max t (stacked_sum layers when)) top (instants layers) else top in
  if f64_is_zero top then f64_of_Z 1 else top.

(** ** The text *)
Definition vertex (verb : string) (x y : float64) : string := text_of "%s %s %s " [AStr verb; AStr (FormatFixed 2 x); AStr (FormatFixed 2 y)].
Definition verb_at (index : nat) : string := match index with O => "M" | _ => "L" end.
Definition all_text (l : list string) : string := foldr (fun s acc => s +:+ acc) "" l.

Definition path (points : list Point) (from to top : float64) : string :=
  TrimSpace (all_text (imap (fun i p => vertex (verb_at i) (at_ (TimeMS p) from to) (height_of (Value p) top)) points)).

Definition quoted (s : string) : string := String (chr 34) (s +:+ String (chr 34) "").
Definition region_text (one : layer) (moments floor : list float64) (from to top : float64) : string :=
  all_text (imap (fun i m => vertex (verb_at i) (at_ m.1 from to) (height_of (f64_add m.2 (valueAt (la_Points one) m.1)) top)) (zip moments floor)) +:+
  all_text ((fun m => vertex "L" (at_ m.1 from to) (height_of m.2 top)) <$> rev (zip moments floor)).
Fixpoint stack_go (layers : list layer) (moments floor : list float64) (from to top : float64) : string :=
  match layers with
  | [] => ""
  | one :: rest =>
      if negb (la_Stack one) then stack_go rest moments floor from to top
      else text_of "<path fill=%s fill-opacity=%s stroke=%s stroke-width=%s vector-effect=%s d=%s/>"
             [AStr (quoted (la_Colour one)); AStr (quoted "0.8"); AStr (quoted (la_Colour one)); AStr (quoted "0.75");
              AStr (quoted "non-scaling-stroke"); AStr (quoted (region_text one moments floor from to top +:+ "Z"))] +:+
           stack_go rest moments (zip_with (fun f m => f64_add f (valueAt (la_Points one) m)) floor moments) from to top
  end.
Definition drawStack (layers : list layer) (from to top : float64) : string :=
  let moments := instants layers in
  if Z.of_nat (length moments) <? 2 then "" else stack_go layers moments (repeat f64_zero (length moments)) from to top.

Definition grid_line (quarters : Z) : string :=
  let y := FormatFixed 1 (f64_sub plotHeight (f64_mul plotHeight (f64_div (f64_of_Z quarters) (f64_of_Z 4)))) in
  text_of "<line class=%s x1=%s y1=%s x2=%s y2=%s/>"
    [AStr (quoted "grid"); AStr (quoted "0"); AStr (quoted y); AStr (quoted (FormatFixed 0 plotWidth)); AStr (quoted y)].

Definition draw_layer (from to top : float64) (one : layer) : string :=
  match la_Stack one, la_Points one, last (la_Points one) with
  | false, (first :: _ :: _) as points, Some newest_ =>
      let traced := path points from to top in
      (if la_Area one
       then text_of "<path fill=%s fill-opacity=%s d=%s/>"
              [AStr (quoted (la_Colour one)); AStr (quoted "0.18");
               AStr (quoted (text_of "%s L %s %s L %s %s Z"
                 [AStr traced; AStr (FormatFixed 2 (at_ (TimeMS newest_) from to)); AStr (FormatFixed 0 plotHeight);
                  AStr (FormatFixed 2 (at_ (TimeMS first) from to)); AStr (FormatFixed 0 plotHeight)]))]
       else "") +:+
      text_of "<path fill=%s stroke=%s stroke-width=%s vector-effect=%s d=%s/>"
        [AStr (quoted "none"); AStr (quoted (la_Colour one)); AStr (quoted "1.5"); AStr (quoted "non-scaling-stroke"); AStr (quoted traced)]
  | _, _, _ => ""
  end.

Record legendView := MkLegend { lg_Label : string; lg_Colour : string; lg_Value : string }.
Record chartView := MkChart { ch_ID : string; ch_Legend : list legendView; ch_Top : string; ch_Body : string; ch_Short : bool }.

Definition lastOf (points : list Point) : option float64 := Value <$> last points.
Definition chartOf (id : string) (layers : list layer) (v : viewState) (format : option float64 -> string) (short : bool) : chartView :=
  let '(from, to) := window v (concat (la_Points <$> layers)) in
  let top := ceiling layers in
  MkChart id ((fun l => MkLegend (la_Label l) (la_Colour l) (format (lastOf (la_Points l)))) <$> layers) (format (Some top))
    (all_text (grid_line <$> [1; 2; 3; 4]) +:+ drawStack layers from to top +:+ all_text (draw_layer from to top <$> layers)) short.

(** ** The readings behind it *)
Definition seriesOf (h : fleetHost) (scope name metric : string) : list Point :=
  match find (fun s => String.eqb (sr_Scope s) scope && String.eqb (sr_Name s) name && String.eqb (sr_Metric s) metric) (fh_Metrics h) with
  | Some s => Points s
  | None => []
  end.
Definition ratioOf (h : fleetHost) (part whole : string) : list Point :=
  match seriesOf h ScopeHost "" part, lastOf (seriesOf h ScopeHost "" whole) with
  | (_ :: _) as used, Some total =>
      if f64_is_zero total then []
      else (fun p => MkPoint (TimeMS p) (f64_mul (f64_div (Value p) total) (f64_of_Z 100))) <$> used
  | _, _ => []
  end.
Definition percentOf (v : option float64) : string := match v with None => "-" | Some x => FormatFixed 1 x +:+ "%" end.
Definition loadOf (v : option float64) : string := match v with None => "-" | Some x => FormatFixed 2 x end.
Definition bytesOf (v : option float64) : string :=
  match v with
  | None => "-"
  | Some x => let '(n, u) := scale_bytes x "B" ["K"; "M"; "G"; "T"] in FormatFixed (if String.eqb u "B" then 0 else 1) n +:+ u
  end.

Definition hostLayers (h : fleetHost) : list layer :=
  [MkLayer "cpu" (seriesOf h ScopeHost "" MetricCPUPercent) "#007aff" true false (f64_of_Z 100);
   MkLayer "memory" (ratioOf h MetricMemoryBytes MetricMemoryTotal) "#ff9f0a" true false (f64_of_Z 100)].
Definition palette : list string := ["#007aff"; "#ff9f0a"; "#34c759"; "#af52de"; "#ff375f"; "#5ac8fa"; "#ffd60a"; "#64d2ff"].
Definition stackedLayers (h : fleetHost) : list layer :=
  let names := sr_Name <$> filter (fun s => sr_Scope s = ScopeService /\ sr_Metric s = MetricMemoryBytes /\ Points s <> []) (fh_Metrics h) in
  imap (fun i name => MkLayer name (seriesOf h ScopeService name MetricMemoryBytes) (default "" (palette !! (i mod length palette)%nat)) false true f64_zero)
    (merge_sort String.le names).
