(* ===== verification/PanelView.v ===== *)
(** * PanelView: what the page is told

    src/cmd/hostctl/panelhttp.go (the tree, the fragments, what is sent again)
    and the lines of detail.go.  html/template is a parameter: [execute] is what
    a template of ui/panel.tmpl makes of a value, and [digest] the eight bytes of
    SHA-256 a fragment is compared by. *)
From S2P Require Import Prelude GoText GoTime Service Runtime DockerClient Plan MetricStore Host CommandLine Commands Panel Chart.
From Stdlib Require Import Ascii SpecFloat.
Open Scope string_scope.
Open Scope list_scope.
Open Scope Z_scope.
Open Scope hostd_scope.

(** ** The log *)
Record lineView := MkLineView { lv_Seq : Z; lv_When : float64; lv_Where : string; lv_Text : Msg; lv_Class : string }.

Definition inView (held : line) (v : viewState) : bool :=
  if String.eqb (v_kind v) "host" then String.eqb (ln_Host held) (v_host v)
  else if String.eqb (v_kind v) "service" then String.eqb (ln_Host held) (v_host v) && String.eqb (ll_Service (ln_Log held)) (v_name v)
  else true.

(** [lv_When] is the moment; the page shows it as 15:04:05. *)
Definition lineOf (held : line) (v : viewState) : lineView :=
  let l := ln_Log held in
  let where_ := (if String.eqb (v_kind v) "fleet" then ln_Host held +:+ "/" +:+ ll_Service l else ll_Service l) +:+
                (if String.eqb (ll_Run l) "" then "" else "/" +:+ ll_Run l) in
  MkLineView (ll_Seq l) (ll_Time l) where_ (ll_Text l)
    (if ln_Bad held then "err" else if String.eqb (ll_Stream l) Logs.StreamEvent then "event" else "").

(** panel.freshLines: the lines after the last number sent, and that number. *)
Definition fresh_line (all : bool) (after : Z) (v : viewState) (held : line) : bool := (all || (after <? ln_N held)) && inView held v.
Definition last_number (lines : list line) (pushed : Z) : Z := foldl (fun n l => if n <? ln_N l then ln_N l else n) pushed lines.
Definition freshLines (all : bool) (p : Panel) : list lineView * Z :=
  let lines := pc_Lines (p_picture p) in
  ((fun l => lineOf l (p_view p)) <$> filter (fun l => fresh_line all (if all then 0 else p_pushed p) (p_view p) l = true) lines,
   last_number lines (p_pushed p)).

(** ** The tree *)
Record rowView := MkRow {
  rv_Key : string; rv_Label : string; rv_Icon : string; rv_Header : bool; rv_Dot : string; rv_Meta : string; rv_Child : bool;
  rv_Selected : bool; rv_Twist : string; rv_Link : string; rv_Toggle : string;
}.

Definition id_byte (c : ascii) : bool :=
  let n := N_of_ascii c in
  ((97 <=? n) && (n <=? 122) || (65 <=? n) && (n <=? 90) || (48 <=? n) && (n <=? 57))%N.
Fixpoint safeID (key : string) : string :=
  match key with "" => "" | String c s => String (if id_byte c then c else "-"%char) (safeID s) end.
Definition DotID (r : rowView) : string := "tdot-" +:+ safeID (rv_Key r).
Definition MetaID (r : rowView) : string := "tmeta-" +:+ safeID (rv_Key r).

Definition bool_text (b : bool) : string := if b then "true" else "false".
Definition row_key (r : rowView) : string :=
  text_of "%s|%s|%s|%s|%s|%s|%s" (texts [rv_Key r; rv_Label r; rv_Icon r; bool_text (rv_Selected r); bool_text (rv_Child r); bool_text (rv_Header r); rv_Twist r])
  +:+ String newline "".
Definition StructureKey (rows : list rowView) : string := all_text (row_key <$> rows).

Definition imagesMeta (h : fleetHost) : string := match fh_Images h with [] => "" | l => itoa (Z.of_nat (length l)) end.
Definition going (services : list Status) : Z := Z.of_nat (length (filter (fun s => st_State s = StateRunning) services)).

(** The worst state of a machine, and what is wrong with the machine before it. *)
Definition severity : list string := [StatusFailed; StatusStarting; StateStopped; StatusScheduled; StateRunning].
Definition worse (found : nat) (s : Status) : nat :=
  foldl (fun found p => if String.eqb p.2 (st_State s) && (p.1 <? found)%nat then p.1 else found) found (imap pair severity).
Definition worst (carried : string) (h : fleetHost) : string :=
  if has_error h then "unreachable"
  else if negb (String.eqb (al_Act (alertFor carried h)) "") then "alert"
  else match fh_Services h with
       | [] => StateStopped
       | services => default "" (severity !! foldl worse (pred (length severity)) services)
       end.

Definition looks_at (v : viewState) (kind host name : string) : bool :=
  String.eqb (v_kind v) kind && String.eqb (v_host v) host && String.eqb (v_name v) name.
Definition twist (open : bool) : string := if open then "open" else "closed".
Definition heading_row (key label : string) : rowView := MkRow key label "" true "" "" false false "" "" "".

Definition service_rows (v : viewState) (host : string) (s : Status) : list rowView :=
  let name := st_Name s in
  let here := host +:+ "/" +:+ name in
  let open := default false (v_opened v !! here) in
  MkRow ("svc:" +:+ here) name "" false (st_State s) (st_Every s) true (looks_at v "service" host name) (twist open)
    ("select/service/" +:+ here) ("toggle/" +:+ here) ::
  (if open then [MkRow ("files:" +:+ here) "Files" "folder2-open" false "" "" true (looks_at v "files" host name) "" ("select/files/" +:+ here) ""]
   else []).

Definition machine_rows (carried : string) (v : viewState) (h : fleetHost) : list rowView :=
  let host := fh_Host h in
  let open := negb (default false (v_closed v !! host)) in
  let on kind := String.eqb (v_kind v) kind && String.eqb (v_host v) host in
  let meta := if has_error h then "!" else text_of "%d/%d" [AInt (going (fh_Services h)); AInt (Z.of_nat (length (fh_Services h)))] in
  MkRow ("host:" +:+ host) host "" false (worst carried h) meta false (on "host") (twist open) ("select/host/" +:+ host) ("toggle/" +:+ host) ::
  (if open
   then concat (service_rows v host <$> fh_Services h) ++
        [MkRow ("images:" +:+ host) "Images" "stack" false "" (imagesMeta h) true (on "images") "" ("select/images/" +:+ host) ""]
   else []).

Definition settings_rows (v : viewState) : list rowView :=
  let open := negb (default false (v_closed v !! "settings-branch")) in
  let on kind := String.eqb (v_kind v) kind in
  MkRow "settings" "Settings" "gear" false "" "" false (on "settings") (twist open) "select/settings" "toggle/settings-branch" ::
  (if open
   then [MkRow "services" "Services" "stack" false "" "" true (on "services") "" "select/services" "";
         MkRow "machines" "Machines" "list" false "" "" true (on "machines") "" "select/machines" ""]
   else []).

Definition treeOf (carried : string) (fleet : list fleetHost) (v : viewState) : list rowView :=
  MkRow "fleet" "Fleet" "" false "" (itoa (Z.of_nat (length fleet))) false (String.eqb (v_kind v) "fleet") "" "select/fleet" "" ::
  heading_row "head-machines" "Machines" ::
  concat (machine_rows carried v <$> fleet) ++ heading_row "head-panel" "Panel" :: settings_rows v.

Definition statusText (pc : Picture) : string :=
  match pc_Updated pc with
  | None => "reaching the fleet"
  | Some _ => text_of "watching %d machine(s)" [AInt (Z.of_nat (length (pc_Fleet pc)))]
  end.

(** ** What is sent again *)
Record fragment := MkFragment { fr_ID : string; fr_HTML : string; fr_Digest : string }.

(** A fragment is sent when the page holds another digest under its id. *)
Definition send_piece (acc : list fragment * gmap string string) (piece : fragment) : list fragment * gmap string string :=
  let '(body, sent) := acc in
  if String.eqb (default "" (sent !! fr_ID piece)) (fr_Digest piece) then (body, sent)
  else (body ++ [piece], <[fr_ID piece := fr_Digest piece]> sent).

Section Page.
(** The fragments of the page as the panel is now. *)
Context (fragments : Panel -> list fragment).

(** panel.pending: the pieces that changed and the lines that are new, all of
    them when the view moved. *)
Definition pending (replaceLog : bool) : ST Panel (list fragment * option (list lineView)) := fun p =>
  let '(body, sent) := foldl send_piece ([], p_sent p) (fragments p) in
  let '(fresh, pushed) := freshLines replaceLog p in
  ((body, match fresh with [] => if replaceLog then Some [] else None | _ => Some fresh end), set_page sent pushed p).

(** What a body is when there is nothing to say. *)
Definition nothing : list fragment * option (list lineView) := ([], None).

(** panel.page: the whole of it, for a page that holds nothing. *)
Definition page : ST Panel (list fragment * list lineView) := fun p =>
  let pieces := fragments p in
  let sent := foldl (fun sent piece => <[fr_ID piece := fr_Digest piece]> sent) ∅ pieces in
  let '(fresh, pushed) := freshLines true (set_page sent 0 p) in
  ((pieces, fresh), set_page sent pushed p).
End Page.
