(* ===== verification/Detail.v ===== *)
(** * Detail: what a screen of the window shows

    src/cmd/hostctl/detail.go: each screen as a value made of the picture and of
    where the window looks.  How a moment is written is a parameter, with the
    operator's own zone where none is named. *)
From S2P Require Import Prelude GoText GoTime GoPath Service Filo Tree Runtime DockerClient Plan Images MetricStore Host Server CommandLine Commands Panel Chart PanelView.
From Stdlib Require Import Ascii SpecFloat.
Open Scope string_scope.
Open Scope list_scope.
Open Scope Z_scope.

(** ** The parts of a screen *)
Record buttonView := MkButton { bt_Label : string; bt_Icon : string; bt_Act : string; bt_Deploy : string; bt_Armed : bool; bt_Busy : bool }.
Record gridRow := MkGridRow { gr_Cells : list string; gr_Loose : bool; gr_Link : string; gr_Buttons : list buttonView }.
Record numberView := MkNumber { nv_Value : string; nv_Of : string }.
Record rowCells := MkCells {
  rc_Key : string; rc_Link : string; rc_Name : string; rc_State : string; rc_Dot : string; rc_Image : string; rc_Since : Z;
  rc_Job : bool; rc_Restart : string; rc_Problem : string;
}.
Record cardView := MkCard {
  cv_Key : string; cv_Heading : string; cv_Aside : string; cv_Link : string; cv_Problem : string; cv_Numbers : list numberView;
  cv_Head : list string; cv_Rows : list rowCells; cv_Facts : list (string * string); cv_Charts : list chartView;
  cv_Buttons : list buttonView; cv_Machines : list string; cv_GridHead : list string; cv_Grid : list gridRow;
}.
Record editorView := MkEditor { ev_Token : string; ev_Draft : string; ev_Problem : string; ev_DeleteAct : string; ev_Armed : bool; ev_CancelAct : string }.
Record detailView := MkDetail {
  dv_Title : string; dv_Subtitle : string; dv_Single : bool; dv_Empty : string; dv_Cards : list cardView; dv_Editor : option editorView;
  dv_Watching : bool; dv_From : Z; dv_To : Z; dv_Window : Z; dv_Frozen : bool; dv_RangeText : string;
  dv_Alert : string; dv_AlertAct : string; dv_AlertBusy : bool;
}.

Definition screen (title subtitle : string) (single : bool) (empty : string) (cards : list cardView) : detailView :=
  MkDetail title subtitle single empty cards None false 0 0 0 false "" "" "" false.
Definition button (label icon act : string) : buttonView := MkButton label icon act "" false false.
Definition grid_card (key heading aside problem : string) (numbers : list numberView) (buttons : list buttonView) (head : list string) (grid : list gridRow) : cardView :=
  MkCard key heading aside "" problem numbers [] [] [] [] buttons [] head grid.
Definition chart_card (key heading : string) (numbers : list numberView) (charts : list chartView) : cardView :=
  MkCard key heading "" "" "" numbers [] [] [] charts [] [] [] [].
Definition facts_card (key heading problem : string) (facts : list (string * string)) (buttons : list buttonView) : cardView :=
  MkCard key heading "" "" problem [] [] [] facts [] buttons [] [] [].

(** What the screens are made of beside the picture. *)
Record settingsInfo := MkSettings { si_ConfigDir : string; si_Inventory : string; si_Machines : Z; si_Problem : string }.
Record filesState := MkFiles { fs_Host : string; fs_Service : string; fs_Path : string; fs_Entries : list FileEntry; fs_Problem : string; fs_Busy : bool }.
Record editState := MkEdit { ed_Token : string; ed_Title : string; ed_Draft : string; ed_Problem : string; ed_IsNew : bool; ed_CancelAct : string; ed_DeleteAct : string }.
Record Beside := MkBeside {
  bs_settings : settingsInfo; bs_catalog : list Declaration; bs_machines : list string; bs_files : filesState;
  bs_inventory : list inventoryEntry; bs_inventoryProblem : string; bs_editor : editState;
}.

Definition settings (p : Panel) : settingsInfo :=
  MkSettings (p_dir p) (PathJoin [p_dir p; CommandLine.InventoryFile]) (Z.of_nat (length (p_hosts p))) (p_problem p).

(** ** Pieces *)
Definition dashed (s : string) : string := if String.eqb s "" || String.eqb s "0" then "-" else s.
Definition shortImage (image : string) : string := (Cut image "@"%char).1.1.
Definition said_error (s : Status) : string := render_arg (AMsg (st_LastError s)).
Definition is_job (s : Status) : bool := negb (String.eqb (st_Every s) "").

Definition machineOf (fleet : list fleetHost) (name : string) : option fleetHost := find (fun h => String.eqb (fh_Host h) name) fleet.

Definition splitManaged (all : list ImageEntry) : list ImageEntry * list ImageEntry :=
  (filter (fun i => Managed i = true) all, filter (fun i => Managed i = false) all).
Definition bytes_in (l : list ImageEntry) : float64 := foldl (fun acc i => f64_add acc (ie_Bytes i)) f64_zero l.
Definition count_text {X} (l : list X) : string := itoa (Z.of_nat (length l)).
Definition imageNumbers (images : list ImageEntry) (countUnused : bool) : list numberView :=
  let loose := filter (fun i => UsedBy i = "") images in
  [MkNumber (count_text images) "images"; MkNumber (formatBytes (bytes_in images)) "on disk"] ++
  (if countUnused && (0 <? Z.of_nat (length loose))
   then [MkNumber (count_text loose) "held by nothing"; MkNumber (formatBytes (bytes_in loose)) "reclaimable"] else []).

Definition serviceActions (host svc : string) : list buttonView :=
  let act verb := text_of "do/%s/%s/%s" (texts [verb; host; svc]) in
  ((fun p => button p.1 p.2 (act p.1)) <$> [("deploy", "box-arrow-up"); ("restart", "arrow-clockwise"); ("stop", "stop-fill"); ("start", "play-fill"); ("remove", "trash")])
  ++ [button "files" "folder2-open" (text_of "select/files/%s/%s" (texts [host; svc]))].

Definition cellsOf (host : string) (s : Status) : rowCells :=
  let state := (if is_job s && (0 <? st_Runs s) then text_of "%s (%d)" [AStr (st_State s); AInt (st_Runs s)] else st_State s)
               +:+ (if st_Orphan s then " (orphan)" else "") in
  MkCells (st_Name s) ("select/service/" +:+ host +:+ "/" +:+ st_Name s) (st_Name s) state (st_State s) (shortImage (st_Image s))
    (f64_to_int64 (st_Since s)) (is_job s) (itoa (st_Restarts s)) (said_error s).

Definition numbersOf (h : fleetHost) : list numberView :=
  let host metric := lastOf (seriesOf h Sampler.ScopeHost "" metric) in
  [MkNumber (percentOf (host Sampler.MetricCPUPercent)) "cpu";
   MkNumber (percentOf (lastOf (ratioOf h Sampler.MetricMemoryBytes Sampler.MetricMemoryTotal))) "memory";
   MkNumber (percentOf (lastOf (ratioOf h Sampler.MetricDiskBytes Sampler.MetricDiskTotal))) "disk";
   MkNumber (loadOf (host Sampler.MetricLoad1)) "load"].

(** What names a card or a row on the page. *)
Definition AsideID (c : cardView) : string := "aside-" +:+ safeID (cv_Key c).
Definition StatID (c : cardView) : string := "stat-" +:+ safeID (cv_Key c).
Definition FactsID (c : cardView) : string := "facts-" +:+ safeID (cv_Key c).
Definition PillID (r : rowCells) : string := "pill-" +:+ safeID (rc_Key r).
Definition UpID (r : rowCells) : string := "up-" +:+ safeID (rc_Key r).
Definition RstID (r : rowCells) : string := "rst-" +:+ safeID (rc_Key r).

(** ** The screens *)
Section Screens.
(** time.Format with a layout, a zone or the operator's own, and a moment. *)
Context (Format : string -> option (string * Z) -> Time -> string).
Context (carried version : string) (now : Time).
Implicit Types (fleet : list fleetHost) (v : viewState) (info : settingsInfo).

Definition at_ms (layout : string) (ms : float64) : string := Format layout None (of_unix_milli (f64_to_int64 ms)).
Definition minute_layout : string := "2006-01-02 15:04".

Definition imageRows (images : list ImageEntry) : list gridRow :=
  (fun i => MkGridRow [tagsText (ie_Tags i); formatBytes (ie_Bytes i); at_ms minute_layout (ie_Created i); nameOrDash (UsedBy i); shortDigest (ie_Digest i)]
              (String.eqb (UsedBy i) "") "" []) <$> images.
Definition image_head : list string := ["image"; "size"; "created"; "used by"; "digest"].

Definition machine_card v (h : fleetHost) : cardView :=
  let link := "select/host/" +:+ fh_Host h in
  if has_error h
  then MkCard ("machine:" +:+ fh_Host h) (fh_Host h) "not answering" link (fh_Error h) [] [] [] [] [] [] [] [] []
  else MkCard ("machine:" +:+ fh_Host h) (fh_Host h)
         (text_of "%d of %d running" [AInt (going (fh_Services h)); AInt (Z.of_nat (length (fh_Services h)))]) link "" (numbersOf h) [] [] []
         [chartOf ("plot-" +:+ safeID (fh_Host h)) (hostLayers h) v percentOf true] [] [] [] [].
Definition fleetDetail fleet v : detailView :=
  screen "Fleet" (text_of "%d machine(s)" [AInt (Z.of_nat (length fleet))]) false
    (match fleet with [] => "no machine is listed in your inventory" | _ => "" end) (machine_card v <$> fleet).

Definition gone (title : string) : detailView := screen title "" true "this machine is not in the fleet any more" [].

Definition imagesDetail fleet v : detailView :=
  match machineOf fleet (v_host v) with
  | None => gone (v_host v)
  | Some h =>
      let empty said := screen (fh_Host h) "images" true said [] in
      if negb (String.eqb (fh_ImagesError h) "") then empty (fh_ImagesError h)
      else match fh_Images h with
           | [] => empty (if has_error h then fh_Error h else "asking " +:+ fh_Host h +:+ " what it holds…")
           | images =>
               let '(ours, others) := splitManaged images in
               screen (fh_Host h) (text_of "%d of %d image(s) put here by hostd" [AInt (Z.of_nat (length ours)); AInt (Z.of_nat (length images))]) true ""
                 (grid_card "images" "Managed by hostd" (text_of "a cleanup keeps %d of each still declared" [AInt DefaultImageKeep])
                    (match ours with [] => "nothing here arrived through hostctl image push" | _ => "" end) (imageNumbers ours true)
                    [button "Clean up" "trash" ("do/prune/" +:+ fh_Host h)] image_head (imageRows ours) ::
                  match others with
                  | [] => []
                  | _ => [grid_card "images-other" "Built or pulled by something else" "" "" (imageNumbers others false) [] image_head (imageRows others)]
                  end)
           end
  end.

Definition catalog_card (machines : list string) (d : Declaration) : cardView :=
  let svc := d_Service d in
  MkCard ("catalog:" +:+ Name svc) (Name svc)
    (shortImage (Service.Image svc) +:+ (if String.eqb (Every svc) "" then "" else " · every " +:+ Every svc)) "" "" [] [] [] [] []
    [MkButton "deploy" "box-arrow-up" "" (Name svc) false false; button "edit" "gear" ("select/svcedit/" +:+ Name svc)] machines [] [].
Definition catalogDetail (catalog : list Declaration) (machines : list string) info : detailView :=
  screen "Services" (text_of "%d described in %s" [AInt (Z.of_nat (length catalog)); AStr (si_ConfigDir info)]) false
    (match catalog with
     | [] => "this tree describes no services yet: a service is a .filo file, or a directory with an init.filo and the files that travel with it"
     | _ => ""
     end)
    (grid_card "register" "Register" "a service is a .filo in the tree; describing is not deploying" "" [] [button "new service" "stack" "select/svcedit"] [] [] ::
     (catalog_card machines <$> catalog)).

Definition editorDetail (e : editState) : detailView :=
  MkDetail (ed_Title e) "as the tree holds it; saving writes the file — deploy and commit stay yours" true "" []
    (Some (MkEditor (ed_Token e) (ed_Draft e) (ed_Problem e) (ed_DeleteAct e) false (ed_CancelAct e))) false 0 0 0 false "" "" "" false.

Definition machineClock (h : fleetHost) : string :=
  if String.eqb (fh_Zone h) "" then ""
  else " · " +:+ Format "15:04 MST" (Some (fh_Zone h, f64_to_int64 (f64_div (fh_ZoneOffsetMS h) (f64_of_Z 1000))))
         (GoTime.Add now (f64_to_int64 (fh_ClockSkewMS h) * Millisecond)).

Definition hostDetail fleet v : detailView :=
  match machineOf fleet (v_host v) with
  | None => gone (v_host v)
  | Some h =>
      let subtitle := if has_error h then fh_Error h
                      else text_of "%d service(s) declared%s" [AInt (Z.of_nat (length (fh_Services h))); AStr (machineClock h)] in
      let warning := alertFor carried h in
      let shown empty cards :=
        MkDetail (fh_Host h) subtitle true empty cards None false 0 0 0 false "" (render_arg (AMsg (al_Text warning))) (al_Act warning) false in
      if has_error h && (Z.of_nat (length (fh_Services h)) =? 0) then shown (fh_Error h) []
      else shown ""
        ([MkCard "services" "Services" "" "" "" [] ["service"; "state"; "image"; "uptime"; "restarts"] (cellsOf (fh_Host h) <$> fh_Services h) [] [] [] [] [] [];
          chart_card "load" "Load" (numbersOf h) [chartOf "plot-load" (hostLayers h) v percentOf false]] ++
         match stackedLayers h with
         | [] => []
         | stacked => [chart_card "by-service" "Memory by service" [] [chartOf "plot-stack" stacked v bytesOf false]]
         end)
  end.

Definition file_grid v (base : string) (e : FileEntry) : gridRow :=
  let here := (if String.eqb (v_path v) "" then "" else v_path v +:+ "/") +:+ fe_Name e in
  if fe_Dir e then MkGridRow [fe_Name e +:+ "/"; ""; ""; ""] false (base +:+ "/" +:+ here) []
  else let act verb := "do/" +:+ verb +:+ "/" +:+ v_host v +:+ "/" +:+ v_name v +:+ "/" +:+ here in
       MkGridRow [fe_Name e; formatBytes (fe_Bytes e); at_ms minute_layout (fe_MS e); ""] false ""
         [button "" "box-arrow-down" (act "filedl"); button "" "trash" (act "filerm")].
(** The directory above, when it is not the service itself. *)
Definition above (path : string) : string := match cut_last path "/"%char with Some (String c s, _) => "/" +:+ String c s | _ => "" end.
Definition filesDetail v (files : filesState) : detailView :=
  let subtitle := "files on " +:+ v_host v +:+ " · /" +:+ v_path v in
  let empty said := screen (v_name v) subtitle true said [] in
  if negb (String.eqb (fs_Host files) (v_host v) && String.eqb (fs_Service files) (v_name v) && String.eqb (fs_Path files) (v_path v)) || fs_Busy files
  then empty ("asking " +:+ v_host v +:+ "…")
  else if negb (String.eqb (fs_Problem files) "") then empty (fs_Problem files)
  else
    let base := "select/files/" +:+ v_host v +:+ "/" +:+ v_name v in
    let inside := negb (String.eqb (v_path v) "") in
    let grid := (if inside then [MkGridRow [".."; ""; ""; ""] false (base +:+ above (v_path v)) []] else []) ++ (file_grid v base <$> fs_Entries files) in
    match grid with
    | [] => empty (v_name v +:+ " declares no named volume, so it has no data here")
    | _ => screen (v_name v) subtitle true ""
             [grid_card "files" "Data" "what lives in the service's volumes; configuration comes from the tree" "" []
                (if inside then [button "Upload here" "box-arrow-up" ("do/fileup/" +:+ v_host v +:+ "/" +:+ v_name v +:+ "/" +:+ v_path v)] else [])
                ["name"; "size"; "modified"; ""] grid]
    end.

Definition answers_of fleet (name : string) : string :=
  foldl (fun said h => if negb (String.eqb (fh_Host h) name) then said
                       else if negb (String.eqb (fh_Version h) "") then "hostd " +:+ fh_Version h
                       else if has_error h then "not answering" else "asking…") "never asked" fleet.
Definition machinesDetail fleet (inventory : list inventoryEntry) (problem : string) info : detailView :=
  let file := PathJoin [si_ConfigDir info; CommandLine.InventoryFile] in
  let subtitle := text_of "%d listed in %s" [AInt (Z.of_nat (length inventory)); AStr file] in
  if negb (String.eqb problem "") then screen "Machines" subtitle true problem []
  else screen "Machines" subtitle true (match inventory with [] => "the inventory lists no machine yet" | _ => "" end)
    [grid_card "inventory" "Inventory" "the machines the fleet is made of; tags group them for -tag" "" [] [button "edit" "gear" "select/invedit"]
       ["machine"; "tags"; "answers"] ((fun e => MkGridRow [in_Name e; Join (in_Tags e) " "; answers_of fleet (in_Name e)] false "" []) <$> inventory)].

Definition service_facts (s : Status) : list (string * string) :=
  [("state", st_State s +:+ (if st_Orphan s then " (running here, declared nowhere)" else "")); ("image", dashed (st_Image s)); ("desired", dashed (st_Desired s))] ++
  (if is_job s then [("every", st_Every s); ("runs going", itoa (st_Runs s))] else [("pid", dashed (itoa (st_PID s)))]) ++
  [("restarts", itoa (st_Restarts s)); ("last exit", itoa (st_LastExit s))] ++
  (if String.eqb (said_error s) "" then [] else [("problem", said_error s)]).
Definition serviceDetail fleet v : detailView :=
  match machineOf fleet (v_host v) with
  | None => gone (v_name v)
  | Some h =>
      match last (filter (fun s => st_Name s = v_name v) (fh_Services h)) with
      | None => screen (v_name v) "" true "no file declares this service any more" []
      | Some s =>
          let series metric := seriesOf h Sampler.ScopeService (st_Name s) metric in
          let cpu := series Sampler.MetricCPUPercent in
          let memory := series Sampler.MetricMemoryBytes in
          let one label points colour := [MkLayer label points colour true false f64_zero] in
          screen (st_Name s) (if is_job s then fh_Host h +:+ " · every " +:+ st_Every s else fh_Host h) true ""
            (facts_card "facts" "Declaration" "" (service_facts s) (serviceActions (fh_Host h) (st_Name s)) ::
             (if (0 <? Z.of_nat (length cpu)) || (0 <? Z.of_nat (length memory))
              then [chart_card "usage" "Usage" [] [chartOf "plot-cpu" (one "cpu" cpu "#007aff") v percentOf false;
                                                  chartOf "plot-mem" (one "memory" memory "#ff9f0a") v bytesOf false]] else []))
      end
  end.

Definition settingsDetail info : detailView :=
  screen "Settings" "what this panel watches" true ""
    [facts_card "tree" "Configuration" (si_Problem info)
       [("configuration root", si_ConfigDir info); ("inventory", si_Inventory info); ("machines listed", itoa (si_Machines info))]
       [button "Choose…" "folder2-open" "config/choose"; button "Reload" "arrow-clockwise" "config/reload"];
     facts_card "about" "About hostctl" ""
       [("version", version); ("protocol", itoa Server.Protocol_); ("schema", itoa Server.Schema);
        ("services are declared in", "one .filo file, or a directory with an init.filo and the files that travel with it")] []].

Definition detail_screen fleet v (b : Beside) : detailView :=
  let kind := v_kind v in
  if String.eqb kind "host" then hostDetail fleet v
  else if String.eqb kind "service" then serviceDetail fleet v
  else if String.eqb kind "images" then imagesDetail fleet v
  else if String.eqb kind "services" then catalogDetail (bs_catalog b) (bs_machines b) (bs_settings b)
  else if String.eqb kind "files" then filesDetail v (bs_files b)
  else if String.eqb kind "svcedit" || String.eqb kind "invedit" then editorDetail (bs_editor b)
  else if String.eqb kind "machines" then machinesDetail fleet (bs_inventory b) (bs_inventoryProblem b) (bs_settings b)
  else if String.eqb kind "settings" then settingsDetail (bs_settings b)
  else fleetDetail fleet v.

Definition detailOf fleet v (b : Beside) : detailView :=
  let d := detail_screen fleet v b in
  let '(from, to) := window v (concat (Points <$> concat (fh_Metrics <$> fleet))) in
  let frozen := f64_ltb f64_zero (v_from v) in
  MkDetail (dv_Title d) (dv_Subtitle d) (dv_Single d) (dv_Empty d) (dv_Cards d) (dv_Editor d) (negb (String.eqb (v_kind v) "settings"))
    (f64_to_int64 from) (f64_to_int64 to) (v_window v) frozen
    (if frozen then at_ms "15:04:05" (v_from v) +:+ " – " +:+ at_ms "15:04:05" (v_to v) else "")
    (dv_Alert d) (dv_AlertAct d) (dv_AlertBusy d).
End Screens.
