(* ===== verification/Page.v ===== *)
(** * Page: the fragments of the window's page

    src/cmd/hostctl/panelhttp.go and detail.go: the keys that say when a branch is
    drawn again, the pieces that change on their own, and the whole page as the
    list of fragments that [pending] compares. *)
From S2P Require Import Prelude GoText GoTime Service Runtime DockerClient Plan MetricStore Host CommandLine Commands Panel Chart PanelView Detail.
From Stdlib Require Import Ascii SpecFloat.
Open Scope string_scope.
Open Scope list_scope.
Open Scope Z_scope.

(** What a template of ui/panel.tmpl is given. *)
Inductive Data :=
  | DTree (rows : list rowView)
  | DRow (row : rowView)
  | DDetail (d : detailView)
  | DCard (c : cardView)
  | DChart (c : chartView)
  | DCells (r : rowCells)
  | DStatus (text : string).

(** ** When a screen is drawn again *)
Definition line_of (format : string) (args : list Arg) : string := text_of format args +:+ String newline "".
Definition bools (l : list bool) : list Arg := AStr <$> (bool_text <$> l).
(** %v of a slice of strings. *)
Definition slice_text (l : list string) : string := "[" +:+ Join l " " +:+ "]".
Definition onOff (on : bool) : string := if on then " (running)" else "".

Definition row_line (r : rowCells) : string :=
  line_of " %s|%s|%s|%s|%s" (texts [rc_Key r; rc_Name r; rc_Image r; rc_Problem r; bool_text (rc_Job r)]).
Definition grid_line (g : gridRow) : string :=
  line_of " g:%s|%s" (texts [Join (gr_Cells g) (String (chr 31) ""); bool_text (gr_Loose g)]).
Definition button_line (b : buttonView) : string := line_of " b:%s|%s|%s|%s" (texts [bt_Act b; bt_Deploy b; bool_text (bt_Busy b); bool_text (bt_Armed b)]).
Definition row_button_line (b : buttonView) : string := line_of " rb:%s|%s|%s" (texts [bt_Act b; bool_text (bt_Busy b); bool_text (bt_Armed b)]).
Definition card_lines (c : cardView) : string :=
  line_of "%s|%s|%s|%s|%d|%d|%s" [AStr (cv_Key c); AStr (cv_Heading c); AStr (cv_Link c); AStr (cv_Problem c);
    AInt (Z.of_nat (length (cv_Charts c))); AInt (Z.of_nat (length (cv_Numbers c))); AStr (slice_text (cv_Machines c))] +:+
  all_text (row_line <$> cv_Rows c) +:+ all_text ((fun f => line_of " f:%s" [AStr f.1]) <$> cv_Facts c) +:+
  all_text (grid_line <$> cv_Grid c) +:+ all_text (button_line <$> cv_Buttons c) +:+
  all_text (row_button_line <$> concat (gr_Buttons <$> cv_Grid c)).
Definition detail_key (d : detailView) : string :=
  line_of "%s|%s|%s|%s|%d|%s|%s|%s|%s|%s"
    [AStr (dv_Title d); AStr (dv_Subtitle d); AStr (bool_text (dv_Single d)); AStr (dv_Empty d); AInt (dv_Window d); AStr (bool_text (dv_Watching d));
     AStr (bool_text (dv_Frozen d)); AStr (dv_RangeText d); AStr (dv_Alert d); AStr (dv_AlertAct d +:+ onOff (dv_AlertBusy d))] +:+
  match dv_Editor d with
  | Some e => line_of "e:%s|%s|%s" (texts [ev_Token e; ev_Problem e; bool_text (ev_Armed e)])
  | None => ""
  end +:+
  all_text (card_lines <$> dv_Cards d).

(** ** What is going on and what is armed, on its buttons *)
Section Marks.
Context (now : Time) (p : Panel).
Definition mark_busy (b : buttonView) : buttonView :=
  if String.eqb (bt_Act b) "" then b else MkButton (bt_Label b) (bt_Icon b) (bt_Act b) (bt_Deploy b) (bt_Armed b) (running (bt_Act b) p).
Definition mark_both (b : buttonView) : buttonView :=
  if String.eqb (bt_Act b) "" then b else MkButton (bt_Label b) (bt_Icon b) (bt_Act b) (bt_Deploy b) (isArmed (bt_Act b) now p) (running (bt_Act b) p).
Definition mark_card (c : cardView) : cardView :=
  MkCard (cv_Key c) (cv_Heading c) (cv_Aside c) (cv_Link c) (cv_Problem c) (cv_Numbers c) (cv_Head c) (cv_Rows c) (cv_Facts c) (cv_Charts c)
    (mark_busy <$> cv_Buttons c) (cv_Machines c) (cv_GridHead c)
    ((fun g => MkGridRow (gr_Cells g) (gr_Loose g) (gr_Link g) (mark_both <$> gr_Buttons g)) <$> cv_Grid c).
Definition mark_editor (e : editorView) : editorView :=
  if String.eqb (ev_DeleteAct e) "" then e
  else MkEditor (ev_Token e) (ev_Draft e) (ev_Problem e) (ev_DeleteAct e) (isArmed (ev_DeleteAct e) now p) (ev_CancelAct e).
Definition marked (d : detailView) : detailView :=
  MkDetail (dv_Title d) (dv_Subtitle d) (dv_Single d) (dv_Empty d) (mark_card <$> dv_Cards d) (mark_editor <$> dv_Editor d) (dv_Watching d)
    (dv_From d) (dv_To d) (dv_Window d) (dv_Frozen d) (dv_RangeText d) (dv_Alert d) (dv_AlertAct d)
    (negb (String.eqb (dv_AlertAct d) "") && running (dv_AlertAct d) p).
End Marks.

(** ** The fragments *)
Section Fragments.
(** A template over its data, as html/template renders it; the digest of a text. *)
Context (execute : string -> string -> Data -> string) (digest : string -> string).
Context (Format : string -> option (string * Z) -> Time -> string) (carried version : string).

Definition render (id name : string) (data : Data) : fragment := let html := execute id name data in MkFragment id html (digest html).
Definition renderKeyed (id name : string) (data : Data) (key : string) : fragment := MkFragment id (execute id name data) (digest key).

Definition row_pieces (r : rowView) : list fragment :=
  (if String.eqb (rv_Dot r) "" then [] else [render (DotID r) "treeDot" (DRow r)]) ++
  (if String.eqb (rv_Meta r) "" then [] else [render (MetaID r) "treeMeta" (DRow r)]).
Definition cell_pieces (r : rowCells) : list fragment :=
  [render (PillID r) "rowPill" (DCells r); render (UpID r) "rowUptime" (DCells r); render (RstID r) "rowRestarts" (DCells r)].
Definition card_pieces (c : cardView) : list fragment :=
  (if String.eqb (cv_Aside c) "" then [] else [render (AsideID c) "cardAside" (DCard c)]) ++
  (match cv_Numbers c with [] => [] | _ => [render (StatID c) "statBlock" (DCard c)] end) ++
  (match cv_Facts c with [] => [] | _ => [render (FactsID c) "factsTable" (DCard c)] end) ++
  ((fun h => render (ch_ID h) "chartHolder" (DChart h)) <$> cv_Charts c) ++ concat (cell_pieces <$> cv_Rows c).
Definition volatiles (d : detailView) : list fragment := concat (card_pieces <$> dv_Cards d).

Definition fragments (now : Time) (b : Beside) (p : Panel) : list fragment :=
  let fleet := pc_Fleet (p_picture p) in
  let tree := treeOf carried fleet (p_view p) in
  let detail := marked now p (detailOf Format carried version now fleet (p_view p) b) in
  [renderKeyed "tree" "tree" (DTree tree) (StructureKey tree); renderKeyed "detail" "detail" (DDetail detail) (detail_key detail)] ++
  concat (row_pieces <$> tree) ++ volatiles detail ++ [render "status" "status" (DStatus (statusText (p_picture p)))].
End Fragments.

(** ** What the page is sent, and when *)
(** ** Sending *)
Abbreviation held_under sent piece := (default "" (sent !! fr_ID piece)).

Lemma send_pieces_other pieces id acc : id ∉ fr_ID <$> pieces -> (foldl send_piece acc pieces).2 !! id = acc.2 !! id.
Proof.
  revert acc. induction pieces as [|x pieces IH]; intros [body sent] Hn; [done|]. apply not_elem_of_cons in Hn as [Hx Hn].
  cbn [foldl]. rewrite IH by done. unfold send_piece. case_match; [done|]. cbn. by rewrite lookup_insert_ne.
Qed.
(** After a pass the page holds every piece as it is now. *)
Lemma send_pieces_held pieces acc : NoDup (fr_ID <$> pieces) ->
  forall piece, piece ∈ pieces -> held_under (foldl send_piece acc pieces).2 piece = fr_Digest piece.
Proof.
  revert acc. induction pieces as [|x pieces IH]; intros acc Hd piece; [by intros ?%not_elem_of_nil|].
  apply NoDup_cons in Hd as [Hx Hd]. intros [->|Hp]%elem_of_cons; cbn [foldl]; [|by apply IH].
  rewrite send_pieces_other by done. destruct acc as [body sent]. unfold send_piece. case_match eqn:E; [by apply String.eqb_eq|].
  cbn. by rewrite lookup_insert_eq.
Qed.
Lemma send_nothing pieces body sent : (forall piece, piece ∈ pieces -> held_under sent piece = fr_Digest piece) ->
  foldl send_piece (body, sent) pieces = (body, sent).
Proof.
  revert body. induction pieces as [|x pieces IH]; intros body Hall; [done|]. cbn [foldl]. unfold send_piece at 2.
  rewrite (Hall x) by left. rewrite String.eqb_refl. apply IH. intros piece Hp. apply Hall. by right.
Qed.

Lemma last_number_ge lines n : n <= last_number lines n /\ Forall (fun l => ln_N l <= last_number lines n) lines.
Proof.
  unfold last_number. revert n. induction lines as [|l lines IH]; intros n; [by split; [cbn; lia|constructor]|]. cbn [foldl].
  assert (Hm : n <= (if n <? ln_N l then ln_N l else n) /\ ln_N l <= (if n <? ln_N l then ln_N l else n)) by (case_match; lia).
  destruct (IH (if n <? ln_N l then ln_N l else n)) as [Hn Hl]. split; [lia|]. constructor; [lia|done].
Qed.
Lemma last_number_done lines n : Forall (fun l => ln_N l <= n) lines -> last_number lines n = n.
Proof.
  unfold last_number. revert n. induction lines as [|l lines IH]; intros n Hn; [done|]. apply Forall_cons in Hn as [Hl Hn]. cbn [foldl].
  replace (n <? ln_N l) with false by lia. by apply IH.
Qed.

Lemma pending_state pieces replaceLog p : (pending pieces replaceLog p).2 =
  set_page (foldl send_piece ([], p_sent p) (pieces p)).2 (last_number (pc_Lines (p_picture p)) (p_pushed p)) p.
Proof. unfold pending. by destruct (foldl send_piece _ _). Qed.

Section Settles.
Context (execute : string -> string -> Data -> string) (digest : string -> string).
Context (Format : string -> option (string * Z) -> Time -> string) (carried version : string) (now : Time) (b : Beside).
Abbreviation pieces := (fragments execute digest Format carried version now b).

(** A page settles.  Where no two pieces share an id, one push brings the page to
    what the panel knows: it then holds every piece by its digest and has had
    every line, and the next push, at the same moment, has nothing to send and
    changes nothing. *)
Theorem page_settles replaceLog p : NoDup (fr_ID <$> pieces p) ->
  let p1 := (pending pieces replaceLog p).2 in
  (forall piece, piece ∈ pieces p -> default "" (p_sent p1 !! fr_ID piece) = fr_Digest piece) /\
  Forall (fun l => ln_N l <= p_pushed p1) (pc_Lines (p_picture p)) /\
  pending pieces false p1 = (nothing, p1).
Proof.
  intros Hd. cbv zeta. rewrite pending_state. set (sent := (foldl send_piece ([], p_sent p) (pieces p)).2).
  set (n := last_number (pc_Lines (p_picture p)) (p_pushed p)).
  assert (Hheld : forall piece, piece ∈ pieces p -> held_under sent piece = fr_Digest piece) by (intros piece; by apply send_pieces_held).
  pose proof (last_number_ge (pc_Lines (p_picture p)) (p_pushed p)) as [_ Hn]. fold n in Hn. split_and!; [exact Hheld|exact Hn|].
  unfold pending. change (pieces (set_page sent n p)) with (pieces p). cbn [set_page p_sent]. rewrite send_nothing by exact Hheld.
  unfold freshLines. cbn [set_page p_picture p_pushed p_view]. rewrite (last_number_done _ _ Hn).
  replace (filter _ _) with (@nil line); [done|]. symmetry. apply filter_none, Forall_forall.
  intros l Hl. rewrite Forall_forall in Hn. specialize (Hn l Hl). unfold fresh_line. cbn [orb]. replace (n <? ln_N l) with false by lia. done.
Qed.
End Settles.

(** ** When the tree is drawn again *)
Definition same_shape (h g : fleetHost) : Prop := fh_Host h = fh_Host g /\ st_Name <$> fh_Services h = st_Name <$> fh_Services g.

Lemma fmap_concat {X Y} (f : X -> Y) (ll : list (list X)) : fmap (M := list) f (concat ll) = concat (fmap (M := list) (fmap (M := list) f) ll).
Proof. induction ll as [|l ll IH]; [done|]. cbn [concat]. by rewrite fmap_app, IH. Qed.

Lemma service_rows_key v host s s' : st_Name s = st_Name s' -> row_key <$> service_rows v host s = row_key <$> service_rows v host s'.
Proof. intros E. unfold service_rows. cbv zeta. rewrite E. by case_match. Qed.
Lemma machine_rows_key carried carried' v h g : same_shape h g -> row_key <$> machine_rows carried v h = row_key <$> machine_rows carried' v g.
Proof.
  intros [Eh Es]. unfold machine_rows. cbv zeta. rewrite Eh. rewrite !fmap_cons. f_equal. case_match; [|done].
  rewrite !fmap_app. f_equal. rewrite !fmap_concat, <- !list_fmap_compose. f_equal.
  revert Es. generalize (fh_Services h) as l, (fh_Services g) as k. induction l as [|s l IH]; intros [|s' k] E; try done.
  cbn in E. injection E as E1 E2. cbn [fmap list_fmap]. f_equal; [by apply service_rows_key|by apply IH].
Qed.

(** The tree is drawn again only when its shape changes.  Two rounds that show
    the same machines with the same services in the same order give the tree one
    key, whatever their states, counts, problems and versions: the branches the
    operator opened stay as they are, and only dots and counts are sent. *)
Theorem tree_drawn_by_shape carried carried' fleet fleet' v :
  Forall2 same_shape fleet fleet' -> StructureKey (treeOf carried fleet v) = StructureKey (treeOf carried' fleet' v).
Proof.
  intros Hf. unfold StructureKey. f_equal. unfold treeOf. rewrite !fmap_cons, !fmap_app. do 2 f_equal; try done.
  f_equal. rewrite !fmap_concat, <- !list_fmap_compose. f_equal.
  induction Hf as [|h g l k Hhg _ IH]; [done|]. cbn [fmap list_fmap]. f_equal; [by apply machine_rows_key|exact IH].
Qed.

(** ** Two services may share a dot

    An id keeps letters and digits: the services of web and of web-db can be
    given one, and then each push sends both again. *)
Definition a_service (name : string) : Status := MkStatus name "running" StateRunning 7 false f64_zero 0 0 0 (Lit "") "" "" "".
Definition a_machine (name : string) (services : list Status) : fleetHost :=
  MkFleetHost name "" services [] [] [] "" 0 "" f64_zero "" f64_zero false.
Definition twins : list fleetHost := [a_machine "web" [a_service "db-api"]; a_machine "web-db" [a_service "api"]].
Definition drawn (rows : list rowView) : list fragment := (fun r => MkFragment (DotID r) (rv_Key r) (rv_Key r)) <$> filter (fun r => rv_Dot r <> "") rows.
Lemma dots_collide :
  DotID (MkRow "svc:web/db-api" "" "" false "" "" false false "" "" "") = DotID (MkRow "svc:web-db/api" "" "" false "" "" false false "" "" "") /\
  let pieces (p : Panel) := drawn (treeOf "" twins (p_view p)) in
  let p1 := (pending pieces false (newPanel "" ["web"; "web-db"])).2 in
  (pending pieces false p1).1 <> nothing.
Proof. split; [by vm_compute|]. vm_compute. discriminate. Qed.

Section Witness.
Definition plain_page (id name : string) (data : Data) : string := id +:+ name.
Definition no_time (layout : string) (zone : option (string * Z)) (t : Time) : string := layout.
Definition beside_nothing : Beside := MkBeside (MkSettings "/tree" "" 1 "") [] [] (MkFiles "" "" "" [] "" false) [] "" (MkEdit "" "" "" "" false "" "").
Definition one_panel : Panel := on_picture (absorb 0 ["yuki"] [a_machine "yuki" [a_service "web"]]) (newPanel "/tree" ["yuki"]).
Definition one_page : Panel -> list fragment := fragments plain_page id no_time "v2" "v2" 0 beside_nothing.
Definition pushed_once : Panel := (pending one_page false one_panel).2.
Lemma page_settles_witness : NoDup (fr_ID <$> one_page one_panel) /\ (pending one_page false one_panel).1 <> nothing /\
  pending one_page false pushed_once = (nothing, pushed_once).
Proof.
  assert (Hd : NoDup (fr_ID <$> one_page one_panel)) by (apply (bool_decide_unpack _); vm_compute; exact I).
  split; [exact Hd|]. split; [vm_compute; discriminate|].
  refine (proj2 (proj2 (page_settles plain_page id no_time "v2" "v2" 0 beside_nothing false one_panel Hd))).
Defined.
Lemma tree_drawn_by_shape_witness : StructureKey (treeOf "v1" twins first_view) =
  StructureKey (treeOf "v2" [a_machine "web" [MkStatus "db-api" "running" "failed" 0 false f64_zero 0 9 3 (Lit "gone") "" "" ""]; a_machine "web-db" [a_service "api"]] first_view).
Proof. apply (tree_drawn_by_shape "v1" "v2" twins). repeat constructor. Defined.
End Witness.
