(* ===== verification/Routes.v ===== *)
(** * Routes: how the window's bytes reach the toolkit

    src/cmd/hostctl/panelhttp.go: routes, asset, page and push; gui.go: serve and
    the writer it hands to the handlers.  The toolkit asks for a URL and is given
    a body and its type, or nothing; it is told by a script when the page has
    something to apply.  Reading a URL and choosing among the patterns is
    net/http's and is a parameter; so are html/template and the editor glaze
    ships. *)
From S2P Require Import Prelude GoText GoTime Json DockerClient CommandLine Fleet Panel PanelView Page.
From Stdlib Require Import Ascii SpecFloat.
Open Scope string_scope.
Open Scope list_scope.
Open Scope Z_scope.

(** ** The writer *)
(** answered: the headers, the body and the first status written. *)
Record answered := MkAnswered { aw_head : gmap string string; aw_body : string; aw_code : Z }.
Definition untouched : answered := MkAnswered ∅ "" 0.
Definition StatusOK : Z := 200.
Definition StatusBadRequest : Z := 400.
Definition StatusNotFound : Z := 404.
Definition StatusInternalServerError : Z := 500.
Definition WriteHeader (code : Z) (a : answered) : answered := MkAnswered (aw_head a) (aw_body a) (if aw_code a =? 0 then code else aw_code a).
Definition Write (p : string) (a : answered) : answered := MkAnswered (aw_head a) (aw_body a +:+ p) (if aw_code a =? 0 then StatusOK else aw_code a).
Definition Content_Type := "Content-Type".
Definition typed_as (kind : string) (a : answered) : answered := MkAnswered (<[Content_Type := kind]> (aw_head a)) (aw_body a) (aw_code a).
(** http.Error and http.NotFound *)
Definition Error (text : string) (code : Z) (a : answered) : answered :=
  Write (text +:+ String newline "") (WriteHeader code (typed_as "text/plain; charset=utf-8" a)).
Definition NotFound (a : answered) : answered := Error "404 page not found" StatusNotFound a.

(** ** What can be asked for *)
(** The patterns a GET can match. *)
Inductive Requested := AskPage (path : string) | AskAsset (name : string) | AskEditorJS | AskEditorCSS | AskAct (action : string).

Section Routes.
(** The files embedded under ui/, and glaze's editor. *)
Context (ui : gmap string string) (editor_js : result string) (editor_css : string).
(** html/template over the whole page, and over the lines of the log. *)
Context (page_html : list fragment -> list lineView -> result string) (lines_html : bool -> list lineView -> result string).
Context (fragments : Panel -> list fragment).
Context (now : Time) (inventory : string -> result (list inventoryEntry)) (dialog : option (result string)).

Definition asset (name : string) : answered :=
  match ui !! ("ui/" +:+ name) with
  | None => NotFound untouched
  | Some content =>
      let kind := if HasSuffix name ".css" then "text/css; charset=utf-8"
                  else if HasSuffix name ".js" then "text/javascript; charset=utf-8" else "text/plain; charset=utf-8" in
      Write content (typed_as kind untouched)
  end.

(** panel.pending as the text it sends. *)
Definition pending_html (replaceLog : bool) : ST Panel (result string) := fun p =>
  let '((pieces, lines), p') := pending fragments replaceLog p in
  let body := concat_text (fr_HTML <$> pieces) in
  (match lines with
   | None => Ok body
   | Some lines => match lines_html replaceLog lines with Ok html => Ok (body +:+ html) | Err e => Err e end
   end, p').

(** panel.Act's answer: the screen as it is now; the work, if one was started,
    goes on by itself. *)
Definition answer_act (a : string) : ST Panel (result string * option Work) :=
  acted ← Act now inventory dialog a;
  match acted with
  | Refused e => mret (Err e, None)
  | Going => mret (Ok "", None)
  | Started w => r ← pending_html false; mret (r, Some w)
  | Seen moved => r ← pending_html moved; mret (r, None)
  end.

(** The handlers, each with what it leaves of the panel. *)
Definition page_answer (path : string) : ST Panel answered :=
  if negb (String.eqb path "/") then mret (NotFound untouched)
  else r ← page fragments;
       mret (match page_html r.1 r.2 with
             | Err e => Error (error_text e) StatusInternalServerError untouched
             | Ok body => Write body (typed_as "text/html; charset=utf-8" untouched)
             end).
Definition act_answer (a : string) : ST Panel (answered * option Work) :=
  r ← answer_act a;
  mret (match r.1 with
        | Err e => Error (error_text e) StatusBadRequest untouched
        | Ok body => Write body (typed_as "text/html; charset=utf-8" untouched)
        end, r.2).
Definition ServeHTTP (asked : Requested) : ST Panel (answered * option Work) :=
  match asked with
  | AskPage path => a ← page_answer path; mret (a, None)
  | AskAsset name => mret (asset name, None)
  | AskEditorJS =>
      mret (match editor_js with
            | Err e => Error (error_text e) StatusInternalServerError untouched
            | Ok body => Write body (typed_as "text/javascript; charset=utf-8" untouched)
            end, None)
  | AskEditorCSS => mret (Write editor_css (typed_as "text/css; charset=utf-8" untouched), None)
  | AskAct a => act_answer a
  end.

(** serve: [matched] is what net/http makes of the URL without its scheme. *)
Definition serve (matched : option Requested) : ST Panel (option (string * string) * option Work) :=
  match matched with
  | None => mret (None, None)
  | Some asked =>
      r ← ServeHTTP asked;
      mret (if aw_code r.1 =? StatusNotFound then None else Some (aw_body r.1, default "" (aw_head r.1 !! Content_Type)), r.2)
  end.

(** panel.push: the script the window is given, if any. *)
Definition push : ST Panel (option string) :=
  body ← pending_html false;
  mret (match body with
        | Err _ => None
        | Ok body => if String.eqb body "" then None else Some ("hostdApply(" +:+ print (JStr body) +:+ ")")
        end).

End Routes.

(** ** What is promised *)
Abbreviation inserted := (foldl (fun (sent : gmap string string) piece => <[fr_ID piece := fr_Digest piece]> sent)).

Lemma drawn_other (pieces : list fragment) sent id : id ∉ fr_ID <$> pieces -> inserted sent pieces !! id = sent !! id.
Proof.
  revert sent. induction pieces as [|x pieces IH]; intros sent Hn; [done|]. apply not_elem_of_cons in Hn as [Hx Hn]. cbn [foldl].
  rewrite IH by done. by rewrite lookup_insert_ne.
Qed.
(** Drawing the page leaves what sending every piece would. *)
Lemma drawn_sent (pieces : list fragment) sent piece : NoDup (fr_ID <$> pieces) -> piece ∈ pieces ->
  inserted sent pieces !! fr_ID piece = Some (fr_Digest piece).
Proof.
  intros Hd. revert sent. induction pieces as [|x pieces IH]; intros sent; [by intros ?%not_elem_of_nil|].
  apply NoDup_cons in Hd as [Hx Hd]. intros [->|Hp]%elem_of_cons; cbn [foldl]; [|by apply IH].
  rewrite drawn_other by done. by rewrite lookup_insert_eq.
Qed.

Section Promises.
Context (ui : gmap string string) (editor_js : result string) (editor_css : string).
Context (page_html : list fragment -> list lineView -> result string) (lines_html : bool -> list lineView -> result string).
Context (fragments : Panel -> list fragment) (now : Time) (inventory : string -> result (list inventoryEntry)) (dialog : option (result string)).
Abbreviation serve := (serve ui editor_js editor_css page_html lines_html fragments now inventory dialog).
Abbreviation push := (push lines_html fragments).

(** A page drawn is a page that has everything: whatever the window held before,
    after it asked for the page there is nothing to push, until the panel knows
    something else. *)
Theorem drawn_page_is_whole p : NoDup (fr_ID <$> fragments p) -> (forall sent n, fragments (set_page sent n p) = fragments p) ->
  let p1 := (serve (Some (AskPage "/")) p).2 in push p1 = (None, p1).
Proof.
  intros Hd Hf. cbv zeta. unfold serve, ServeHTTP, page_answer. rewrite ST_step. cbn [String.eqb Ascii.eqb Bool.eqb negb].
  rewrite !ST_step. cbn [fst snd mret ST_ret]. unfold page, freshLines. cbn [set_page p_picture p_pushed p_view fst snd].
  set (sent := inserted ∅ (fragments p)). set (n := last_number _ _). unfold push, pending_html. rewrite ST_step. unfold pending.
  rewrite Hf. cbn [set_page p_sent]. rewrite send_nothing.
  2:{ intros piece Hp. unfold sent. by rewrite drawn_sent. }
  unfold freshLines. cbn [set_page p_picture p_pushed p_view].
  pose proof (last_number_ge (pc_Lines (p_picture p)) 0) as [_ Hn]. fold n in Hn. rewrite (last_number_done _ _ Hn).
  replace (filter _ _) with (@nil line); [done|]. symmetry. apply filter_none, Forall_forall.
  intros l Hl. rewrite Forall_forall in Hn. specialize (Hn l Hl). unfold fresh_line. cbn [orb]. replace (n <? ln_N l) with false by lia. done.
Qed.

(** What is not there is nothing to the toolkit, and what failed is a page like
    any other: of the status only 404 is told apart. *)
Lemma failures_are_pages action p : (answer_act lines_html fragments now inventory dialog action p).1.1 = Err (EMsg ("no such action: %q", [AStr action])) ->
  (serve (Some (AskAct action)) p).1.1 = Some (render_arg (AMsg ("no such action: %q", [AStr action])) +:+ String newline "", "text/plain; charset=utf-8").
Proof.
  intros E. unfold serve, ServeHTTP, act_answer. rewrite !ST_step. cbn [fst snd mret ST_ret].
  destruct (answer_act _ _ _ _ _ _ _) as [[r w] p']. cbn in E. subst r. done.
Qed.
End Promises.

Section Witness.
Definition no_html (l : list fragment) (lines : list lineView) : result string := Ok "".
Definition bare (all : bool) (lines : list lineView) : result string := Ok "".
Definition bare_serve := serve {["ui/page.css" := "body{}"]} (Err ErrNotExist) "" no_html bare one_page 0 (fun _ => Ok []) None.
Lemma drawn_page_is_whole_witness : push bare one_page (bare_serve (Some (AskPage "/")) pushed_once).2 = (None, (bare_serve (Some (AskPage "/")) pushed_once).2).
Proof.
  apply (drawn_page_is_whole {["ui/page.css" := "body{}"]} (Err ErrNotExist) "" no_html bare one_page 0 (fun _ => Ok []) None pushed_once).
  - apply (bool_decide_unpack _). vm_compute. exact I.
  - reflexivity.
Defined.
Example only_what_is_embedded : (bare_serve (Some (AskAsset "page.css")) one_panel).1 = (Some ("body{}", "text/css; charset=utf-8"), None) /\
  (bare_serve (Some (AskAsset "secret")) one_panel).1 = (None, None).
Proof. by vm_compute. Qed.
(** A URL is enough to act: the scheme handler serves the routes that mirror the
    clicks with the page and its assets. *)
Lemma a_request_acts : (bare_serve (Some (AskAct "do/stop/yuki/web")) one_panel).1.2 = Some (Commanding "yuki" "web" "service.stop").
Proof. by vm_compute. Qed.
End Witness.
