(* ===== verification/PanelProofs.v ===== *)
(** * PanelProofs: what the window promises

    The picture stays well formed under any order of rounds, lines and clicks, a
    bad answer never unmakes it, nothing is deleted by one click, and a page that
    was sent everything is sent nothing more. *)
From stdpp Require Import sets.
From S2P Require Import Prelude GoText GoTime GoPath Filo ServiceProofs AuditLog Runtime DockerClient Plan MetricStore Host CommandLine Commands Panel Chart PanelView.
From Stdlib Require Import Ascii SpecFloat.
Open Scope string_scope.
Open Scope list_scope.
Open Scope Z_scope.

(** ** Keys *)
Lemma itoa_no_colon z : contains_byte ":" (itoa z) = false.
Proof.
  destruct (Z.leb_spec 0 z) as [Hz|Hz]; [by apply itoa_no_byte|].
  unfold itoa. replace (z <? 0) with true by lia. rewrite contains_byte_cons. change (Ascii.eqb ":" "-") with false. cbn [orb].
  eapply digits_no_byte; [done|]. apply utoa_all_digits. lia.
Qed.
Lemma held_key_inj h1 n1 h2 n2 : held_key h1 n1 = held_key h2 n2 -> h1 = h2 /\ n1 = n2.
Proof.
  intros E. assert (Hc : forall h n, cut_last (held_key h n) ":" = Some (h, itoa n)).
  { intros h n. unfold held_key. apply cut_last_app. apply itoa_no_colon. }
  pose proof (Hc h1 n1) as C1. rewrite E, Hc in C1. simplify_eq. split; [done|]. by apply itoa_inj_all.
Qed.

(** ** The picture *)
Definition machine_keys (lines : list line) : list string :=
  (fun l => held_key (ln_Host l) (ln_Seq l)) <$> filter (fun l => ln_Seq l <> 0) lines.
Definition numbers (lines : list line) : list Z := ln_N <$> lines.

(** Well formed but for the ceiling. *)
Record picture_mid (pc : Picture) : Prop := {
  mid_machines : NoDup (fh_Host <$> pc_Fleet pc);
  mid_numbers : StronglySorted Z.lt (numbers (pc_Lines pc));
  mid_cursor : Forall (fun n => n <= pc_cursor pc) (numbers (pc_Lines pc));
  mid_once : NoDup (machine_keys (pc_Lines pc));
  mid_held : forall l, l ∈ pc_Lines pc -> ln_Seq l <> 0 -> held_key (ln_Host l) (ln_Seq l) ∈ pc_held pc;
}.
(** No machine twice, at most 4000 lines, their numbers rising, and no line a
    machine wrote shown twice. *)
Record picture_ok (pc : Picture) : Prop := {
  ok_mid :> picture_mid pc;
  ok_ceiling : Z.of_nat (length (pc_Lines pc)) <= maxLines;
}.

Lemma Strongly_snoc (l : list Z) n m : StronglySorted Z.lt l -> Forall (fun x => x <= n) l -> n < m -> StronglySorted Z.lt (l ++ [m]).
Proof.
  intros Hs Hn Hm. apply StronglySorted_app; split_and!; [|done|repeat constructor].
  intros x y Hx ->%list_elem_of_singleton. rewrite Forall_forall in Hn. specialize (Hn x Hx). lia.
Qed.

Section Mid.
Implicit Types pc : Picture.

Lemma mid_same pc pc' : pc_Fleet pc' = pc_Fleet pc -> pc_Lines pc' = pc_Lines pc -> pc_held pc' = pc_held pc -> pc_cursor pc' = pc_cursor pc ->
  picture_mid pc -> picture_mid pc'.
Proof. intros E1 E2 E3 E4 [? ? ? ? ?]. constructor; rewrite ?E1, ?E2, ?E3, ?E4; done. Qed.

Lemma mid_fleet pc fleet : NoDup (fh_Host <$> fleet) -> picture_mid pc -> picture_mid (with_fleet fleet pc).
Proof. intros Hf [? ? ? ? ?]. by constructor. Qed.

(** *** The machines *)
Lemma insert_stable_perm key x l : insert_stable key x l ≡ₚ x :: l.
Proof. induction l as [|y l IH]; [done|]. cbn. case_match; [done|]. rewrite IH. apply Permutation_swap. Qed.
Lemma orderFleet_perm hosts l : orderFleet hosts l ≡ₚ l.
Proof. induction l as [|x l IH]; [done|]. cbn. by rewrite insert_stable_perm, IH. Qed.

Lemma position_some name fleet i : position name fleet = Some i -> exists h, fleet !! i = Some h /\ fh_Host h = name.
Proof. unfold position. intros ([j h] & (Hl & Hn & _)%list_find_Some & ->)%fmap_Some. by exists h. Qed.
Lemma position_none name fleet : position name fleet = None <-> name ∉ fh_Host <$> fleet.
Proof.
  unfold position. rewrite fmap_None, list_find_None, Forall_forall. split.
  - intros Hn (h & -> & Hh)%list_elem_of_fmap. by apply (Hn h).
  - intros Hn h Hh <-. apply Hn. by apply list_elem_of_fmap_2.
Qed.

Lemma placed_nodup hosts a fleet : NoDup (fh_Host <$> fleet) -> NoDup (fh_Host <$> placed hosts a fleet).
Proof.
  intros Hd. unfold placed. destruct (position _ _) eqn:E; [done|]. apply position_none in E.
  rewrite orderFleet_perm, fmap_app. apply NoDup_app. split_and!; [done| |apply NoDup_singleton].
  intros x Hx ->%list_elem_of_singleton. done.
Qed.
Lemma placed_position hosts a fleet : is_Some (position (fh_Host a) (placed hosts a fleet)).
Proof.
  unfold placed. destruct (position _ fleet) eqn:E; [by eexists|]. apply not_eq_None_Some. rewrite position_none.
  intros Hn. apply Hn. rewrite orderFleet_perm, fmap_app. apply elem_of_app. right. by left.
Qed.
Lemma hosts_alter f i name fleet : position name fleet = Some i -> (forall known, fh_Host (f known) = name) ->
  fh_Host <$> alter f i fleet = fh_Host <$> fleet.
Proof.
  intros (h & Hi & Hh)%position_some Hf. apply list_eq. intros j. rewrite !list_lookup_fmap.
  destruct (decide (i = j)) as [<-|Hj]; [|by rewrite list_lookup_alter_ne].
  rewrite list_lookup_alter_eq, Hi. cbn. by rewrite Hf, Hh.
Qed.

(** *** The lines *)
Lemma machine_keys_app l k : machine_keys (l ++ k) = machine_keys l ++ machine_keys k.
Proof. unfold machine_keys. by rewrite filter_app, fmap_app. Qed.
Lemma machine_keys_elem key lines : key ∈ machine_keys lines <-> exists l, key = held_key (ln_Host l) (ln_Seq l) /\ ln_Seq l <> 0 /\ l ∈ lines.
Proof. unfold machine_keys. rewrite list_elem_of_fmap. by setoid_rewrite list_elem_of_filter. Qed.

Lemma mid_add_line host pc arrived : picture_mid pc -> picture_mid (add_line host pc arrived).
Proof.
  intros [Hm Hn Hc Ho Hh]. unfold add_line. case_decide as Hk; [by constructor|].
  set (l := MkLine arrived host (pc_cursor pc + 1) false). constructor; cbn [pc_Fleet pc_Lines pc_held pc_cursor]; [done|..].
  - unfold numbers in *. rewrite fmap_app. eapply Strongly_snoc; [done|done|cbn; lia].
  - unfold numbers in *. rewrite fmap_app. apply Forall_app. split; [|by repeat constructor; cbn; lia].
    eapply Forall_impl; [exact Hc|]. cbn. lia.
  - rewrite machine_keys_app. apply NoDup_app. split_and!; [done| |].
    + intros key (l1 & -> & Hs & Hl)%machine_keys_elem (l2 & E & _ & ->%list_elem_of_singleton)%machine_keys_elem.
      apply Hk. specialize (Hh l1 Hl Hs). by rewrite E in Hh.
    + unfold machine_keys. rewrite filter_cons, filter_nil. case_decide; [apply NoDup_singleton|constructor].
  - intros l1 [Hl| ->%list_elem_of_singleton]%elem_of_app Hs; [|set_solver]. apply elem_of_union_r. by apply Hh.
Qed.
Lemma add_line_fleet host pc arrived : pc_Fleet (add_line host pc arrived) = pc_Fleet pc.
Proof. unfold add_line. by case_decide. Qed.
Lemma add_lines_fleet host lines pc : pc_Fleet (foldl (add_line host) pc lines) = pc_Fleet pc.
Proof. revert pc. induction lines as [|l lines IH]; intros pc; [done|]. cbn. by rewrite IH, add_line_fleet. Qed.
Lemma advance_since_fleet a pc : pc_Fleet (advance_since a pc) = pc_Fleet pc.
Proof. unfold advance_since. by case_match. Qed.

Lemma mid_absorb_one hosts pc a : picture_mid pc -> picture_mid (absorb_one hosts pc a).
Proof.
  intros Hp. unfold absorb_one.
  assert (Hadd : forall lines pc, picture_mid pc -> picture_mid (foldl (add_line (fh_Host a)) pc lines)).
  { induction lines as [|l lines IH]; intros pc' Hp'; [done|]. apply IH. by apply mid_add_line. }
  assert (Hsince : forall pc, picture_mid pc -> picture_mid (advance_since a pc)).
  { intros pc' Hp'. eapply mid_same; [..|exact Hp']; unfold advance_since; by case_match. }
  apply Hsince, Hadd, mid_fleet; [|done]. pose proof (placed_nodup hosts a (pc_Fleet pc) (mid_machines _ Hp)) as Hd.
  destruct (position _ (placed _ _ _)) as [i|] eqn:Ei; [|done]. erewrite hosts_alter; [exact Hd|exact Ei|]. intros known. by case_match.
Qed.

(** What is left is the end of the lines, and its keys are still held. *)
Lemma held_after (dropped : list line) (held : gset string) (key : string) :
  key ∈ foldl (fun held gone => held ∖ {[held_key (ln_Host gone) (ln_Seq gone)]}) held dropped <->
  key ∈ held /\ Forall (fun gone => held_key (ln_Host gone) (ln_Seq gone) <> key) dropped.
Proof.
  revert held. induction dropped as [|g dropped IH]; intros held; [by rewrite Forall_nil; naive_solver|].
  cbn. rewrite IH, Forall_cons. set_solver.
Qed.
Lemma mid_drop_over pc : picture_mid pc -> picture_ok (drop_over pc).
Proof.
  intros [Hm Hn Hc Ho Hh]. unfold drop_over. set (k := over (pc_Lines pc)).
  rewrite <- (take_drop k (pc_Lines pc)) in Hn, Hc, Ho, Hh. unfold numbers in *. rewrite fmap_app in Hn, Hc.
  rewrite machine_keys_app in Ho. apply NoDup_app in Ho as (_ & Hapart & Ho). apply Forall_app in Hc as [_ Hc].
  constructor; [constructor; cbn [pc_Fleet pc_Lines pc_held pc_cursor]; try done|].
  - by eapply StronglySorted_app_1_r.
  - intros l Hl Hs. apply held_after. split; [apply Hh; [|done]; apply elem_of_app; by right|]. apply Forall_forall.
    intros g Hg E. destruct (held_key_inj _ _ _ _ E) as [_ Eseq].
    apply (Hapart (held_key (ln_Host l) (ln_Seq l))); apply machine_keys_elem;
      [exists g; split_and!; [done|by rewrite Eseq|done]|by exists l].
  - cbn. rewrite length_drop. unfold k, over, maxLines. lia.
Qed.

Lemma absorb_ok now hosts answers pc : picture_ok pc -> picture_ok (absorb now hosts answers pc).
Proof.
  intros Hp. apply mid_drop_over.
  assert (Hall : forall pc, picture_mid pc -> picture_mid (foldl (absorb_one hosts) pc answers)).
  { clear. induction answers as [|a l IH]; intros pc Hp; [done|]. apply IH. by apply mid_absorb_one. }
  apply Hall. by eapply mid_same; [..|exact Hp].
Qed.

Lemma sayLine_ok now host service text bad pc : picture_ok pc -> picture_ok (sayLine now host service text bad pc).
Proof.
  intros [[Hm Hn Hc Ho Hh] _]. unfold sayLine. set (l := MkLine _ host (pc_cursor pc + 1) bad).
  set (lines := pc_Lines pc ++ [l]). set (k := over lines).
  assert (Hs : StronglySorted Z.lt (numbers lines) /\ Forall (fun n => n <= pc_cursor pc + 1) (numbers lines)).
  { unfold numbers, lines. rewrite fmap_app. split; [eapply Strongly_snoc; [done|done|cbn; lia]|].
    apply Forall_app. split; [|by repeat constructor; cbn; lia]. eapply Forall_impl; [exact Hc|]. cbn. lia. }
  assert (Hk : machine_keys lines = machine_keys (pc_Lines pc)).
  { unfold lines. rewrite machine_keys_app. unfold machine_keys at 2. by rewrite filter_cons, decide_False, filter_nil, app_nil_r by (intros []; done). }
  assert (Hl : forall x, x ∈ lines -> ln_Seq x <> 0 -> held_key (ln_Host x) (ln_Seq x) ∈ pc_held pc).
  { intros x [Hx| ->%list_elem_of_singleton]%elem_of_app Hx0; [by apply Hh|done]. }
  rewrite <- (take_drop k lines) in Hs, Hk, Hl. unfold numbers in *. rewrite fmap_app in Hs. rewrite machine_keys_app in Hk.
  destruct Hs as [Hs Hle]. apply Forall_app in Hle as [_ Hle]. rewrite <- Hk in Ho. apply NoDup_app in Ho as (_ & _ & Ho).
  constructor; [constructor; cbn [pc_Fleet pc_Lines pc_held pc_cursor]; try done|].
  - by eapply StronglySorted_app_1_r.
  - intros x Hx. apply Hl. apply elem_of_app. by right.
  - cbn. fold l lines k. rewrite length_drop. unfold k, over, maxLines. lia.
Qed.
End Mid.

(** ** Any order of rounds, lines and clicks *)
Inductive panel_step : Panel -> Panel -> Prop :=
  | a_round carried now host answer p : panel_step p (roundOne carried now host answer p)
  | many_answers now answers p : panel_step p (on_picture (absorb now (p_hosts p) answers) p)
  | a_line now host service text bad p : panel_step p (on_picture (sayLine now host service text bad) p)
  | an_install host p : panel_step p (forgetVersion host p)
  | a_click now inventory dialog a p : panel_step p (Act now inventory dialog a p).2
  | an_arming act now p : panel_step p (arm act now p)
  | a_timer act now p : panel_step p (expire act now p)
  | an_end act p : panel_step p (release act p)
  | a_push fragments replaceLog p : panel_step p (pending fragments replaceLog p).2
  | a_page fragments p : panel_step p (page fragments p).2.

Lemma ok_fewer pc (P : fleetHost -> Prop) `{!forall h, Decision (P h)} : picture_ok pc -> picture_ok (with_fleet (filter P (pc_Fleet pc)) pc).
Proof.
  intros [Hm Hc]. constructor; [|done]. apply mid_fleet; [|done].
  pose proof (mid_machines _ Hm) as Hd. revert Hd. generalize (pc_Fleet pc) as l. clear. induction l as [|h l IH]; intros Hd; [constructor|].
  apply NoDup_cons in Hd as [Hn Hd]. rewrite filter_cons. case_decide; [|by apply IH]. apply NoDup_cons. split; [|by apply IH].
  intros (x & Ex & [_ Hx]%list_elem_of_filter)%list_elem_of_fmap. apply Hn. rewrite Ex. by apply list_elem_of_fmap_2.
Qed.
Lemma ok_reload inventory p : picture_ok (p_picture p) -> picture_ok (p_picture (reloadFleet inventory p)).
Proof. intros Hp. unfold reloadFleet. destruct (inventory _) as [[|e l]|e]; [done| |done]. cbn. by apply ok_fewer. Qed.
Lemma ok_choose inventory dialog p : picture_ok (p_picture p) -> picture_ok (p_picture (chooseConfig inventory dialog p)).
Proof. intros Hp. unfold chooseConfig. destruct dialog as [[dir|e]|]; [|done..]. case_match; [done|]. by apply ok_reload. Qed.

(** What a click leaves of the picture: a reload of the inventory, or all. *)
Lemma disarm_picture act now p : p_picture (disarm act now p).2 = p_picture p.
Proof. unfold disarm. by case_match. Qed.
Lemma action_picture now parts p : p_picture (action now parts p).2 = p_picture p.
Proof.
  unfold action. repeat case_match; try done; unfold twice; rewrite ST_step; apply disarm_picture.
Qed.
Lemma hold_picture a p : p_picture (hold a p).2 = p_picture p.
Proof. unfold hold. by case_decide. Qed.
Lemma ok_act now inventory dialog a p : picture_ok (p_picture p) -> picture_ok (p_picture (Act now inventory dialog a p).2).
Proof.
  intros Hp. unfold Act. cbv zeta. case_match.
  - rewrite ST_step. destruct (action now _ p) as [[w|e] p1] eqn:E; cbn [fst snd]; pose proof (action_picture now (tail (Split a "/")) p) as Ep;
      rewrite E in Ep; cbn in Ep; [|cbn; by rewrite Ep].
    rewrite ST_step. cbn [mret ST_ret snd]. by rewrite hold_picture, Ep.
  - repeat case_match; cbn [mret ST_ret snd]; try exact Hp; by apply ok_choose || apply ok_reload.
Qed.

(** C28: The picture holds together.  Whatever machines answer, however slowly and in
    whatever order, whatever is clicked, said or reloaded in between: no machine
    is in the picture twice, no line a machine wrote is in it twice, the numbers
    of the lines rise, and there are never more than 4000 of them. *)
Theorem picture_holds dir hosts p : rtc panel_step (newPanel dir hosts) p -> picture_ok (p_picture p).
Proof.
  intros Hsteps. assert (H0 : picture_ok (p_picture (newPanel dir hosts))).
  { constructor; [constructor|]; cbn; try constructor; try set_solver. unfold maxLines. lia. }
  remember (newPanel dir hosts) as p0. clear Heqp0. induction Hsteps as [|p1 p2 p3 Hstep _ IH]; [done|]. apply IH. clear IH.
  destruct Hstep; cbn [p_picture on_picture set_said set_busy set_armed set_page arm release].
  - unfold roundOne. case_match. unfold sayAlert. repeat case_match; cbn; try apply sayLine_ok; by apply absorb_ok.
  - by apply absorb_ok.
  - by apply sayLine_ok.
  - destruct H0 as [Hm Hc]. constructor; [|done]. apply mid_fleet; [|done]. cbn. rewrite <- list_fmap_compose.
    erewrite list_fmap_ext; [exact (mid_machines _ Hm)|]. intros i h _. cbn. unfold clear_version. by case_match.
  - by apply ok_act.
  - done.
  - unfold expire. by repeat case_match.
  - done.
  - unfold pending. by repeat case_match.
  - unfold page. by repeat case_match.
Qed.

(** ** A bad answer *)
Lemma absorb_single now hosts a pc : pc_Fleet (absorb now hosts [a] pc) =
  let fleet := placed hosts a (pc_Fleet pc) in
  match position (fh_Host a) fleet with
  | Some i => alter (fun known => if has_error a then keep_known known a else a) i fleet
  | None => fleet
  end.
Proof. unfold absorb. cbn [foldl drop_over pc_Fleet absorb_one]. unfold absorb_one. by rewrite advance_since_fleet, add_lines_fleet. Qed.

Lemma position_lookup fleet i h : NoDup (fh_Host <$> fleet) -> fleet !! i = Some h -> position (fh_Host h) fleet = Some i.
Proof.
  intros Hd Hi. destruct (position _ fleet) as [j|] eqn:E.
  - apply position_some in E as (h' & Hj & Eh). f_equal. apply (NoDup_lookup _ j i (fh_Host h) Hd); rewrite list_lookup_fmap, ?Hj, ?Hi; cbn; congruence.
  - apply position_none in E. exfalso. apply E. eapply list_elem_of_fmap_2, list_elem_of_lookup_2; done.
Qed.

(** A bad answer never unmakes the picture.  When a machine the window knows
    answers badly, every machine keeps its place and every other machine is what
    it was; the machine is shown with the problem, and with the services,
    measurements, images, version and clock that were known of it. *)
Theorem bad_answer_keeps_picture now hosts a pc i known :
  NoDup (fh_Host <$> pc_Fleet pc) -> pc_Fleet pc !! i = Some known -> fh_Host known = fh_Host a -> has_error a = true ->
  let fleet := pc_Fleet (absorb now hosts [a] pc) in
  fh_Host <$> fleet = fh_Host <$> pc_Fleet pc /\ (forall j, j <> i -> fleet !! j = pc_Fleet pc !! j) /\
  exists shown, fleet !! i = Some shown /\ fh_Error shown = fh_Error a /\
    (fh_Services known <> [] -> fh_Services shown = fh_Services known /\ fh_Metrics shown = fh_Metrics known) /\
    (fh_Images known <> [] -> fh_Images shown = fh_Images known /\ fh_ImagesError shown = fh_ImagesError known) /\
    (fh_Version shown, fh_ClockSkewMS shown, fh_Zone shown, fh_ZoneOffsetMS shown) =
    (fh_Version known, fh_ClockSkewMS known, fh_Zone known, fh_ZoneOffsetMS known).
Proof.
  intros Hd Hi Hh He. rewrite absorb_single. pose proof (position_lookup _ _ _ Hd Hi) as Hp. rewrite Hh in Hp.
  unfold placed. rewrite Hp. cbv zeta. rewrite Hp, He. split_and!.
  - by erewrite hosts_alter.
  - intros j Hj. by rewrite list_lookup_alter_ne.
  - exists (keep_known known a). rewrite list_lookup_alter_eq, Hi. split_and!; try done; intros Hne; unfold keep_known; cbn;
      replace (0 <? _) with true; try done; destruct (fh_Services known), (fh_Images known); cbn in *; try done; lia.
Qed.

(** A machine keeps the place the inventory gives it: whoever answers first, the
    machines stay in the order of the file. *)
Abbreviation in_order hosts := (StronglySorted (fun x y => rank hosts x <= rank hosts y)).
Lemma insert_stable_sorted hosts x l : in_order hosts l -> in_order hosts (insert_stable (rank hosts) x l).
Proof.
  induction 1 as [|y l Hs IH Hy]; [repeat constructor|]. cbn. case_match eqn:E.
  - constructor; [by constructor|]. constructor; [lia|]. eapply Forall_impl; [exact Hy|]. cbn. lia.
  - constructor; [done|]. rewrite insert_stable_perm. constructor; [lia|done].
Qed.
Lemma orderFleet_sorted hosts l : in_order hosts (orderFleet hosts l).
Proof. induction l as [|x l IH]; [constructor|]. by apply insert_stable_sorted. Qed.
Lemma same_ranks hosts l l' : fh_Host <$> l = fh_Host <$> l' -> in_order hosts l -> in_order hosts l'.
Proof.
  intros E Hs. revert l' E. induction Hs as [|x l Hs IH Hx]; intros [|x' l'] E; try done; [constructor|].
  cbn in E. injection E as Ex El. constructor; [by apply IH|]. apply Forall_forall. intros y Hy.
  assert (Hin : fh_Host y ∈ fh_Host <$> l) by (rewrite El; by apply list_elem_of_fmap_2).
  apply list_elem_of_fmap in Hin as (z & Ez & Hz). rewrite Forall_forall in Hx. specialize (Hx z Hz).
  unfold rank in *. by rewrite Ez, <- Ex.
Qed.
Theorem machines_in_order now hosts answers pc :
  in_order hosts (pc_Fleet pc) -> in_order hosts (pc_Fleet (absorb now hosts answers pc)).
Proof.
  intros Hs. unfold absorb. cbn [drop_over pc_Fleet]. set (pc0 := MkPicture _ _ _ _ _ _).
  assert (H0 : in_order hosts (pc_Fleet pc0)) by done. clearbody pc0. revert pc0 H0. induction answers as [|a l IH]; intros pc0 H0; [done|].
  apply IH. unfold absorb_one. rewrite advance_since_fleet, add_lines_fleet. cbn [with_fleet pc_Fleet].
  assert (Hp : in_order hosts (placed hosts a (pc_Fleet pc0))) by (unfold placed; case_match; [done|apply orderFleet_sorted]).
  destruct (position _ (placed _ _ _)) as [i|] eqn:E; [|done]. eapply same_ranks; [symmetry; eapply hosts_alter; [exact E|]|done].
  intros known. by case_match.
Qed.

Section Witness.
Definition a_line_of (seq : Z) : LogLine := MkLogLine seq f64_zero "web" "stdout" "" "" (Lit "up").
Definition answering (host error : string) (services : list Status) (lines : list LogLine) : fleetHost :=
  MkFleetHost host error services [] lines [] "" 1 "v2" f64_zero "" f64_zero false.
Definition web_status : Status := MkStatus "web" "running" "running" 7 false f64_zero 0 0 0 (Lit "") "" "" "".
Definition seen : Panel := roundOne "v2" 0 "yuki" (fun _ _ _ _ => answering "yuki" "" [web_status] [a_line_of 1; a_line_of 2; a_line_of 1]) (newPanel "/tree" ["sora"; "yuki"]).
Definition told : Panel := on_picture (sayLine 0 "yuki" "web" (Lit "restarting it…") false) seen.
Lemma picture_holds_witness : numbers (pc_Lines (p_picture told)) = [1; 2; 3] /\ picture_ok (p_picture told).
Proof.
  split; [by vm_compute|]. apply (picture_holds "/tree" ["sora"; "yuki"]).
  eapply rtc_l; [apply (a_round "v2" 0 "yuki")|]. eapply rtc_l; [apply a_line|]. apply rtc_refl.
Defined.
Lemma bad_answer_keeps_picture_witness :
  fh_Host <$> pc_Fleet (absorb 0 ["yuki"] [answering "yuki" "ssh: timed out" [] []] (p_picture told)) = ["yuki"].
Proof.
  refine (proj1 (bad_answer_keeps_picture 0 ["yuki"] (answering "yuki" "ssh: timed out" [] []) (p_picture told) 0 (answering "yuki" "" [web_status] [a_line_of 1; a_line_of 2; a_line_of 1]) _ _ _ _)).
  all: first [by apply (bool_decide_unpack _); vm_compute | by vm_compute].
Defined.
Lemma machines_in_order_witness :
  fh_Host <$> pc_Fleet (absorb 0 ["sora"; "yuki"] [answering "sora" "" [] []] (p_picture told)) = ["sora"; "yuki"] /\
  in_order ["sora"; "yuki"] (pc_Fleet (absorb 0 ["sora"; "yuki"] [answering "sora" "" [] []] (p_picture told))).
Proof. split; [by vm_compute|]. apply machines_in_order. vm_compute. repeat constructor. Defined.

(** A machine taken out of the inventory while it was being asked comes back with
    its answer, in first place. *)
Definition only_sora (_ : string) : result (list inventoryEntry) := Ok [MkInventoryEntry "sora" []].
Lemma removed_machine_returns :
  let without := reloadFleet only_sora told in
  fh_Host <$> pc_Fleet (p_picture without) = [] /\
  fh_Host <$> pc_Fleet (p_picture (roundOne "v2" 0 "yuki" (fun _ _ _ _ => answering "yuki" "context canceled" [] []) without)) = ["yuki"].
Proof. by vm_compute. Qed.
End Witness.
