(* ===== verification/ClickProofs.v ===== *)
(** * ClickProofs: nothing is deleted by one click

    The clicks of the window, the work they start, the timers and everything else
    that happens to a panel as one step relation with its history; src/cmd/hostctl/
    actions.go and panelhttp.go. *)
From stdpp Require Import sets.
From S2P Require Import Prelude GoText GoTime GoPath Filo AuditLog Runtime DockerClient Plan MetricStore Host CommandLine Commands Panel.
From Stdlib Require Import Ascii SpecFloat.
Open Scope string_scope.
Open Scope list_scope.
Open Scope Z_scope.

Definition deletes (w : Work) : bool := match w with DeletingDeclaration _ | DeletingFile _ _ => true | _ => false end.
Definition ordinary (w : Work) : bool := match w with DeletingDeclaration _ | DeletingFile _ _ | Arming _ => false | _ => true end.

(** ** One click *)
Lemma action_kind parts :
  (forall t p, (action t parts p).2 = p /\ forall w, (action t parts p).1 = Ok w -> ordinary w = true) \/
  (parts <> [] /\ exists work, deletes work = true /\ forall t, action t parts = twice t parts work).
Proof.
  unfold action. destruct parts as [|verb [|host rest]]; [by left|by left|]. cbv zeta. unfold command_op.
  repeat match goal with |- context [if ?b then _ else _] => destruct b end.
  all: first [ right; split; [done|]; eexists; split; [|intros t; reflexivity]; reflexivity
             | left; intros t p; split; [done|]; intros w E; by inversion E ].
Qed.

Lemma do_text a parts : Split a "/" = "do" :: parts -> parts <> [] -> "do/" +:+ Join parts "/" = a.
Proof. intros E Hp. pose proof (Split_join "/" a) as J. rewrite E in J. destruct parts; [done|]. exact J. Qed.

Section Click.
Context (inventory : string -> result (list inventoryEntry)) (dialog : option (result string)).
Lemma hold_armed a p : p_armed (hold a p).2 = p_armed p.
Proof. unfold hold. by case_decide. Qed.
Lemma disarm_armed act t p : p_armed (disarm act t p).2 = delete act (p_armed p).
Proof. unfold disarm. destruct (p_armed p !! act) eqn:E; [done|]. cbn. by rewrite delete_id. Qed.
Lemma disarm_sure act t p : (disarm act t p).1 = true -> exists until, p_armed p !! act = Some until /\ t < until.
Proof. unfold disarm. destruct (p_armed p !! act) as [until|]; [|done]. cbn. unfold GoTime.After. intros H%Z.ltb_lt. by exists until. Qed.

(** Reloading and choosing leave what is armed. *)
Lemma reload_armed p : p_armed (reloadFleet inventory p) = p_armed p.
Proof. unfold reloadFleet. by destruct (inventory _) as [[|]|]. Qed.
Lemma choose_armed p : p_armed (chooseConfig inventory dialog p) = p_armed p.
Proof. unfold chooseConfig. destruct dialog as [[dir|]|]; [|done..]. case_match; [done|]. by rewrite reload_armed. Qed.

(** A click on [a] is one of three: it asks for nothing that is armed; or it is
    a click on something to delete, which was armed and not for too long, or is
    armed by this click. *)
Definition guarded (a : string) : bool :=
  match Split a "/" with
  | verb :: parts => String.eqb verb "do" && match (action 0 parts (newPanel "" [])).1 with Ok w => negb (ordinary w) | Err _ => false end
  | [] => false
  end.

Lemma click_cases t a p :
  (guarded a = false /\ p_armed (Act t inventory dialog a p).2 = p_armed p /\ forall w, (Act t inventory dialog a p).1 = Started w -> ordinary w = true) \/
  (guarded a = true /\ p_armed (Act t inventory dialog a p).2 = delete a (p_armed p) /\
   forall w, (Act t inventory dialog a p).1 = Started w ->
     (deletes w = true /\ exists until, p_armed p !! a = Some until /\ t < until) \/ w = Arming a).
Proof.
  unfold Act, guarded. cbv zeta. destruct (Split a "/") as [|verb parts] eqn:Es; [by destruct (Split_nonempty "/" a)|].
  change (default "" (head (verb :: parts))) with verb. change (tail (verb :: parts)) with parts.
  destruct (String.eqb_spec verb "do") as [->|Hv].
  - cbn [andb]. rewrite ST_step. destruct (action_kind parts) as [Hk|(Hne & work & Hw & Hk)].
    + left. destruct (Hk t p) as [E Ho]. destruct (Hk 0 (newPanel "" [])) as [_ Ho0].
      assert (Hg : match (action 0 parts (newPanel "" [])).1 with Ok w => negb (ordinary w) | Err _ => false end = false).
      { destruct (action 0 parts _).1 as [w0|]; [|done]. by rewrite (Ho0 w0 eq_refl). }
      split; [exact Hg|]. clear Hg Ho0. destruct (action t parts p) as [[w|e] p1]; cbn [fst snd] in *; subst p1; [|done].
      rewrite ST_step. cbn [mret ST_ret fst snd]. rewrite hold_armed. split; [done|].
      intros w'. destruct (hold a p).1; [|done]. intros [= <-]. by apply Ho.
    + right. rewrite !Hk. pose proof (do_text a parts Es Hne) as Ea. unfold twice. rewrite !ST_step, Ea. cbn [mret ST_ret fst snd].
      split_and!.
      * destruct (disarm a 0 _).1; by destruct work.
      * rewrite ST_step. cbn [mret ST_ret fst snd]. by rewrite hold_armed, disarm_armed.
      * rewrite ST_step. cbn [mret ST_ret fst snd]. intros w. destruct (hold a _).1; [|done]. intros [= <-].
        destruct (disarm a t p).1 eqn:Ed; [left|by right]. split; [done|]. by apply disarm_sure.
  - left. cbn [andb]. split; [done|].
    repeat case_match; cbn [mret ST_ret fst snd]; (split; [|done]); first [done|by rewrite choose_armed|by rewrite reload_armed].
Qed.
End Click.

(** ** A window and its history

    What happens at a moment: a click, the work of one running far enough to arm
    its action, the timer of an arming, the end of some work, and anything that
    leaves what is armed alone. *)
Record Window := MkWindow { w_panel : Panel; w_going : list (string * Work) }.
Inductive Label := Clicked (a : string) (r : Acted) | Armed (act : string) | Other.

Definition started (a : string) (r : Acted) (going : list (string * Work)) : list (string * Work) :=
  match r with Started w => (a, w) :: going | _ => going end.

Inductive window_step (t : Time) : Window -> Label -> Window -> Prop :=
  | clicks inventory dialog a p g r p' :
      Act t inventory dialog a p = (r, p') -> window_step t (MkWindow p g) (Clicked a r) (MkWindow p' (started a r g))
  | arms a act p g : (a, Arming act) ∈ g -> window_step t (MkWindow p g) (Armed act) (MkWindow (arm act t p) g)
  | times_out act p g : window_step t (MkWindow p g) Other (MkWindow (expire act t p) g)
  | ends a p g g' : g' ⊆ g -> window_step t (MkWindow p g) Other (MkWindow (release a p) g')
  | elsewhere p p' g : p_armed p' = p_armed p -> window_step t (MkWindow p g) Other (MkWindow p' g).

(** The history, newest first. *)
Inductive lives (dir : string) (hosts : list string) : Window -> list (Time * Label) -> Prop :=
  | opened : lives dir hosts (MkWindow (newPanel dir hosts) []) []
  | goes_on w h t l w' : lives dir hosts w h -> window_step t w l w' -> lives dir hosts w' ((t, l) :: h).

(** An arming and what came before and after it. *)
Definition asked_twice (h : list (Time * Label)) (a : string) : Prop := exists t1, (t1, Clicked a (Started (Arming a))) ∈ h.
Definition armed_by (h : list (Time * Label)) (a : string) (until : Time) : Prop :=
  exists t0 recent before, h = recent ++ ((t0, Armed a) :: before) /\ until = GoTime.Add t0 armedFor /\
    (forall t1 r, (t1, Clicked a r) ∉ recent) /\ asked_twice before a.

Record window_ok (w : Window) (h : list (Time * Label)) : Prop := {
  ok_armed : forall act until, p_armed (w_panel w) !! act = Some until -> guarded act = true /\ armed_by h act until;
  ok_going : forall a act, (a, Arming act) ∈ w_going w -> a = act /\ guarded act = true /\ asked_twice h act;
}.

Lemma armed_by_later h a until t l : (forall r, l <> Clicked a r) -> armed_by h a until -> armed_by ((t, l) :: h) a until.
Proof.
  intros Hl (t0 & recent & before & -> & Hu & Hr & Hb). exists t0, ((t, l) :: recent), before. split_and!; [done|done| |done].
  intros t1 r [E|Hin]%elem_of_cons; [injection E as -> <-; by apply (Hl r)|by apply (Hr t1 r)].
Qed.
Lemma asked_later h t l act : asked_twice h act -> asked_twice ((t, l) :: h) act.
Proof. intros [t1 Ht]. exists t1. by right. Qed.

Section Step.
Context (h : list (Time * Label)) (t : Time).

Lemma ok_click inventory dialog a p g r p' :
  window_ok (MkWindow p g) h -> Act t inventory dialog a p = (r, p') -> window_ok (MkWindow p' (started a r g)) ((t, Clicked a r) :: h).
Proof.
  intros [Ha Hg] E. pose proof (click_cases inventory dialog t a p) as Hc. rewrite E in Hc. cbn [fst snd w_panel w_going] in *.
  constructor; cbn [w_panel w_going].
  - intros act until Hu.
    assert (Hold : p_armed p !! act = Some until).
    { destruct Hc as [(_ & Ep & _)|(_ & Ep & _)]; rewrite Ep in Hu; [done|]. by apply lookup_delete_Some in Hu as []. }
    destruct (Ha act until Hold) as [Hgd Hby]. split; [done|]. apply armed_by_later; [|done]. intros r' [= -> _].
    destruct Hc as [(Hno & _)|(_ & Ep & _)]; [congruence|]. by rewrite Ep, lookup_delete_eq in Hu.
  - intros b act Hin. assert (Hcase : (b, Arming act) ∈ g \/ (b = a /\ r = Started (Arming act))).
    { destruct r; cbn in Hin; try (by left). apply elem_of_cons in Hin as [[= -> ->]|]; [by right|by left]. }
    destruct Hcase as [Hin'|[-> ->]].
    + destruct (Hg b act Hin') as (-> & Hgd & Has). split_and!; [done|done|by apply asked_later].
    + destruct Hc as [(_ & _ & Ho)|(Hgd & _ & Ho)]; [by specialize (Ho _ eq_refl)|].
      destruct (Ho _ eq_refl) as [[? _]|[= ->]]; [done|]. split_and!; [done|done|]. exists t. by left.
Qed.

Lemma ok_step w l w' : window_ok w h -> window_step t w l w' -> window_ok w' ((t, l) :: h).
Proof.
  intros Hw Hstep. destruct Hstep as [inventory dialog a p g r p' E|a act p g Hin|act p g|a p g g' Hsub|p p' g E]; [by eapply ok_click|..];
    destruct Hw as [Ha Hg]; cbn [w_panel w_going] in *; constructor; cbn [w_panel w_going].
  all: try (intros b act' Hin'; destruct (Hg b act') as (-> & Hgd & Has); [set_solver|]; split_and!; [done|done|by apply asked_later]).
  - destruct (Hg a act Hin) as (-> & Hgd & Has). intros act' until. cbn [arm set_armed p_armed].
    intros [[<- <-]|[Hne Hu]]%lookup_insert_Some.
    + split; [done|]. exists t, [], h. split_and!; [done|done| |done]. intros ? ? []%not_elem_of_nil.
    + destruct (Ha act' until Hu) as [Hgd' Hby]. split; [done|]. apply armed_by_later; [done|done].
  - intros act' until Hu. assert (Hold : p_armed p !! act' = Some until).
    { unfold expire in Hu. repeat case_match; [done| |done]. cbn [set_armed p_armed] in Hu. by apply lookup_delete_Some in Hu as []. }
    destruct (Ha act' until Hold) as [Hgd Hby]. split; [done|]. by apply armed_by_later.
  - intros act' until Hu. destruct (Ha act' until Hu) as [Hgd Hby]. split; [done|]. by apply armed_by_later.
  - intros act' until. rewrite E. intros Hu. destruct (Ha act' until Hu) as [Hgd Hby]. split; [done|]. by apply armed_by_later.
Qed.
End Step.

Lemma lives_ok dir hosts w h : lives dir hosts w h -> window_ok w h.
Proof.
  induction 1 as [|w h t l w' _ IH Hstep]; [|by eapply ok_step]. constructor; cbn; [done|]. intros a act []%not_elem_of_nil.
Qed.

(** C29: Nothing is deleted by one click.  Whatever happened to the window before, a
    click that starts the deletion of a file or of a declaration is the second
    on that button: an earlier one armed it, less than five seconds ago, and
    nobody clicked it in between. *)
Theorem deletion_takes_two_clicks dir hosts w h t inventory dialog a work p' :
  lives dir hosts w h -> Act t inventory dialog a (w_panel w) = (Started work, p') -> deletes work = true ->
  exists t0 recent before, h = recent ++ ((t0, Armed a) :: before) /\ t < t0 + armedFor /\
    (forall t1 r, (t1, Clicked a r) ∉ recent) /\ exists t1, (t1, Clicked a (Started (Arming a))) ∈ before.
Proof.
  intros Hl E Hw. pose proof (click_cases inventory dialog t a (w_panel w)) as Hc. rewrite E in Hc. cbn [fst snd] in Hc.
  destruct Hc as [(_ & _ & Ho)|(_ & _ & Ho)]; [specialize (Ho _ eq_refl); by destruct work|].
  destruct (Ho _ eq_refl) as [[_ (until & Hu & Ht)]| ->]; [|done].
  destruct (ok_armed _ _ (lives_ok _ _ _ _ Hl) a until Hu) as (_ & t0 & recent & before & -> & -> & Hr & Hb).
  exists t0, recent, before. by split_and!.
Qed.

(** A click during the first click's own work is refused as going on, but has
    already taken the arming away: a third click is needed. *)
Definition filerm : string := "do/filerm/yuki/db/data/old.sqlite".
Definition no_inventory (_ : string) : result (list inventoryEntry) := Ok [].
Lemma eager_click_disarms : let p0 := newPanel "/tree" ["yuki"] in
  let '(r1, p1) := Act 0 no_inventory None filerm p0 in
  let p2 := arm filerm 1 p1 in
  let '(r2, p3) := Act 2 no_inventory None filerm p2 in
  r1 = Started (Arming filerm) /\ isArmed filerm 2 p2 = true /\ r2 = Going /\ isArmed filerm 3 p3 = false.
Proof. by vm_compute. Qed.

(** One file deleted: armed at the first second, gone at the third. *)
Definition first_click := Act 0 no_inventory None filerm (newPanel "/tree" ["yuki"]).
Definition after_first : Panel := release filerm (arm filerm Second first_click.2).
Definition second_click := Act (3 * Second) no_inventory None filerm after_first.
Definition one_history : list (Time * Label) := [(2 * Second, Other); (Second, Armed filerm); (0, Clicked filerm (Started (Arming filerm)))].
Lemma one_life : lives "/tree" ["yuki"] (MkWindow after_first []) one_history.
Proof.
  unfold one_history, after_first. eapply goes_on; [|by eapply ends with (g := [(filerm, Arming filerm)]); set_solver].
  eapply goes_on; [|by eapply arms with (a := filerm); left].
  eapply goes_on; [apply opened|]. apply (clicks 0 no_inventory None filerm (newPanel "/tree" ["yuki"]) []). by vm_compute.
Qed.
Lemma deletion_takes_two_clicks_witness : second_click.1 = Started (DeletingFile "yuki" "db/data/old.sqlite") /\
  exists t0 recent before, one_history = recent ++ ((t0, Armed filerm) :: before) /\ 3 * Second < t0 + armedFor /\
    (forall t1 r, (t1, Clicked filerm r) ∉ recent) /\ exists t1, (t1, Clicked filerm (Started (Arming filerm))) ∈ before.
Proof.
  split; [by vm_compute|].
  refine (deletion_takes_two_clicks "/tree" ["yuki"] (MkWindow after_first []) one_history (3 * Second) no_inventory None filerm
    (DeletingFile "yuki" "db/data/old.sqlite") second_click.2 one_life _ eq_refl). by vm_compute.
Defined.
