(* ===== verification/Loops.v ===== *)
(** * Loops: one loop per machine

    src/cmd/hostctl/snapshot.go: syncLoops, pollHost and wake, and the
    connections of gui.go that outlive a round.  A loop is a goroutine with the
    one place its channel has for a nudge; its context is the flag that it was
    stopped.  What a round asks and what becomes of the answer is in Panel. *)
From S2P Require Import Prelude.
Open Scope string_scope.
Open Scope list_scope.

Record loop := MkLoop { lp_Host : string; lp_Stopped : bool; lp_Nudged : bool; lp_Asking : bool }.
(** [wt_going] is every goroutine that has not ended, by the order it began in. *)
Record Watch := MkWatch { wt_life : bool; wt_loops : gmap string nat; wt_going : gmap nat loop; wt_next : nat }.
Definition not_started : Watch := MkWatch false ∅ ∅ 0.

Definition stopped (l : loop) : loop := MkLoop (lp_Host l) true (lp_Nudged l) (lp_Asking l).
Definition nudged (l : loop) : loop := MkLoop (lp_Host l) (lp_Stopped l) true (lp_Asking l).
Definition on_loop (id : nat) (f : loop -> loop) (w : Watch) : Watch :=
  MkWatch (wt_life w) (wt_loops w) (alter f id (wt_going w)) (wt_next w).

(** A machine the inventory no longer lists: its loop is told to stop. *)
Definition stop_one (hosts : list string) (w : Watch) (e : string * nat) : Watch :=
  if decide (e.1 ∈ hosts) then w
  else MkWatch (wt_life w) (delete e.1 (wt_loops w)) (alter stopped e.2 (wt_going w)) (wt_next w).
(** A machine nobody watches yet: its loop begins with a round. *)
Definition start_one (w : Watch) (host : string) : Watch :=
  match wt_loops w !! host with
  | Some _ => w
  | None => MkWatch (wt_life w) (<[host := wt_next w]> (wt_loops w)) (<[wt_next w := MkLoop host false false true]> (wt_going w)) (S (wt_next w))
  end.
Definition syncLoops (hosts : list string) (w : Watch) : Watch :=
  if wt_life w then foldl start_one (foldl (stop_one hosts) w (map_to_list (wt_loops w))) hosts else w.
Definition start (hosts : list string) (w : Watch) : Watch := syncLoops hosts (MkWatch true (wt_loops w) (wt_going w) (wt_next w)).

(** wake: a nudge that finds one waiting is dropped. *)
Definition wake (w : Watch) : Watch := foldl (fun w e => on_loop e.2 nudged w) w (map_to_list (wt_loops w)).

(** What a loop does on its own: its round ends; of what its select finds ready
    any may be taken, so that a loop that was stopped may yet ask again. *)
Definition round_over (l : loop) : loop := MkLoop (lp_Host l) (lp_Stopped l) (lp_Nudged l) false.
Definition ticked (l : loop) : loop := MkLoop (lp_Host l) (lp_Stopped l) (lp_Nudged l) true.
Definition took_nudge (l : loop) : loop := MkLoop (lp_Host l) (lp_Stopped l) false true.
Inductive turn (w : Watch) : Watch -> Prop :=
  | Rounds id l : wt_going w !! id = Some l -> lp_Asking l = true -> turn w (on_loop id round_over w)
  | Ticks id l : wt_going w !! id = Some l -> lp_Asking l = false -> turn w (on_loop id ticked w)
  | Nudges id l : wt_going w !! id = Some l -> lp_Asking l = false -> lp_Nudged l = true -> turn w (on_loop id took_nudge w)
  | Ends id l : wt_going w !! id = Some l -> lp_Asking l = false -> lp_Stopped l = true ->
      turn w (MkWatch (wt_life w) (wt_loops w) (delete id (wt_going w)) (wt_next w)).

(** The window's life: it starts, its inventory changes, a click wakes it. *)
Inductive watch_step : Watch -> Watch -> Prop :=
  | Starts hosts w : watch_step w (start hosts w)
  | Syncs hosts w : watch_step w (syncLoops hosts w)
  | Wakes w : watch_step w (wake w)
  | Turns w w' : turn w w' -> watch_step w w'.

(** ** The connections of the rounds *)
(** [dialled] is what reaching the machine gives; a connection is kept until a
    round finds that its machine stopped answering. *)
Definition client {C} (dialled : result C) (host : string) : ST (gmap string C) (result C) := fun clients =>
  match clients !! host with
  | Some existing => (Ok existing, clients)
  | None => match dialled with Err e => (Err e, clients) | Ok opened => (Ok opened, <[host := opened]> clients) end
  end.
(** drop: what is to be closed, and what is kept. *)
Definition drop_client {C} (host : string) : ST (gmap string C) (option C) := fun clients => (clients !! host, delete host clients).
Definition close_all {C} : ST (gmap string C) (list C) := fun clients => ((map_to_list clients).*2, ∅).

(** ** The loops follow the inventory *)
Record watch_ok (w : Watch) : Prop := {
  wo_known : forall host id, wt_loops w !! host = Some id -> exists l, wt_going w !! id = Some l /\ lp_Host l = host /\ lp_Stopped l = false;
  wo_live : forall id l, wt_going w !! id = Some l -> lp_Stopped l = false -> wt_loops w !! lp_Host l = Some id;
  wo_next : forall id l, wt_going w !! id = Some l -> (id < wt_next w)%nat;
}.

(** What a loop does to itself keeps whose it is and whether it was stopped. *)
Lemma ok_on_loop id f w : (forall l, lp_Host (f l) = lp_Host l /\ lp_Stopped (f l) = lp_Stopped l) -> watch_ok w -> watch_ok (on_loop id f w).
Proof.
  intros Hf [Hk Hl Hn]. split; cbn.
  - intros host i (l & Hi & Hh & Hs)%Hk. destruct (decide (id = i)) as [->|Hne].
    + exists (f l). rewrite lookup_alter_eq, Hi. destruct (Hf l) as [-> ->]. done.
    + exists l. by rewrite lookup_alter_ne.
  - intros i l Hi Hs. apply lookup_alter_Some in Hi as [(<- & l0 & Hi & ->)|[_ Hi]]; [|by apply Hl].
    destruct (Hf l0) as [Eh Es]. rewrite Eh. apply Hl; [done|congruence].
  - intros i l Hi. apply lookup_alter_Some in Hi as [(<- & l0 & Hi & ->)|[_ Hi]]; by eapply Hn.
Qed.

Lemma ok_stop_one hosts w host id : wt_loops w !! host = Some id -> watch_ok w -> watch_ok (stop_one hosts w (host, id)).
Proof.
  intros Hlk Hok. unfold stop_one. cbn [fst snd]. case_decide; [done|]. destruct Hok as [Hk Hl Hn].
  destruct (Hk _ _ Hlk) as (l0 & H0 & Hh & Hs0). split; cbn.
  - intros h i [Hne Hi]%lookup_delete_Some. destruct (Hk _ _ Hi) as (l & Hil & Hlh & Hls). exists l. rewrite lookup_alter_ne; [done|].
    intros <-. congruence.
  - intros i l Hi Hs. apply lookup_alter_Some in Hi as [(<- & l1 & Hi & ->)|[Hne Hi]]; [done|].
    rewrite lookup_delete_ne; [by apply Hl|]. intros E. apply Hne. specialize (Hl _ _ Hi Hs). congruence.
  - intros i l Hi. apply lookup_alter_Some in Hi as [(<- & l1 & Hi & ->)|[_ Hi]]; by eapply Hn.
Qed.

Lemma ok_start_one w host : watch_ok w -> watch_ok (start_one w host).
Proof.
  intros Hok. unfold start_one. destruct (wt_loops w !! host) eqn:E; [done|]. destruct Hok as [Hk Hl Hn]. split; cbn.
  - intros h i Hi. apply lookup_insert_Some in Hi as [[<- <-]|[Hne Hi]]; [eexists; by rewrite lookup_insert_eq|].
    destruct (Hk _ _ Hi) as (l & Hil & ?). exists l. rewrite lookup_insert_ne; [done|]. intros <-. apply Hn in Hil. lia.
  - intros i l Hi Hs. apply lookup_insert_Some in Hi as [[<- <-]|[Hne Hi]]; [apply lookup_insert_eq|].
    rewrite lookup_insert_ne; [by apply Hl|]. intros E'. specialize (Hl _ _ Hi Hs). congruence.
  - intros i l Hi. apply lookup_insert_Some in Hi as [[<- <-]|[Hne Hi]]; [lia|]. apply Hn in Hi. lia.
Qed.
Lemma ok_start_all hosts w : watch_ok w -> watch_ok (foldl start_one w hosts).
Proof. revert w. induction hosts as [|h hosts IH]; intros w Hw; [done|]. apply IH. by apply ok_start_one. Qed.

(** The loops to stop, each under its own machine. *)
Lemma ok_stop_all hosts (l : list (string * nat)) w : NoDup l.*1 -> (forall e, e ∈ l -> wt_loops w !! e.1 = Some e.2) -> watch_ok w ->
  watch_ok (foldl (stop_one hosts) w l) /\
  forall host, wt_loops (foldl (stop_one hosts) w l) !! host = (if decide (host ∈ l.*1 /\ host ∉ hosts) then None else wt_loops w !! host).
Proof.
  revert w. induction l as [|[h i] l IH]; intros w Hd Hin Hw.
  { split; [done|]. intros host. rewrite decide_False; [done|]. by intros [?%elem_of_nil _]. }
  cbn [fmap list_fmap] in Hd. apply NoDup_cons in Hd as [Hh Hd]. cbn [foldl].
  assert (Hw' : watch_ok (stop_one hosts w (h, i))) by (apply ok_stop_one; [by apply (Hin (h, i)); left|done]).
  assert (Hl : forall host, wt_loops (stop_one hosts w (h, i)) !! host = if decide (host = h /\ host ∉ hosts) then None else wt_loops w !! host).
  { intros host. unfold stop_one. cbn [fst]. destruct (decide (h ∈ hosts)); cbn; [rewrite decide_False by naive_solver; done|].
    destruct (decide (host = h)) as [->|Hne]; [by rewrite decide_True, lookup_delete_eq|]. by rewrite decide_False, lookup_delete_ne by naive_solver. }
  destruct (IH (stop_one hosts w (h, i)) Hd) as [Hok Hlk]; [|done|].
  { intros e He. rewrite Hl, decide_False; [apply Hin; by right|]. intros [Ee _]. apply Hh. destruct e as [h' i']. cbn in Ee. subst h'.
    apply list_elem_of_fmap. by exists (h, i'). }
  split; [done|]. intros host. rewrite Hlk, Hl. cbn [fmap list_fmap fst].
  repeat case_decide; try done; exfalso; set_solver.
Qed.

Lemma start_all_lookup hosts w host : is_Some (wt_loops (foldl start_one w hosts) !! host) <-> host ∈ hosts \/ is_Some (wt_loops w !! host).
Proof.
  revert w. induction hosts as [|h hosts IH]; intros w; [set_solver|]. cbn [foldl]. rewrite IH, elem_of_cons.
  unfold start_one. destruct (wt_loops w !! h) eqn:E; cbn.
  - split; [tauto|]. intros [[->|?]|?]; [right; by rewrite E|tauto..].
  - destruct (decide (h = host)) as [->|Hne]; [rewrite lookup_insert_eq; split; [by left; left|by right]|]. rewrite lookup_insert_ne by done. split; [tauto|].
    intros [[?|?]|?]; [congruence|tauto..].
Qed.

Lemma sync_ok hosts w : watch_ok w -> watch_ok (syncLoops hosts w) /\
  (wt_life w = true -> forall host, is_Some (wt_loops (syncLoops hosts w) !! host) <-> host ∈ hosts).
Proof.
  intros Hw. unfold syncLoops. destruct (wt_life w); [|done].
  destruct (ok_stop_all hosts (map_to_list (wt_loops w)) w) as [Hok Hlk]; [apply NoDup_fst_map_to_list| |done|].
  { intros [h i] He. by apply elem_of_map_to_list. }
  split; [by apply ok_start_all|]. intros _ host. rewrite start_all_lookup, Hlk. split; [|by left].
  intros [?|H]; [done|]. case_decide as Hd; [by destruct H|]. destruct (decide (host ∈ hosts)); [done|]. exfalso. apply Hd. split; [|done].
  destruct H as [i Hi]. apply list_elem_of_fmap. exists (host, i). split; [done|]. by apply elem_of_map_to_list.
Qed.

Lemma wake_ok w : watch_ok w -> watch_ok (wake w).
Proof.
  unfold wake. generalize (map_to_list (wt_loops w)). intros l. revert w. induction l as [|e l IH]; intros w Hw; [done|].
  apply IH. by apply ok_on_loop.
Qed.

Lemma step_ok w w' : watch_ok w -> watch_step w w' -> watch_ok w'.
Proof.
  intros Hw Hs. destruct Hs as [hosts w|hosts w|w|w w' Ht]; [apply sync_ok; by destruct Hw|by apply sync_ok|by apply wake_ok|].
  destruct Ht as [id l Hl _|id l Hl _|id l Hl _ _|id l Hl _ Hst]; [by apply ok_on_loop..|]. destruct Hw as [Hk Hlv Hn]. split; cbn.
  - intros h i Hi. destruct (Hk _ _ Hi) as (l0 & H0 & ? & Hs0). exists l0. rewrite lookup_delete_ne; [done|]. intros <-. congruence.
  - intros i l0 [_ Hi]%lookup_delete_Some. by apply Hlv.
  - intros i l0 [_ Hi]%lookup_delete_Some. by eapply Hn.
Qed.

(** C34: The loops follow the inventory.  Over every history of inventories, clicks,
    ticks and rounds, no two loops that were not stopped watch one machine; and
    once the window is alive, bringing the loops in step with an inventory leaves
    exactly one for each machine it lists, however often it lists it, and none
    for any other. *)
Theorem one_loop_per_machine hosts w : rtc watch_step not_started w ->
  (forall i j l k, wt_going w !! i = Some l -> wt_going w !! j = Some k -> lp_Stopped l = false -> lp_Stopped k = false ->
     lp_Host l = lp_Host k -> i = j) /\
  (wt_life w = true -> forall host, host ∈ hosts <->
     exists id l, wt_going (syncLoops hosts w) !! id = Some l /\ lp_Host l = host /\ lp_Stopped l = false).
Proof.
  intros Hr. assert (Hok : watch_ok w).
  { assert (H0 : watch_ok not_started) by (by split; intros ? ? ?). induction Hr as [|w1 w2 w3 Hs _ IH]; [done|]. apply IH. by eapply step_ok. }
  split.
  - intros i j l k Hi Hj Hl Hk E. destruct Hok as [_ Hlv _]. apply Hlv in Hi; [|done]. apply Hlv in Hj; [|done]. rewrite E in Hi. congruence.
  - intros Hlife host. destruct (sync_ok hosts w Hok) as [[Hk Hlv _] Hd]. rewrite <- (Hd Hlife). split.
    + intros [id Hi]. destruct (Hk _ _ Hi) as (l & ? & ? & ?). eauto.
    + intros (id & l & Hi & <- & Hs). eexists. by apply Hlv.
Qed.

Lemma nudges_lookup (l : list (string * nat)) w id :
  wt_going (foldl (fun w e => on_loop e.2 nudged w) w l) !! id = (if decide (id ∈ l.*2) then nudged <$> wt_going w !! id else wt_going w !! id).
Proof.
  revert w. induction l as [|[h i] l IH]; intros w; [done|]. cbn [foldl]. rewrite IH. cbn [on_loop wt_going snd fmap list_fmap].
  destruct (decide (i = id)) as [->|Hne].
  - rewrite lookup_alter_eq, (decide_True (P := id ∈ id :: _)) by left. case_decide; [by destruct (wt_going w !! id)|done].
  - rewrite lookup_alter_ne by done. repeat case_decide; try done; exfalso; set_solver.
Qed.

(** A click is not lost: after it every loop that was not stopped asks again
    when its round is over, without waiting for its tick. *)
Lemma wake_reaches w id l : watch_ok w -> wt_going w !! id = Some l -> lp_Stopped l = false ->
  wt_going (wake w) !! id = Some (nudged l).
Proof.
  intros [_ Hlv _] Hi Hs. pose proof (Hlv _ _ Hi Hs) as Hlk. unfold wake. rewrite nudges_lookup, Hi, decide_True; [done|].
  apply list_elem_of_fmap. eexists (_, id). split; [done|]. by apply elem_of_map_to_list.
Qed.

(** A machine that leaves the inventory and comes back while its round is under
    way is watched by two loops: the stopped one is still asking. *)
Definition came_back : Watch := syncLoops ["yuki"] (syncLoops [] (start ["yuki"] not_started)).
Lemma two_loops_ask : rtc watch_step not_started came_back /\ filter (fun l => lp_Host l = "yuki" /\ lp_Asking l = true) (map_to_list (wt_going came_back)).*2 =
  [MkLoop "yuki" false false true; MkLoop "yuki" true false true].
Proof.
  split; [|by vm_compute]. eapply rtc_l; [apply (Starts ["yuki"])|]. eapply rtc_l; [apply (Syncs [])|]. apply rtc_once. apply (Syncs ["yuki"]).
Qed.

Lemma one_loop_per_machine_witness : rtc watch_step not_started came_back /\ ((forall i j l k, wt_going came_back !! i = Some l -> wt_going came_back !! j = Some k -> lp_Stopped l = false -> lp_Stopped k = false ->
     lp_Host l = lp_Host k -> i = j) /\ (wt_life came_back = true -> forall host, host ∈ ["sora"; "yuki"; "sora"] <->
     exists id l, wt_going (syncLoops ["sora"; "yuki"; "sora"] came_back) !! id = Some l /\ lp_Host l = host /\ lp_Stopped l = false)).
Proof. split; [apply two_loops_ask|]. apply (one_loop_per_machine ["sora"; "yuki"; "sora"]). apply two_loops_ask. Defined.
