(* ===== verification/Editor.v ===== *)
(** * Editor: the tree of declarations, as the window writes it

    src/cmd/hostctl/gui.go (the editor of a declaration and of the inventory, the
    catalog, writeTreeFile) and deleteDeclaration of actions.go.  The disk keeps
    every tree a reader could have found on it, so that what is written half way
    can be spoken of; what the page then looks like is PanelView's [pending]. *)
From S2P Require Import Prelude GoText GoTime GoPath Service Filo Tree DeclarationFiles DockerClient Plan Host FileHandlers CommandLine Commands Panel Chart PanelView Detail.
From Stdlib Require Import Ascii SpecFloat.
Open Scope string_scope.
Open Scope list_scope.
Open Scope Z_scope.
Open Scope hostd_scope.

(** ** Places *)
(** The directory of a file: the tree, a directory in it, or the one that holds
    the tree, which only the name ".." reaches. *)
Inductive Where := Root | Sub (name : string) | Above.
Record Place := MkPlace { pl_Where : Where; pl_Base : string }.
#[export] Instance Where_eq_dec : EqDecision Where.
Proof. solve_decision. Defined.
#[export] Instance Place_eq_dec : EqDecision Place.
Proof. solve_decision. Defined.

Definition path_of (dir : string) (pl : Place) : string :=
  match pl_Where pl with
  | Root => PathJoin [dir; pl_Base pl]
  | Sub name => PathJoin [PathJoin [dir; name]; pl_Base pl]
  | Above => PathJoin [PathJoin [dir; ".."]; pl_Base pl]
  end.

(** The files of a directory inside the tree; [None] where there is no such
    directory.  A file beside a declaration may be one or a directory. *)
Definition leaf_of (n : node) : leaf := match n with NFile c => LFile c | NDir m => LDir (bool_decide (m = ∅)) end.
Definition listing (w : Where) (d : Dir) : option (gmap string leaf) :=
  match w with
  | Root => (fun m => fmap (M := gmap string) leaf_of m) <$> d
  | Sub name => match entries_of d !! name with Some (NDir m) => Some m | _ => None end
  | Above => None
  end.
Definition found (pl : Place) (d : Dir) : option leaf := m ← listing (pl_Where pl) d; m !! pl_Base pl.

(** os.ReadFile; [above] is what the directory that holds the tree has there. *)
Definition read_at (above : result string) (pl : Place) (d : Dir) : result string :=
  match pl_Where pl with
  | Above => above
  | _ => match found pl d with
         | Some (LFile content) => Ok content
         | Some (LDir _) => Err is_a_directory
         | None => Err ErrNotExist
         end
  end.
Definition put_at (pl : Place) (content : string) (d : Dir) : Dir :=
  match pl_Where pl with
  | Root => Some (<[pl_Base pl := NFile content]> (entries_of d))
  | Sub name => set_artifacts name (<[pl_Base pl := LFile content]> (artifacts_in name d)) d
  | Above => d
  end.
Definition drop_at (pl : Place) (d : Dir) : Dir :=
  match pl_Where pl with
  | Root => (fun m => delete (pl_Base pl) m) <$> d
  | Sub name => set_artifacts name (delete (pl_Base pl) (artifacts_in name d)) d
  | Above => d
  end.

(** Where a service's declaration lives: a directory of that name holds its own. *)
Definition declarationFile (above_is_dir : bool) (name : string) (d : Dir) : Place :=
  let own := if String.eqb name "" || String.eqb name "." then match d with Some _ => Some Root | None => None end
             else if String.eqb name ".." then (if above_is_dir then Some Above else None)
             else match entries_of d !! name with Some (NDir _) => Some (Sub name) | _ => None end in
  match own with Some w => MkPlace w InitFile | None => MkPlace Root (name +:+ Extension) end.

(** ** The disk *)
Record Disk := MkDisk { dk_tree : Dir; dk_past : list Dir }.
Definition instants (k : Disk) : list Dir := dk_past k ++ [dk_tree k].
Definition change (f : Dir -> Dir) : ST Disk unit := modify (fun k => MkDisk (f (dk_tree k)) (dk_past k ++ [dk_tree k])).

(** What goes wrong with one write: the creation, the writing after so many
    bytes, the closing, the rename; and the lengths the file is seen to have
    while it is written. *)
Record Faults := MkFaults { fl_create : option error; fl_seen : list nat; fl_write : option (nat * error); fl_close : option error; fl_rename : option error }.
Definition no_fault : Faults := MkFaults None [] None None None.

Definition errExist : error := EMsg ("file exists", []).
(** os.CreateTemp: a name nobody has, out of ten thousand tries; [rand] is the
    runtime's generator. *)
Definition temp_name (rand : nat -> Z) (base : string) (i : nat) : string := base +:+ "." +:+ itoa (rand i) +:+ ".tmp".
Definition free_name (taken : gmap string leaf) (names : list string) : option string :=
  snd <$> list_find (fun n => taken !! n = None) names.
Definition CreateTemp (rand : nat -> Z) (faults : Faults) (pl : Place) : ST Disk (result Place) :=
  match fl_create faults with
  | Some e => mret (Err e)
  | None =>
      taken ← gets (fun k => listing (pl_Where pl) (dk_tree k));
      match taken with
      | None => mret (Err ErrNotExist)
      | Some m =>
          match free_name m (temp_name rand (pl_Base pl) <$> seq 0 (Z.to_nat 10000)) with
          | None => mret (Err errExist)
          | Some name => let tmp := MkPlace (pl_Where pl) name in change (put_at tmp "") ;; mret (Ok tmp)
          end
      end
  end.

(** os.Rename over whatever file is there; a directory is not replaced. *)
Definition rename_to (faults : Faults) (tmp pl : Place) (content : string) : ST Disk (option error) :=
  match fl_rename faults with
  | Some e => mret (Some e)
  | None =>
      there ← gets (fun k => found pl (dk_tree k));
      match there with
      | Some (LDir _) => mret (Some errExist)
      | _ => change (fun d => drop_at tmp (put_at pl content d)) ;; mret None
      end
  end.

(** writeTreeFile.  The deferred removal finds nothing after the rename. *)
Definition writeTreeFile (rand : nat -> Z) (faults : Faults) (pl : Place) (content : string) : ST Disk (result unit) :=
  tmp ←! CreateTemp rand faults pl;
  for_each (fl_seen faults) (fun n => change (put_at tmp (take_bytes n content))) ;;
  err ← (match fl_write faults with
         | Some (n, e) => change (put_at tmp (take_bytes n content)) ;; mret (Some e)
         | None => change (put_at tmp content) ;; mret (fl_close faults)
         end);
  match err with
  | Some e => change (drop_at tmp) ;; mret (Err e)
  | None =>
      r ← rename_to faults tmp pl content;
      match r with
      | Some e => change (drop_at tmp) ;; mret (Err e)
      | None => mret (Ok tt)
      end
  end.

(** ** The editor *)
Record Editing := MkEditing {
  eg_disk : Disk; eg_panel : Panel; eg_edit : editState; eg_catalog : list Declaration;
  eg_machines : list inventoryEntry; eg_machinesProblem : string;
}.
Definition no_edit : editState := MkEdit "" "" "" "" false "" "".
Definition set_disk (k : Disk) (g : Editing) : Editing := MkEditing k (eg_panel g) (eg_edit g) (eg_catalog g) (eg_machines g) (eg_machinesProblem g).
Definition in_panel (f : Panel -> Panel) (g : Editing) : Editing :=
  MkEditing (eg_disk g) (f (eg_panel g)) (eg_edit g) (eg_catalog g) (eg_machines g) (eg_machinesProblem g).
Definition set_edit (e : editState) (g : Editing) : Editing := MkEditing (eg_disk g) (eg_panel g) e (eg_catalog g) (eg_machines g) (eg_machinesProblem g).
Definition set_catalog (l : list Declaration) (g : Editing) : Editing := MkEditing (eg_disk g) (eg_panel g) (eg_edit g) l (eg_machines g) (eg_machinesProblem g).
Definition set_machines (l : list inventoryEntry) (problem : string) (g : Editing) : Editing :=
  MkEditing (eg_disk g) (eg_panel g) (eg_edit g) (eg_catalog g) l problem.
Definition tree_now (g : Editing) : Dir := dk_tree (eg_disk g).
Definition on_disk {A} (m : ST Disk A) : ST Editing A := fun g => let '(r, k) := m (eg_disk g) in (r, set_disk k g).

(** What editorNow, catalog and inventory let a screen see. *)
Definition editorNow (v : viewState) (g : Editing) : editState :=
  if String.eqb (v_kind v) "svcedit" || String.eqb (v_kind v) "invedit" then eg_edit g else no_edit.
Definition catalog (v : viewState) (g : Editing) : list Declaration := if String.eqb (v_kind v) "services" then eg_catalog g else [].
Definition inventory (v : viewState) (g : Editing) : list inventoryEntry * string :=
  if String.eqb (v_kind v) "machines" then (eg_machines g, eg_machinesProblem g) else ([], "").

Definition lines_text (l : list string) : string := foldr (fun s t => s +:+ String newline "" +:+ t) "" l.
Definition quoted (s : string) : string := let q := String (chr 34) "" in q +:+ s +:+ q.
Definition inventorySkeleton : string := lines_text
  ["(inventory"; "  (host (tuple " +:+ quoted "name" +:+ " " +:+ quoted "machine.local" +:+ ") (tuple " +:+ quoted "tags" +:+
   " (list " +:+ quoted "amd64" +:+ " " +:+ quoted "docker" +:+ "))))"].
Definition serviceSkeleton : string := lines_text
  ["(service"; "  (tuple " +:+ quoted "name" +:+ " " +:+ quoted "CHANGE-ME" +:+ ")";
   "  (tuple " +:+ quoted "image" +:+ " " +:+ quoted "CHANGE-ME:tag" +:+ ")";
   "  ;; (tuple " +:+ quoted "args" +:+ " (list " +:+ quoted "/bin/app" +:+ " " +:+ quoted "-flag" +:+ "))";
   "  ;; (tuple " +:+ quoted "ports" +:+ " (list " +:+ quoted "0.0.0.0:80:80" +:+ "))";
   "  ;; (tuple " +:+ quoted "volumes" +:+ " (list " +:+ quoted "data:/var/lib/app" +:+ "))";
   "  ;; (tuple " +:+ quoted "memory-mb" +:+ " 64)";
   "  ;; jobs: (tuple " +:+ quoted "every" +:+ " " +:+ quoted "30m" +:+ ") with restart never";
   "  (tuple " +:+ quoted "restart" +:+ " " +:+ quoted "always" +:+ "))"].

Section Editor.
Context `{FiloEngine} `{!FiloType Service} `{!FiloType (list inventoryEntry)} `{Sha256}.
Context (now : Time) (rand : nat -> Z) (faults : Faults).
(** What is at init.filo of the directory above the tree, where there is one. *)
Context (above : option (result string)).

Definition read_place (pl : Place) (d : Dir) : result string := read_at (default (Err ErrNotExist) above) pl d.
Definition place_of (name : string) (d : Dir) : Place := declarationFile (match above with Some _ => true | None => false end) name d.
Definition inventory_place : Place := MkPlace Root Tree.InventoryFile.
(** readInventory of the tree's file. *)
Definition inventory_of (d : Dir) (path : string) : result (list inventoryEntry) := readInventory (fun _ => read_place inventory_place d) path.

Definition loadCatalog : ST Editing unit := modify (fun g => set_catalog (LoadTree (tree_now g)).1 g).
Definition loadMachines : ST Editing unit := modify (fun g =>
  match inventory_of (tree_now g) (PathJoin [p_dir (eg_panel g); Tree.InventoryFile]) with
  | Ok entries => set_machines entries "" g
  | Err e => set_machines [] (error_text e) g
  end).
Definition read_text (r : result string) : string := match r with Ok source => source | Err _ => "" end.
Definition loadServiceEditor (name : string) : ST Editing unit := modify (fun g =>
  let token := "svc:" +:+ name in
  if String.eqb name "" then set_edit (MkEdit token "New service" serviceSkeleton "" true "select/services" "") g
  else
    let r := read_place (place_of name (tree_now g)) (tree_now g) in
    set_edit (MkEdit token name (read_text r) (match r with Err e => error_text e | Ok _ => "" end) false "select/services" ("do/svcdel/" +:+ name)) g).
Definition loadInventoryEditor : ST Editing unit := modify (fun g =>
  let r := read_place inventory_place (tree_now g) in
  let draft := read_text r in
  set_edit (MkEdit "inv" "Machines" (if String.eqb draft "" then inventorySkeleton else draft)
    (match r with Err e => if bool_decide (e = ErrNotExist) then "" else error_text e | Ok _ => "" end) false "select/machines" "") g).

(** The draft and the problem of a save that was refused. *)
Definition fail (content problem : string) : ST Editing unit := modify (fun g =>
  let e := eg_edit g in set_edit (MkEdit (ed_Token e) (ed_Title e) content problem (ed_IsNew e) (ed_CancelAct e) (ed_DeleteAct e)) g).
Definition show_kind (kind : string) (v : viewState) : viewState :=
  MkView kind (v_host v) "" (v_path v) (v_window v) (v_from v) (v_to v) (v_closed v) (v_opened v).
Definition closeEditor (kind : string) : ST Editing unit := modify (fun g => in_panel (on_view (show_kind kind)) (set_edit no_edit g)).
Definition say (service : string) (text : Msg) (bad : bool) : ST Editing unit :=
  modify (in_panel (on_picture (sayLine now "tree" service text bad))).

Definition saveService (name content : string) : ST Editing unit :=
  match Tree.Parse "editor" content with
  | Err e => fail content (error_text e)
  | Ok parsed =>
      if negb (String.eqb name "") && negb (String.eqb (Name parsed) name)
      then fail content (text_of "this is %s's file and the text declares %q; to rename, register %s as a new service and delete %s"
             [AStr name; AStr (Name parsed); AStr (Name parsed); AStr name])
      else
        target ← gets (fun g => place_of (Name parsed) (tree_now g));
        there ← gets (fun g => found target (tree_now g));
        if String.eqb name "" && match there with Some _ => true | None => false end
        then fail content (text_of "%s already exists in the tree; edit it instead of registering it twice" [AStr (Name parsed)])
        else
          r ← on_disk (writeTreeFile rand faults target content);
          match r with
          | Err e => fail content (error_text e)
          | Ok _ =>
              loadCatalog ;;
              closeEditor "services" ;;
              dir ← gets (fun g => p_dir (eg_panel g));
              say (Name parsed) ("wrote %s; deploy puts it on a machine, and the commit is yours", [AStr (path_of dir target)]) false
          end
  end.

Definition saveInventory (content : string) : ST Editing unit :=
  match Decode Tree.InventoryFile content ([] : list inventoryEntry) with
  | Err e => fail content (error_text e)
  | Ok entries =>
      r ← on_disk (writeTreeFile rand faults inventory_place content);
      match r with
      | Err e => fail content (error_text e)
      | Ok _ =>
          loadMachines ;;
          closeEditor "machines" ;;
          dir ← gets (fun g => p_dir (eg_panel g));
          say "inventory" ("wrote %s with %d machine(s); the fleet tree follows it, and the commit is yours",
            [AStr (path_of dir inventory_place); AInt (Z.of_nat (length entries))]) false ;;
          modify (fun g => in_panel (reloadFleet (inventory_of (tree_now g))) g)
      end
  end.

Definition Save (token content : string) : ST Editing unit :=
  if String.eqb token "inv" then saveInventory content else saveService (TrimPrefix token "svc:") content.

(** *** The second click on the deletion of a declaration *)
(** os.RemoveAll of the directory a declaration is in: the tree itself where the
    declaration is a file called init.filo at its top. *)
Definition remove_directory (w : Where) (d : Dir) : Dir :=
  match w with Root => None | Sub name => (fun m => delete name m) <$> d | Above => None end.
Definition os_Remove (pl : Place) : ST Disk (result unit) :=
  there ← gets (fun k => found pl (dk_tree k));
  match there with
  | None => mret (Err ErrNotExist)
  | Some (LDir false) => mret (Err not_empty)
  | Some _ => change (drop_at pl) ;; mret (Ok tt)
  end.
Definition problem (service : string) (e : error) : ST Editing unit := say service (error_msg e) true.
Definition deleteDeclaration (name : string) : ST Editing unit :=
  if negb (ValidName name) then problem name (EMsg ("invalid service name %q", [AStr name]))
  else
    target ← gets (fun g => place_of name (tree_now g));
    r ← on_disk (if String.eqb (pl_Base target) InitFile then change (remove_directory (pl_Where target)) ;; mret (Ok tt)
                 else os_Remove target);
    match r with
    | Err e => problem name e
    | Ok _ =>
        loadCatalog ;;
        modify (in_panel (on_view (show_kind "services"))) ;;
        dir ← gets (fun g => p_dir (eg_panel g));
        say name ("removed %s from the tree; machines running it are untouched until a service remove", [AStr (path_of dir target)]) false
    end.

(** What entering a screen reads; the files screen asks its machine instead. *)
Definition enter : ST Editing unit :=
  v ← gets (fun g => p_view (eg_panel g));
  (if String.eqb (v_kind v) "services" then loadCatalog else mret tt) ;;
  (if String.eqb (v_kind v) "machines" then loadMachines else mret tt) ;;
  (if String.eqb (v_kind v) "svcedit" then loadServiceEditor (v_name v) else mret tt) ;;
  (if String.eqb (v_kind v) "invedit" then loadInventoryEditor else mret tt).
Definition select (rest : list string) : ST Editing unit := modify (in_panel (on_view (pick rest))) ;; enter.
End Editor.
