(* ===== verification/EditorProofs.v ===== *)
(** * EditorProofs: what a save and a deletion do to the tree

    A reader of the tree finds, under every name but the temporary one, the old
    text or the new one, at every instant of a save and however it ends. *)
From S2P Require Import Prelude GoText GoTime GoPath Service ServiceProofs Filo Tree DeclarationFiles TreeProofs DockerClient Plan Host FileHandlers CommandLine Commands Panel Chart PanelView Detail Editor HostSamples.
From Stdlib Require Import Ascii SpecFloat.
Open Scope string_scope.
Open Scope list_scope.
Open Scope Z_scope.

Section Reading.
Context (above : result string).
Abbreviation R := (read_at above).

Definition exists_in (w : Where) (d : Dir) : Prop := w <> Above /\ is_Some (listing w d).
Definition no_dir (pl : Place) (d : Dir) : Prop := forall b, found pl d <> Some (LDir b).

Lemma found_read pl d : pl_Where pl <> Above ->
  R pl d = match found pl d with Some (LFile c) => Ok c | Some (LDir _) => Err is_a_directory | None => Err ErrNotExist end.
Proof. unfold read_at. by destruct (pl_Where pl). Qed.

Lemma entries_some m : entries_of (Some m) = m.
Proof. done. Qed.
Lemma set_artifacts_entries name m d : entries_of (set_artifacts name m d) = <[name := NDir m]> (entries_of d).
Proof. done. Qed.
Lemma listing_artifacts name d m : listing (Sub name) d = Some m -> artifacts_in name d = m /\ entries_of d !! name = Some (NDir m).
Proof. unfold listing, artifacts_in. by destruct (entries_of d !! name) as [[]|]; intros [= ->]. Qed.

(** What one file put in place changes. *)
Lemma found_put_eq pl c d : exists_in (pl_Where pl) d -> found pl (put_at pl c d) = Some (LFile c).
Proof.
  intros [Hw [m Hm]]. unfold found, put_at. destruct pl as [w base]. cbn [pl_Where pl_Base] in *. destruct w as [|name|]; [| |done].
  - cbn. by rewrite lookup_fmap, lookup_insert_eq.
  - unfold listing. rewrite set_artifacts_entries, lookup_insert_eq. cbn. by rewrite lookup_insert_eq.
Qed.
Lemma listing_put w pl c d : exists_in (pl_Where pl) d -> no_dir pl d -> exists_in w d -> exists_in w (put_at pl c d).
Proof.
  intros [Hp [mp Hmp]] Hn [Hw [m Hm]]. split; [done|]. unfold put_at. destruct pl as [v base]. cbn [pl_Where pl_Base] in *. destruct v as [|name|]; [| |done].
  - destruct w as [|other|]; [cbn; eauto| |done]. unfold listing in *. rewrite entries_some.
    destruct (decide (base = other)) as [->|Hne]; [|rewrite lookup_insert_ne by done; eauto]. exfalso.
    destruct d as [d|]; [|done]. cbn in Hm. destruct (d !! other) as [[|entries]|] eqn:E; try done.
    apply (Hn (bool_decide (entries = ∅))). unfold found. cbn. by rewrite lookup_fmap, E.
  - destruct w as [|other|]; [cbn; eauto| |done]. unfold listing in *. rewrite set_artifacts_entries.
    destruct (decide (name = other)) as [->|Hne]; [rewrite lookup_insert_eq; eauto|rewrite lookup_insert_ne by done; eauto].
Qed.

Lemma read_put q pl c d : exists_in (pl_Where pl) d -> no_dir pl d -> R q (put_at pl c d) = if decide (q = pl) then Ok c else R q d.
Proof.
  intros He Hn. destruct (decide (q = pl)) as [->|Hne].
  { rewrite found_read by apply He. by rewrite found_put_eq. }
  destruct (decide (pl_Where q = Above)) as [Ha|Ha]; [unfold read_at; by rewrite Ha|].
  rewrite !found_read by done. destruct He as [Hp [mp Hmp]]. unfold found, put_at in *. destruct pl as [v base], q as [w other].
  cbn [pl_Where pl_Base] in *. destruct v as [|name|]; [| |done].
  - destruct w as [|sub|]; [| |done].
    + destruct d as [d|]; [|done]. cbn. rewrite !lookup_fmap, lookup_insert_ne by congruence. done.
    + unfold listing. rewrite entries_some. destruct (decide (base = sub)) as [->|Hne2]; [|by rewrite lookup_insert_ne].
      rewrite lookup_insert_eq. destruct d as [d|]; [|done]. cbn. destruct (d !! sub) as [[|entries]|] eqn:E; try done.
      exfalso. apply (Hn (bool_decide (entries = ∅))). cbn. by rewrite lookup_fmap, E.
  - apply listing_artifacts in Hmp as [Ea Ed]. rewrite Ea. destruct w as [|sub|]; [| |done].
    + destruct d as [d|]; [|done]. cbn in *. rewrite !lookup_fmap. destruct (decide (name = other)) as [->|Hne2]; [|by rewrite lookup_insert_ne].
      by rewrite lookup_insert_eq, Ed.
    + unfold listing. rewrite set_artifacts_entries. destruct (decide (name = sub)) as [->|Hne2]; [|by rewrite lookup_insert_ne].
      rewrite lookup_insert_eq, Ed. cbn. by rewrite lookup_insert_ne by congruence.
Qed.

(** What one file taken away changes. *)
Lemma read_drop q pl d : exists_in (pl_Where pl) d -> no_dir pl d -> R q (drop_at pl d) = if decide (q = pl) then Err ErrNotExist else R q d.
Proof.
  intros [Hp [mp Hmp]] Hn. unfold drop_at. destruct pl as [v base], q as [w other]. cbn [pl_Where pl_Base] in *.
  destruct (decide (w = Above)) as [->|Ha]; [case_decide as E; [injection E as <- _; done|done]|].
  rewrite !found_read by done. unfold found. cbn [pl_Where pl_Base]. destruct v as [|name|]; [| |done].
  - destruct d as [d|]; [|done]. destruct w as [|sub|]; [| |done].
    + cbn. rewrite !lookup_fmap. case_decide as E; [injection E as ->; by rewrite lookup_delete_eq|rewrite lookup_delete_ne by congruence; done].
    + rewrite decide_False by congruence. cbn. destruct (decide (base = sub)) as [->|Hne]; [|by rewrite lookup_delete_ne].
      rewrite lookup_delete_eq. destruct (d !! sub) as [[|entries]|] eqn:E; try done.
      exfalso. apply (Hn (bool_decide (entries = ∅))). unfold found. cbn. by rewrite lookup_fmap, E.
  - apply listing_artifacts in Hmp as [Ea Ed]. rewrite Ea. destruct w as [|sub|]; [| |done].
    + rewrite decide_False by congruence. destruct d as [d|]; [|done]. cbn in *. rewrite !lookup_fmap.
      destruct (decide (name = other)) as [->|Hne2]; [|by rewrite lookup_insert_ne]. by rewrite lookup_insert_eq, Ed.
    + unfold listing. rewrite set_artifacts_entries. destruct (decide (name = sub)) as [->|Hne2].
      * rewrite lookup_insert_eq, Ed. cbn. case_decide as E; [injection E as ->; by rewrite lookup_delete_eq|by rewrite lookup_delete_ne by congruence].
      * rewrite decide_False by congruence. by rewrite lookup_insert_ne.
Qed.
End Reading.

(** ** The history of the disk *)
(** From one disk to another, every tree seen on the way has the property. *)
Definition through (P : Dir -> Prop) (k k' : Disk) : Prop := exists seen, instants k' = instants k ++ seen /\ Forall P seen.

Lemma through_refl P k : through P k k.
Proof. exists []. by rewrite app_nil_r. Qed.
Lemma through_trans P k1 k2 k3 : through P k1 k2 -> through P k2 k3 -> through P k1 k3.
Proof.
  intros (s1 & E1 & F1) (s2 & E2 & F2). exists (s1 ++ s2). rewrite E2, E1, <- app_assoc. split; [done|]. by apply Forall_app.
Qed.
Lemma through_change (P : Dir -> Prop) f k : P (f (dk_tree k)) -> through P k (change f k).2.
Proof. intros Hp. exists [f (dk_tree k)]. by rewrite Forall_singleton. Qed.
Lemma through_mono (P Q : Dir -> Prop) k k' : (forall d, P d -> Q d) -> through P k k' -> through Q k k'.
Proof. intros Hpq (s & E & F). exists s. split; [done|]. by eapply Forall_impl. Qed.

Section Writing.
Context (above : result string) (rand : nat -> Z) (faults : Faults) (pl : Place) (content : string) (d0 : Dir).
Abbreviation R := (read_at above).

(** While a save goes on: only the temporary file is not what it was. *)
Record mid (tmp : Place) (d : Dir) : Prop := {
  mid_dir : exists_in (pl_Where pl) d;
  mid_tmp : exists c, found tmp d = Some (LFile c);
  mid_rest : forall q, q <> tmp -> R q d = R q d0;
}.
(** What a reader finds while a save goes on and after it. *)
Definition readable (tmp : Place) (d : Dir) : Prop :=
  forall q, q <> tmp -> R q d = R q d0 \/ (q = pl /\ R q d = Ok content).

Lemma mid_readable tmp d : mid tmp d -> readable tmp d.
Proof. intros Hm q Hq. left. by apply Hm. Qed.

Lemma no_dir_found tmp d : (exists c, found tmp d = Some (LFile c)) \/ found tmp d = None -> no_dir tmp d.
Proof. intros [[c E]|E] b; by rewrite E. Qed.

Lemma mid_put tmp c d : pl_Where tmp = pl_Where pl -> mid tmp d -> mid tmp (put_at tmp c d).
Proof.
  intros Hw Hm. pose proof (no_dir_found tmp d (or_introl (mid_tmp _ _ Hm))) as Hn. pose proof (mid_dir _ _ Hm) as He.
  assert (He' : exists_in (pl_Where tmp) d) by by rewrite Hw.
  split; [by apply listing_put|eexists; by apply found_put_eq|].
  intros q Hq. rewrite read_put, decide_False by done. by apply Hm.
Qed.

Lemma mid_start tmp d : d = d0 -> pl_Where tmp = pl_Where pl -> exists_in (pl_Where pl) d -> found tmp d = None -> mid tmp (put_at tmp "" d).
Proof.
  intros -> Hw He Hf. assert (He' : exists_in (pl_Where tmp) d0) by by rewrite Hw.
  pose proof (no_dir_found tmp d0 (or_intror Hf)) as Hn.
  split; [by apply listing_put|eexists; by apply found_put_eq|]. intros q Hq. by rewrite read_put, decide_False by done.
Qed.

(** The temporary file taken away again: the tree reads as it did. *)
Lemma mid_drop tmp d : found tmp d0 = None -> pl_Where tmp = pl_Where pl -> mid tmp d -> forall q, R q (drop_at tmp d) = R q d0.
Proof.
  intros Hf Hw Hm q. pose proof (mid_dir _ _ Hm) as He. rewrite read_drop; [|by rewrite Hw|apply no_dir_found; left; apply Hm].
  case_decide as E; [|by apply Hm]. subst q. rewrite found_read by (rewrite Hw; apply He). by rewrite Hf.
Qed.

Lemma free_name_fresh taken names name : free_name taken names = Some name -> taken !! name = None /\ name ∈ names.
Proof.
  unfold free_name. destruct (list_find _ names) as [[i n]|] eqn:E; [|done]. intros [= <-].
  apply list_find_Some in E as (Hl & Hn & _). split; [done|]. by eapply list_elem_of_lookup_2.
Qed.

Lemma create_cases k : dk_tree k = d0 -> pl_Where pl <> Above ->
  (exists e, CreateTemp rand faults pl k = (Err e, k)) \/
  (exists i, let tmp := MkPlace (pl_Where pl) (temp_name rand (pl_Base pl) i) in
     found tmp d0 = None /\ CreateTemp rand faults pl k = (Ok tmp, (change (put_at tmp "") k).2) /\ mid tmp (put_at tmp "" d0)).
Proof.
  intros Hd Ha. unfold CreateTemp. destruct (fl_create faults) as [e|]; [eauto|]. rewrite ST_step. cbn [gets fst snd].
  rewrite Hd. destruct (listing (pl_Where pl) d0) as [m|] eqn:El; [|eauto].
  destruct (free_name m _) as [name|] eqn:Ef; [|eauto]. right.
  apply free_name_fresh in Ef as [Hn (i & -> & _)%list_elem_of_fmap].
  exists i. cbv zeta. assert (Hf : found (MkPlace (pl_Where pl) (temp_name rand (pl_Base pl) i)) d0 = None) by (unfold found; cbn; by rewrite El).
  split_and!; [done..|]. apply mid_start; [done..| |done]. split; [done|]. by rewrite El.
Qed.

Lemma writes_mid tmp (lens : list nat) k : pl_Where tmp = pl_Where pl -> mid tmp (dk_tree k) ->
  let k' := (for_each lens (fun n => change (put_at tmp (take_bytes n content))) k).2 in
  through (mid tmp) k k' /\ mid tmp (dk_tree k').
Proof.
  intros Hw. revert k. induction lens as [|n lens IH]; intros k Hm; [split; [apply through_refl|done]|].
  cbv zeta. rewrite for_each_cons. set (k1 := (change _ k).2).
  assert (H1 : mid tmp (dk_tree k1)) by by apply mid_put. destruct (IH k1 H1) as [Ht Hm']. split; [|done].
  eapply through_trans; [|exact Ht]. by apply through_change.
Qed.
End Writing.

Lemma temp_name_longer rand base i : temp_name rand base i <> base.
Proof.
  unfold temp_name. intros E%(f_equal String.length). rewrite !app_string_length in E. cbn in E. lia.
Qed.

Section Saving.
Context (above : result string) (rand : nat -> Z) (faults : Faults) (pl : Place) (content : string).
Abbreviation R := (read_at above).
Definition temp_place (i : nat) : Place := MkPlace (pl_Where pl) (temp_name rand (pl_Base pl) i).

(** The end of a write: what is left is what was, or the file and nothing else. *)
Definition settled (d0 : Dir) (r : result unit) (d : Dir) : Prop := forall q,
  R q d = match r with Ok _ => if decide (q = pl) then Ok content else R q d0 | Err _ => R q d0 end.

Lemma tmp_not_pl i : pl <> temp_place i.
Proof. intros E. apply (temp_name_longer rand (pl_Base pl) i). by apply (f_equal pl_Base) in E. Qed.

Lemma abandoned i d0 k e : found (temp_place i) d0 = None -> mid above pl d0 (temp_place i) (dk_tree k) ->
  let '(r, k') := (change (drop_at (temp_place i)) ;; mret (Err e : result unit)) k in
  through (readable above pl content d0 (temp_place i)) k k' /\ settled d0 r (dk_tree k').
Proof.
  intros Hf Hm. cbn. pose proof (mid_drop above pl d0 (temp_place i) _ Hf eq_refl Hm) as Hd. split; [|done].
  apply (through_change _ (drop_at (temp_place i)) k). intros q _. left. apply Hd.
Qed.

Lemma rename_ends i d0 k : found (temp_place i) d0 = None -> mid above pl d0 (temp_place i) (dk_tree k) ->
  let '(r, k') := (r ← rename_to faults (temp_place i) pl content;
                   match r with Some e => change (drop_at (temp_place i)) ;; mret (Err e) | None => mret (Ok tt) end) k in
  through (readable above pl content d0 (temp_place i)) k k' /\ settled d0 r (dk_tree k').
Proof.
  intros Hf Hm. unfold rename_to. destruct (fl_rename faults) as [e|]; [by apply abandoned|].
  rewrite !ST_step. cbn [gets fst snd]. destruct (found pl (dk_tree k)) as [[c|b]|] eqn:Ep; [|by apply abandoned|].
  all: cbn; assert (He : exists_in (pl_Where pl) (dk_tree k)) by apply Hm;
    assert (Hn : no_dir pl (dk_tree k)) by (intros b; rewrite Ep; done);
    assert (Hs : settled d0 (Ok tt) (drop_at (temp_place i) (put_at pl content (dk_tree k))));
    [intros q; rewrite read_drop; [|by apply listing_put|];
       [case_decide as E1; [subst q; rewrite decide_False by (symmetry; apply tmp_not_pl); rewrite found_read by apply He; by rewrite Hf|];
        rewrite read_put by done; case_decide; [done|by apply Hm]|];
       intros b Hb; apply (f_equal (fun o => match o with Some (LDir _) => true | _ => false end)) in Hb; cbn in Hb;
       pose proof (read_put above (temp_place i) pl content (dk_tree k) He Hn) as Hr; rewrite decide_False in Hr by (symmetry; apply tmp_not_pl);
       rewrite !found_read in Hr by apply He; destruct (mid_tmp _ _ _ _ _ Hm) as [c0 Hc0]; rewrite Hc0 in Hr;
       by destruct (found (temp_place i) (put_at _ _ _)) as [[]|]
    |split; [|done]; apply (through_change _ (fun d => drop_at (temp_place i) (put_at pl content d)) k); intros q Hq; specialize (Hs q); case_decide; auto].
Qed.

Lemma write_ends k : pl_Where pl <> Above ->
  let '(r, k') := writeTreeFile rand faults pl content k in
  exists i, through (readable above pl content (dk_tree k) (temp_place i)) k k' /\ settled (dk_tree k) r (dk_tree k').
Proof.
  intros Ha. unfold writeTreeFile, bindE.
  destruct (create_cases above rand faults pl (dk_tree k) k eq_refl Ha) as [(e & Ec)|(i & Hf & Ec & Hm)]; rewrite Ec;
    [exists 0%nat; split; [apply through_refl|done]|].
  fold (temp_place i) in *. set (k1 := (change (put_at (temp_place i) "") k).2).
  assert (H01 : through (readable above pl content (dk_tree k) (temp_place i)) k k1) by (apply through_change; by apply mid_readable).
  rewrite ST_step. destruct (writes_mid above pl content (dk_tree k) (temp_place i) (fl_seen faults) k1 eq_refl Hm) as [H12 Hm2].
  set (k2 := (for_each _ _ k1).2) in *. rewrite ST_step.
  assert (H3 : exists err k3, (match fl_write faults with
       | Some (n, e) => change (put_at (temp_place i) (take_bytes n content)) ;; mret (Some e)
       | None => change (put_at (temp_place i) content) ;; mret (fl_close faults) end) k2 = (err, k3) /\
       through (readable above pl content (dk_tree k) (temp_place i)) k2 k3 /\ mid above pl (dk_tree k) (temp_place i) (dk_tree k3)).
  { destruct (fl_write faults) as [[n e]|]; (do 2 eexists; split; [reflexivity|]).
    - assert (Hx : mid above pl (dk_tree k) (temp_place i) (put_at (temp_place i) (take_bytes n content) (dk_tree k2))) by by apply mid_put.
      split; [|done]. apply (through_change _ (put_at (temp_place i) (take_bytes n content))). by apply mid_readable.
    - assert (Hx : mid above pl (dk_tree k) (temp_place i) (put_at (temp_place i) content (dk_tree k2))) by by apply mid_put.
      split; [|done]. apply (through_change _ (put_at (temp_place i) content)). by apply mid_readable. }
  destruct H3 as (err & k3 & E3 & H23 & Hm3). rewrite E3. cbn [fst snd].
  assert (H03 : through (readable above pl content (dk_tree k) (temp_place i)) k k3).
  { eapply through_trans; [exact H01|]. eapply through_trans; [|exact H23]. eapply through_mono; [|exact H12]. intros d. apply mid_readable. }
  destruct err as [e|].
  - pose proof (abandoned i (dk_tree k) k3 e Hf Hm3) as Hg. revert Hg.
    match goal with |- (let '(_, _) := ?m in _) -> _ => destruct m as [r k4] end. intros []. exists i. split; [by eapply through_trans|done].
  - pose proof (rename_ends i (dk_tree k) k3 Hf Hm3) as Hg. revert Hg.
    match goal with |- (let '(_, _) := ?m in _) -> _ => destruct m as [r k4] end. intros []. exists i. split; [by eapply through_trans|done].
Qed.

(** C30: Half a declaration is never readable under its name.  At every instant of
    a save, whatever fails in it, every file of the tree but the temporary one
    reads as it did before, or is the file saved with the whole of its new text.
    A save that succeeded changed that file and nothing else; one that failed
    changed nothing, and its temporary file is gone. *)
Theorem save_is_atomic k : pl_Where pl <> Above ->
  let '(r, k') := writeTreeFile rand faults pl content k in
  exists i, through (readable above pl content (dk_tree k) (temp_place i)) k k' /\ settled (dk_tree k) r (dk_tree k').
Proof. exact (write_ends k). Qed.
End Saving.

(** ** What the editor does *)
Section Editing.
Context `{FiloEngine} `{!FiloType Service} `{!FiloType (list inventoryEntry)} `{Sha256}.
Context (now : Time) (rand : nat -> Z) (faults : Faults) (above : option (result string)).
Abbreviation R := (read_place above).
Abbreviation place := (place_of above).

Lemma Parse_valid n c s : Tree.Parse n c = Ok s -> ValidName (Name s) = true.
Proof.
  unfold Tree.Parse. destruct (Decode n c empty_service) as [s0|]; [|done]. cbn.
  destruct (normalize s0) as [s1|] eqn:E; [|done]. intros [= <-]. eapply wf_name. by eapply normalize_wf.
Qed.
(** The name of the source is only in what is said of it. *)
Lemma Parse_named n m c s : Tree.Parse n c = Ok s -> Tree.Parse m c = Ok s.
Proof.
  unfold Tree.Parse, Decode, Eval_src. destruct (maxSourceSize <? len c); [done|]. destruct (RunScript c) as [v|]; [|done]. cbn.
  destruct (UnmarshalFromValue v empty_service) as [s0|]; [|done]. cbn. by destruct (normalize s0).
Qed.
Lemma valid_not_dots n : ValidName n = true -> n <> "" /\ n <> "." /\ n <> "..".
Proof. intros Hn. split_and!; intros ->; by vm_compute in Hn. Qed.
Lemma valid_not_hidden n x : ValidName n = true -> hidden (n +:+ x) = false.
Proof.
  intros Hn. unfold hidden. destruct (HasPrefix (n +:+ x) ".") eqn:E; [|done]. apply HasPrefix_spec in E as [t Et].
  destruct n as [|c n]; [done|]. rewrite append_cons in Et. cbn in Et. injection Et as -> _. exfalso. revert Hn. unfold ValidName. cbn.
  by destruct (64 <? _).
Qed.

Lemma place_valid n d : ValidName n = true ->
  place n d = match entries_of d !! n with Some (NDir _) => MkPlace (Sub n) InitFile | _ => MkPlace Root (n +:+ Extension) end.
Proof.
  intros (H1 & H2 & H3)%valid_not_dots. unfold place_of, declarationFile.
  destruct (String.eqb_spec n ""); [done|]. destruct (String.eqb_spec n "."); [done|]. destruct (String.eqb_spec n ".."); [done|]. cbn [orb].
  by destruct (entries_of d !! n) as [[]|].
Qed.
Lemma place_not_above n d : ValidName n = true -> pl_Where (place n d) <> Above.
Proof. intros Hn. rewrite place_valid by done. by destruct (entries_of d !! n) as [[]|]. Qed.

Lemma root_entry n d : R (MkPlace Root n) d = match entries_of d !! n with
  Some (NFile c) => Ok c | Some (NDir _) => Err is_a_directory | None => Err ErrNotExist end.
Proof.
  unfold read_place, read_at, found. cbn. destruct d as [d|]; cbn; [|by rewrite lookup_empty]. rewrite lookup_fmap. by destruct (d !! n) as [[]|].
Qed.
Lemma ext_longer n : n +:+ Extension <> n.
Proof. intros E%(f_equal String.length). rewrite app_string_length in E. cbn in E. lia. Qed.

(** A save leaves a service's declaration in its place. *)
Lemma place_stays pl n c d d' : settled (default (Err ErrNotExist) above) pl c d (Ok tt) d' -> ValidName n = true -> pl = place n d -> place n d' = pl.
Proof.
  intros Hs Hn ->. pose proof (Hs (MkPlace Root n)) as Hr. fold (R (MkPlace Root n) d') (R (MkPlace Root n) d) in Hr.
  assert (Hne : MkPlace Root n <> place n d).
  { rewrite place_valid by done. pose proof (ext_longer n). destruct (entries_of d !! n) as [[]|]; congruence. }
  rewrite decide_False in Hr by done. rewrite !root_entry in Hr. rewrite !place_valid by done.
  destruct (entries_of d' !! n) as [[]|], (entries_of d !! n) as [[]|]; unfold is_a_directory in *; congruence.
Qed.

Definition same_reading (d d' : Dir) : Prop := forall q, R q d' = R q d.
(** What a refusal leaves: the tree as it reads, the text typed, the problem. *)
Definition refused (content : string) (g g' : Editing) : Prop :=
  same_reading (tree_now g) (tree_now g') /\ ed_Draft (eg_edit g') = content /\ ed_Token (eg_edit g') = ed_Token (eg_edit g) /\
  eg_panel g' = eg_panel g /\ eg_catalog g' = eg_catalog g /\ eg_machines g' = eg_machines g.
(** What a save leaves: one file, and the editor shut on the screen it belongs to. *)
Definition written (pl : Place) (content kind : string) (g g' : Editing) : Prop :=
  (forall q, R q (tree_now g') = if decide (q = pl) then Ok content else R q (tree_now g)) /\
  eg_edit g' = no_edit /\ v_kind (p_view (eg_panel g')) = kind.

Lemma write_result pl content g : pl_Where pl <> Above ->
  exists r k', on_disk (writeTreeFile rand faults pl content) g = (r, set_disk k' g) /\
    settled (default (Err ErrNotExist) above) pl content (tree_now g) r (dk_tree k').
Proof.
  intros Ha. pose proof (write_ends (default (Err ErrNotExist) above) rand faults pl content (eg_disk g) Ha) as Hs.
  unfold on_disk. destruct (writeTreeFile rand faults pl content (eg_disk g)) as [r k']. destruct Hs as (i & _ & Hs). eauto.
Qed.

Lemma saveService_cases name content g :
  let g' := (saveService now rand faults above name content g).2 in
  refused content g g' \/
  exists svc, Tree.Parse "editor" content = Ok svc /\ (name <> "" -> Name svc = name) /\
    (name = "" -> found (place (Name svc) (tree_now g)) (tree_now g) = None) /\
    written (place (Name svc) (tree_now g)) content "services" g g' /\ eg_catalog g' = (LoadTree (tree_now g')).1.
Proof.
  unfold saveService. destruct (Tree.Parse "editor" content) as [svc|e] eqn:Ep; [|by left].
  destruct (negb _ && _) eqn:En; [by left|]. cbv zeta. rewrite !ST_step. cbn [gets fst snd].
  destruct (String.eqb name "" && _) eqn:Et; [by left|]. rewrite ST_step. pose proof (Parse_valid _ _ _ Ep) as Hn.
  destruct (write_result (place (Name svc) (tree_now g)) content g (place_not_above _ _ Hn)) as (r & k' & -> & Hs). cbn [fst snd].
  destruct r as [[]|e]; [|left; by split_and!].
  right. exists svc. split; [done|]. split_and!; [..|done].
  - intros Hne. destruct (String.eqb_spec name ""); [done|]. destruct (String.eqb_spec (Name svc) name); [done|]. by cbn in En.
  - intros ->. cbn in Et. destruct (found _ _); [done|done].
  - split_and!; [exact Hs|done..].
Qed.

(** *** What is saved is what is read *)
Lemma in_LoadTree d n t decl : d !! n = Some t -> tree_entry (Some d) (n, t) = Some (Ok decl) -> decl ∈ (LoadTree (Some d)).1.
Proof.
  intros Hd He. cbn. rewrite merge_sort_Permutation. apply in_okays. apply list_elem_of_omap. exists (n, t). split; [|done].
  unfold ReadDir. rewrite merge_sort_Permutation. by apply elem_of_map_to_list.
Qed.

Lemma file_described n content svc d : ValidName n = true -> n <> "inventory" -> Tree.Parse "editor" content = Ok svc -> Name svc = n ->
  entries_of d !! (n +:+ Extension) = Some (NFile content) -> MkDeclaration svc content [] ∈ (LoadTree d).1.
Proof.
  intros Hv Hi Hp Hn Hd. destruct d as [d|]; [|by cbn in Hd; rewrite lookup_empty in Hd]. eapply in_LoadTree; [exact Hd|].
  unfold tree_entry. cbn [fst snd]. destruct (String.eqb_spec (n +:+ Extension) Tree.InventoryFile) as [E|_].
  { exfalso. apply Hi. rewrite <- (proj2 (suffix_app n Extension)), E. done. }
  rewrite valid_not_hidden by done. destruct (suffix_app n Extension) as [Hs Ht]. rewrite Hs. cbn [orb].
  unfold loadServiceFile, ParseFile. cbn [mbind option_bind]. cbn in Hd. rewrite Hd, (Parse_named _ (n +:+ Extension) _ _ Hp). cbn [mbind result_bind].
  rewrite Ht, Hn, String.eqb_refl. done.
Qed.

Lemma directory_described n content svc d m : ValidName n = true -> Tree.Parse "editor" content = Ok svc -> Name svc = n ->
  entries_of d !! n = Some (NDir m) -> m !! InitFile = Some (LFile content) ->
  (exists artifacts, MkDeclaration svc content artifacts ∈ (LoadTree d).1) \/ exists e, readArtifacts m = Err e.
Proof.
  intros Hv Hp Hn Hd Hm. destruct (readArtifacts m) as [artifacts|e] eqn:Ea; [|eauto]. left. exists artifacts.
  destruct d as [d|]; [|by cbn in Hd; rewrite lookup_empty in Hd]. eapply in_LoadTree; [exact Hd|].
  unfold tree_entry. cbn [fst snd]. destruct (String.eqb_spec n Tree.InventoryFile) as [E|_]; [exfalso; subst n; rewrite E in Hv; by vm_compute in Hv|].
  pose proof (valid_not_hidden n "" Hv) as Hh. rewrite string_app_nil in Hh. rewrite Hh. cbn [orb].
  unfold loadServiceDir. rewrite Hm, (Parse_named _ (PathJoin [n; InitFile]) _ _ Hp). cbn [mbind result_bind].
  by rewrite Hn, String.eqb_refl, Ea.
Qed.

Lemma editor_reads n content g : ValidName n = true -> R (place n (tree_now g)) (tree_now g) = Ok content ->
  let again := eg_edit (loadServiceEditor above n g).2 in ed_Draft again = content /\ ed_Problem again = "".
Proof.
  intros Hv Hr. unfold loadServiceEditor. cbn. destruct (String.eqb_spec n "") as [E|_]; [exfalso; by apply (proj1 (valid_not_dots _ Hv))|].
  cbn. by rewrite Hr.
Qed.

(** What is saved is what is read.  When the editor shuts on a save, the text
    was a declaration of the service it was opened for, or of one the tree did
    not have; opening the editor on it again shows that text to the byte, every
    other file reads as it did, and the catalog describes the service by it,
    unless the files beside it cannot be read. *)
Theorem saved_text_returns name content g g' :
  saveService now rand faults above name content g = (tt, g') -> ed_Token (eg_edit g) <> "" -> ed_Token (eg_edit g') = "" ->
  exists svc, Tree.Parse "editor" content = Ok svc /\ (name <> "" -> Name svc = name) /\
    (name = "" -> found (place (Name svc) (tree_now g)) (tree_now g) = None) /\
    (let again := eg_edit (loadServiceEditor above (Name svc) g').2 in ed_Draft again = content /\ ed_Problem again = "") /\
    (forall q, q <> place (Name svc) (tree_now g) -> R q (tree_now g') = R q (tree_now g)) /\
    (Name svc <> "inventory" -> (exists artifacts, MkDeclaration svc content artifacts ∈ eg_catalog g') \/
       exists m e, entries_of (tree_now g') !! Name svc = Some (NDir m) /\ readArtifacts m = Err e).
Proof.
  intros E Ht Ht'. pose proof (saveService_cases name content g) as Hc. rewrite E in Hc. cbn [snd] in Hc.
  destruct Hc as [(_ & _ & Hr & _)|(svc & Hp & Hn & Hnew & (Hs & _ & _) & Hcat)]; [congruence|].
  pose proof (Parse_valid _ _ _ Hp) as Hv. exists svc. split; [done|]. split; [done|]. split; [done|].
  pose proof (place_stays _ _ content _ (tree_now g') Hs Hv eq_refl) as Hpl.
  pose proof (Hs (place (Name svc) (tree_now g))) as Hread. rewrite decide_True in Hread by done. split_and!.
  - apply editor_reads; [done|]. by rewrite Hpl.
  - intros q Hq. by rewrite Hs, decide_False.
  - intros Hi. rewrite Hcat. rewrite <- Hpl in Hread. rewrite place_valid in Hread by done.
    destruct (entries_of (tree_now g') !! Name svc) as [[|m]|] eqn:En.
    2:{ unfold read_place in Hread. rewrite found_read in Hread by done. unfold found in Hread. cbn in Hread. rewrite En in Hread. cbn in Hread.
        destruct (m !! InitFile) as [[c|]|] eqn:Em; [|done|done]. injection Hread as ->.
        destruct (directory_described _ _ _ _ _ Hv Hp eq_refl En Em) as [?|[e He]]; eauto. }
    all: left; exists []; rewrite root_entry in Hread; apply (file_described (Name svc)); try done;
      destruct (entries_of (tree_now g') !! (Name svc +:+ Extension)) as [[]|]; congruence.
Qed.

Lemma loadMachines_sets g : exists entries problem, (loadMachines above g).2 = set_machines entries problem g.
Proof. unfold loadMachines. cbn. destruct (inventory_of _ _ _); eauto. Qed.
Lemma reloadFleet_view inventory p : p_view (reloadFleet inventory p) = p_view p.
Proof. unfold reloadFleet. by destruct (inventory _) as [[]|]. Qed.

Lemma saveInventory_cases content g :
  let g' := (saveInventory now rand faults above content g).2 in
  refused content g g' \/ ((exists entries : list inventoryEntry, Decode Tree.InventoryFile content [] = Ok entries) /\ written inventory_place content "machines" g g').
Proof.
  unfold saveInventory. destruct (Decode _ _ _) as [entries|e] eqn:Ed; [|by left]. cbv zeta. rewrite ST_step.
  destruct (write_result inventory_place content g ltac:(done)) as (r & k' & -> & Hs). cbn [fst snd].
  destruct r as [[]|e]; [|left; by split_and!]. right. split; [eauto|].
  destruct (loadMachines_sets (set_disk k' g)) as (a & b & Em). rewrite ST_step, Em. rewrite !ST_step. cbn -[sayLine reloadFleet]. split_and!; [exact Hs|done|].
  unfold written. cbn -[sayLine reloadFleet]. by rewrite reloadFleet_view.
Qed.

(** A save writes the one file it is for, or nothing.  Whatever text the page
    sends under whatever token: the tree reads as it did and the text typed is
    kept with the problem, or one file has the whole of the text, every other
    reads as it did, and the editor is shut.  The file is the inventory's, of a
    text that is one, or the place of the service the text declares, which is
    the service of the token or one the tree did not have. *)
Theorem save_is_for_one_file token content g :
  let g' := (Save now rand faults above token content g).2 in
  refused content g g' \/
  (token = "inv" /\ (exists entries : list inventoryEntry, Decode Tree.InventoryFile content [] = Ok entries) /\ written inventory_place content "machines" g g') \/
  (exists svc, Tree.Parse "editor" content = Ok svc /\ token <> "inv" /\
     (Name svc = TrimPrefix token "svc:" \/ TrimPrefix token "svc:" = "" /\ found (place (Name svc) (tree_now g)) (tree_now g) = None) /\
     written (place (Name svc) (tree_now g)) content "services" g g').
Proof.
  unfold Save. destruct (String.eqb_spec token "inv") as [->|Hne].
  - destruct (saveInventory_cases content g) as [Hr|[He Hw]]; auto.
  - destruct (saveService_cases (TrimPrefix token "svc:") content g) as [Hr|(svc & Hp & Hn & Hnew & Hw & _)]; [by left|].
    right. right. exists svc. split_and!; try done. destruct (decide (TrimPrefix token "svc:" = "")); auto.
Qed.

(** *** A deletion *)
Lemma remove_directory_reads name q d : pl_Where q <> Sub name -> q <> MkPlace Root name -> R q (remove_directory (Sub name) d) = R q d.
Proof.
  intros Hs Hr. cbn. destruct d as [d|]; [|done]. unfold read_place, read_at, found. destruct q as [[|sub|] other]; cbn in *; [| |done].
  - rewrite !lookup_fmap, lookup_delete_ne by congruence. done.
  - rewrite lookup_delete_ne by congruence. done.
Qed.

Lemma drop_root_reads b q d : found (MkPlace Root b) d <> Some (LDir false) -> q <> MkPlace Root b -> R q (drop_at (MkPlace Root b) d) = R q d.
Proof.
  intros Hf Hq. destruct d as [d|]; [|done]. unfold read_place, read_at, found in *. destruct q as [[|sub|] other]; cbn in *; [| |done].
  - rewrite !lookup_fmap, lookup_delete_ne by congruence. done.
  - destruct (decide (b = sub)) as [->|Hne]; [|by rewrite lookup_delete_ne]. rewrite lookup_delete_eq.
    rewrite lookup_fmap in Hf. destruct (d !! sub) as [[|m]|]; [done| |done]. cbn in Hf.
    case_bool_decide as Em; [|done]. subst m. cbn. by rewrite lookup_empty.
Qed.

Lemma last_drop_snoc {A} n (l : list A) x : (n <= length l)%nat -> last (drop n (l ++ [x])) = Some x.
Proof. intros Hn. rewrite drop_app_le by done. apply last_snoc. Qed.
Lemma said_last service text bad g : exists l, last (pc_Lines (p_picture (eg_panel (say now service text bad g).2))) = Some l /\ ln_Bad l = bad.
Proof.
  eexists. cbn. split; [apply last_drop_snoc|done]. unfold over, maxLines. rewrite length_app. cbn. lia.
Qed.

Lemma os_Remove_root b k : let '(r, k') := os_Remove (MkPlace Root b) k in
  (forall q, q <> MkPlace Root b -> R q (dk_tree k') = R q (dk_tree k)) /\
  (r = Ok tt /\ R (MkPlace Root b) (dk_tree k') = Err ErrNotExist \/ r <> Ok tt /\ dk_tree k' = dk_tree k).
Proof.
  unfold os_Remove. rewrite ST_step. cbn [gets fst snd]. destruct (found (MkPlace Root b) (dk_tree k)) as [[c|[]]|] eqn:Ef; cbn -[read_place drop_at].
  3,4: by split; [|right].
  all: split; [intros q Hq; apply (drop_root_reads b); [by rewrite Ef|done]|left; split; [done|]];
    rewrite root_entry; destruct (dk_tree k); cbn; by rewrite ?lookup_delete_eq, ?lookup_empty.
Qed.

(** What a deletion takes, and how it ends. *)
Definition taken (target : Place) : ST Disk (result unit) :=
  if String.eqb (pl_Base target) InitFile then change (remove_directory (pl_Where target)) ;; mret (Ok tt) else os_Remove target.
Lemma deletion_takes name g : ValidName name = true ->
  let '(r, k') := taken (place name (tree_now g)) (eg_disk g) in
  let g' := (deleteDeclaration now above name g).2 in
  tree_now g' = dk_tree k' /\ (r <> Ok tt -> exists l, last (pc_Lines (p_picture (eg_panel g'))) = Some l /\ ln_Bad l = true).
Proof.
  intros Hv. unfold deleteDeclaration. rewrite Hv. cbn [negb]. rewrite ST_step. cbn [gets fst snd]. rewrite ST_step. unfold on_disk.
  fold (taken (place name (tree_now g))). destruct (taken _ _) as [[[]|e] k']; cbn [fst snd]; split; try done. intros _. apply said_last.
Qed.

(** A deletion takes one declaration.  Clicked for a service of any name but
    "init", it takes away the file or the directory of that service and nothing
    else, or takes nothing and says why in a line painted red. *)
Theorem deletion_takes_one_declaration name g : name <> "init" ->
  let g' := (deleteDeclaration now above name g).2 in
  (forall q, pl_Where q <> Sub name -> q <> MkPlace Root name -> q <> MkPlace Root (name +:+ Extension) ->
     R q (tree_now g') = R q (tree_now g)) /\
  (R (place name (tree_now g)) (tree_now g') = Err ErrNotExist \/
   tree_now g' = tree_now g /\ exists l, last (pc_Lines (p_picture (eg_panel g'))) = Some l /\ ln_Bad l = true).
Proof.
  intros Hi. destruct (ValidName name) eqn:Hv.
  2:{ unfold deleteDeclaration. rewrite Hv. split; [done|right; split; [done|apply said_last]]. }
  pose proof (deletion_takes name g Hv) as Ht. cbv zeta in *. set (g' := (deleteDeclaration now above name g).2) in *. clearbody g'.
  assert (Hfile : (name +:+ Extension =? InitFile)%string = false).
  { apply String.eqb_neq. intros E. apply Hi. rewrite <- (proj2 (suffix_app name Extension)), E. done. }
  revert Ht. rewrite place_valid by done. unfold taken.
  destruct (entries_of (tree_now g) !! name) as [[c|m]|] eqn:En; cbn [pl_Base pl_Where].
  2:{ cbn. intros [-> _]. fold (tree_now g). split; [intros q H1 H2 _; by apply remove_directory_reads|]. left. unfold read_place, read_at, found. cbn.
      destruct (tree_now g); cbn; [by rewrite lookup_delete_eq|by rewrite lookup_empty]. }
  all: rewrite Hfile; pose proof (os_Remove_root (name +:+ Extension) (eg_disk g)) as Ho;
    destruct (os_Remove _ _) as [r k']; intros [-> Hbad]; destruct Ho as [Hq [[-> Hr]|[Hr Hk]]];
    (split; [intros q _ _; apply Hq|]); auto.
Qed.

(** A deletion of a declaration called init takes the whole tree: its file is
    the name a directory's declaration has, and the directory it is in is the
    tree. *)
Theorem init_takes_the_tree g :
  (forall m, entries_of (tree_now g) !! "init" <> Some (NDir m)) -> tree_now (deleteDeclaration now above "init" g).2 = None.
Proof.
  intros Hn. pose proof (deletion_takes "init" g eq_refl) as Ht. rewrite place_valid in Ht by done.
  destruct (entries_of (tree_now g) !! "init") as [[c|m]|] eqn:E; [|by edestruct Hn|]; apply Ht.
Qed.
End Editing.

(** ** A tree, for the examples *)
(** A text declares the service its first word names. *)
Module EditorSamples.
#[export] Instance engine : FiloEngine := Build_FiloEngine string (fun s => Ok s).
#[export] Instance by_first_word : FiloType Service :=
  {| UnmarshalFromValue v _ := Ok (with_Name HostSamples.web_data (Cut v " "%char).1.1); filo_Marshal _ := Ok "" |}.
#[export] Instance one_machine : FiloType (list inventoryEntry) :=
  {| UnmarshalFromValue v _ := Ok [MkInventoryEntry v []]; filo_Marshal _ := Ok "" |}.
#[export] Instance sha : Sha256 := {| sha256_hex s := s |}.

Definition sample_tree : Dir :=
  Some {["site.filo" := NFile "site one"; "caddy" := NDir {["init.filo" := LFile "caddy one"; "Caddyfile" := LFile "localhost"]}; "inventory.filo" := NFile "yuki"]}.
Definition tries (i : nat) : Z := Z.of_nat i + 7.
(** The disk is full after four bytes. *)
Definition full : Faults := MkFaults None [2%nat] (Some (4%nat, EMsg ("no space left on device", []))) None None.
Definition opened (name : string) : Editing :=
  (loadServiceEditor None name (MkEditing (MkDisk sample_tree []) (newPanel "/tree" ["yuki"]) no_edit [] [] "")).2.
Definition saving (faults : Faults) (name content : string) : Editing := (saveService 0 tries faults None name content (opened name)).2.
Definition saved_caddy : Editing := saving (MkFaults None [3%nat] None None None) "caddy" "caddy two".
End EditorSamples.
Import EditorSamples.

Lemma save_is_atomic_witness :
  let '(r, k') := writeTreeFile tries full (MkPlace Root "site.filo") "site two" (MkDisk sample_tree []) in
  (exists i, through (readable (Err ErrNotExist) (MkPlace Root "site.filo") "site two" sample_tree (temp_place tries (MkPlace Root "site.filo") i)) (MkDisk sample_tree []) k' /\
    settled (Err ErrNotExist) (MkPlace Root "site.filo") "site two" sample_tree r (dk_tree k')) /\ is_ok r = false /\ length (instants k') = 5%nat.
Proof.
  pose proof (save_is_atomic (Err ErrNotExist) tries full (MkPlace Root "site.filo") "site two" (MkDisk sample_tree []) ltac:(done)) as Hs.
  split; [exact Hs|]. by vm_compute.
Defined.

Lemma saved_text_returns_witness :
  (exists svc, Tree.Parse "editor" "caddy two" = Ok svc /\ ("caddy" <> "" -> Name svc = "caddy") /\
    ("caddy" = "" -> found (place_of None (Name svc) sample_tree) sample_tree = None) /\
    (let again := eg_edit (loadServiceEditor None (Name svc) saved_caddy).2 in ed_Draft again = "caddy two" /\ ed_Problem again = "") /\
    (forall q, q <> place_of None (Name svc) sample_tree -> read_place None q (tree_now saved_caddy) = read_place None q sample_tree) /\
    (Name svc <> "inventory" -> (exists artifacts, MkDeclaration svc "caddy two" artifacts ∈ eg_catalog saved_caddy) \/
       exists m e, entries_of (tree_now saved_caddy) !! Name svc = Some (NDir m) /\ readArtifacts m = Err e)) /\
  length (dk_past (eg_disk saved_caddy)) = 4%nat.
Proof.
  split; [|by vm_compute].
  refine (saved_text_returns 0 tries (MkFaults None [3%nat] None None None) None "caddy" "caddy two" (opened "caddy") saved_caddy _ _ _); by vm_compute.
Defined.

Definition deleted (name : string) : Editing := (deleteDeclaration 0 None name (opened "")).2.
Lemma deletion_takes_one_declaration_witness :
  ((forall q, pl_Where q <> Sub "caddy" -> q <> MkPlace Root "caddy" -> q <> MkPlace Root ("caddy" +:+ Extension) ->
     read_place None q (tree_now (deleted "caddy")) = read_place None q sample_tree) /\
   (read_place None (place_of None "caddy" sample_tree) (tree_now (deleted "caddy")) = Err ErrNotExist \/
    tree_now (deleted "caddy") = sample_tree /\ exists l, last (pc_Lines (p_picture (eg_panel (deleted "caddy")))) = Some l /\ ln_Bad l = true)) /\
  tree_now (deleted "caddy") <> sample_tree /\ tree_now (deleted "init") = None.
Proof.
  split; [refine (deletion_takes_one_declaration 0 None "caddy" (opened "") _); done|].
  split; [intros E%(f_equal (fun d => size (entries_of d))); vm_compute in E; discriminate E|]. apply init_takes_the_tree. by vm_compute.
Defined.

(** While the declaration of a directory is saved, its temporary file is one more
    file beside the declaration: whoever reads the tree then sends it along. *)
Definition half_saved : Dir := default None (dk_past (eg_disk saved_caddy) !! 2%nat).
Lemma half_saved_travels :
  (fun d => (Source d, Artifact_Name <$> Artifacts d)) <$> filter (fun d => Name (d_Service d) = "caddy") (LoadTree half_saved).1 =
  [("caddy one", ["Caddyfile"; "init.filo.7.tmp"])].
Proof. by vm_compute. Qed.

(** A service may be called inventory: registered in a tree that lists no machine
    yet, its declaration is written where the machines are read from, and the
    catalog does not have it. *)
Definition registered : Editing :=
  (saveService 0 tries no_fault None "" "inventory one" (MkEditing (MkDisk (Some ∅) []) (newPanel "/tree" ["yuki"]) no_edit [] [] "")).2.
Lemma inventory_is_a_service_name :
  entries_of (tree_now registered) !! "inventory.filo" = Some (NFile "inventory one") /\ eg_edit registered = no_edit /\ eg_catalog registered = [] /\
  tree_now (deleteDeclaration 0 None "inventory" (opened "")).2 = drop_at (MkPlace Root "inventory.filo") sample_tree.
Proof. split_and!; by vm_compute. Qed.
