(* ===== verification/Works.v ===== *)
(** * Works: what a button of the window does

    src/cmd/hostctl/actions.go: the works an action starts, each over a
    connection of its own, and the lines it leaves in the window's log; the
    listing of files of gui.go.  A work ends with what it asks of the window
    afterwards.  The deletion of a declaration is in Editor, arming in Panel. *)
From S2P Require Import Prelude GoText GoTime GoPath Service Filo Tree DeclarationFiles AuditLog Runtime DockerClient Plan Images Protocol MetricStore Host FileHandlers ServiceHandlers ImageHandlers Server Client CommandLine Commands Deploy Install Panel Chart Detail.
From Stdlib Require Import Ascii SpecFloat.
Open Scope string_scope.
Open Scope list_scope.
Open Scope Z_scope.
Open Scope hostd_scope.

(** What a work asks of the window when it is done: the machines asked again at
    once, a directory listed again, the connection and the version forgotten. *)
Inductive After := Waking | Listing (svc path : string) | Forgetting.

(** The words a one-request action begins with. *)
Definition asking_words (op : string) : string :=
  if String.eqb op OpServiceRemove then "stopping it and taking it off this machine…"
  else if String.eqb op OpServiceRestrt then "restarting it…"
  else if String.eqb op OpServiceStop then "stopping it…"
  else if String.eqb op OpServiceStart then "starting it…" else "".

(** lineWriter.Write: what a command prints, as lines of the log. *)
Definition lines_said (printed : string) : list string := filter (fun l => l <> "") (TrimSpace <$> Split printed newline).

(** downloadsDir: [home] is os.UserHomeDir. *)
Definition downloadsDir (home : result string) (has_downloads : bool) : string :=
  match home with
  | Err _ => "."
  | Ok home => if has_downloads then PathJoin [home; "Downloads"] else home
  end.

(** The directory a file of the data is in. *)
Definition dir_of (path : string) : string := match cut_last path slash with Some (dir, _) => dir | None => "" end.

Section Works.
Context `{FiloEngine} `{!FiloType Request} `{!FiloType WireResponse} `{!FiloType (list Status)} `{!FiloType (list ImageEntry)} `{!FiloType ImagePrune}.
Context `{!FiloType (list FileEntry)} `{!FiloType FileTransfer} `{!FiloType Image_} `{!FiloType WireDeclaration} `{Sha256} {W : Type} `{Transport W}.
Context (target : string) (block : Z) (local : Local) (docker_Open : option error) (tree : list Declaration * option error) (dir : string) (opt : options).
(** What reaching the machine for this work gave. *)
Context (dialled : option error).
Abbreviation Doing := (ST (Bench (W := W))).

Definition say (svc : string) (text : Msg) (bad : bool) : Doing unit :=
  modify (fun b => MkBench (b_desk b) (b_world b) (b_said b ++ [MkSaying svc text bad])).
Definition problem (svc : string) (e : error) : Doing (list After) := say svc (error_msg e) true ;; mret [].
Definition reached (svc : string) (work : Doing (list After)) : Doing (list After) :=
  match dialled with Some e => problem svc e | None => work end.

(** One request of a work: its failure is a line painted red. *)
Definition answered_or (svc : string) (r : WireResponse * option error) (use : WireResponse -> Doing (list After)) : Doing (list After) :=
  match r with
  | (_, Some e) => problem svc e
  | (resp, None) => if wr_Failed resp then problem svc (api_error resp) else use resp
  end.

Definition deploy (name : string) : Doing (list After) :=
  reached name (
    outcome ← deployService target docker_Open tree dir (fun step => say name step false) opt name;
    match outcome with
    | Err e => problem name e
    | Ok outcome => say name outcome false ;; mret [Waking]
    end).

Definition command (name op : string) : Doing (list After) :=
  reached name (
    say name (Lit (asking_words op)) false ;;
    r ← ask_machine target (asking op name);
    answered_or name r (fun _ => mret [Waking])).

Definition stayed (c : ImageChange) : Doing unit :=
  if String.eqb (render_arg (AMsg (ic_Problem c))) "" then mret tt else say "hostd" ("%s stayed: %s", [AStr (tagsText (ic_Tags c)); AMsg (ic_Problem c)]) true.
Definition freed (changes : list ImageChange) : float64 :=
  foldl (fun sum c => if ic_Removed c then f64_add sum (ic_Bytes c) else sum) f64_zero changes.
Definition no_prune : ImagePrune := MkImagePrune 0 0 [] false.
Definition prune : Doing (list After) :=
  reached "hostd" (
    r ← ask_machine target (claiming 0 true "" (keeping DefaultImageKeep (asking OpImagePrune "")));
    answered_or "hostd" r (fun resp =>
      match decode (wr_Body resp) no_prune with
      | Err e => problem "hostd" e
      | Ok plan =>
          for_each (ip_Remove plan) stayed ;;
          say "hostd" ("cleaned up %d image(s), %s freed; %d kept",
            [AInt (Z.of_nat (length (ip_Remove plan))); AStr (formatBytes (freed (ip_Remove plan))); AInt (Kept plan)]) false ;;
          mret [Waking]
      end)).

Definition deleteFile (wire : string) : Doing (list After) :=
  let '(svc, rest, _) := Cut wire slash in
  reached svc (
    r ← ask_machine target (on_service OpFileDelete svc rest);
    answered_or svc r (fun _ => say svc ("deleted %s", [AStr rest]) false ;; mret [Listing svc (dir_of rest)])).

Definition downloaded_into (downloads : string) (told : FileTransfer) : string := PathJoin [downloads; Base (ft_Path told)].
Definition downloadFile (downloads wire : string) : Doing (list After) :=
  let '(svc, rest, _) := Cut wire slash in
  reached svc (
    r ← at_desk (on_conn (FetchFile block svc rest (fun told => create_local local (downloaded_into downloads told))));
    let '(resp, err, sink) := r in
    let into := into_of "file" no_transfer (downloaded_into downloads) resp in
    err ← at_desk (keep_local local into err sink);
    match err with
    | Some e => problem svc e
    | None =>
        if wr_Failed resp then problem svc (api_error resp)
        else say svc ("saved %s here as %s", [AStr rest; AStr into]) false ;; mret []
    end).

(** [dialog] is what the chooser of files gave; the window may have none. *)
Definition uploadFile (dialog : option (result string)) (svc at_ : string) : Doing (list After) :=
  match dialog with
  | None => problem svc (EMsg ("uploading needs the window; use hostctl file put on the command line here", []))
  | Some (Err e) => problem svc e
  | Some (Ok file) =>
      if String.eqb file "" then mret [] else
      match lc_open local file with
      | Err e => problem svc e
      | Ok (reads, ended) =>
          reached svc (
            let wire := at_ +:+ "/" +:+ Base file in
            r ← at_desk (on_conn (SendFile target svc wire reads ended));
            answered_or svc r (fun resp =>
              let told := match decode (wr_Body resp) no_transfer with Ok told => told | Err _ => no_transfer end in
              say svc ("placed %s as %s (%s)", [AStr (Base file); AStr wire; AStr (formatBytes (ft_Bytes told))]) false ;;
              mret [Listing svc at_]))
      end
  end.

(** [verdict] is runInstall's, with what it printed; [stale] is staleDaemon's. *)
Definition install (stale : option Msg) (verdict : Z * option error * list Msg) : Doing (list After) :=
  let '(_, err, printed) := verdict in
  (match stale with Some m => say "hostd" m false | None => mret tt end) ;;
  for_each printed (fun m => for_each (lines_said (render_arg (AMsg m))) (fun l => say "hostd" (Lit l) false)) ;;
  match err with
  | Some e => problem "hostd" e
  | None => mret [Forgetting; Waking]
  end.

(** [ran] is what the system's opener of directories gave. *)
Definition openTree (ran : option error) : Doing (list After) :=
  match ran with
  | Some e => problem "hostctl" (EWrap ("cannot open %s: %w", [AStr dir]) e)
  | None => mret []
  end.

(** The work of one action. *)
Definition perform (downloads : string) (dialog : option (result string)) (stale : option Msg)
    (verdict : Z * option error * list Msg) (ran : option error) (w : Work) : Doing (list After) :=
  match w with
  | Deploying _ name => deploy name
  | Commanding _ name op => command name op
  | Pruning _ => prune
  | Installing _ => install stale verdict
  | OpeningTree => openTree ran
  | DeletingFile _ wire => deleteFile wire
  | Downloading _ wire => downloadFile downloads wire
  | Uploading _ svc wire => uploadFile dialog svc wire
  | Arming _ | DeletingDeclaration _ => mret []
  end.
End Works.

(** What the log of the window then holds of what was said. *)
Definition told (now : Time) (host : string) (said : list Saying) (pc : Picture) : Picture :=
  foldl (fun pc s => sayLine now host (sy_Service s) (sy_Text s) (sy_Bad s) pc) pc said.

(** ** The files screen *)
Section Files.
Context `{FiloEngine} `{!FiloType Request} `{!FiloType WireResponse} `{!FiloType (list FileEntry)}.

(** loadFiles: the place is on the screen before its answer. *)
Definition asking_files (host svc path : string) : filesState := MkFiles host svc path [] "" true.
Definition fetchFiles (target : string) (dialled : option error) (svc path : string) : ST Conn (list FileEntry * string) :=
  match dialled with
  | Some e => mret ([], error_text e)
  | None =>
      r ← Client.do target (on_service OpFileList svc path);
      mret match r with
           | (_, Some e) => ([], error_text e)
           | (resp, None) =>
               if wr_Failed resp then ([], wr_Message resp)
               else match decode (wr_Body resp) ([] : list FileEntry) with
                    | Err e => ([], error_text e)
                    | Ok entries => (entries, "")
                    end
           end
  end.
(** An answer lands where its place is still the one on the screen. *)
Definition land (host svc path : string) (answer : list FileEntry * string) (f : filesState) : filesState :=
  if String.eqb (fs_Host f) host && String.eqb (fs_Service f) svc && String.eqb (fs_Path f) path
  then MkFiles (fs_Host f) (fs_Service f) (fs_Path f) answer.1 answer.2 false else f.
End Files.
