(* ===== verification/WorksProofs.v ===== *)
(** * WorksProofs: what a button does, and what is seen of it

    Every work leaves a line that says how it ended; a deploy asked for in the
    window is the one the command line makes; the files screen shows what its
    own place was answered. *)
From S2P Require Import Prelude GoText GoTime GoPath Service Filo Tree DeclarationFiles AuditLog Runtime DockerClient Plan Images Protocol MetricStore Host FileHandlers ServiceHandlers ImageHandlers Server Client CommandLine Commands Deploy Install Panel Chart Detail Works HostSamples.
From Stdlib Require Import Ascii SpecFloat.
Open Scope string_scope.
Open Scope list_scope.
Open Scope Z_scope.
Open Scope hostd_scope.

(** ** How a work is told *)
Section Told.
Context {W : Type}.
Abbreviation Bench := (Bench (W := W)).
Implicit Types b : Bench.

Definition longer b b' : Prop := exists l, b_said b' = b_said b ++ l.
#[local] Instance longer_preorder : PreOrder longer.
Proof.
  split; [intros b; exists []; by rewrite app_nil_r|]. intros b1 b2 b3 [l E] [k E']. exists (l ++ k). by rewrite E', E, app_assoc.
Qed.
Lemma longer_desk {X} (m : ST Desk X) : moves longer (at_desk (W := W) m).
Proof. intros b. exists []. unfold at_desk. destruct (m (b_desk b)). cbn. by rewrite app_nil_r. Qed.
Lemma longer_here {X} (m : ST W X) : moves longer (here m).
Proof. intros b. exists []. unfold here. destruct (m (b_world b)). cbn. by rewrite app_nil_r. Qed.
Lemma longer_say svc text bad : moves longer (say svc text bad : ST Bench unit).
Proof. intros b. by eexists. Qed.

(** The last line of a work says how it ended: a problem, and nothing is asked
    of the window; or not, and what was done is [P]. *)
Definition ends_with_line (P : list After -> Prop) (m : ST Bench (list After)) : Prop := forall b, exists l x,
  b_said (m b).2 = b_said b ++ l ++ [x] /\ (sy_Bad x = true -> (m b).1 = []) /\ (sy_Bad x = false -> P (m b).1).

Lemma ends_problem P svc e : ends_with_line P (problem svc e).
Proof. intros b. by exists [], (MkSaying svc (error_msg e) true). Qed.
Lemma ends_say (P : list After -> Prop) svc text r : P r -> ends_with_line P (say svc text false ;; mret r).
Proof. intros Hr b. by exists [], (MkSaying svc text false). Qed.
Lemma ends_bind {X} P (m : ST Bench X) f : moves longer m -> (forall x, ends_with_line P (f x)) -> ends_with_line P (m ≫= f).
Proof.
  intros Hm Hf b. rewrite ST_step. destruct (Hm b) as [k Ek]. destruct (Hf (m b).1 (m b).2) as (l & x & El & Hx).
  exists (k ++ l), x. rewrite El, Ek. by rewrite !app_assoc.
Qed.
Lemma ends_mono (P Q : list After -> Prop) m : (forall after, P after -> Q after) -> ends_with_line P m -> ends_with_line Q m.
Proof. intros Hpq Hm b. destruct (Hm b) as (l & x & El & Hb & Hg). exists l, x. auto. Qed.
Lemma ends_reached P dialled svc work : ends_with_line P work -> ends_with_line P (reached dialled svc work).
Proof. unfold reached. destruct dialled; [intros _; apply ends_problem|done]. Qed.
Lemma ends_answered P svc r use : (forall resp, ends_with_line P (use resp)) -> ends_with_line P (answered_or svc r use).
Proof. intros Hu. destruct r as [resp [e|]]; cbn; [apply ends_problem|]. destruct (wr_Failed resp); [apply ends_problem|apply Hu]. Qed.
End Told.

Ltac ends_step :=
  match goal with
  | |- ends_with_line _ (reached _ _ _) => apply ends_reached
  | |- ends_with_line _ (problem _ _) => apply ends_problem
  | |- ends_with_line _ (answered_or _ _ _) => apply ends_answered; intros ?
  | |- ends_with_line _ (say _ _ false ;; mret _) => apply ends_say; done
  | |- ends_with_line _ (mbind _ _) => refine (ends_bind _ _ _ _ _); [|intros ?]
  | |- ends_with_line _ (if ?b then _ else _) => destruct b eqn:?
  | |- ends_with_line _ (match ?x with _ => _ end) => destruct x eqn:?
  end.
Ltac longer_step := first [apply longer_desk | apply longer_here | apply longer_say | moves_step | eassumption].
#[export] Existing Instance longer_preorder.

Section Works.
Context `{FiloEngine} `{!FiloType Request} `{!FiloType WireResponse} `{!FiloType (list Status)} `{!FiloType (list ImageEntry)} `{!FiloType ImagePrune}.
Context `{!FiloType (list FileEntry)} `{!FiloType FileTransfer} `{!FiloType Image_} `{!FiloType WireDeclaration} `{Sha256} {W : Type} `{Transport W}.
Context (target : string) (block : Z) (local : Local) (docker_Open : option error) (tree : list Declaration * option error) (dir : string) (opt : options).
Context (dialled : option error).
Abbreviation Bench := (Bench (W := W)).

Lemma deploy_tells (tell : Msg -> ST Bench unit) name : (forall m, moves longer (tell m)) ->
  moves longer (deployService target docker_Open tree dir tell opt name).
Proof.
  intros Ht. unfold deployService, ensureImage, pushImage, saved, machineHolds, putDeclaration, ask_machine. repeat first [apply Ht|longer_step].
Qed.

(** What each work asks of the window once it is done. *)
Definition asks_after (w : Work) (after : list After) : Prop :=
  match w with
  | Deploying _ _ | Commanding _ _ _ | Pruning _ => after = [Waking]
  | DeletingFile _ wire => after = [Listing (Cut wire slash).1.1 (dir_of (Cut wire slash).1.2)]
  | Uploading _ svc at_ => after = [Listing svc at_]
  | _ => after = []
  end.
(** The works that ask a machine, or would have; what an install prints is its
    own, and [install_told] says how it is told. *)
Definition asks_machine (dialog : option (result string)) (w : Work) : Prop :=
  match w with Arming _ | DeletingDeclaration _ | OpeningTree | Installing _ => False | Uploading _ _ _ => dialog <> Some (Ok "") | _ => True end.

Lemma ends_after_say (P : list After -> Prop) svc text (b b2 : Bench) l e : b_said b2 = (b_said b ++ [MkSaying svc text false]) ++ l ->
  exists l0 x, b_said (problem svc e b2).2 = b_said b ++ l0 ++ [x] /\ (sy_Bad x = true -> (problem (W := W) svc e b2).1 = []) /\
    (sy_Bad x = false -> P (problem svc e b2).1).
Proof.
  intros E. destruct (ends_problem P svc e b2) as (l1 & x & E1 & Hx). exists (MkSaying svc text false :: l ++ l1), x.
  rewrite E1, E, <- !app_assoc. split; [|done]. cbn. by rewrite <- app_assoc.
Qed.
Lemma command_ends name op : ends_with_line (fun after => after = [Waking]) (command (W := W) target dialled name op).
Proof.
  unfold command. apply ends_reached. intros b. rewrite ST_step. cbn [say modify fst snd]. rewrite ST_step.
  set (b1 := MkBench _ _ _). assert (Eb : b_said b1 = b_said b ++ [MkSaying name (Lit (asking_words op)) false]) by done. clearbody b1.
  unfold ask_machine. pose proof (longer_desk (on_conn (Client.do target (asking op name))) b1) as [l El].
  set (m := at_desk _) in *. destruct (m b1) as [[resp [e|]] b2] eqn:Em; cbn [fst snd] in *; rewrite Eb in El; cbn [answered_or];
    [|destruct (wr_Failed resp)].
  1,2: by apply (ends_after_say (fun after => after = [Waking]) name (Lit (asking_words op)) b b2 l).
  assert (l = []) as ->.
  { unfold m, at_desk in Em. destruct (on_conn _ _) in Em. injection Em as _ <-. cbn in El. rewrite Eb in El.
    rewrite <- app_nil_r in El at 1. by apply app_inv_head in El. }
  exists [], (MkSaying name (Lit (asking_words op)) false). cbn. rewrite El, app_nil_r. by split_and!.
Qed.


(** An install is told as it would be printed: the warning of a stale daemon, the
    lines of its report that are not blank, and the problem that ended it. *)
Lemma install_told stale code err printed b :
  let '(after, b') := install (W := W) stale (code, err, printed) b in
  b_said b' = b_said b ++ (match stale with Some m => [MkSaying "hostd" m false] | None => [] end) ++
    ((fun l => MkSaying "hostd" (Lit l) false) <$> concat ((fun m => lines_said (render_arg (AMsg m))) <$> printed)) ++
    (match err with Some e => [MkSaying "hostd" (error_msg e) true] | None => [] end) /\
  after = match err with Some _ => [] | None => [Forgetting; Waking] end.
Proof.
  assert (Hlines : forall ls (b : Bench), b_said (for_each ls (fun l => say "hostd" (Lit l) false) b).2 = b_said b ++ ((fun l => MkSaying "hostd" (Lit l) false) <$> ls)).
  { clear. induction ls as [|l ls IH]; intros b; [by rewrite app_nil_r|]. rewrite for_each_cons, IH. cbn. by rewrite <- app_assoc. }
  assert (Hall : forall ms (b : Bench), b_said (for_each ms (fun m => for_each (lines_said (render_arg (AMsg m))) (fun l => say "hostd" (Lit l) false)) b).2 =
    b_said b ++ ((fun l => MkSaying "hostd" (Lit l) false) <$> concat ((fun m => lines_said (render_arg (AMsg m))) <$> ms))).
  { clear - Hlines. induction ms as [|m ms IH]; intros b; [by rewrite app_nil_r|]. rewrite for_each_cons, IH, Hlines, <- app_assoc.
    cbn [fmap list_fmap concat]. by rewrite <- fmap_app. }
  unfold install. rewrite !ST_step. set (b1 := ((match stale with Some m => say "hostd" m false | None => mret tt end : ST Bench unit) b).2).
  assert (E1 : b_said b1 = b_said b ++ match stale with Some m => [MkSaying "hostd" m false] | None => [] end) by (unfold b1; destruct stale; cbn; by rewrite ?app_nil_r).
  pose proof (Hall printed b1) as H2. set (b2 := (for_each printed _ b1).2) in *. clearbody b1 b2.
  rewrite E1 in H2. destruct err as [e|].
  - change (problem "hostd" e b2) with (@nil After, MkBench (b_desk b2) (b_world b2) (b_said b2 ++ [MkSaying "hostd" (error_msg e) true])).
    cbn [b_said]. rewrite H2, <- !app_assoc. done.
  - unfold mret, ST_ret. rewrite H2, <- !app_assoc, app_nil_r. done.
Qed.

(** ** A deploy does not depend on who is told *)
(** Two benches that differ only in what was shown and said. *)
Record same (b1 b2 : Bench) : Prop := {
  same_conn : d_conn (b_desk b1) = d_conn (b_desk b2);
  same_files : d_files (b_desk b1) = d_files (b_desk b2);
  same_world : b_world b1 = b_world b2;
}.
Definition alike {X} (m1 m2 : ST Bench X) : Prop := forall b1 b2, same b1 b2 -> (m1 b1).1 = (m2 b2).1 /\ same (m1 b1).2 (m2 b2).2.

Lemma alike_ret {X} (x : X) : alike (mret x) (mret x).
Proof. by intros b1 b2. Qed.
Lemma alike_bind {X Y} (m1 m2 : ST Bench X) (f1 f2 : X -> ST Bench Y) :
  alike m1 m2 -> (forall x, alike (f1 x) (f2 x)) -> alike (m1 ≫= f1) (m2 ≫= f2).
Proof. intros Hm Hf b1 b2 Hb. rewrite !ST_step. destruct (Hm _ _ Hb) as [-> Hs]. by apply Hf. Qed.
Lemma alike_bindE {X Y} (m1 m2 : ST Bench (result X)) (f1 f2 : X -> ST Bench (result Y)) :
  alike m1 m2 -> (forall x, alike (f1 x) (f2 x)) -> alike (bindE m1 f1) (bindE m2 f2).
Proof.
  intros Hm Hf b1 b2 Hb. unfold bindE. destruct (Hm _ _ Hb) as [E Hs]. destruct (m1 b1) as [r1 s1], (m2 b2) as [r2 s2]. cbn in E, Hs. subst r2.
  destruct r1; [by apply Hf|done].
Qed.
Lemma alike_conn {X} (m : ST Conn X) : alike (at_desk (on_conn m)) (at_desk (on_conn m)).
Proof.
  intros b1 b2 [Hc Hf Hw]. unfold at_desk, on_conn. cbn. rewrite Hc. destruct (m (d_conn (b_desk b2))). by split.
Qed.
Lemma alike_here {X} (m : ST W X) : alike (here m) (here m).
Proof. intros b1 b2 [Hc Hf Hw]. unfold here. rewrite Hw. destruct (m (b_world b2)). by split. Qed.

Ltac alike_step :=
  match goal with
  | |- alike (mret _) (mret _) => apply alike_ret
  | |- alike (at_desk (on_conn _)) _ => apply alike_conn
  | |- alike (here _) _ => apply alike_here
  | |- alike (mbind _ _) (mbind _ _) => apply alike_bind; [|intros ?]
  | |- alike (bindE _ _) (bindE _ _) => apply alike_bindE; [|intros ?]
  | |- alike (if ?c then _ else _) _ => destruct c eqn:?
  | |- alike (match ?x with _ => _ end) _ => destruct x eqn:?
  end.

(** Who is told changes nothing a deploy does. *)
Lemma deploys_alike tell1 tell2 name : (forall m, alike (tell1 m) (tell2 m)) ->
  alike (deployService target docker_Open tree dir tell1 opt name) (deployService target docker_Open tree dir tell2 opt name).
Proof.
  intros Ht. unfold deployService, ensureImage, pushImage, saved, machineHolds, putDeclaration, ask_machine. repeat first [apply Ht|alike_step].
Qed.

Lemma tell_alike name m : alike (say name m false) (say_step target m).
Proof. intros b1 b2 [Hc Hf Hw]. by split. Qed.

End Works.

(** ** What the files screen shows *)
Abbreviation FilePlace := (string * string * string)%type.
Abbreviation FileAnswer := (list FileEntry * string)%type.
(** The screen, the questions whose answer has not landed, and the answers given. *)
Record Browsing := MkBrowsing { br_files : filesState; br_pending : list FilePlace; br_given : list (FilePlace * FileAnswer) }.
Definition place_shown (f : filesState) : FilePlace := (fs_Host f, fs_Service f, fs_Path f).
Definition no_files : filesState := MkFiles "" "" "" [] "" false.

(** A place is entered, or the answer to one question lands, in any order. *)
Inductive browse : Browsing -> Browsing -> Prop :=
  | Enters host svc path b : browse b (MkBrowsing (asking_files host svc path) (br_pending b ++ [(host, svc, path)]) (br_given b))
  | Lands i host svc path answer b : br_pending b !! i = Some (host, svc, path) ->
      browse b (MkBrowsing (land host svc path answer (br_files b)) (delete i (br_pending b)) (br_given b ++ [((host, svc, path), answer)])).

Record browsing_ok (b : Browsing) : Prop := {
  bo_busy : fs_Busy (br_files b) = true -> place_shown (br_files b) ∈ br_pending b;
  bo_shown : fs_Busy (br_files b) = false -> br_files b = no_files \/
    (place_shown (br_files b), (fs_Entries (br_files b), fs_Problem (br_files b))) ∈ br_given b;
}.

Lemma land_cases host svc path answer f :
  place_shown f = (host, svc, path) /\ land host svc path answer f = MkFiles host svc path answer.1 answer.2 false \/
  place_shown f <> (host, svc, path) /\ land host svc path answer f = f.
Proof.
  unfold land, place_shown. destruct (String.eqb_spec (fs_Host f) host), (String.eqb_spec (fs_Service f) svc), (String.eqb_spec (fs_Path f) path); cbn [andb];
    first [left; split; congruence|right; split; congruence].
Qed.

Lemma browse_ok b b' : browsing_ok b -> browse b b' -> browsing_ok b'.
Proof.
  intros [Hb Hs] Hstep. destruct Hstep as [host svc path b|i host svc path answer b Hi].
  - split; cbn; [intros _; apply elem_of_app; right; by left|done].
  - destruct (land_cases host svc path answer (br_files b)) as [[Ep El]|[Ep El]]; split; cbn [br_files br_pending br_given]; rewrite El.
    + done.
    + intros _. right. apply elem_of_app. right. cbn. rewrite <- surjective_pairing. by left.
    + intros H0. apply Hb in H0. apply list_elem_of_lookup in H0 as [j Hj]. destruct (decide (i = j)) as [->|Hne]; [congruence|].
      apply list_elem_of_lookup. destruct (decide (j < i)%nat).
      * exists j. by rewrite list_lookup_delete_lt.
      * exists (j - 1)%nat. rewrite list_lookup_delete_ge by lia. by replace (S (j - 1)) with j by lia.
    + intros H0. destruct (Hs H0) as [?|Hin]; [by left|]. right. apply elem_of_app. by left.
Qed.

(** The files screen shows what its own place was answered.  However fast the
    operator moves between directories and machines and in whatever order the
    answers land: a screen that says it is asking has a question on its way, and
    one that does not shows, entries and problem, an answer to the very place in
    its title. *)
Theorem files_show_their_place b : rtc browse (MkBrowsing no_files [] []) b ->
  (fs_Busy (br_files b) = true -> place_shown (br_files b) ∈ br_pending b) /\
  (fs_Busy (br_files b) = false -> br_files b = no_files \/
     (place_shown (br_files b), (fs_Entries (br_files b), fs_Problem (br_files b))) ∈ br_given b).
Proof.
  intros Hr. assert (Hok : browsing_ok (MkBrowsing no_files [] [])) by (split; [done|by left]).
  remember (MkBrowsing no_files [] []) as b0. clear Heqb0.
  induction Hr as [b|b1 b2 b3 Hstep _ IH]; [split; apply Hok|]. apply IH. by eapply browse_ok.
Qed.

Definition entry (name : string) : FileEntry := MkFileEntry name false (f64_of_Z 1) f64_zero.
Definition at_data : FilePlace := ("yuki", "db", "data").
Definition asked_once : Browsing := MkBrowsing (asking_files "yuki" "db" "data") [at_data] [].
Definition asked_twice_ : Browsing := MkBrowsing (asking_files "yuki" "db" "data") [at_data; at_data] [].
Definition newer_landed : Browsing := MkBrowsing (MkFiles "yuki" "db" "data" [] "" false) [at_data] [(at_data, ([], ""))].
Definition older_landed : Browsing :=
  MkBrowsing (MkFiles "yuki" "db" "data" [entry "old.sqlite"] "" false) [] [(at_data, ([], "")); (at_data, ([entry "old.sqlite"], ""))].
Lemma newer_answer_lands : rtc browse (MkBrowsing no_files [] []) newer_landed.
Proof.
  eapply rtc_l; [exact (Enters "yuki" "db" "data" _)|]. eapply rtc_l; [exact (Enters "yuki" "db" "data" asked_once)|].
  apply rtc_once. exact (Lands 1 "yuki" "db" "data" ([], "") asked_twice_ eq_refl).
Qed.
Lemma older_answer_lands : browse newer_landed older_landed.
Proof. exact (Lands 0 "yuki" "db" "data" ([entry "old.sqlite"], "") newer_landed eq_refl). Qed.
Lemma files_show_their_place_witness : fs_Busy (br_files older_landed) = false /\
  (br_files older_landed = no_files \/ (place_shown (br_files older_landed), (fs_Entries (br_files older_landed), fs_Problem (br_files older_landed))) ∈ br_given older_landed).
Proof.
  split; [done|]. refine (proj2 (files_show_their_place older_landed (rtc_r _ _ _ newer_answer_lands older_answer_lands)) _). done.
Defined.

(** A question asked again of the place on the screen is not told from the one
    before it: the answer from before a deletion, landing last, shows the file
    that was deleted. *)
Lemma deleted_file_returns :
  exists b b', rtc browse (MkBrowsing no_files [] []) b /\ fs_Entries (br_files b) = [] /\ fs_Busy (br_files b) = false /\
    browse b b' /\ fs_Entries (br_files b') = [entry "old.sqlite"] /\ br_pending b' = [].
Proof.
  exists newer_landed, older_landed. split; [exact newer_answer_lands|]. split_and!; [done..|exact older_answer_lands|done|done].
Qed.

(** ** A machine that answers, for the examples *)
Section Witness.
Import HostSamples.
#[local] Instance as_it_is (T : Type) : FiloType T := {| UnmarshalFromValue _ zero := Ok zero; filo_Marshal _ := Ok "" |}.
#[local] Instance answers_ok : FiloType WireResponse := any_type (MkWireResponse CodeOK "" 7 "(list)").
#[local] Instance no_docker : Transport unit := {| http_Do _ := mret (Err ErrNotExist) |}.
Definition plain : options :=
  MkOptions "yuki" [] false "" "" "" "" false false 200 3 "." "" "" "" "" false 0 0 false "" false "" "" 0 0.
Definition disk_here : Local := MkLocal (fun _ => None) None None (fun _ => Err ErrNotExist).
Definition web_tree : list Declaration * option error := ([MkDeclaration web_data "web" []], None).
Definition answering (n : nat) : Bench (W := unit) :=
  MkBench (MkDesk (MkConn (Nat.iter n (String newline) "") "" None) [] ∅) tt [].
Definition deployed := deploy (W := unit) "yuki" None web_tree "/tree" plain None "web" (answering 4).

Definition stopped := perform (W := unit) "yuki" 512 disk_here None web_tree "/tree" plain None "." None None (0, None, []) None
  (Commanding "yuki" "web" OpServiceStop) (answering 0).
End Witness.
