(* ===== verification/Config.v ===== *)
(** * Config: where hostd keeps its things, and what it is told

    src/config/config.go, src/version/version.go and src/daemon/daemon.go.  The
    environment, the operating system and the files embedded in the binary are
    arguments. *)
From S2P Require Import Prelude GoText GoTime GoPath Filo LogDatabase MetricStore.
From Stdlib Require Import Ascii SpecFloat.
Open Scope string_scope.
Open Scope list_scope.
Open Scope Z_scope.
Open Scope hostd_scope.

(** ** Paths *)
Definition DefaultConfigDir := "/etc/hostd".
Definition DefaultDataDir := "/var/lib/hostd".
Definition DefaultRunDir := "/run/hostd".

Record Paths := MkPaths { ConfigDir_ : string; DataDir : string; RunDir : string }.

(** runtime.GOOS and os.UserConfigDir() *)
Definition fallbackRoot (goos : string) (user : result string) : string :=
  if String.eqb goos "linux" then ""
  else match user with Err _ => "" | Ok dir => PathJoin [dir; "hostd-local"] end.
(** [root] is the value of HOSTD_ROOT, empty where it is not set. *)
Definition Locate (root goos : string) (user : result string) : Paths :=
  let root := if String.eqb root "" then fallbackRoot goos user else root in
  if String.eqb root "" then MkPaths DefaultConfigDir DefaultDataDir DefaultRunDir
  else MkPaths (PathJoin [root; "etc"]) (PathJoin [root; "var"]) (PathJoin [root; "run"]).

Definition ConfigFile (p : Paths) : string := PathJoin [ConfigDir_ p; "hostd.filo"].
Definition ServicesDir (p : Paths) : string := PathJoin [ConfigDir_ p; "services"].
Definition ArtifactsDir (p : Paths) (service : string) : string := PathJoin [ServicesDir p; service +:+ ".d"].
Definition StateDir (p : Paths) : string := PathJoin [DataDir p; "state"].
Definition LogsDir (p : Paths) : string := PathJoin [DataDir p; "logs"].
Definition LogDatabase_ (p : Paths) : string := PathJoin [LogsDir p; "logs.db"].
Definition MetricsDir (p : Paths) : string := PathJoin [DataDir p; "metrics"].
Definition MetricsDatabase (p : Paths) : string := PathJoin [MetricsDir p; "metrics.db"].
Definition Socket (p : Paths) : string := PathJoin [RunDir p; "hostd.sock"].

(** The directories made, in order; the first that cannot be ends it. *)
Definition needed_dirs (p : Paths) : list string := [ConfigDir_ p; ServicesDir p; StateDir p; LogsDir p; MetricsDir p; RunDir p].
Definition EnsureDirs {S} (MkdirAll : string -> ST S (result unit)) (p : Paths) : ST S (result unit) := for_eachE (needed_dirs p) MkdirAll.

(** ** Settings *)
Record Config := MkConfig { LogRetentionDays : float64; LogMaxRows : Z; MetricsRetentionDays : float64; MetricsMaxRows : Z }.

(** time.Duration(days * float64(24*time.Hour)) *)
Definition days_long (days : float64) : Z := f64_to_int64 (f64_mul days (f64_of_Z Day)).
Definition LogRetention (c : Config) : Z := days_long (LogRetentionDays c).
Definition MetricsRetention (c : Config) : Z := days_long (MetricsRetentionDays c).

(** Duration.Hours *)
Definition hours (d : Z) : float64 := f64_add (f64_of_Z (Z.quot d Hour)) (f64_div (f64_of_Z (Z.rem d Hour)) (f64_of_Z Hour)).
Definition default_days (d : Z) : float64 := f64_div (hours d) (f64_of_Z 24).
Definition defaults : Config :=
  MkConfig (default_days LogDatabase.DefaultRetention) LogDatabase.DefaultMaxRows (default_days MetricStore.DefaultRetention) MetricStore.DefaultMaxRows.
Definition positive_days (days : float64) (d : Z) : float64 := if f64_leb days f64_zero then default_days d else days.
Definition positive_rows (rows most : Z) : Z := if rows <=? 0 then most else rows.

(** [data] is what reading the file gave. *)
Definition Load `{FiloEngine} `{!FiloType Config} (path : string) (data : result string) : result Config :=
  match data with
  | Err e => if bool_decide (e = ErrNotExist) then Ok defaults else Err e
  | Ok data =>
      cfg ← Decode (Base path) data defaults;
      Ok (MkConfig (positive_days (LogRetentionDays cfg) LogDatabase.DefaultRetention) (positive_rows (LogMaxRows cfg) LogDatabase.DefaultMaxRows)
            (positive_days (MetricsRetentionDays cfg) MetricStore.DefaultRetention) (positive_rows (MetricsMaxRows cfg) MetricStore.DefaultMaxRows))
  end.

(** What the stores are opened with. *)
Definition log_options (c : Config) : LogDatabase.Options := LogDatabase.MkOptions (LogRetention c) (LogMaxRows c).
Definition metric_options (c : Config) : MetricStore.Options := MetricStore.MkOptions (MetricsRetention c) (MetricsMaxRows c).

(** ** Versions *)
(** version.Set: a build that was not stamped keeps what it had. *)
Definition Set_ (stamped version : string) : string := if String.eqb stamped "" then version else stamped.

(** The daemons a hostctl carries, as the files embedded beside it. *)
Definition zip_name (arch : string) : string := "hostd-linux-" +:+ arch +:+ ".zip".
Definition Zip (zips : gmap string string) (arch : string) : result string :=
  match zips !! zip_name arch with
  | Some content => Ok content
  | None => Err (EMsg ("this hostctl was built without an embedded hostd for linux/%s; release builds carry it (make dist), development builds do not", [AStr arch]))
  end.
Definition Carried_version (zips : gmap string string) : string := match zips !! "VERSION" with Some content => TrimSpace content | None => "" end.
Definition is_zip (name : string) : bool := HasPrefix name "hostd-linux-" && HasSuffix name ".zip".
Definition Carried (names : list string) : list string :=
  (fun name => TrimSuffix (TrimPrefix name "hostd-linux-") ".zip") <$> filter (fun name => is_zip name = true) names.

(** One entry of an archive: whether it is a directory, and what opening it and
    reading it gives.  [unzip] is archive/zip over the bytes. *)
Record zipped := MkZipped { zf_Dir : bool; zf_Open : result string }.
Definition maxDaemonBytes : Z := 256 * 2 ^ 20.
Definition daemonBinary (unzip : string -> result (list zipped)) (zips : gmap string string) (arch : string) : result string :=
  archive ← Zip zips arch;
  files ← unzip archive;
  match filter (fun f => zf_Dir f = false) files with
  | [] => Err (EMsg ("the embedded hostd archive for linux/%s is empty", [AStr arch]))
  | file :: _ => content ← zf_Open file; Ok (if len content <=? maxDaemonBytes then content else take_bytes (Z.to_nat maxDaemonBytes) content)
  end.

(** ** What the settings promise *)
Section Promises.
Context `{FiloEngine} `{!FiloType Config}.

(** However a file is written, what the stores are opened with keeps a bound on
    both the age and the number of what they hold. *)
Theorem every_store_is_bounded path data c : Load path data = Ok c ->
  0 < LogMaxRows c /\ 0 < MetricsMaxRows c /\ f64_leb (LogRetentionDays c) f64_zero = false /\ f64_leb (MetricsRetentionDays c) f64_zero = false /\
  0 < LogDatabase.Retention (LogDatabase.withDefaults (log_options c)) /\ LogDatabase.MaxRows (LogDatabase.withDefaults (log_options c)) = LogMaxRows c /\
  0 < MetricStore.Retention (MetricStore.withDefaults (metric_options c)) /\ MetricStore.MaxRows (MetricStore.withDefaults (metric_options c)) = MetricsMaxRows c.
Proof.
  assert (Hd : forall days d, f64_leb (default_days d) f64_zero = false -> f64_leb (positive_days days d) f64_zero = false).
  { intros days d Hn. unfold positive_days. by destruct (f64_leb days f64_zero) eqn:E. }
  assert (Hr : forall rows most, 0 < most -> 0 < positive_rows rows most) by (intros rows most Hm; unfold positive_rows; case_match; lia).
  assert (Hb : forall c, 0 < LogMaxRows c -> 0 < MetricsMaxRows c ->
    0 < LogDatabase.Retention (LogDatabase.withDefaults (log_options c)) /\ LogDatabase.MaxRows (LogDatabase.withDefaults (log_options c)) = LogMaxRows c /\
    0 < MetricStore.Retention (MetricStore.withDefaults (metric_options c)) /\ MetricStore.MaxRows (MetricStore.withDefaults (metric_options c)) = MetricsMaxRows c).
  { clear. intros c H1 H2. cbn -[LogRetention MetricsRetention Z.leb Z.lt]. unfold LogDatabase.DefaultRetention, MetricStore.DefaultRetention, Day.
    destruct (LogRetention c <=? 0) eqn:E1, (LogMaxRows c <=? 0) eqn:E2, (MetricsRetention c <=? 0) eqn:E3, (MetricsMaxRows c <=? 0) eqn:E4; bool_hyps; cbn [LogDatabase.Retention LogDatabase.MaxRows MetricStore.Retention MetricStore.MaxRows]; try lia;
      split_and!; try lia; try done. }
  unfold Load. destruct data as [data|e].
  - destruct (Decode _ _ _) as [cfg|]; [|done]. cbn. intros [= <-].
    split; [by apply Hr|]. split; [by apply Hr|]. split; [by apply Hd|]. split; [by apply Hd|]. apply Hb; by apply Hr.
  - case_bool_decide; [|done]. intros [= <-]. split_and!; by vm_compute.
Qed.

(** The defaults are fourteen days, exactly. *)
Lemma default_retention : LogRetention defaults = LogDatabase.DefaultRetention /\ MetricsRetention defaults = MetricStore.DefaultRetention.
Proof. by vm_compute. Qed.

(** A retention of more days than a duration holds is read as less than nothing,
    which the store takes for not set: asked to keep 200000 days, it keeps 14. *)
Lemma long_retention_is_short : let c := MkConfig (f64_of_Z 200000) 1 (f64_of_Z 200000) 1 in
  LogDatabase.Retention (LogDatabase.withDefaults (log_options c)) = 14 * Day.
Proof. by vm_compute. Qed.
End Promises.

Example located : Locate "/tmp/x" "linux" (Err ErrNotExist) = MkPaths "/tmp/x/etc" "/tmp/x/var" "/tmp/x/run" /\
  Socket (Locate "" "linux" (Err ErrNotExist)) = "/run/hostd/hostd.sock" /\
  Socket (Locate "" "darwin" (Ok "/Users/a/Library")) = "/Users/a/Library/hostd-local/run/hostd.sock" /\
  Carried ["VERSION"; "hostd-linux-amd64.zip"; "hostd-linux-arm64.zip"] = ["amd64"; "arm64"].
Proof. by vm_compute. Qed.
