(* ===== verification/StartUp.v ===== *)
(** * StartUp: the daemon's first moments

    src/cmd/hostd/main.go: run, up to the point where the supervisor's loop and
    the server take over (Schedule, Server).  What each thing it opens gives is an
    argument; the sampler it starts is Sampler's. *)
From S2P Require Import Prelude GoText GoTime GoPath Service Filo Tree LogDatabase MetricStore Runtime Supervisor Schedule Plan Volumes Host Config TraceRuntime HostSamples.
From Stdlib Require Import Ascii SpecFloat.
Open Scope string_scope.
Open Scope list_scope.
Open Scope Z_scope.
Open Scope hostd_scope.

Definition EventDaemon := "hostd.started".
Definition daemon_record (kind : string) (text : Msg) : Logs.Record_ := Logs.MkRecord 0 zero_time "hostd" Logs.StreamEvent kind "" text.

(** What opening each thing gave.  [op_docker] is docker.Open and, where that
    went well, the Ping: the socket, or why this machine runs no containers. *)
Record Opened (A : Type) := MkOpened {
  op_dirs : option error; op_config : result string; op_logs : result LogDatabase.DB; op_metrics : result MetricStore.Store;
  op_services : Dir; op_store : result A; op_docker : result string; op_listen : option error;
}.
Arguments MkOpened {A}. Arguments op_dirs {A}. Arguments op_config {A}. Arguments op_logs {A}. Arguments op_metrics {A}.
Arguments op_services {A}. Arguments op_store {A}. Arguments op_docker {A}. Arguments op_listen {A}.

(** docker.Open and the Ping after it: the first of the sockets that is one is
    the runtime, if it answers.  [is_socket] is os.Stat and its mode, [ping] the
    error of Ping. *)
Definition socketPaths : list string := ["/var/run/docker.sock"; "/run/podman/podman.sock"].
Definition open_runtime (is_socket : string -> bool) (ping : string -> option error) : result string :=
  match filter (fun path => is_socket path = true) socketPaths with
  | [] => Err ErrNoRuntime
  | path :: _ => match ping path with Some e => Err e | None => Ok path end
  end.

Definition runtimeLine (docker : result string) : Msg :=
  match docker with
  | Err e => ("no container runtime on this machine: %s", [AMsg (error_msg e)])
  | Ok socket => ("container runtime at %s", [AStr socket])
  end.

(** supervisor.New, over the services directory it will read. *)
Definition New {W} (services : string) (d : Dir) (now : Time) (w : W) : Sup W :=
  MkSup w false services ∅ ∅ ∅ ∅ ∅ [] [] false false now (beside d (fun _ => true)) (beside d has_script).
(** Supervisor.Runtime *)
Definition given_runtime {W} (s : Sup W) : Sup W :=
  MkSup (world s) true (services s) (declared s) (following s) (reported s) (fired s) (awaiting s) (timeline s) (tasks s) (nudged s) (left s) (now s) (artifacts s) (scripts s).

Section StartUp.
Context `{FiloEngine} `{!FiloType Config} `{!FiloType Service} `{Sha256} {W A : Type} `{Runtime W} `{LogStore} `{MapOrder Service}.
Context (paths : Paths) (version : string) (now : Time) (disks : gmap string Volume).

Definition append_all (l : list Logs.Record_) (db : LogDatabase.DB) : LogDatabase.DB := foldl (fun db r => (LogDatabase.Append now r db).2) db l.
Definition problem_record (e : option error) : list Logs.Record_ :=
  match e with Some e => [daemon_record Logs.EventProblem (error_msg e)] | None => [] end.
Definition error_of {X} (r : result X) : option error := match r with Err e => Some e | Ok _ => None end.
(** The supervisor before it adopts anything. *)
Definition supervised (o : Opened A) (w : W) : Sup W :=
  let s := New (ServicesDir paths) (op_services o) now w in if is_ok (op_docker o) then given_runtime s else s.

(** The machine the server and the supervisor's loop start from. *)
Definition run (o : Opened A) (w : W) : result (Host W A) :=
  match op_dirs o with
  | Some e => Err (EWrap ("prepare directories: %w", []) e)
  | None =>
      cfg ← Load (ConfigFile paths) (op_config o);
      db ← op_logs o;
      metrics ← op_metrics o;
      let '(declared, loadErr) := LoadDir (op_services o) in
      let db := append_all (problem_record loadErr) db in
      store ← op_store o;
      let '(adopted, sup) := Adopt declared (supervised o w) in
      let db := append_all (problem_record (error_of adopted)) db in
      match op_listen o with
      | Some e => Err e
      | None =>
          let db := append_all [daemon_record EventDaemon ("hostd %s listening on %s", [AStr version; AStr (Socket paths)]);
                                daemon_record EventDaemon (runtimeLine (op_docker o))] db in
          Ok (MkHost sup store (op_services o) db 0 metrics (is_ok (op_docker o)) disks)
      end
  end.

(** ** What the start-up promises *)
Lemma queue_append r db : Z.of_nat (length (LogDatabase.queue db)) < LogDatabase.queueDepth ->
  LogDatabase.queue (LogDatabase.Append now r db).2 =
  LogDatabase.queue db ++ [LogDatabase.with_seq r (LogDatabase.seq db + 1) (if IsZero (Logs.r_Time r) then now else Logs.r_Time r)].
Proof. intros Hq. unfold LogDatabase.Append, LogDatabase.append_queue. cbn. by rewrite (proj2 (Z.ltb_lt _ _) Hq). Qed.

(** The machine has a runtime exactly where a socket is one of the known and
    answers; one that stopped answering is not gone round to the next. *)
Lemma runtime_found is_socket ping path : open_runtime is_socket ping = Ok path <->
  ping path = None /\
  (path = "/var/run/docker.sock" /\ is_socket path = true \/
   path = "/run/podman/podman.sock" /\ is_socket path = true /\ is_socket "/var/run/docker.sock" = false).
Proof.
  unfold open_runtime, socketPaths. destruct (is_socket "/var/run/docker.sock") eqn:E1.
  - rewrite filter_cons_True by done. destruct (ping _) eqn:Ep; split; intros Hx; try naive_solver congruence.
  - rewrite filter_cons_False by congruence. destruct (is_socket "/run/podman/podman.sock") eqn:E2.
    + rewrite filter_cons_True by done. destruct (ping "/run/podman/podman.sock") eqn:Ep; split; intros Hx; naive_solver congruence.
    + rewrite filter_cons_False by congruence. cbn. split; [done|]. intros (_ & [[-> ?]|[-> [? _]]]); congruence.
Qed.

(** What was appended is queued, with its words, for the table. *)
Lemma append_all_said l db : Z.of_nat (length (LogDatabase.queue db) + length l) <= LogDatabase.queueDepth ->
  Logs.r_Text <$> LogDatabase.queue (append_all l db) = (Logs.r_Text <$> LogDatabase.queue db) ++ (Logs.r_Text <$> l).
Proof.
  revert db. induction l as [|r l IH]; intros db Hl; [by rewrite app_nil_r|]. cbn in Hl.
  unfold append_all in *. cbn [foldl]. assert (Hq := queue_append r db ltac:(lia)). rewrite IH; rewrite Hq; [|rewrite length_app; cbn; lia].
  rewrite fmap_app, <- app_assoc. done.
Qed.

Lemma append_all_app l k db : append_all (l ++ k) db = append_all k (append_all l db).
Proof. apply foldl_app. Qed.

Lemma adopt_one_keeps c (s : Sup W) : world (adopt_one c s).2 = world s /\ declared (adopt_one c s).2 = declared s.
Proof. unfold adopt_one. rewrite ST_step. cbn. destruct (declared s !! _); [done|]. by destruct (negb _). Qed.
Lemma adopt_all_keeps l (s : Sup W) : world (for_each l adopt_one s).2 = world s /\ declared (for_each l adopt_one s).2 = declared s.
Proof.
  revert s. induction l as [|c l IH]; intros s; [done|]. rewrite for_each_cons. destruct (IH (adopt_one c s).2) as [-> ->]. apply adopt_one_keeps.
Qed.
Lemma Adopt_looks l (s : Sup W) : world (Adopt l s).2 = (if client s then (rt_List labelService (world s)).2 else world s) /\
  declared (Adopt l s).2 = foldl (fun m svc => <[Name svc := svc]> m) (declared s) l.
Proof.
  unfold Adopt. rewrite !ST_step. cbn -[containers]. destruct (client s) eqn:Ec; [|done]. cbn [negb]. unfold bindE, containers.
  rewrite ST_step. cbn. rewrite Ec. cbn. unfold bindE, lift. cbn. destruct (rt_List labelService (world s)) as [[found|e] w1]; [|done].
  cbn -[adopt_one for_each]. rewrite ST_step. cbn. apply adopt_all_keeps.
Qed.

End StartUp.

(** ** A machine that starts, for the examples *)
Section Witness.
Import HostSamples.
#[local] Instance settings : FiloType Config := any_type defaults.
Definition here : Paths := Locate "" "linux" (Err ErrNotExist).
(** One file declares another name than its own; no runtime answers. *)
Definition half_broken : Opened unit :=
  MkOpened None (Err ErrNotExist) (Ok (LogDatabase.Open ∅)) (Ok (MetricStore.MkStore (MetricStore.withDefaults (MetricStore.MkOptions 0 0)) ∅ zero_time))
    (Some {["web.filo" := NFile "web"; "api.filo" := NFile "api"]}) (Ok tt) (Err ErrNoRuntime) None.
Example one_service_and_its_problem : (fun h => (fst <$> map_to_list (declared (sup h)), length (LogDatabase.queue (db h)))) <$>
  match run here "v1" noon ∅ half_broken ([] : Trace) with Ok h => [h] | Err _ => [] end = [(["web"], 3%nat)].
Proof. by vm_compute. Qed.
End Witness.
