(* ===== verification/Listen.v ===== *)
(** * Listen: who may reach the daemon, and how many at once

    src/api/server.go: ListenUnix, grantGroup, checkSocketPath and the admission
    of Serve.  The state is the directory of the socket and the socket in it;
    each call to the system fails where the argument says. *)
From S2P Require Import Prelude GoText Protocol Server.
From Stdlib Require Import Ascii.
Open Scope string_scope.
Open Scope list_scope.
Open Scope Z_scope.
Open Scope hostd_scope.

(** ** The socket *)
(** Modes are the nine permission bits; a group is its number, [None] the
    daemon's own. *)
Record Owned := MkOwned { ow_Mode : Z; ow_Group : option Z }.
(** [sf_Live]: a process accepts connections on it. *)
Record SocketFile := MkSocketFile { sf_Owned : Owned; sf_Live : bool }.
Record RunDirectory := MkRunDirectory { rd_Dir : option Owned; rd_Socket : option SocketFile }.

(** Why each call fails, if it does; the mode a new socket has. *)
Record System := MkSystem {
  sy_mkdir : option error; sy_remove : option error; sy_listen : option error; sy_chown : bool -> option error; sy_chmod : bool -> option error;
  sy_made : Z;
}.
(** user.LookupGroup of the group, and its number where it is one. *)
Definition GroupEntry : Type := option (option Z).

Definition maxSocketPath : Z := 103.
Definition checkSocketPath (path : string) : result unit :=
  if len path <=? maxSocketPath then Ok tt
  else Err (EMsg ("socket path is %d bytes and the limit is %d: %s; set %s to a shorter directory", [AInt (len path); AInt maxSocketPath; AStr path; AStr "HOSTD_ROOT"])).

Section Listen.
Context (sys : System) (group : GroupEntry).

Definition refusing {X} (e : option error) (k : ST RunDirectory (result X)) : ST RunDirectory (result X) :=
  match e with Some e => mret (Err e) | None => k end.
Definition on_dir (f : Owned -> Owned) : ST RunDirectory (result unit) := fun s => (Ok tt, MkRunDirectory (f <$> rd_Dir s) (rd_Socket s)).
Definition on_socket (f : Owned -> Owned) : ST RunDirectory (result unit) := fun s =>
  (Ok tt, MkRunDirectory (rd_Dir s) ((fun k => MkSocketFile (f (sf_Owned k)) (sf_Live k)) <$> rd_Socket s)).
(** os.Chmod and os.Chown; true is the directory. *)
Definition chmod (of_dir : bool) (mode : Z) : ST RunDirectory (result unit) :=
  refusing (sy_chmod sys of_dir) ((if of_dir then on_dir else on_socket) (fun o => MkOwned mode (ow_Group o))).
Definition chown (of_dir : bool) (gid : Z) : ST RunDirectory (result unit) :=
  refusing (sy_chown sys of_dir) ((if of_dir then on_dir else on_socket) (fun o => MkOwned (ow_Mode o) (Some gid))).

Definition mode_600 : Z := 6 * 64.
Definition mode_660 : Z := 6 * 64 + 6 * 8.
Definition mode_750 : Z := 7 * 64 + 5 * 8.
Definition mode_700 : Z := 7 * 64.

Definition grantGroup : ST RunDirectory (result unit) :=
  match group with
  | Some (Some gid) =>
      _ ←! chown true gid;
      _ ←! chown false gid;
      _ ←! chmod true mode_750;
      chmod false mode_660
  | _ => chmod false mode_600
  end.

Definition MkdirAll : ST RunDirectory (result unit) :=
  refusing (sy_mkdir sys) (fun s =>
    (Ok tt, MkRunDirectory (Some (default (MkOwned mode_700 None) (rd_Dir s))) (rd_Socket s))).
(** os.Remove of the socket: one that is not there is not an error. *)
Definition remove_stale : ST RunDirectory (result unit) := fun s =>
  match rd_Socket s with None => (Ok tt, s) | Some _ => refusing (sy_remove sys) (fun s => (Ok tt, MkRunDirectory (rd_Dir s) None)) s end.
Definition listen : ST RunDirectory (result unit) :=
  refusing (sy_listen sys) (fun s => (Ok tt, MkRunDirectory (rd_Dir s) (Some (MkSocketFile (MkOwned (sy_made sys) None) true)))).
(** Closing a listener takes its socket away. *)
Definition close_listener : ST RunDirectory unit := modify (fun s => MkRunDirectory (rd_Dir s) None).
Definition answers (s : RunDirectory) : bool := match rd_Socket s with Some k => sf_Live k | None => false end.

Definition ListenUnix (path : string) : ST RunDirectory (result unit) :=
  match checkSocketPath path with
  | Err e => mret (Err e)
  | Ok _ =>
      _ ←! MkdirAll;
      another ← gets answers;
      if another : bool then mret (Err (EMsg ("another hostd is already listening on %s", [AStr path])))
      else
        _ ←! remove_stale;
        _ ←! listen;
        granted ← grantGroup;
        match granted with
        | Err e => close_listener ;; mret (Err e)
        | Ok _ => mret (Ok tt)
        end
  end.
End Listen.

(** ** The door *)
Definition maxClients : nat := 64.
(** Connections being served, and those told there was no room; each by its
    number, the newest first. *)
Record Gate := MkGate { gt_Serving : list nat; gt_Refused : list nat; gt_Next : nat }.
Definition open_gate : Gate := MkGate [] [] 0.
Definition let_in (g : Gate) : Gate :=
  if decide (length (gt_Serving g) < maxClients)%nat then MkGate (gt_Next g :: gt_Serving g) (gt_Refused g) (S (gt_Next g))
  else MkGate (gt_Serving g) (gt_Next g :: gt_Refused g) (S (gt_Next g)).
Inductive gate_step : Gate -> Gate -> Prop :=
  | Accepts g : gate_step g (let_in g)
  | Leaves c g : c ∈ gt_Serving g -> gate_step g (MkGate (filter (fun x => x <> c) (gt_Serving g)) (gt_Refused g) (gt_Next g)).

(** ** What is promised *)
(** The bits for those neither root nor of the group. *)
Definition others (o : Owned) : Z := Z.land (ow_Mode o) 7.


Lemma gate_lets_in g : (length (gt_Serving g) <= maxClients)%nat -> (length (gt_Serving (let_in g)) <= maxClients)%nat.
Proof. unfold let_in. case_decide; cbn; lia. Qed.

(** Never more than [maxClients] are served at once, and every connection that
    was accepted is served, was served, or was told why not. *)
Theorem door_is_bounded g : rtc gate_step open_gate g ->
  (length (gt_Serving g) <= maxClients)%nat /\
  forall g', gate_step g g' -> gt_Next g' = S (gt_Next g) ->
    gt_Next g ∈ gt_Serving g' \/ gt_Next g ∈ gt_Refused g' /\ length (gt_Serving g) = maxClients.
Proof.
  intros Hr. assert (Hb : (length (gt_Serving g) <= maxClients)%nat).
  { assert (H0 : (length (gt_Serving open_gate) <= maxClients)%nat) by (cbn; lia). revert H0. induction Hr as [|g1 g2 g3 Hs _ IH]; [done|].
    intros H1. apply IH. destruct Hs as [g|c g _]; [by apply gate_lets_in|]. cbn. etransitivity; [apply length_filter|done]. }
  split; [done|]. intros g' Hs. destruct Hs as [g|c g _]; cbn; [intros _|lia]. unfold let_in. case_decide; cbn; [left; by left|].
  right. split; [by left|]. lia.
Qed.
