(* ===== verification/Relay.v ===== *)
(** * Relay: hostd from its arguments, and the conversation it carries

    src/cmd/hostd/main.go: main.  src/api/local.go: Stdio, which is what `hostd
    -stdio` does at the far end of ssh: it opens the socket of the daemon that
    runs there and copies bytes both ways.  The two copies are two goroutines, so
    they are the steps of one state; what the client sends and what the daemon
    says, and when, is up to them. *)
From S2P Require Import Prelude GoText GoTime Filo AuditLog Server Client CommandLine Fleet HostctlMain.
From Stdlib Require Import Ascii.
Open Scope string_scope.
Open Scope list_scope.
Open Scope Z_scope.

(** ** hostd's arguments *)
Definition hostd_flags : list FlagDef := [
  MkFlagDef "version" KBool (VBool false) "print the version and exit";
  MkFlagDef "debug" KBool (VBool false) "write one key=value diagnostic line to stderr every 30s";
  MkFlagDef "stdio" KBool (VBool false) "serve one client over stdin and stdout, which is how ssh reaches this daemon"
].
Definition hostd_by_name : gmap string FlagDef := list_to_map ((fun d => (fd_name d, d)) <$> hostd_flags).
Definition hostd_formal : gmap string bool := (fun d => is_bool (fd_kind d)) <$> hostd_by_name.
Definition hostd_value (name value : string) : option FlagValue := d ← hostd_by_name !! name; parse_value (fd_kind d) value.
Definition hostd_accepts (name value : string) : bool := bool_decide (is_Some (hostd_value name value)).
Definition hostd_set (v : Variables) (s : string * string) : Variables :=
  match hostd_value s.1 s.2 with Some x => <[s.1 := x]> v | None => v end.
Definition hostd_usage : string :=
  "hostd supervises the services declared on this machine.

usage:
  hostd [flags]

It has no interface of its own: operate it with hostctl.
Paths default to /etc/hostd, /var/lib/hostd and /run/hostd on Linux, and to
the same layout under the user's config directory (hostd-local) anywhere else,
where /etc belongs to root. HOSTD_ROOT redirects all of them.

flags:
" +:+ concat_text (print_default <$> omap (fun n => hostd_by_name !! n) (sorted_keys (list_to_set (fd_name <$> hostd_flags)))).

(** What hostd does with its arguments: it says something and ends, carries one
    conversation, or is the daemon.  The words are not looked at. *)
Inductive Hostd :=
  | Says (code : Z) (stdout stderr : list Msg)
  | Carries (socket : string)
  | Serves (debug : bool).
(** The package flag ends the process by itself: the help is on stdout, what is
    wrong on stderr. *)
Definition hostd_main (version socket : string) (args : list string) : Hostd :=
  match Parse hostd_formal hostd_accepts args with
  | Err e => if errors_is e ErrHelp then Says 0 [Lit hostd_usage] [] else Says 2 [Lit hostd_usage] [error_msg e]
  | Ok (settings, _) =>
      let v := foldl hostd_set (fd_default <$> hostd_by_name) settings in
      if switch_at v "version" then Says 0 [version_line "hostd" version] []
      else if switch_at v "stdio" then Carries socket
      else Serves (switch_at v "debug")
  end.
(** How the process ends, from what Stdio or run returned. *)
Definition hostd_exit (r : result unit) : Z * list Msg :=
  match r with Ok _ => (0, []) | Err e => (1, [("hostd: %v", [AMsg (error_msg e)])]) end.

Example hostd_as_ssh_runs_it : hostd_main "v1" "/run/hostd/hostd.sock" ["-stdio"] = Carries "/run/hostd/hostd.sock" /\
  hostd_main "v1" "/s" ["serve"; "-stdio"] = Serves false /\ hostd_main "v1" "/s" ["-debug=1"] = Serves true /\
  hostd_main "v1" "/s" ["-v"] = Says 2 [Lit hostd_usage] [("flag provided but not defined: -%s", [AStr "v"])].
Proof. by vm_compute. Qed.

(** ** Reaching the daemon *)
Definition Group := "hostd".
(** What Stdio makes of a dial that failed; [denied] is whether the error is
    os.ErrPermission. *)
Definition unreachable (denied : bool) (socket : string) (e : error) : error :=
  if denied
  then EWrap ("cannot open %s: %w; this account is not in the %s group on this machine, or this session started before it was added — open a new one (ssh -O exit <host> if you multiplex)",
              [AStr socket; AStr Group]) e
  else EWrap ("cannot reach hostd on %s: %w; is it running? check with systemctl status hostd", [AStr socket]) e.

(** Who the daemon says asked: the user at the other end of the socket, which
    for a conversation through ssh is the account `hostd -stdio` runs as. *)
Definition actor (uid : option Z) (lookup : string -> option string) (sudo_user : string) : string :=
  let peer := Peer uid lookup sudo_user in if String.eqb peer "" then AuditLog.ActorLocal else peer.
(** Nobody is recorded without a name, and a name is never the caller's word
    unless the kernel says it is root's. *)
Lemma actor_is_the_kernels uid lookup sudo_user : actor uid lookup sudo_user <> "" /\
  (forall id name, uid = Some id -> lookup (itoa id) = Some name -> name <> "" -> name <> "root" -> actor uid lookup sudo_user = name).
Proof.
  unfold actor. split; [by destruct (String.eqb_spec (Peer uid lookup sudo_user) "")|].
  intros id name -> Hl Hn Hr. unfold Peer. rewrite Hl. destruct (String.eqb_spec name "root"); [done|]. cbn. by destruct (String.eqb_spec name "").
Qed.

(** ** The two copies *)
(** The way in: what the client sent in all, what of it was not read yet, whether
    that is all; what the daemon was sent, and whether it was told there is no
    more.  The way out: what the daemon said in all, what of it was not copied
    yet, whether it closed; what was written for the client.  [rl_pump]: the
    goroutine that copies in has not ended.  [rl_over]: what Stdio returned, once
    it has. *)
Record Relay := MkRelay {
  rl_sent : string; rl_in : string; rl_in_ended : bool; rl_to : string; rl_half_closed : bool;
  rl_said : string; rl_from : string; rl_daemon_closed : bool; rl_out : string;
  rl_pump : bool; rl_over : option (result unit);
}.
Definition relay_start : Relay := MkRelay "" "" false "" false "" "" false "" true None.

(** What the two ends do. *)
Inductive around : Relay -> Relay -> Prop :=
  | ClientSends p sent i to h said from c out pump over :
      around (MkRelay sent i false to h said from c out pump over) (MkRelay (sent +:+ p) (i +:+ p) false to h said from c out pump over)
  | ClientEnds sent i e to h said from c out pump over :
      around (MkRelay sent i e to h said from c out pump over) (MkRelay sent i true to h said from c out pump over)
  | DaemonSays p sent i e to h said from out pump over :
      around (MkRelay sent i e to h said from false out pump over) (MkRelay sent i e to h (said +:+ p) (from +:+ p) false out pump over)
  | DaemonCloses sent i e to h said from c out pump over :
      around (MkRelay sent i e to h said from c out pump over) (MkRelay sent i e to h said from true out pump over).

(** What Stdio does: io.Copy one way, then CloseWrite; io.Copy the other way,
    whose end is Stdio's.  A write towards a daemon that closed may fail, and so
    may any towards the client. *)
Inductive carries : Relay -> Relay -> Prop :=
  | CopiesIn p i sent e to h said from c out : p <> "" ->
      carries (MkRelay sent (p +:+ i) e to h said from c out true None) (MkRelay sent i e (to +:+ p) h said from c out true None)
  | HalfCloses sent to h said from c out :
      carries (MkRelay sent "" true to h said from c out true None) (MkRelay sent "" true to true said from c out false None)
  | CannotSend sent i e to h said from out : i <> "" ->
      carries (MkRelay sent i e to h said from true out true None) (MkRelay sent i e to true said from true out false None)
  | CopiesOut p from sent i e to h said c out pump : p <> "" ->
      carries (MkRelay sent i e to h said (p +:+ from) c out pump None) (MkRelay sent i e to h said from c (out +:+ p) pump None)
  | CannotAnswer err sent i e to h said from c out pump : from <> "" ->
      carries (MkRelay sent i e to h said from c out pump None) (MkRelay sent i e to h said from c out pump (Some (Err err)))
  | Returns sent i e to h said out pump :
      carries (MkRelay sent i e to h said "" true out pump None) (MkRelay sent i e to h said "" true out pump (Some (Ok tt))).
Definition relays (s s' : Relay) : Prop := around s s' \/ carries s s'.

(** ** What is promised *)
Record carried_so_far (s : Relay) : Prop := {
  cs_in : rl_sent s = rl_to s +:+ rl_in s;
  cs_out : rl_said s = rl_out s +:+ rl_from s;
  cs_pump : rl_half_closed s = true -> rl_pump s = false;
  cs_half : rl_pump s = false -> (rl_in s = "" /\ rl_in_ended s = true) \/ rl_daemon_closed s = true;
  cs_over : rl_over s = Some (Ok tt) -> rl_from s = "" /\ rl_daemon_closed s = true;
}.

Lemma relay_keeps s s' : relays s s' -> carried_so_far s -> carried_so_far s'.
Proof.
  intros [Hs|Hs] [Hi Ho Hp Hh Hv]; destruct Hs; split; cbn in *; rewrite ?string_app_assoc; subst; intros; auto;
    try (rewrite ?string_app_assoc; done); naive_solver.
Qed.

(** What is left to copy, and the two ends of Stdio: every step of the relay
    takes of it. *)
Definition to_carry (s : Relay) : nat :=
  String.length (rl_in s) + String.length (rl_from s) + (if rl_pump s then 1 else 0) + (match rl_over s with Some _ => 0 | None => 1 end).
Lemma carries_less s s' : carries s s' -> (to_carry s' < to_carry s)%nat.
Proof.
  assert (Hne : forall p, p <> "" -> (0 < String.length p)%nat) by (intros []; cbn; [done|lia]).
  destruct 1; unfold to_carry; cbn [rl_in rl_from rl_pump rl_over String.length]; rewrite ?app_string_length;
    repeat match goal with H : ?p <> "" |- _ => apply Hne in H end; try lia; destruct pump; lia.
Qed.
Lemma carries_ends s : sn carries s.
Proof.
  remember (to_carry s) as n eqn:E. revert s E. induction (lt_wf n) as [n _ IH]. intros s ->. constructor. intros s' Hs.
  apply carries_less in Hs. by apply (IH (to_carry s')).
Qed.

(** Once the daemon closed there is always a step left, until Stdio returned. *)
Lemma carries_on s : rl_daemon_closed s = true -> rl_over s = None -> red carries s.
Proof.
  destruct s as [sent i e to h said from c out pump over]. cbn. intros -> ->. destruct from as [|x from]; eexists.
  - apply Returns.
  - rewrite <- (string_app_nil (String x from)). by apply CopiesOut.
Qed.
Lemma carries_closed s s' : carries s s' -> rl_daemon_closed s' = rl_daemon_closed s.
Proof. by destruct 1. Qed.


(** A client that asks and waits, and a daemon that answers and closes. *)
Definition asked_and_answered : Relay := MkRelay "plan" "" false "plan" false "nothing" "" true "nothing" true (Some (Ok tt)).
