(* ===== verification/Daemon.v ===== *)
(** * Daemon: everything a running hostd does, as one machine

    The goroutines of src/supervisor (Run, schedule, watchRuntime, the readers
    and the waiters), the sampler and the writer of the log, and the connections
    of src/api, as steps of one state.  A connection is a step for each part of
    what its client sends that ends between two requests; a round, an apply and
    a handler are not interrupted (the first two hold one lock in the code).
    The diagnostics of src/cmd/hostd/main.go are here too. *)
From S2P Require Import Prelude GoText GoTime GoPath Service Filo Tree DeclarationFiles AuditLog Runtime Supervisor Schedule Plan Images Protocol MetricStore Counters Sampler LogDatabase Volumes Host ServiceHandlers ImageHandlers FileHandlers Server.
From Stdlib Require Import Ascii SpecFloat.
Open Scope string_scope.
Open Scope list_scope.
Open Scope Z_scope.
Open Scope hostd_scope.

Definition scheduleTick : Z := 250 * Millisecond.
Definition eventRetryDelay : Z := 5 * Second.

(** ** Goroutines *)
(** A goroutine waiting in the runtime for a run to end: when its timer fires,
    where the run has a limit. *)
Record Waiting := MkWaiting { w_Service : string; w_Run : string; w_ID : string; w_Started : Time; w_Fires : option (Time * Z) }.

(** [lf_since] is from when the runtime is asked for its events; [lf_leaving] is
    the context that was cancelled. *)
Record Life (W A : Type) := MkLife {
  lf_host : Host W A;
  lf_ticks : Ticks;
  lf_since : Time;
  lf_waiting : list Waiting;
  lf_sampler : Sampler;
  lf_leaving : bool;
}.
Arguments MkLife {W A}. Arguments lf_host {W A}. Arguments lf_ticks {W A}. Arguments lf_since {W A}.
Arguments lf_waiting {W A}. Arguments lf_sampler {W A}. Arguments lf_leaving {W A}.

Section Daemon.
Context {W A : Type} `{Runtime W} `{LogStore} `{MapOrder Service} `{Auditor A} `{Render}.
Context `{FiloEngine} `{!FiloType Service} `{!FiloType WireDeclaration} `{!FiloType Request} `{Sha256}.
Context `{TextSearch} `{Sql} `{Platform}.
Implicit Types d : Life W A.

Definition with_host (h : Host W A) d : Life W A :=
  MkLife h (lf_ticks d) (lf_since d) (lf_waiting d) (lf_sampler d) (lf_leaving d).
Definition in_host {X} (m : ST (Host W A) X) d : Life W A := with_host (m (lf_host d)).2 d.
Definition in_sup {X} (m : ST (Sup W) X) d : Life W A := in_host (on_sup m) d.

(** What a goroutine does to the supervisor's own record of it. *)
Definition set_tasks {W} (l : list Task) (s : Sup W) : Sup W :=
  MkSup (world s) (client s) (services s) (declared s) (following s) (reported s) (fired s) (awaiting s)
    (timeline s) l (nudged s) (left s) (now s) (artifacts s) (scripts s).
Definition took_wake {W} (s : Sup W) : Sup W :=
  MkSup (world s) (client s) (services s) (declared s) (following s) (reported s) (fired s) (awaiting s)
    (timeline s) (tasks s) false (left s) (now s) (artifacts s) (scripts s).
Definition closed {W} (s : Sup W) : Sup W :=
  MkSup (world s) (client s) (services s) (declared s) (following s) (reported s) (fired s) (awaiting s)
    (timeline s) (tasks s) (nudged s) true (now s) (artifacts s) (scripts s).
Definition at_time {W} (t : Time) (s : Sup W) : Sup W :=
  MkSup (world s) (client s) (services s) (declared s) (following s) (reported s) (fired s) (awaiting s)
    (timeline s) (tasks s) (nudged s) (left s) t (artifacts s) (scripts s).

(** One turn of Run: the round, and how long it took. *)
Definition turn (elapsed : Z) d : Life W A :=
  let d := in_sup observe d in
  MkLife (lf_host d) (Supervisor.sample elapsed (lf_ticks d)) (lf_since d) (lf_waiting d) (lf_sampler d) (lf_leaving d).

(** The first of Run's select, where it was woken. *)
Definition woken d : Life W A := in_sup (modify took_wake) d.

(** One tick of schedule. *)
Definition look d : Life W A := in_sup (fireDue (now (sup (lf_host d)))) d.

(** watchRuntime: the callback of Events, and what its end is told as. *)
Definition heard (e : Docker.Event) d : Life W A :=
  let d := in_sup (clearReport "runtime.events" ;; runtimeEvent e) d in
  MkLife (lf_host d) (lf_ticks d) (Docker.ev_At e + 1) (lf_waiting d) (lf_sampler d) (lf_leaving d).
Definition stream_ended (err : option error) d : Life W A :=
  match err with
  | Some e => in_sup (reportOnce "runtime.events" ("cannot follow the runtime's events: %v", [AMsg (error_msg e)])) d
  | None => d
  end.

(** The goroutine of startFollowing: a line of its container, and the end of
    the stream.  Nothing of [following] changes when it ends. *)
Definition read_line (id name service : string) (line : Docker.Line) d : Life W A :=
  in_sup (reader_line (run_held id name service) line) d.
Definition reader_ended (before after : list Task) (service name : string) (err : option error) d : Life W A :=
  let d := in_sup (modify (set_tasks (before ++ after))) d in
  match err with
  | Some e => if errors_is e ErrCanceled then d
              else in_sup (reportOnce service ("stopped reading the output of %s: %v", [AStr service; AMsg (error_msg e)])) d
  | None => d
  end.

(** awaitRun, first part: the timer, and the wait. *)
Definition wait_begins (before after : list Task) (service run id : string) (started : Time) d : Life W A :=
  let d := in_sup (modify (set_tasks (before ++ after))) d in
  let s := sup (lf_host d) in
  if negb (client s) then in_sup (await_done id) d else
  let limit := (runLimitOf service s).1 in
  let fires := if 0 <? limit then Some (now s + killAfter started (now s) limit, limit) else None in
  MkLife (lf_host d) (lf_ticks d) (lf_since d) (lf_waiting d ++ [MkWaiting service run id started fires]) (lf_sampler d) (lf_leaving d).
Definition set_waiting (l : list Waiting) d : Life W A :=
  MkLife (lf_host d) (lf_ticks d) (lf_since d) l (lf_sampler d) (lf_leaving d).

(** The timer of a run: it fires once. *)
Definition overran (before after : list Waiting) (w : Waiting) (limit : Z) d : Life W A :=
  set_waiting (before ++ MkWaiting (w_Service w) (w_Run w) (w_ID w) (w_Started w) None :: after)
    (in_sup (stopOverrun (w_Service w) (w_Run w) (w_ID w) limit) d).

(** awaitRun, last part: what Wait answered.  The context of the wait is
    cancelled when the supervisor is done. *)
Definition wait_ended (w : Waiting) : ST (Sup W) unit :=
  code ← lift (rt_Wait (w_ID w));
  leaving ← gets left;
  match code with
  | Err e =>
      if errors_is e ErrCanceled || leaving then await_done (w_ID w) else
      logRun (w_Service w) (w_Run w) Logs.EventJobFinished
        ("run %s ended and could not be read: %v", [AStr (w_Run w); AMsg (error_msg e)]) ;;
      await_done (w_ID w)
  | Ok code =>
      if leaving : bool then await_done (w_ID w) else
      t ← gets now;
      logRun (w_Service w) (w_Run w) Logs.EventJobFinished
        ("run %s finished with exit %d after %s",
         [AStr (w_Run w); AInt code; AInt (truncate_ms (Sub t (w_Started w)))]) ;;
      _ ← lift (rt_Remove (w_ID w));
      await_done (w_ID w)
  end.
Definition wait_ends (before after : list Waiting) (w : Waiting) d : Life W A :=
  set_waiting (before ++ after) (in_sup (wait_ended w) d).

(** The sampler's tick: the processes are those of the services that have one. *)
Definition sampled_processes (l : list Status) : list Process :=
  omap (fun st => if st_PID st =? 0 then None else Some (MkProcess (st_Name st) (st_PID st))) l.
Definition sampler_problem (errs : list error) : ST (Sup W) unit :=
  event Logs.EventProblem "hostd" ("errors.Join", AMsg <$> texts errs).
Definition set_metrics (m : MetricStore.Store) (h : Host W A) : Host W A :=
  MkHost (sup h) (store h) (dir h) (db h) (appended h) m (has_runtime h) (disks h).
Definition measured (src : source) (fails : bool) (fault : option nat) d : Life W A :=
  let '(l, h) := on_sup Status_ (lf_host d) in
  let '((_, said), (sampler, m)) := run_tick (now (sup h)) src (sampled_processes l) fails fault (lf_sampler d, metrics h) in
  let d := MkLife (set_metrics m h) (lf_ticks d) (lf_since d) (lf_waiting d) sampler (lf_leaving d) in
  match said with Some errs => in_sup (sampler_problem errs) d | None => d end.

(** The writer of the log, at any of its steps. *)
Definition wrote (db' : LogDatabase.DB) d : Life W A := in_host (_ ← settle; set_db db') d.

(** A part of what a client sends, answered. *)
Definition served (env : Around) (actor input : string) d : Life W A := in_host (handle env actor input) d.

(** SIGTERM; and Run returning, once its goroutines have. *)
Definition told_to_leave d : Life W A :=
  MkLife (lf_host d) (lf_ticks d) (lf_since d) (lf_waiting d) (lf_sampler d) true.
Definition done d : Life W A := in_sup (modify closed) d.

(** ** A step of the whole *)
Inductive step : Life W A -> Life W A -> Prop :=
  | Turns elapsed d : lf_leaving d = false -> step d (turn elapsed d)
  | Wakes d : nudged (sup (lf_host d)) = true -> step d (woken d)
  | Looks d : lf_leaving d = false -> step d (look d)
  | Hears e d : client (sup (lf_host d)) = true -> lf_leaving d = false -> step d (heard e d)
  | Stream_ends err d : client (sup (lf_host d)) = true -> lf_leaving d = false -> step d (stream_ended err d)
  | Reads before after id name service since line d :
      tasks (sup (lf_host d)) = before ++ Reader id name service since :: after -> step d (read_line id name service line d)
  | Reader_ends before after id name service since err d :
      tasks (sup (lf_host d)) = before ++ Reader id name service since :: after ->
      step d (reader_ended before after service name err d)
  | Wait_begins before after service run id started d :
      tasks (sup (lf_host d)) = before ++ Awaiter service run id started :: after ->
      step d (wait_begins before after service run id started d)
  | Overruns before after w at_ limit d :
      lf_waiting d = before ++ w :: after -> w_Fires w = Some (at_, limit) -> at_ <= now (sup (lf_host d)) ->
      step d (overran before after w limit d)
  | Wait_ends before after w d : lf_waiting d = before ++ w :: after -> step d (wait_ends before after w d)
  | Measures src fails fault d : lf_leaving d = false -> step d (measured src fails fault d)
  | Stores opts n n' db' d : log_step opts ((settle (lf_host d)).1, n) (db', n') -> step d (wrote db' d)
  | Serves env actor input d : step d (served env actor input d)
  | Passes t d : now (sup (lf_host d)) <= t -> step d (in_sup (modify (at_time t)) d)
  | Told d : step d (told_to_leave d)
  | Ends d : lf_leaving d = true -> step d (done d).
End Daemon.

(** ** Diagnostics *)
(** Supervisor.Stats; [samples_of] is the part of the ring that was written. *)
Record Stats := MkStats { ss_Services : Z; ss_Running : Z; ss_Ticks : Z; TickP50 : Z; TickP95 : Z; TickMax : Z }.
Definition samples_of (t : Ticks) : list Z := (fun i => default 0 (tickRing t !! i)) <$> seqZ 0 (sampled t).
Definition p50 : float64 := f64_div (f64_of_Z 50) (f64_of_Z 100).
Definition p95 : float64 := f64_div (f64_of_Z 95) (f64_of_Z 100).
Definition p100 : float64 := f64_of_Z 1.
Definition running_count (l : list Status) : Z := Z.of_nat (length (filter (fun st => st_State st = StateRunning) l)).
Definition tick_stats (services running : Z) (t : Ticks) : Stats :=
  let samples := merge_sort Z.le (samples_of t) in
  MkStats services running (ticks t) (percentile samples p50) (percentile samples p95) (percentile samples p100).

Section Diagnostics.
Context {W : Type} `{Runtime W} `{LogStore} `{MapOrder Service}.

Definition supervisor_stats (t : Ticks) : ST (Sup W) Stats :=
  services ← gets (fun s => Z.of_nat (size (declared s)));
  l ← Status_;
  mret (tick_stats services (running_count l) t).

(** time.Duration.Microseconds over a thousand *)
Definition milliseconds (d : Z) : float64 := f64_div (f64_of_Z (Z.quot d Microsecond)) (f64_of_Z 1000).

(** The line of reportDiagnostics; the queue of the log store and what it lost. *)
Definition diagnostics (t : Ticks) (db : LogDatabase.DB) : ST (Sup W) Msg :=
  tick ← supervisor_stats t;
  mret ("hostd: debug services=%d running=%d ticks=%d tick-p50-ms=%.2f tick-p95-ms=%.2f tick-max-ms=%.2f log-queued=%d log-dropped=%d",
    [AInt (ss_Services tick); AInt (ss_Running tick); AInt (ss_Ticks tick);
     AFloat (milliseconds (TickP50 tick)); AFloat (milliseconds (TickP95 tick)); AFloat (milliseconds (TickMax tick));
     AInt (Z.of_nat (length (LogDatabase.queue db))); AInt (LogDatabase.dropped db)]).
End Diagnostics.
