(* ===== verification/DaemonProofs.v ===== *)
(** * DaemonProofs: what a daemon does over its life

    Over every interleaving of the steps of Daemon.v: what changes only by an
    operation that is audited, and what two of the goroutines leave undone. *)
From S2P Require Import Prelude GoText GoTime GoPath Json Service Filo AuditLog Runtime DockerClient DockerProofs Supervisor Schedule Plan TraceRuntime Simulation SupervisorProofs Images Protocol Tree DeclarationFiles LogDatabase MetricStore Counters Sampler Volumes Host ServiceHandlers ImageHandlers FileHandlers Server HostSamples Daemon.
From Stdlib Require Import Ascii SpecFloat.
Open Scope string_scope.
Open Scope list_scope.
Open Scope Z_scope.
Open Scope hostd_scope.

(** ** What the supervisor believes *)
Definition same_declared {W} (s s' : Sup W) : Prop := declared s' = declared s.
#[export] Instance same_declared_preorder {W} : PreOrder (@same_declared W).
Proof. split; [by intros s|]. intros a b c E1 E2. unfold same_declared in *. congruence. Qed.
Definition same_store {W A} (h h' : Host W A) : Prop := store h' = store h.
#[export] Instance same_store_preorder {W A} : PreOrder (@same_store W A).
Proof. split; [by intros h|]. intros a b c E1 E2. unfold same_store in *. congruence. Qed.

Section Believing.
Context {W : Type} `{Runtime W} `{LogStore} `{MapOrder Service}.

Lemma same_lift {X} (m : ST W X) : moves same_declared (lift m).
Proof. intros s. unfold lift. by destruct (m (world s)). Qed.

Ltac keep := repeat first [apply same_lift | assumption | moves_step | (intros ?; reflexivity)].

Lemma same_containers : moves same_declared containers.
Proof. unfold containers. keep. Qed.
Lemma same_report n t : moves same_declared (reportOnce (W := W) n t).
Proof. unfold reportOnce. keep. Qed.
Lemma same_retire svc : moves same_declared (retire svc).
Proof. unfold retire. keep. Qed.
Lemma same_prepareMounts svc : moves same_declared (prepareMounts svc).
Proof. unfold prepareMounts, prepare_mount. keep. Qed.
Lemma same_create svc b : moves same_declared (create svc b).
Proof. unfold create, image_for. repeat first [apply same_prepareMounts|apply same_lift|moves_step|(intros ?; reflexivity)]. Qed.
Lemma same_startFollowing c : moves same_declared (startFollowing (W := W) c).
Proof. unfold startFollowing. repeat first [apply same_report|moves_step|(intros ?; reflexivity)]. Qed.
End Believing.
Create HintDb believing.
#[export] Hint Resolve same_lift same_containers same_report same_retire same_create same_prepareMounts same_startFollowing : believing.
Ltac believe := repeat first [solve [auto 1 with believing nocore] | moves_step | (intros ?; reflexivity)].

Section Doing.
Context {W : Type} `{Runtime W} `{LogStore} `{MapOrder Service}.

Lemma same_createRun svc slot : moves same_declared (createRun svc slot).
Proof. unfold createRun. believe. Qed.
Lemma same_startRun svc slot b : moves same_declared (startRun svc slot b).
Proof. unfold startRun, runsOf, refuseRun, run_started, clearReport. repeat first [apply same_createRun|progress believe]. Qed.
Lemma same_fireDue t : moves same_declared (fireDue t).
Proof. unfold fireDue, fire_one, declarations. repeat first [apply same_startRun|progress believe]. Qed.
Lemma same_RunNow n : moves same_declared (RunNow n).
Proof. unfold RunNow, declaration. repeat first [apply same_startRun|progress believe]. Qed.
Lemma same_Backup n : moves same_declared (Backup n).
Proof. unfold Backup, declaration. repeat first [apply same_createRun|progress believe]. Qed.
Lemma same_overrun n run id l : moves same_declared (stopOverrun n run id l).
Proof. unfold stopOverrun, declaration. believe. Qed.
Lemma same_observe : moves same_declared observe.
Proof.
  unfold observe, Supervisor.follow, follow_one, adoptRuns, adopt_run, declarations, observe_one, convergePolicy, clearReport. believe.
Qed.
Lemma same_Plan l : moves same_declared (Plan l).
Proof. unfold Plan, declarations. believe. Qed.
Lemma same_describe st svc c : moves same_declared (Plan.describe st svc c).
Proof. unfold Plan.describe. believe. Qed.
Lemma same_Status : moves same_declared Status_.
Proof. unfold Status_, declarations, declared_status, orphan_status. repeat first [apply same_describe|progress believe]. Qed.
Lemma same_StatusOf n : moves same_declared (StatusOf n).
Proof. unfold StatusOf. repeat first [apply same_Status|progress believe]. Qed.
Lemma same_event e : moves same_declared (runtimeEvent (W := W) e).
Proof. intros s. unfold runtimeEvent. repeat case_match; reflexivity. Qed.
Lemma same_wait_ended w : moves same_declared (wait_ended w).
Proof. unfold wait_ended, await_done. believe. Qed.
End Doing.
#[export] Hint Resolve same_fireDue same_RunNow same_Backup same_overrun same_observe same_Plan same_Status same_StatusOf same_event same_wait_ended : believing.

(** ** What is audited *)
(** An entry as it was handed to the store: the time, the entry, whether it
    changed anything. *)
Abbreviation Handed := (float64 * Entry * bool)%type.

Section Accounts.
Context {W A : Type} `{Auditor A}.
Implicit Types h : Host W A.

Definition hand (a : A) (x : Handed) : A := (au_Record x.1.1 x.1.2 x.2 a).2.
Definition handed_over (l : list Handed) (a : A) : A := foldl hand a l.

(** The declaration's file cannot be deleted: it is a directory that holds
    something. *)
Definition stuck (n : string) (d : Dir) : Prop :=
  exists m, entries_of d !! (n +:+ Extension) = Some (NDir m) /\ m <> ∅.

(** The same files, the same volumes, and the same declarations but for services
    taken off whose file could not be deleted. *)
Record kept h h' : Prop := {
  kept_dir : dir h' = dir h;
  kept_disks : disks h' = disks h;
  kept_old n svc : declared (sup h') !! n = Some svc -> declared (sup h) !! n = Some svc;
  kept_still n svc : declared (sup h) !! n = Some svc -> declared (sup h') !! n = Some svc \/ stuck n (dir h);
}.
(** Only entries were handed to the store of the audit. *)
Definition recorded h h' : Prop := exists l, store h' = handed_over l (store h).
(** One was, at least. *)
Definition signed h h' : Prop := exists l, l <> [] /\ store h' = handed_over l (store h).
(** One was, or nothing changed. *)
Definition accounted h h' : Prop := exists l, store h' = handed_over l (store h) /\ (l = [] -> kept h h').

Lemma handed_app l k a : handed_over (l ++ k) a = handed_over k (handed_over l a).
Proof. apply foldl_app. Qed.

#[export] Instance kept_preorder : PreOrder kept.
Proof.
  split; [by intros h; split; auto|]. intros a b c [Hd Hk Ho Hs] [Hd' Hk' Ho' Hs']. split.
  - congruence.
  - congruence.
  - eauto.
  - intros n svc Hn. destruct (Hs _ _ Hn) as [Hb|?]; [|by right]. destruct (Hs' _ _ Hb) as [?|Hst]; [by left|]. right. by rewrite <- Hd.
Qed.
#[export] Instance recorded_preorder : PreOrder recorded.
Proof.
  split; [by intros h; exists []|]. intros a b c [l E] [k F]. exists (l ++ k). by rewrite handed_app, <- E.
Qed.
#[export] Instance accounted_preorder : PreOrder accounted.
Proof.
  split; [by intros h; exists []|]. intros a b c (l & E & Hl) (k & F & Hk). exists (l ++ k). split; [by rewrite handed_app, <- E|].
  intros [-> ->]%app_eq_nil. etransitivity; auto.
Qed.

Lemma signed_recorded h h' : signed h h' -> recorded h h'.
Proof. intros (l & _ & E). by exists l. Qed.
Lemma signed_accounted {X} (m : ST (Host W A) X) : moves signed m -> moves accounted m.
Proof. intros Hm h. destruct (Hm h) as (l & Hl & E). exists l. split; [done|]. by intros ->. Qed.
Lemma accounted_recorded {X} (m : ST (Host W A) X) : moves accounted m -> moves recorded m.
Proof. intros Hm h. destruct (Hm h) as (l & E & _). by exists l. Qed.

Lemma signed_then {X Y} (m : ST (Host W A) X) (f : X -> ST (Host W A) Y) :
  moves signed m -> (forall x, moves recorded (f x)) -> moves signed (m ≫= f).
Proof.
  intros Hm Hf h. rewrite ST_step. destruct (Hm h) as (l & Hl & E). destruct (Hf (m h).1 (m h).2) as (k & F).
  exists (l ++ k). split; [by destruct l|]. by rewrite handed_app, <- E.
Qed.
Lemma then_signed {X Y} (m : ST (Host W A) X) (f : X -> ST (Host W A) Y) :
  moves recorded m -> (forall x, moves signed (f x)) -> moves signed (m ≫= f).
Proof.
  intros Hm Hf h. rewrite ST_step. destruct (Hm h) as (l & E). destruct (Hf (m h).1 (m h).2) as (k & Hk & F).
  exists (l ++ k). split; [destruct l; [done|by intros [=]]|]. by rewrite handed_app, <- E.
Qed.

(** *** The steps *)
Lemma signed_record e c : moves signed (record e c : ST (Host W A) Z).
Proof.
  intros h. unfold record. exists [(clock_ms h, e, c)]. split; [done|]. unfold handed_over, hand. cbn.
  by destruct (au_Record _ _ _ _).
Qed.
Lemma signed_refuse e code cause : moves signed (refuse e code cause : ST (Host W A) _).
Proof. unfold refuse. apply signed_then; [apply signed_record|]. intros g. moves_step. Qed.
Lemma signed_failed e code m : moves signed (failed e code m : ST (Host W A) _).
Proof. unfold failed. apply signed_then; [apply signed_record|]. intros g. moves_step. Qed.

Lemma recorded_same {X} (m : ST (Host W A) X) : moves same_store m -> moves recorded m.
Proof. intros Hm h. exists []. apply Hm. Qed.
Lemma recorded_sup {X} (m : ST (Sup W) X) : moves recorded (on_sup (A := A) m).
Proof. intros h. exists []. unfold on_sup. by destruct (m (sup h)). Qed.
Lemma recorded_world {X} (m : ST W X) : moves recorded (on_world (A := A) m).
Proof. apply recorded_sup. Qed.
Lemma recorded_dir {X} (m : ST Dir X) : moves recorded (on_dir (W := W) (A := A) m).
Proof. intros h. exists []. unfold on_dir. by destruct (m (dir h)). Qed.
Lemma recorded_disk {X} p v (x : X) : moves recorded (on_disk (W := W) (A := A) p v x).
Proof. intros h. by exists []. Qed.
Lemma recorded_stamp r : moves recorded (stamp r : ST (Host W A) _).
Proof. intros h. by exists []. Qed.
Lemma recorded_say a b c t : moves recorded (say a b c t : ST (Host W A) unit).
Proof. apply recorded_sup. Qed.

Lemma accounted_sup {X} (m : ST (Sup W) X) : moves same_declared m -> moves accounted (on_sup (A := A) m).
Proof.
  intros Hm h. exists []. unfold on_sup. specialize (Hm (sup h)). destruct (m (sup h)) as [x s]. unfold same_declared in Hm. cbn in *.
  split; [done|]. intros _. split; cbn; [done..|rewrite Hm; auto|rewrite Hm; auto].
Qed.
Lemma accounted_world {X} (m : ST W X) : moves accounted (on_world (A := A) m).
Proof. apply accounted_sup. intros s. unfold lift. by destruct (m (world s)). Qed.
Lemma accounted_say a b c t : moves accounted (say a b c t : ST (Host W A) unit).
Proof. by apply accounted_sup. Qed.
Lemma accounted_stamp r : moves accounted (stamp r : ST (Host W A) _).
Proof. intros h. unfold stamp. reflexivity. Qed.
Lemma accounted_settle : moves accounted (settle : ST (Host W A) _).
Proof. intros h. exists []. split; [done|]. intros _. split; cbn; auto. Qed.
Lemma accounted_set_db d : moves accounted (set_db d : ST (Host W A) _).
Proof. intros h. exists []. split; [done|]. intros _. split; cbn; auto. Qed.
End Accounts.
Create HintDb accounts.
#[export] Hint Resolve signed_record signed_refuse signed_failed recorded_sup recorded_world recorded_dir recorded_disk
  recorded_stamp recorded_say accounted_say accounted_stamp accounted_settle accounted_set_db accounted_world : accounts.
#[export] Hint Extern 1 (moves accounted (on_sup _)) => apply accounted_sup; solve [auto 1 with believing nocore] : accounts.

(** A computation that hands entries over and nothing else; one that hands one
    over, at its first step that can; one that is accounted for. *)
Ltac recording :=
  repeat first [ solve [auto 1 with accounts nocore]
    | match goal with |- moves recorded (refuse _ _ _) => intros ?; apply signed_recorded, signed_refuse
                    | |- moves recorded (failed _ _ _) => intros ?; apply signed_recorded, signed_failed
                    | |- moves recorded (record _ _) => intros ?; apply signed_recorded, signed_record end
    | moves_step | (intros ?; reflexivity) ].
Ltac signing :=
  repeat first [ solve [auto 1 with accounts nocore]
    | match goal with
      | |- moves signed (record _ _ ≫= _) => apply signed_then; [apply signed_record|intros ?; recording]
      | |- moves signed (failed _ _ _ ≫= _) => apply signed_then; [apply signed_failed|intros ?; recording]
      | |- moves signed (refuse _ _ _ ≫= _) => apply signed_then; [apply signed_refuse|intros ?; recording]
      | |- moves signed (_ ≫= _) => apply then_signed; [recording|intros ?]
      | |- moves signed (if ?b then _ else _) => destruct b eqn:?
      | |- moves signed (match ?x with _ => _ end) => destruct x eqn:?
      end ].
Ltac accounting :=
  repeat first [ solve [auto 2 with accounts nocore] | solve [apply signed_accounted; signing] | moves_step | (intros ?; reflexivity) ].

Section Handlers.
Context {W A : Type} `{Runtime W} `{LogStore} `{MapOrder Service} `{Auditor A} `{Render}.
Context `{FiloEngine} `{!FiloType Service} `{!FiloType WireDeclaration} `{!FiloType Request} `{Sha256}.
Context `{TextSearch} `{Sql} `{Platform}.
Abbreviation accounts m := (moves (S := Host W A) accounted m).

Lemma acc_mutate req actor name fn : (forall n, moves recorded (fn n)) -> accounts (mutate req actor name fn).
Proof.
  intros Hf. unfold mutate, store_check, stamped. destruct (String.eqb name ""); [accounting|].
  apply signed_accounted. apply then_signed; [recording|]. intros [|]; [|signing].
  apply then_signed; [apply Hf|]. intros [|]; signing. unfold statusList. recording.
Qed.
Lemma acc_apply req actor : accounts (apply req actor).
Proof. apply signed_accounted. unfold apply, store_check, load. signing. Qed.
Lemma acc_runJob req actor : accounts (runJob req actor).
Proof.
  unfold runJob, store_check, runFailed. destruct (String.eqb (rq_Name req) ""); [accounting|]. apply signed_accounted. signing.
Qed.
Lemma acc_putService req actor : accounts (putService req actor).
Proof. unfold putService. repeat case_match; accounting. Qed.
Lemma rec_fileRoot svc p : moves (S := Host W A) recorded (fileRoot svc p).
Proof. unfold fileRoot, declared_volumes. recording. Qed.
Lemma acc_fileRoot svc p : accounts (fileRoot svc p).
Proof. unfold fileRoot, declared_volumes. accounting. Qed.
Lemma rec_holders : moves (S := Host W A) recorded imageHolders.
Proof. unfold imageHolders, load. recording. Qed.
Lemma acc_holders : accounts imageHolders.
Proof. unfold imageHolders, load. accounting. Qed.
End Handlers.
#[export] Hint Resolve acc_mutate acc_apply acc_runJob acc_putService rec_fileRoot acc_fileRoot rec_holders acc_holders : accounts.

Section Removal.
Context {W A : Type} `{Runtime W} `{LogStore} `{MapOrder Service} `{Auditor A} `{Render}.
Context `{FiloEngine} `{!FiloType Service} `{!FiloType WireDeclaration} `{!FiloType Request} `{Sha256}.
Context `{TextSearch} `{Sql} `{Platform}.
Abbreviation accounts m := (moves (S := Host W A) accounted m).

(** A removal is the one handler that can change what is believed and say
    nothing: where the file of the declaration cannot be deleted. *)
Lemma Remove_believes name (s : Sup W) :
  (forall n svc, declared (Remove name s).2 !! n = Some svc -> declared s !! n = Some svc) /\
  (forall n, n <> name -> declared (Remove name s).2 !! n = declared s !! n).
Proof.
  revert s. set (R := fun s s' : Sup W => (forall n svc, declared s' !! n = Some svc -> declared s !! n = Some svc) /\
    (forall n, n <> name -> declared s' !! n = declared s !! n)).
  assert (PreOrder R).
  { split; [by intros s|]. intros a b c [Ha Ea] [Hb Eb]. split; [auto|]. intros n Hn. by rewrite Eb, Ea. }
  assert (Hsame : forall X (m : ST (Sup W) X), moves same_declared m -> moves R m).
  { intros X m Hm s. specialize (Hm s). unfold same_declared in Hm. split; rewrite Hm; auto. }
  assert (Hdrop : moves R (drop_declared name)).
  { intros s. change (R s (set_declared (delete name (declared s)) s)). split; cbn [declared set_declared].
    - intros n svc [_ Hn]%lookup_delete_Some. exact Hn.
    - intros n Hn. by rewrite lookup_delete_ne. }
  enough (Hm : moves R (Remove name)) by exact Hm. unfold Remove, declaration, Plan.heldBy.
  repeat first [solve [apply Hsame; auto 1 with believing nocore]
    | match goal with |- moves R (drop_declared _) => exact Hdrop end
    | moves_step | (intros ?; split; auto)].
Qed.

Lemma signed_releaseImage image : moves (S := Host W A) recorded (releaseImage image).
Proof. unfold releaseImage, load. recording. Qed.
Lemma signed_removed name image entry changed : moves (S := Host W A) signed (removed name image entry changed).
Proof.
  unfold removed. intros h. rewrite ST_step.
  destruct (recorded_dir (remove_all (name +:+ ArtifactSuffix)) h) as (l & E).
  assert (Hok : (on_dir (remove_all (name +:+ ArtifactSuffix)) h).1 = Ok tt) by done. rewrite Hok.
  match goal with |- signed h (?m ?h1).2 => assert (Hm : moves signed m) by (apply then_signed; [apply signed_releaseImage|intros ?; signing]);
    destruct (Hm h1) as (k & Hk & F) end.
  exists (l ++ k). split; [by intros [_ ->]%app_eq_nil|]. by rewrite handed_app, <- E.
Qed.

Lemma acc_removeService req actor : accounts (removeService req actor).
Proof.
  unfold removeService. destruct (negb _); [accounting|]. intros h. cbv zeta. rewrite ST_step. cbn [gets fst snd]. rewrite ST_step.
  destruct (Remove_believes (rq_Name req) (sup h)) as [Hold Hstill]. unfold on_sup.
  assert (Hto : forall (m : ST (Host W A) Response) h2, moves signed m -> store h2 = store h -> accounted h (m h2).2).
  { intros m h2 Hm E. destruct (Hm h2) as (l & Hl & F). exists l. split; [by rewrite F, E|]. by intros ->. }
  destruct (Remove (rq_Name req) (sup h)) as [[changed|e] s1]; cbn [fst snd] in *; [|apply Hto; [apply signed_failed|done]].
  set (h1 := MkHost s1 _ _ _ _ _ _ _). rewrite ST_step.
  unfold on_dir, remove_file. change (dir h1) with (dir h).
  destruct (entries_of (dir h) !! _) as [[c|files]|] eqn:Ef; cbn [fst snd].
  - apply Hto; [apply signed_removed|done].
  - case_bool_decide as Hne; cbn [fst snd]; [apply Hto; [apply signed_removed|done]|].
    exists []. split; [done|]. intros _. split; [done|done|exact Hold|]. intros n svc Hn.
    destruct (decide (n = rq_Name req)) as [->|Hneq]; [right; by exists files|]. left. cbn. by rewrite Hstill.
  - apply Hto; [apply signed_removed|done].
Qed.

End Removal.

Section Bytes.
Context {W A : Type} `{Runtime W} `{LogStore} `{MapOrder Service} `{Auditor A} `{Render}.
Context `{FiloEngine} `{!FiloType Service} `{!FiloType WireDeclaration} `{!FiloType Request} `{Sha256}.
Context `{TextSearch} `{Sql} `{Platform}.
Abbreviation accounts m := (moves (S := Host W A) accounted m).

Lemma acc_deleteFile req actor : accounts (deleteFile req actor).
Proof.
  unfold deleteFile. destruct (negb _); [accounting|]. apply (moves_bind _ _ _ (acc_fileRoot _ _)). intros r. accounting.
Qed.
Lemma acc_getFile req actor : accounts (getFile req actor).
Proof. apply signed_accounted. unfold getFile. cbv zeta. signing. Qed.
Lemma acc_putFile block faults req actor input : accounts (putFile block faults req actor input).
Proof. apply signed_accounted. unfold putFile. cbv zeta. signing. Qed.
Lemma acc_pruneImages req actor : accounts (pruneImages req actor).
Proof. unfold pruneImages, prune_one. accounting. Qed.
Lemma acc_pullImage req actor : accounts (pullImage req actor).
Proof. unfold pullImage. accounting. Qed.
Lemma acc_loadImage block room req input : accounts (loadImage block room req input).
Proof. unfold loadImage, refuse_upload. repeat first [progress accounting | match goal with |- moves _ ((match ?x with _ => _ end) _) => destruct x; cbv beta end]. Qed.
Lemma acc_backup req actor : accounts (backupService req actor).
Proof. unfold backupService, send_backup, backup_failed. accounting. Qed.
Lemma rec_redeploy n : moves (S := Host W A) recorded (redeploy n).
Proof. unfold redeploy. recording. Qed.
End Bytes.
#[export] Hint Resolve acc_removeService acc_deleteFile acc_getFile acc_putFile acc_pruneImages acc_pullImage acc_loadImage acc_backup rec_redeploy : accounts.

Section Connections.
Context {W A : Type} `{Runtime W} `{LogStore} `{MapOrder Service} `{Auditor A} `{Render}.
Context `{FiloEngine} `{!FiloType Service} `{!FiloType WireDeclaration} `{!FiloType Request} `{Sha256}.
Context `{TextSearch} `{Sql} `{Platform}.
Abbreviation accounts m := (moves (S := Host W A) accounted m).

Lemma acc_dispatch disk req actor : accounts (dispatch disk req actor).
Proof.
  unfold dispatch, stamped. cbv zeta.
  repeat match goal with |- moves _ (if ?b then _ else _) => destruct b end.
  all: repeat match goal with |- moves _ (mbind (fun r => stamp r) _) => refine (moves_bind _ _ _ _ _); [|intros ?; apply accounted_stamp] end.
  all: try solve [auto 1 with accounts nocore].
  - unfold describe, runtimeInfo. accounting.
  - unfold status_all. accounting.
  - unfold planOnly, load. accounting.
  - unfold recent_entries. accounting.
  - unfold searchLogs. accounting.
  - unfold appendLogs. accounting.
  - unfold listFiles, listVolumes, declared_volumes. accounting.
  - unfold readMetrics. accounting.
  - unfold listImages. accounting.
  - unfold serviceVersions, load. accounting.
  - apply acc_mutate. intros n. apply recorded_sup.
  - apply acc_mutate. intros n. apply recorded_sup.
  - apply acc_mutate. intros n. apply recorded_sup.
  - apply acc_mutate. apply rec_redeploy.
  - moves_step.
Qed.

Lemma acc_follow disk req live : accounts (follow disk req live).
Proof. unfold follow. accounting. Qed.

Lemma acc_handle_go fuel env actor input : accounts (handle_go fuel env actor input).
Proof.
  revert input. induction fuel as [|fuel IH]; intros input; [by intros h|]. cbn [handle_go].
  destruct (ReadMessage empty_request input) as [[req|e] rest]; [|moves_step].
  repeat match goal with |- moves _ (if ?b then _ else _) => destruct b end; [apply acc_follow|..].
  all: refine (moves_bind _ _ _ _ _); [solve [auto 1 with accounts nocore|apply acc_dispatch]|intros ?].
  all: repeat first [apply IH|apply accounted_stamp|moves_step].
Qed.

(** ** A step of the whole, and a life *)
Implicit Types d : Life W A.
Definition books d d' : Prop := accounted (lf_host d) (lf_host d').
#[export] Instance books_preorder : PreOrder books.
Proof. split; [by intros d; unfold books|]. intros a b c. unfold books. by etransitivity. Qed.

Lemma books_sup {X} (m : ST (Sup W) X) d : moves same_declared m -> books d (in_sup m d).
Proof. intros Hm. apply (accounted_sup m Hm). Qed.

Lemma books_host d d1 d2 : lf_host d2 = lf_host d1 -> books d d1 -> books d d2.
Proof. unfold books. by intros ->. Qed.

Lemma books_same d d1 : sup (lf_host d1) = sup (lf_host d) -> store (lf_host d1) = store (lf_host d) -> dir (lf_host d1) = dir (lf_host d) ->
  disks (lf_host d1) = disks (lf_host d) -> books d d1.
Proof. intros E1 E2 E3 E4. exists []. split; [done|]. intros _. split; [done|done|rewrite E1; auto|rewrite E1; auto]. Qed.
End Connections.
#[export] Hint Extern 1 (books _ (in_sup _ _)) => apply books_sup; solve [auto 1 with believing nocore|believe] : accounts.

Section Lives.
Context {W A : Type} `{Runtime W} `{LogStore} `{MapOrder Service} `{Auditor A} `{Render}.
Context `{FiloEngine} `{!FiloType Service} `{!FiloType WireDeclaration} `{!FiloType Request} `{Sha256}.
Context `{TextSearch} `{Sql} `{Platform}.
Implicit Types d : Life W A.

Lemma step_books d d' : step d d' -> books d d'.
Proof.
  intros Hs. destruct Hs as [elapsed d _|d _|d _|e d _ _|err d _ _|b a id n svc since line d _|b a id n svc since err d _
    |b a svc run id started d _|b a w at_ limit d _ _ _|b a w d _|src fails fault d _|opts n n' db' d _|env actor input d|t d _|d|d _].
  - eapply (books_host _ (in_sup observe d)); [done|]. auto with accounts.
  - unfold woken. auto with accounts.
  - unfold look. auto with accounts.
  - eapply (books_host _ (in_sup (clearReport "runtime.events" ;; runtimeEvent e) d)); [done|]. unfold clearReport. auto with accounts.
  - unfold stream_ended. destruct err; [auto with accounts|reflexivity].
  - unfold read_line. auto with accounts.
  - unfold reader_ended. assert (Hb : books d (in_sup (modify (set_tasks (b ++ a))) d)) by auto with accounts.
    destruct err as [e|]; [destruct (errors_is e ErrCanceled)|]; [exact Hb| |exact Hb]. etransitivity; [exact Hb|]. auto with accounts.
  - unfold wait_begins. cbv zeta. destruct (negb _).
    + etransitivity; [|apply books_sup; unfold await_done; believe]. auto with accounts.
    + eapply (books_host _ (in_sup (modify (set_tasks (b ++ a))) d)); [done|]. auto with accounts.
  - eapply (books_host _ (in_sup (stopOverrun (w_Service w) (w_Run w) (w_ID w) limit) d)); [done|]. auto with accounts.
  - eapply (books_host _ (in_sup (wait_ended w) d)); [done|]. auto with accounts.
  - unfold measured. assert (Hst : books d (in_sup Status_ d)) by auto with accounts.
    unfold in_sup, in_host in Hst. destruct (on_sup Status_ (lf_host d)) as [l h]. destruct (run_tick _ _ _ _ _ _) as [[go said] [smp m]].
    etransitivity; [exact Hst|]. set (d1 := MkLife _ _ _ _ _ _).
    transitivity d1; [by apply books_same|]. destruct said; [|reflexivity]. unfold sampler_problem. auto with accounts.
  - unfold wrote. red. cbn. apply (moves_bind _ _ _ accounted_settle (fun _ => accounted_set_db _)).
  - apply acc_handle_go.
  - auto with accounts.
  - by apply books_same.
  - unfold done. auto with accounts.
Qed.

End Lives.

(** ** What two goroutines leave undone *)
Section Undone.
Context {W : Type} `{Runtime W} `{LogStore} `{MapOrder Service}.

(** awaitRun is its two parts, where nothing comes between them. *)
Lemma awaitRun_parts name run id started fires (s : Sup W) : client s = true ->
  awaitRun name run id started s = (await_arm name run id started ;; wait_ended (MkWaiting name run id started fires)) s.
Proof. intros Hc. unfold awaitRun. rewrite ST_step. cbn [gets fst snd]. rewrite Hc. by cbn [negb]. Qed.

(** A reader whose stream ended is not replaced while its container lives.  The
    runtime ends a stream when the container stops; one that a restart policy
    brings back before the next round still has its id among those followed, and
    no round starts a reader of it again. *)
Lemma ended_reader_is_not_replaced l (s : Sup W) :
  (forall h, h ∈ l -> Docker.c_Running (h_Container h) = true -> Docker.c_ID (h_Container h) ∈ following s) ->
  tasks (Supervisor.follow l s).2 = tasks s.
Proof.
  intros Hf. unfold Supervisor.follow. rewrite ST_step. cbn [modify snd].
  enough (Hl : for_each l follow_one s = (tt, s)) by by rewrite Hl.
  revert Hf. induction l as [|h l IH]; intros Hf; [done|]. cbn [for_each].
  assert (Hh : follow_one h s = (tt, s)).
  { unfold follow_one. destruct (Docker.c_Running (h_Container h)) eqn:Er; [|done]. cbn [negb]. rewrite ST_step. cbn [gets fst snd].
    rewrite bool_decide_true; [done|]. apply Hf; [by left|done]. }
  rewrite (ST_step_eq _ _ _ _ _ Hh). apply IH. intros k Hk. apply Hf. by right.
Qed.

(** *** A round in the middle of which a service is taken off

    The round holds the mutex of the convergence and Remove does not take it, so
    Remove may come anywhere in the round.  [round_begins] is the round until it
    has its copy of the declarations. *)
Definition round_begins : ST (Sup W) (option (gmap string held * list (string * Service))) :=
  c ← gets client;
  if negb c then mret None else
  r ← containers;
  match r with
  | Err e => reportOnce "runtime" ("cannot ask the container runtime what it is running: %v", [AMsg (error_msg e)]) ;; mret None
  | Ok running =>
      Supervisor.follow running ;;
      adoptRuns running ;;
      m ← declarations;
      mret (Some (present_of running, range m))
  end.
Definition round_goes_on (begun : option (gmap string held * list (string * Service))) : ST (Sup W) unit :=
  match begun with None => mret tt | Some (present, copied) => for_each copied (observe_one present) end.

(** Where nothing comes between them the two are the round. *)
Lemma round_parts (s : Sup W) : observe s = (begun ← round_begins; round_goes_on begun) s.
Proof.
  unfold observe, round_begins. rewrite !ST_step. cbn [gets fst snd]. destruct (client s); [|done]. cbn [negb].
  rewrite !ST_step. destruct (containers s) as [[running|e] s1]; cbn [fst snd]; rewrite !ST_step; cbn [fst snd].
  - done.
  - by destruct (reportOnce _ _ _) as [[] s2].
Qed.
End Undone.

(** ** Lives, for the examples *)
Section Witness.
Import HostSamples.
#[local] Instance stops : FiloType Request := any_type (asking_for OpServiceStop "web" 0).
Definition newborn (h : Host Trace (AuditLog.Store * Disk)) : Life Trace (AuditLog.Store * Disk) :=
  MkLife h (MkTicks 0 0 ∅) noon [] NewSampler false.
Definition around_here : Around := MkAround (LogDatabase.MkFaults false false) 4096 None (MkFaults None false false false) [].
(** A round that finds the service running, and an operator who stops it. *)
Definition one_turn := turn 3 (newborn machine).
Definition then_asked := served around_here "root" (String newline "") one_turn.
Lemma lived : rtc step (newborn machine) then_asked.
Proof. eapply rtc_l; [by apply Turns|]. apply rtc_once. apply Serves. Qed.

(** A redeploy that fails has changed the machine at the generation it had: the
    declaration was replaced and the container that ran taken away before the
    new one could not be made.  Who claims the generation read before it is not
    told that anything happened since. *)
Definition refusing_create : Oracle :=
  MkOracle (o_List (calm running_web)) (o_Inspect (calm running_web)) (fun _ _ => Err (EMsg ("no space left on device", [])))
    (o_Start (calm running_web)) (o_Stop (calm running_web)) (o_Remove (calm running_web)) (o_UpdateRestart (calm running_web))
    (o_Wait (calm running_web)) (o_EnsureNetwork (calm running_web)) (o_EnsureVolume (calm running_web)) (o_Image (calm running_web))
    (o_Images (calm running_web)) (o_Tag (calm running_web)) (o_RemoveImage (calm running_web)) (o_Server (calm running_web))
    (o_Pull (calm running_web)) (o_VolumeMountpoint (calm running_web)) (o_Load (calm running_web)) (o_Archive (calm running_web)).
Lemma failed_redeploy_keeps_the_generation :
  let m := dispatch (H := trace_runtime refusing_create) (LogDatabase.MkFaults false false)
             (asking_for OpServiceRedeploy "web" 5) "root" machine_with_data in
  Code m.1 = CodeFailed /\ au_Generation (store m.2) = au_Generation (store machine_with_data) /\
  declared (sup m.2) !! "web" <> declared (sup machine_with_data) !! "web" /\ CRemove "hostd-web" ∈ world (sup m.2).
Proof. split_and!; [by vm_compute|by vm_compute|by vm_compute|]. vm_compute. repeat constructor. Qed.

(** A service that is taken off in the middle of a round comes back: the round
    found no container of it and copied its declaration; Remove forgets the
    declaration and removes what there is; the round goes on with its copy, and
    what it creates and starts is a container no declaration speaks of, which no
    later round takes away. *)
Lemma removed_in_a_round_comes_back :
  let s := quiet [web] noon in
  let begun := round_begins (H := trace_runtime (calm [])) s in
  let removed := Remove (H := trace_runtime (calm [])) "web" begun.2 in
  let after := round_goes_on (H := trace_runtime (calm [])) begun.1 removed.2 in
  removed.1 = Ok true /\ declared after.2 = ∅ /\ CStart "hostd-web" ∈ drop (length (world removed.2)) (world after.2) /\
  world (observe (H := trace_runtime (calm running_web)) (set_world [] after.2)).2 = [CList labelService].
Proof. split_and!; [by vm_compute|by vm_compute| |by vm_compute]. vm_compute. repeat constructor. Qed.
End Witness.

(** ** A drift round over any runtime, and over the HTTP client *)
(** C5: Over any implementation of the runtime, and whatever it answers, a drift
    round stops or removes nothing but the container of a service that has
    become a job, the ended container of a run, the leftover name of a declared
    and wanted service that the listing does not hold, and a container it has
    itself just created and could not start; it creates only what is declared,
    wanted and missing, and it rewrites restart policies only of declared
    services.  The implementation is taken where these calls take it and nowhere
    else. *)
Theorem drift_round_safe {W} `{Runtime W} `{LogStore} `{MapOrder Service} (s : Sup W) l :
  client s = true -> (rt_List labelService (world s)).1 = Ok l ->
  exists calls, extends (drift_call (declared s) l) [] calls /\
    world (observe s).2 = foldl (fun w c => perform c w) (world s) calls.
Proof.
  intros Hc Hl. pose proof (sim_observe (world s) (untraced s)) as E.
  assert (Hs : concrete (world s) (untraced s) = s) by (by destruct s). rewrite Hs in E.
  exists (world (@observe _ (trace_runtime (oracle_of (world s))) _ _ (untraced s)).2). split; [|by rewrite E].
  by apply (drift_round_calls (oracle_of (world s)) (untraced s) l).
Qed.

(** A daemon that runs nothing and agrees to everything. *)
Definition agreeable : Server_ := fun _ rq =>
  Ok (MkHttpResponse 200 "200 OK" (if Contains (rq_URL rq) "/containers/json" then "[]" else print (JObj [("Id", JStr "c1")])) None).
#[local] Instance no_tar : TarReader := {| tar_entries _ _ := ([], EMsg ("EOF", [])) |}.
#[local] Instance no_lines : LogStore := Samples.no_log.

Definition web_over_http : Sup Wire :=
  MkSup [] true "/srv" {["web" := Samples.web]} ∅ ∅ ∅ ∅ [] [] false false Samples.noon ∅ ∅.

Lemma drift_round_safe_witness :
  let after := (@observe Wire (docker_runtime (H := wire agreeable) (fun _ => zero_time)) _ _ web_over_http).2 in
  (rq_Method <$> world after) = ["GET"; "GET"; "GET"; "DELETE"; "POST"; "POST"] /\
  exists calls, extends (drift_call {["web" := Samples.web]} []) [] calls /\
    world after = foldl (fun w c => @perform Wire (docker_runtime (H := wire agreeable) (fun _ => zero_time)) c w) [] calls.
Proof.
  intros after. split; [vm_compute; reflexivity|].
  apply (drift_round_safe (H := docker_runtime (H := wire agreeable) (fun _ => zero_time)) web_over_http []);
    [reflexivity|vm_compute; reflexivity].
Defined.

(** ** Diagnostics *)
Definition ticks_after (ds : list Z) : Ticks := foldl (fun t d => Supervisor.sample d t) (MkTicks 0 0 ∅) ds.
Definition ring_size : nat := Z.to_nat tickSamples.

(** The ring holds the last durations, turned: what was written first is where
    the next will be. *)
Record ring_ok (ds : list Z) (t : Ticks) : Prop := {
  ring_ticks : ticks t = Z.of_nat (length ds);
  ring_sampled : sampled t = Z.of_nat (length ds `min` ring_size);
  ring_young : (length ds <= ring_size)%nat -> samples_of t = ds;
  ring_turned : (ring_size <= length ds)%nat -> let k := (length ds `mod` ring_size)%nat in
    last_n ring_size ds = drop k (samples_of t) ++ take k (samples_of t);
}.

Lemma length_samples t : length (samples_of t) = Z.to_nat (sampled t).
Proof. unfold samples_of. by rewrite length_fmap, length_seqZ. Qed.

Lemma samples_grow t d : 0 <= sampled t -> ticks t `mod` tickSamples = sampled t ->
  samples_of (MkTicks (ticks t + 1) (sampled t + 1) (<[ticks t `mod` tickSamples := d]> (tickRing t))) = samples_of t ++ [d].
Proof.
  intros H0 Hk. unfold samples_of. cbn [sampled tickRing]. rewrite seqZ_app, fmap_app by lia. f_equal.
  - apply list_fmap_ext. intros i x Hx. apply lookup_seqZ in Hx as [-> Hi]. rewrite lookup_insert_ne; [done|lia].
  - rewrite seqZ_cons, (seqZ_nil _ (Z.pred 1)), Z.add_0_l, Hk by lia. cbn [fmap list_fmap]. by rewrite lookup_insert_eq.
Qed.

Lemma samples_turn t d : 0 <= ticks t `mod` tickSamples < sampled t ->
  samples_of (MkTicks (ticks t + 1) (sampled t) (<[ticks t `mod` tickSamples := d]> (tickRing t))) =
  <[Z.to_nat (ticks t `mod` tickSamples) := d]> (samples_of t).
Proof.
  intros Hk. unfold samples_of. cbn [sampled tickRing]. apply list_eq. intros i. rewrite list_lookup_fmap.
  destruct (decide (i = Z.to_nat (ticks t `mod` tickSamples))) as [->|Hne].
  - rewrite list_lookup_insert_eq by (rewrite length_fmap, length_seqZ; lia). rewrite (lookup_seqZ_lt 0) by lia. cbn.
    rewrite Z2Nat.id, Z.add_0_l by lia. by rewrite lookup_insert_eq.
  - rewrite list_lookup_insert_ne, list_lookup_fmap by done.
    destruct (seqZ 0 (sampled t) !! i) as [x|] eqn:Hx; [|done]. apply lookup_seqZ in Hx as [-> Hi]. cbn. rewrite lookup_insert_ne; [done|lia].
Qed.

Lemma last_n_slide n (ds : list Z) d : (0 < n)%nat -> (n <= length ds)%nat -> last_n n (ds ++ [d]) = tail (last_n n ds) ++ [d].
Proof.
  intros Hn Hl. unfold last_n. rewrite length_app. cbn [length]. replace (length ds + 1 - n)%nat with (S (length ds - n)) by lia.
  rewrite drop_app_le by lia. f_equal. destruct (drop (length ds - n) ds) as [|x l] eqn:E.
  - apply (f_equal length) in E. rewrite length_drop in E. cbn in E. lia.
  - replace (S (length ds - n)) with (length ds - n + 1)%nat by lia. by rewrite <- drop_drop, E.
Qed.

(** One more turn of a full ring. *)
Lemma turned_once (L : list Z) k d : (k < length L)%nat -> length L = ring_size ->
  let k' := (S k `mod` ring_size)%nat in
  tail (drop k L ++ take k L) ++ [d] = drop k' (<[k := d]> L) ++ take k' (<[k := d]> L).
Proof.
  intros Hk HL. cbv zeta. assert (E : <[k := d]> L = take k L ++ d :: drop (S k) L) by by rewrite insert_take_drop.
  assert (Ht : length (take k L) = k) by (rewrite length_take; lia).
  rewrite (drop_S L (default 0 (L !! k)) k) by (destruct (lookup_lt_is_Some_2 L k Hk) as [x ->]; done). cbn [app tail]. rewrite <- app_assoc.
  destruct (decide (S k = ring_size)) as [Hs|Hs].
  - rewrite Hs, Nat.Div0.mod_same, drop_0, app_nil_r, E. rewrite !(drop_ge L) by lia. done.
  - rewrite Nat.mod_small by lia. rewrite E. rewrite drop_app_ge, take_app_ge by lia. rewrite Ht, Nat.sub_succ_l, Nat.sub_diag by lia. cbn. done.
Qed.

Lemma ring_step ds t d : Z.of_nat (length ds) + 1 < 2 ^ 64 -> ring_ok ds t -> ring_ok (ds ++ [d]) (Supervisor.sample d t).
Proof.
  intros Hb [Ht Hs Hy Hr]. unfold Supervisor.sample. rewrite Z.mod_small by lia.
  assert (Hsz : Z.of_nat ring_size = tickSamples) by done. assert (Hpos : (0 < ring_size)%nat) by (unfold ring_size, tickSamples; lia).
  destruct (Z.ltb_spec (sampled t) tickSamples) as [Hlt|Hge].
  - assert (Hn : (length ds < ring_size)%nat) by lia.
    assert (E : samples_of (MkTicks (ticks t + 1) (sampled t + 1) (<[ticks t `mod` tickSamples := d]> (tickRing t))) = ds ++ [d]).
    { rewrite samples_grow; [by rewrite Hy by lia|lia|rewrite Z.mod_small; lia]. }
    split; cbn [ticks sampled]; rewrite ?length_app; cbn [length]; [lia|lia|done|].
    intros Hf. cbv zeta. rewrite E. replace (length ds + 1)%nat with ring_size by lia.
    rewrite Nat.Div0.mod_same, drop_0. cbn. rewrite app_nil_r. apply last_n_all. rewrite length_app. cbn. lia.
  - assert (Hn : (ring_size <= length ds)%nat) by lia. set (k := (length ds `mod` ring_size)%nat).
    assert (Hk : ticks t `mod` tickSamples = Z.of_nat k) by (rewrite Ht, <- Hsz; unfold k; by rewrite Nat2Z.inj_mod).
    assert (Hkl : (k < ring_size)%nat) by (apply Nat.mod_upper_bound; lia).
    assert (E : samples_of (MkTicks (ticks t + 1) (sampled t) (<[ticks t `mod` tickSamples := d]> (tickRing t))) = <[k := d]> (samples_of t)).
    { rewrite samples_turn by lia. by rewrite Hk, Nat2Z.id. }
    assert (HL : length (samples_of t) = ring_size) by (rewrite length_samples; lia).
    split; cbn [ticks sampled]; rewrite ?length_app; cbn [length]; [lia|lia| |].
    + intros Hle. exfalso. lia.
    + intros _. cbv zeta. rewrite E, last_n_slide by lia. rewrite (Hr Hn).
      replace ((length ds + 1) `mod` ring_size)%nat with (S k `mod` ring_size)%nat.
      * apply turned_once; lia.
      * unfold k. rewrite Nat.add_1_r, <- (Nat.add_1_l (_ mod _)), Nat.Div0.add_mod_idemp_r. done.
Qed.

Lemma ring_after ds : Z.of_nat (length ds) < 2 ^ 64 -> ring_ok ds (ticks_after ds).
Proof.
  induction ds as [|d ds IH] using rev_ind; intros Hb; [by split|]. rewrite length_app in Hb. cbn in Hb. unfold ticks_after. rewrite foldl_app. cbn [foldl].
  apply ring_step; [lia|]. apply IH. lia.
Qed.

Lemma ring_window ds : Z.of_nat (length ds) < 2 ^ 64 -> samples_of (ticks_after ds) ≡ₚ last_n ring_size ds.
Proof.
  intros Hb. destruct (ring_after ds Hb) as [_ _ Hy Hr]. destruct (decide (length ds <= ring_size)%nat) as [Hle|Hgt].
  - rewrite Hy, last_n_all by done. done.
  - rewrite Hr by lia. rewrite Permutation_app_comm. by rewrite take_drop.
Qed.

(** The place of a percentile among [n] durations. *)
Definition rank (n : Z) (p : float64) : Z := f64_to_int64 (f64_mul (f64_of_Z (n - 1)) p).
Lemma ranks n : 1 <= n <= 256 -> 0 <= rank n p50 <= rank n p95 /\ rank n p95 <= rank n p100 /\ rank n p100 = n - 1.
Proof.
  intros Hn. assert (Hall : forallb (fun n => (0 <=? rank n p50) && (rank n p50 <=? rank n p95) && (rank n p95 <=? rank n p100) && (rank n p100 =? n - 1)) (seqZ 1 256) = true)
    by (vm_compute; reflexivity).
  rewrite forallb_forall in Hall. specialize (Hall n). rewrite In_elem_of, elem_of_seqZ in Hall. specialize (Hall ltac:(lia)).
  bool_hyps. lia.
Qed.

Lemma percentile_rank (l : list Z) p i x : rank (Z.of_nat (length l)) p = i -> l !! Z.to_nat i = Some x -> percentile l p = x.
Proof. intros <- Hx. unfold percentile. destruct l as [|y l]; [done|]. fold (rank (Z.of_nat (length (y :: l))) p). by rewrite Hx. Qed.

Lemma sorted_below (l : list Z) i j x y : Sorted Z.le l -> l !! i = Some x -> l !! j = Some y -> (i <= j)%nat -> x <= y.
Proof.
  intros Hs Hx Hy Hij. apply Sorted_StronglySorted in Hs; [|intros ???; lia]. destruct (decide (i = j)) as [->|]; [assert (x = y) by congruence; lia|].
  rewrite <- (take_drop (S i) l) in Hs. eapply StronglySorted_app_1_elem_of; [exact Hs|..].
  - apply (list_elem_of_lookup_2 _ i). by rewrite lookup_take_lt by lia.
  - apply (list_elem_of_lookup_2 _ (j - S i)). rewrite lookup_drop. by replace (S i + (j - S i))%nat with j by lia.
Qed.

(** What -debug reports of the rounds is of the last 256 of them.  After any
    number of rounds the three durations are durations of those, as if they had
    been taken of a list of them and not of a ring; the median is not above the
    95th percentile, nor that above the longest, and none took longer than the
    longest. *)
Theorem percentiles_of_the_last_rounds ds services running : ds <> [] -> Z.of_nat (length ds) < 2 ^ 64 ->
  let st := tick_stats services running (ticks_after ds) in
  let window := last_n ring_size ds in
  ss_Ticks st = Z.of_nat (length ds) /\
  TickP50 st = percentile (merge_sort Z.le window) p50 /\ TickP95 st = percentile (merge_sort Z.le window) p95 /\
  TickP50 st ∈ window /\ TickP95 st ∈ window /\ TickMax st ∈ window /\
  TickP50 st <= TickP95 st <= TickMax st /\ (forall d, d ∈ window -> d <= TickMax st).
Proof.
  intros Hne Hb. cbv zeta. pose proof (ring_window ds Hb) as Hp. set (window := last_n ring_size ds) in *.
  assert (Hm : merge_sort Z.le (samples_of (ticks_after ds)) = merge_sort Z.le window).
  { apply (Sorted_unique Z.le); [apply (Sorted_merge_sort _)|apply (Sorted_merge_sort _)|]. by rewrite !merge_sort_Permutation. }
  unfold tick_stats. cbn [ss_Ticks TickP50 TickP95 TickMax]. rewrite Hm. set (l := merge_sort Z.le window).
  assert (Hl : l ≡ₚ window) by apply merge_sort_Permutation. assert (Hs : Sorted Z.le l) by apply (Sorted_merge_sort _).
  assert (Hlen : (1 <= length l <= ring_size)%nat).
  { rewrite Hl. unfold window. rewrite length_last_n. destruct ds; [done|]. cbn. unfold ring_size, tickSamples. lia. }
  destruct (ranks (Z.of_nat (length l))) as ([H0 H1] & H2 & H3); [unfold ring_size, tickSamples in Hlen; lia|].
  assert (Hat : forall p, 0 <= rank (Z.of_nat (length l)) p < Z.of_nat (length l) ->
    exists x, l !! Z.to_nat (rank (Z.of_nat (length l)) p) = Some x /\ percentile l p = x).
  { intros p Hr. destruct (lookup_lt_is_Some_2 l (Z.to_nat (rank (Z.of_nat (length l)) p))) as [x Hx]; [lia|]. exists x. split; [done|]. by eapply percentile_rank. }
  destruct (Hat p50) as (a & Ha & ->); [lia|]. destruct (Hat p95) as (b & Hb' & ->); [lia|]. destruct (Hat p100) as (c & Hc & ->); [lia|].
  split; [apply (ring_after ds Hb)|]. split; [done|]. split; [done|].
  rewrite <- !Hl. split_and!; try (by eapply list_elem_of_lookup_2).
  - eapply (sorted_below l); [done|exact Ha|exact Hb'|lia].
  - eapply (sorted_below l); [done|exact Hb'|exact Hc|lia].
  - intros d Hd. rewrite <- Hl in Hd. apply list_elem_of_lookup in Hd as [i Hi]. pose proof (lookup_lt_Some _ _ _ Hi).
    eapply (sorted_below l); [done|exact Hi|exact Hc|lia].
Qed.

Lemma percentiles_of_the_last_rounds_witness :
  let ds := [7; 3; 9; 1] in let st := tick_stats 1 1 (ticks_after ds) in
  (TickP50 st, TickP95 st, TickMax st) = (3, 7, 9) /\
  (ss_Ticks st = 4 /\ TickP50 st = percentile (merge_sort Z.le (last_n ring_size ds)) p50 /\ TickP95 st = percentile (merge_sort Z.le (last_n ring_size ds)) p95 /\
   TickP50 st ∈ last_n ring_size ds /\ TickP95 st ∈ last_n ring_size ds /\ TickMax st ∈ last_n ring_size ds /\
   TickP50 st <= TickP95 st <= TickMax st /\ (forall d, d ∈ last_n ring_size ds -> d <= TickMax st)).
Proof. cbv zeta. split; [by vm_compute|]. refine (percentiles_of_the_last_rounds [7; 3; 9; 1] 1 1 _ _); [discriminate|cbn; lia]. Defined.
