(* ===== verification/Ledger.v ===== *)
(** * Ledger: a life of the daemon is a ledger that only grows

    What src/state/state.go promises whoever reads the audit, stated as an
    abstract machine of its own — a list of entries, each continuing the one
    before — and the refinement: every life of the daemon (Daemon.v), over the
    store and the files of AuditLog.v, is a run of it, and so is what a restart
    finds. *)
From S2P Require Import Prelude GoText GoTime Service Filo Tree DeclarationFiles AuditLog AuditProofs Runtime TraceRuntime Supervisor Plan LogDatabase Volumes MetricStore Protocol Host FileHandlers Server HostSamples Daemon DaemonProofs.
From Stdlib Require Import Ascii SpecFloat.
Open Scope string_scope.
Open Scope list_scope.
Open Scope Z_scope.
Open Scope hostd_scope.

(** ** The ledger *)
Definition ledger_generation (l : list Entry) : Z := default FirstGeneration (After <$> last l).
Definition ledger_seq (l : list Entry) : Z := default 0 (Seq <$> last l).

(** An entry continues the ledger: it starts at the generation the last one
    ended at, takes the next number, names somebody, and moves the generation by
    one step at most, and only where it went well. *)
Definition continues (l : list Entry) (e : Entry) : Prop :=
  Before e = ledger_generation l /\ Seq e = uint64_succ (ledger_seq l) /\ Actor e <> "" /\
  (After e = Before e \/ After e = uint64_succ (Before e) /\ Result e = ResultOK).

Inductive ledger_step : list Entry -> list Entry -> Prop :=
  | Writes l e : continues l e -> ledger_step l (l ++ [e]).

(** ** What implements it *)
Definition in_memory (l : list Entry) (s : AuditLog.Store) : Prop :=
  generation s = ledger_generation l /\ AuditLog.seq s = ledger_seq l /\ recent s = last_n maxAuditMemory l.

Section Implements.
Context `{FiloEngine} `{!FiloType Entry} `{!FiloType snapshot}.

(** What the files hold, where filo writes these entries and this snapshot as it
    documents. *)
Definition written_whole (l : list Entry) : Prop := Forall (fun e => exists line, entry_line e line) l.
Definition on_files (l : list Entry) (d : Disk) : Prop :=
  (written_whole l -> disk_history d l) /\
  (snapshot_kept (ledger_generation l) (ledger_seq l) -> readSnapshot d = Ok (ledger_generation l, ledger_seq l)).
Definition implements (l : list Entry) (w : AuditLog.Store * Disk) : Prop := in_memory l w.1 /\ on_files l w.2.

Lemma nothing_yet : implements [] (AuditLog.MkStore FirstGeneration 0 [], empty_disk).
Proof.
  split; [done|]. split; [|done]. intros _. exists [], [], [], [], []. split_and!; done || constructor.
Qed.

(** One Record is one entry. *)
Lemma record_writes now e changed l w : implements l w ->
  exists e', ledger_step l (l ++ [e']) /\ implements (l ++ [e']) (Record_entry now false false e changed w).2 /\
    Operation e' = Operation e /\ Target e' = Target e /\ Result e' = Result e.
Proof.
  destruct w as [s d]. intros [(Hg & Hq & Hw) [Hh Hs]]. cbn [fst snd] in *.
  unfold Record_entry. cbn [fst snd]. destruct (record_mem now e changed s) as [[e' gen] s'] eqn:E.
  assert (Hrec : recent s' = last_n maxAuditMemory (l ++ [e'])) by (by eapply record_mem_window).
  assert (Hlast : last (l ++ [e']) = Some e') by apply last_snoc.
  unfold record_mem in E. injection E as <- <- <-. match type of Hlast with _ = Some ?x => exists x end.
  split_and!; [apply Writes| |done..].
  - unfold continues. cbn [Before Seq Actor After Result]. rewrite <- Hg, <- Hq. split_and!; try done.
    + by destruct (String.eqb_spec (Actor e) "").
    + destruct (String.eqb_spec (Result e) ResultOK), changed; cbn; tauto.
  - split; [split_and!; [| |exact Hrec]|split].
    + unfold ledger_generation. by rewrite Hlast.
    + unfold ledger_seq. by rewrite Hlast.
    + intros [Hl [[line Hline] _]%Forall_cons]%Forall_app. apply save_history. eapply append_history; [by apply Hh|exact Hline].
    + intros Hk. cbn [fst snd]. rewrite saveSnapshot_read; unfold ledger_generation, ledger_seq in *; rewrite Hlast in *; done.
Qed.

(** What a restart finds of a ledger: its generation and its number, and the
    newest entries of what the files still hold — the whole memory, where no
    file was ever rotated away. *)
Lemma restart_finds l w : implements l w -> written_whole l -> snapshot_kept (ledger_generation l) (ledger_seq l) ->
  exists k, AuditLog.Open w.2 = Ok (AuditLog.MkStore (ledger_generation l) (ledger_seq l) (last_n maxAuditMemory (drop k l))) /\
    (prev_file w.2 = None -> AuditLog.Open w.2 = Ok w.1).
Proof.
  destruct w as [s d]. intros [(Hg & Hq & Hw) [Hh Hs]] Hl Hk. cbn [fst snd] in *.
  destruct (loadAudit_history d l (Hh Hl)) as (k & Ek & Hnone). exists k. unfold AuditLog.Open. rewrite (Hs Hk). cbn. rewrite Ek.
  split; [done|]. intros Hp. rewrite (Hnone Hp), drop_0, <- Hg, <- Hq, <- Hw. by destruct s.
Qed.
End Implements.

(** ** A life *)
Section Lives.
Context {W : Type} `{Runtime W} `{LogStore} `{MapOrder Service} `{Render}.
Context `{FiloEngine} `{!FiloType Service} `{!FiloType WireDeclaration} `{!FiloType Request} `{Sha256}.
Context `{TextSearch} `{Sql} `{Platform} `{!FiloType Entry} `{!FiloType snapshot}.
#[local] Instance whole_store : Auditor (AuditLog.Store * Disk) := audit_store false false.
Implicit Types d : Life W (AuditLog.Store * Disk).

Lemma handed_writes l hs w : implements l w -> exists l', rtc ledger_step l l' /\ implements l' (handed_over hs w).
Proof.
  revert l w. induction hs as [|[[now e] changed] hs IH]; intros l w Hi; [by exists l|].
  destruct (record_writes now e changed l w Hi) as (e' & Hs & Hi' & _).
  destruct (IH _ _ Hi') as (l' & Hr & Hl). exists l'. split; [by eapply rtc_l|exact Hl].
Qed.

Lemma step_writes l d d' : step d d' -> implements l (store (lf_host d)) ->
  exists l', rtc ledger_step l l' /\ implements l' (store (lf_host d')).
Proof. intros Hs Hi. destruct (step_books d d' Hs) as (hs & E & _). rewrite E. by apply handed_writes. Qed.

End Lives.

(** A stop handed in by the operator, and the ledger of it. *)
Section Witness.
Import HostSamples.
#[local] Instance stops : FiloType Request := any_type (asking_for OpServiceStop "web" 0).
#[local] Instance whole : Auditor (AuditLog.Store * Disk) := audit_store false false.
Definition fresh_machine : Host Trace (AuditLog.Store * Disk) :=
  MkHost (sup machine) (AuditLog.MkStore FirstGeneration 0 [], empty_disk) (dir machine) (db machine) 0 (metrics machine) true ∅.
Definition after_a_stop := served around_here "root" (String newline "") (turn 3 (newborn fresh_machine)).
Example one_entry : (fun e => (Seq e, Operation e, Before e, After e)) <$> au_Recent 0 (store (lf_host after_a_stop)) = [(1, OpServiceStop, 1, 2)].
Proof. by vm_compute. Qed.
End Witness.
